(* ===== verification/_CoqProject ===== *)
-Q . S2P
Prelude.v
Constants.v
Buddy.v
BuddyLayout.v
BuddyInv.v
BuddyProofs.v
BuddyTheorems.v
Libc.v
LibcProofs.v
PrintProofs.v
Screen.v
ScreenProofs.v
Tables.v
TablesProofs.v
Page.v
PageInv.v
PageSpec.v
PageTheorems.v
Filesystem.v
FilesystemProofs.v
Kernel.v
Process.v
Pipe.v
Filedesc.v
Lifecycle.v
Syscall.v
Main.v
ProcessInv.v
ProcessTheorems.v
UserMemory.v
Allocator.v
KernelMem.v
PipeProofs.v
PipeTheorems.v
MessageProofs.v
Fstool.v
FstoolProofs.v
LifecycleProofs.v
ForkProofs.v
LifecycleTheorems.v
HandleProofs.v
DescProofs.v
KillProofs.v
DescTheorems.v
FileProofs.v
FileTheorems.v
WaitProofs.v
WaitTheorems.v
ExecProofs.v
LoadProofs.v
ExecTheorems.v
PipeCallProofs.v
PipeCallTheorems.v
TypeProofs.v
TypeTheorems.v
User.v
Shell.v
Mptest.v
UserLogic.v
UserWorld.v
UserProofs.v
MailRefinement.v
ShellProofs.v
Imgtool.v
ImgtoolProofs.v
TestBuddy.v
TestBuddyProofs.v
