(* ===== verification/Prelude.v ===== *)
(** * AdelaideOS: a verification development

    AdelaideOS is a small teaching operating system for 32-bit x86 (C, under
    source/; dist/ holds cut-down copies of the same files).  This library is
    a shallow embedding of the kernel in Rocq, with the theorems that make its
    parts correct.

    ** The program and its model

    The kernel is entered by interrupts (main.c, interrupts.c); a system call
    (syscall.c) works on the current process (process.c, unixproc.c), its
    descriptors and handles (filedesc.c, fscalls.c, pipe.c), the filesystem
    image (filesystem.c), the page tables (page.c) and the kernel heap
    (buddy.c); output ends on the text screen.  One record, [Kernel.kstate],
    holds the globals of all these files and the memory they point to, and
    each function of the source is a definition of the same name in the state
    and error monad [M] of this file:

    - [Ok a s]: the function returned [a] and left the state [s];
    - [Halt msg s]: assert or fatal stopped the machine;
    - [Fault msg s]: the C code has no defined behaviour (an access outside of
      an object or to memory nobody mapped, a field read before it was set), or
      it reaches the kernel's variables through a raw address, where the model
      has no bytes for them; nothing is said of what the machine does next;
    - [Spin]: a loop of the source ran past the bound the model gives it.

    [wp m Q s] says that [m] returns from [s], with [Q]; so every theorem
    stated with it shows that no assertion fails, no access is undefined and
    every loop ends.  [Allocator.wpx] allows for one more outcome, the kernel's
    assertion that its heap is exhausted.

    Which file models what:

    - Prelude: machine integers, the monad, its rules and tactics, loops,
      lists.  Constants: the macros of constants.h, kernel.h and user.h.
    - Buddy (buddy.c): the memory area with its blocks array and the free
      lists threaded through the heap.  BuddyLayout, BuddyInv, BuddyProofs,
      BuddyTheorems: invariant, specification of each routine, claims.
      TestBuddy (testbuddy.c) and TestBuddyProofs: the allocator's test program.
    - Libc (libc.c): strings, memory, numbers, vsnprintf.  LibcProofs,
      PrintProofs: reference definitions and claims.
    - Screen (main.c, interrupts.c) and ScreenProofs: video memory, scrolling,
      fatal.  Tables (segmentation.c, interrupts.c) and TablesProofs: the
      descriptor tables and how the processor reads them.
    - Page (page.c): frames, directories and tables in word-addressed physical
      memory, and the processor's translation.  PageInv, PageSpec,
      PageTheorems: the abstract address space and claims.
    - Filesystem (filesystem.c) and FilesystemProofs: paths and lookup in an
      image.  Fstool (fstool.c -build) and FstoolProofs: how images are made.
      Imgtool (the rest of fstool.c: -dump, -get, -shell and main) and
      ImgtoolProofs: how the tool shows them.
    - Kernel (kernel.h, globals; valid_pointer and valid_string of syscall.c):
      the state, heap objects, and memory access: [Phys] addresses with paging
      off, [User] addresses through the page tables of the current process,
      [Heap] addresses in kernel objects.
    - Process (kernel.h, process.c): process lists, suspend, resume.
      Pipe (pipe.c), Filedesc (filedesc.c, fscalls.c), Lifecycle (process.c,
      unixproc.c: start, kill, fork, execve, waitpid), Syscall (syscall.c and
      context_switch), Main (interrupt handlers and kernel_main).
    - ProcessInv, ProcessTheorems: the scheduler.  UserMemory, KernelMem:
      checked pointers and copies to and from user memory.  Allocator: the
      interface [Allocator] between the kernel heap and its clients, with the
      buddy allocator as its instance.  PipeProofs, PipeTheorems, MessageProofs:
      pipes and mailboxes as queues.  LifecycleProofs, ForkProofs,
      LifecycleTheorems: creation of processes.  HandleProofs, DescProofs,
      KillProofs, DescTheorems: the reference counts of handles as an invariant
      of the whole system ([system]), and close, dup2, fork and kill against it.
      FileProofs, FileTheorems: paths of a process against its current directory,
      open, reads from files and chdir.  WaitProofs, WaitTheorems: waitpid and
      brk, in the same invariant.  ExecProofs (the arguments of a program),
      LoadProofs (its pages, and what an address space looks like from inside),
      ExecTheorems: execve.  PipeCallProofs, PipeCallTheorems: the call pipe.
      TypeProofs, TypeTheorems: what every routine of the kernel keeps on every
      path, and what the running system can reach ([machine]).
    - User (libc.c, buddy.c, main.c, cat.c, ls.c, find.c), Shell (sh.c), Mptest
      (mptest.c): what runs in user mode, as interaction trees whose events
      ([User.sysE]) are the system calls, with malloc and free of the process's
      own heap.  UserLogic: total correctness of such programs against an
      environment, [uwp]; UserWorld: the environment [unix], what the calls do
      as a program sees it (reads of any length, forks that fail, a child for
      every fork that does not); UserProofs, ShellProofs: cat, find, the message
      tests and the shell.  MailRefinement: the kernel's send and receive refine
      those of [unix].

    ** What the theorems show

    - Heap: from initialisation on, and for every sequence of calls of a client
      that frees and writes only blocks it holds, blocks are disjoint, aligned,
      large enough and in range; a release merges buddies, so that after any
      run that gave back every block the heap is one block again; a request fails exactly when no
      free block is large enough.  mforsize never ends from 2 GB on.  The
      allocator's test program passes for every sequence of random numbers, and
      every line it prints shows its heap after that round.
    - Pages: a directory encodes a finite map from page numbers to entries;
      mapping, unmapping and lookup are the operations of that map, agree with
      the processor's translation and leave the frames of others alone; taking
      an address space down returns every frame.
    - Scheduler: the two lists are well-formed doubly linked lists that agree
      with the processes' flags; context switches rotate through the ready
      list, and timer interrupts give each process one slice per round.
    - User memory: valid_pointer and valid_string accept exactly what lies in
      one segment, overflow included.
    - Pipes and messages refine queues, against any allocator that keeps the
      interface, in every case of each call, blocking and errors included.
    - Processes: what start_process and fork make; that the copy is separate
      from the parent and nobody else changes.
    - Handles: every handle's count is the number of descriptors that refer to
      it; pipe, open, close, dup2, fork and kill keep it so.  What close does to
      handles, pipes and blocked readers is an exact relation ([closes]), and so
      is what kill_process does to them, to the mailbox and to a waiting parent
      ([kill_effect]); a killed process gives back its frames and no others.
    - Files: open resolves a path against the current directory, answers every
      error of the source and takes the lowest free descriptor; reads return the
      bytes at the handle's position and move it; chdir moves to directories
      only.  waitpid reaps children and nobody else; brk grows the data segment
      by fresh zero pages.
    - execve gives the old text and data back, loads the file into frames of its
      own and starts the program on a stack that holds its arguments; every error
      leaves the caller as it was.
    - The system as a whole: from power-on on, as long as the kernel makes no
      access the model gives no meaning to, the process table is well-typed, no
      saved context is privileged and no interrupt returns to ring 0.  A process
      can bring such an access about: see [TypeTheorems.machine] and
      [TypeTheorems.waitpid_wild].
    - User programs end against every behaviour of [unix]: cat copies a file for
      every way read may cut it, find prints the tree and leaves nothing open,
      the shell runs the lines of its input in order with the words of each
      line, the test of several messages passes.
    - Filesystem: lookup is a walk through a tree, relative_to_absolute is path
      resolution on lists of names, and the image fstool builds of a directory
      answers every path as the directory does; -dump lists that directory, and a
      session of -shell is a session on the directory tree itself.
    - Printing: vsnprintf agrees with a reference renderer and stays within its
      buffer; the screen is a window on an endless roll; the tables grant user
      mode the system call vector only.
    - Some theorems state defects of the source (a reader that is killed while it
      is blocked on a pipe, the unchecked pointer of waitpid, memmove on overlapping ranges,
      the order of strcmp on prefixes, a format that ends in a percent sign, the
      limit of the task state segment, requests from 2 GB on).

    ** Bounds and fuel

    Loops over a counter are structural.  The others carry fuel, and running
    out of it is [Spin]; theorems stated with [wp] show that the fuel is
    enough.  Doubling loops have 33 rounds: a 32-bit value that has been doubled
    32 times is 0 and the loop of the source never ends
    ([BuddyTheorems.mforsize_total]).  A walk along a free list has one round
    per element of the blocks array and one more, the merge loop one round per
    size.  Loops over pages have one round per page of the range.  A string in
    user memory has one round per byte of the segment it starts in, and one
    more.  A system call that blocked is run again from inside of the context
    switch that picks its process; it nests further only when it blocks again,
    so there is one level per process and one more.  process_dir of
    fstool, its dump_dir and find of find.c are given the depth of the tree, the
    shell of fstool the length of its input.  The loops of user
    programs have no bound: they are iterations of interaction trees, and [uwp]
    shows that they end.

    ** What is not modelled

    - start.s, calls.s, crtso.s: assembly.  What the kernel needs of them (the
      addresses of tables and handlers, CR2, scan codes, the boot loader's
      data) are arguments or fields of [env].
    - The memory of user programs: their strings and buffers are values, and
      malloc and free, the kernel-independent allocator on the data segment, are
      events.  The system calls of [UserWorld.unix] are stated, not derived from
      the kernel's definitions, but for send and receive, which the kernel's are
      shown to refine.
    - The host of fstool and testbuddy: its files, error texts and random numbers
      are parameters, its printf is the reference [PrintProofs.render], and the
      failures of its malloc, write and read are left out.
    - dist/, guide/ and the web pages: copies of the sources and documentation.
    - Interrupts do not nest: handlers run to their end, as the interrupt gates
      of the source ensure.  The order in which devices raise them is the
      argument of the theorems. *)

From stdpp Require Export base tactics list gmap strings numbers.
#[global] Open Scope Z_scope.

(** ** Machine integers

    A C [unsigned int] is a [Z] in [0, 2^32); the operations of the source
    that can leave the range are followed by [u32].  A C [int] is a [Z] in
    [-2^31, 2^31); [s32] is the two's-complement reading of a word. *)

Definition u32 (x : Z) : Z := x mod 2 ^ 32.
Definition s32 (x : Z) : Z := let y := x mod 2 ^ 32 in if y <? 2 ^ 31 then y else y - 2 ^ 32.
Definition u16 (x : Z) : Z := x mod 2 ^ 16.
Definition u8 (x : Z) : Z := x mod 2 ^ 8.

(** The reading of a byte as a (signed) x86 [char]. *)
Definition s8 (x : Z) : Z := let y := x mod 2 ^ 8 in if y <? 2 ^ 7 then y else y - 2 ^ 8.

(** [is_u32 x]: [x] is the value of some unsigned int. *)
Definition is_u32 (x : Z) : Prop := 0 <= x < 2 ^ 32.
Definition is_byte (x : Z) : Prop := 0 <= x < 2 ^ 8.

(** C truth value of an integer. *)
Definition truthy (x : Z) : bool := negb (x =? 0).

(** ** Outcomes and the state monad

    A kernel routine run from a state ends in one of four ways: it returns a
    value and a new state; an [assert] of the source fails and the machine
    stops in [__assert] ([Halt], with the asserted text and the state at that
    point); it performs an access that C gives no meaning to, such as a use of
    freed memory or an index outside of an array ([Fault]); or a loop of the
    source runs longer than the bound the model gives it ([Spin]). *)

Inductive outcome (S A : Type) : Type :=
  | Ok (a : A) (s : S)
  | Halt (msg : string) (s : S)
  | Fault (msg : string) (s : S)
  | Spin.
Arguments Ok {S A} _ _.
Arguments Halt {S A} _ _.
Arguments Fault {S A} _ _.
Arguments Spin {S A}.

Lemma Ok_inj {S A} (a a' : A) (s s' : S) : Ok a s = Ok a' s' -> a = a' /\ s = s'.
Proof. by inversion 1. Qed.

Definition M (S A : Type) : Type := S -> outcome S A.

Definition ret {S A} (a : A) : M S A := fun s => Ok a s.
Definition bind {S A B} (m : M S A) (k : A -> M S B) : M S B := fun s =>
  match m s with
  | Ok a s' => k a s'
  | Halt msg s' => Halt msg s'
  | Fault msg s' => Fault msg s'
  | Spin => Spin
  end.
Definition get {S} : M S S := fun s => Ok s s.
Definition gets {S A} (f : S -> A) : M S A := fun s => Ok (f s) s.
Definition put {S} (s : S) : M S unit := fun _ => Ok tt s.
Definition modify {S} (f : S -> S) : M S unit := fun s => Ok tt (f s).
Definition halt {S A} (msg : string) : M S A := fun s => Halt msg s.
Definition fault {S A} (msg : string) : M S A := fun s => Fault msg s.
Definition spin {S A} : M S A := fun _ => Spin.

(** [assert_ b msg]: the [assert] macro of user.h. *)
Definition assert_ {S} (b : bool) (msg : string) : M S unit :=
  if b then ret tt else halt msg.
(** [check_ b msg]: a condition the C language needs for the next access. *)
Definition check_ {S} (b : bool) (msg : string) : M S unit :=
  if b then ret tt else fault msg.
(** [of_opt o msg]: the value of a partial read. *)
Definition of_opt {S A} (o : option A) (msg : string) : M S A :=
  match o with Some a => ret a | None => fault msg end.
Definition when_ {S} (b : bool) (m : M S unit) : M S unit := if b then m else ret tt.

(** Run a routine of a component inside of a larger state. *)
Definition zoom {S T A} (proj : S -> T) (upd : T -> S -> S) (m : M T A) : M S A := fun s =>
  match m (proj s) with
  | Ok a t => Ok a (upd t s)
  | Halt msg t => Halt msg (upd t s)
  | Fault msg t => Fault msg (upd t s)
  | Spin => Spin
  end.

(** [for_ n f i]: [for (; n left; i++) f(i)], a counted loop. *)
Fixpoint for_ {S} (n : nat) (i : Z) (f : Z -> M S unit) : M S unit :=
  match n with
  | O => ret tt
  | Datatypes.S n' => bind (f i) (fun _ => for_ n' (i + 1) f)
  end.

Declare Scope kernel_scope.
Delimit Scope kernel_scope with kernel.
Notation "x <- m ; k" := (bind m (fun x => k))
  (at level 20, m at level 100, k at level 200, right associativity) : kernel_scope.
Notation "' p <- m ; k" := (bind m (fun x => match x with p => k end))
  (at level 20, p pattern, m at level 100, k at level 200, right associativity) : kernel_scope.
Notation "m ;; k" := (bind m (fun _ => k))
  (at level 100, k at level 200, right associativity) : kernel_scope.
#[global] Open Scope kernel_scope.

(** ** Total correctness

    [wp m Q s]: from [s] the routine [m] returns (no failed assertion, no
    undefined access, no loop past its bound) with a result and a state in
    [Q]. *)
Definition wp {S A} (m : M S A) (Q : A -> S -> Prop) (s : S) : Prop :=
  match m s with Ok a s' => Q a s' | _ => False end.

#[global] Arguments Z.eqb : simpl never.
#[global] Arguments Z.ltb : simpl never.
#[global] Arguments Z.leb : simpl never.
#[global] Arguments Z.pow : simpl never.
#[global] Arguments Z.modulo : simpl never.
#[global] Arguments Z.div : simpl never.
Arguments wp {S A} _ _ _ : simpl never.
Arguments bind {S A B} _ _ _ : simpl never.
Arguments ret {S A} _ _ : simpl never.
Arguments zoom {S T A} _ _ _ _ : simpl never.

(** The result and the final state of a run that returns. *)
Definition result {S A} (m : M S A) (s : S) : option A := match m s with Ok a _ => Some a | _ => None end.
Definition final {S A} (m : M S A) (s : S) : S := match m s with Ok _ s' => s' | _ => s end.
Lemma run_eq {S A} (m : M S A) s a : result m s = Some a -> m s = Ok a (final m s).
Proof. unfold result, final. destruct (m s); congruence. Qed.

Lemma wp_result {S A} (m : M S A) (Q : A -> S -> Prop) s a s' : wp m Q s -> m s = Ok a s' -> Q a s'.
Proof. unfold wp. intros H E. by rewrite E in H. Qed.
Lemma wp_exact {S A} (m : M S A) s a s' : wp m (fun r k => r = a /\ k = s') s -> m s = Ok a s'.
Proof. unfold wp. destruct (m s); [by intros [-> ->] | done..]. Qed.


Section wp.
  Context {S : Type}.
  Implicit Types (s : S).

Lemma wp_ok {A} (m : M S A) Q s : wp m Q s <-> exists a s', m s = Ok a s' /\ Q a s'.
Proof.
  unfold wp; split.
  - destruct (m s); naive_solver.
  - intros (a & s' & -> & H); done.
Qed.

Lemma wp_bind {A B} (m : M S A) (k : A -> M S B) Q s :
  wp m (fun a s' => wp (k a) Q s') s -> wp (bind m k) Q s.
Proof. unfold wp, bind. destruct (m s); done. Qed.

Lemma wp_bind_inv {A B} (m : M S A) (k : A -> M S B) Q s :
  wp (bind m k) Q s -> wp m (fun a s' => wp (k a) Q s') s.
Proof. unfold wp, bind. destruct (m s); done. Qed.

Lemma wp_bind_assoc {A B C} (m : M S A) (f : A -> M S B) (k : B -> M S C) Q s :
  wp (bind m f) (fun b s' => wp (k b) Q s') s -> wp (bind m (fun a => bind (f a) k)) Q s.
Proof. unfold wp, bind. destruct (m s); [|done..]. by destruct (f a s0). Qed.

Lemma wp_mono {A} (m : M S A) (P Q : A -> S -> Prop) s :
  wp m P s -> (forall a s', P a s' -> Q a s') -> wp m Q s.
Proof. unfold wp. destruct (m s); naive_solver. Qed.

Lemma wp_ret {A} (a : A) (Q : A -> S -> Prop) s : Q a s -> wp (ret a) Q s.
Proof. done. Qed.
Lemma wp_get (Q : S -> S -> Prop) s : Q s s -> wp get Q s.
Proof. done. Qed.
Lemma wp_gets {A} (f : S -> A) (Q : A -> S -> Prop) s : Q (f s) s -> wp (gets f) Q s.
Proof. done. Qed.
Lemma wp_put s' (Q : unit -> S -> Prop) s : Q tt s' -> wp (put s') Q s.
Proof. done. Qed.
Lemma wp_modify f (Q : unit -> S -> Prop) s : Q tt (f s) -> wp (modify f) Q s.
Proof. done. Qed.
Lemma wp_assert b msg (Q : unit -> S -> Prop) s : b = true -> Q tt s -> wp (assert_ b msg) Q s.
Proof. by intros ->. Qed.
Lemma wp_check b msg (Q : unit -> S -> Prop) s : b = true -> Q tt s -> wp (check_ b msg) Q s.
Proof. by intros ->. Qed.
Lemma wp_of_opt {A} o (a : A) msg (Q : A -> S -> Prop) s :
  o = Some a -> Q a s -> wp (of_opt o msg) Q s.
Proof. by intros ->. Qed.
Lemma wp_when b m (Q : unit -> S -> Prop) s :
  (b = true -> wp m Q s) -> (b = false -> Q tt s) -> wp (when_ b m) Q s.
Proof. destruct b; [intros H _; by apply H | intros _ H; by apply H]. Qed.

Lemma wp_if {A} (b : bool) (m1 m2 : M S A) Q s :
  (b = true -> wp m1 Q s) -> (b = false -> wp m2 Q s) -> wp (if b then m1 else m2) Q s.
Proof. destruct b; naive_solver. Qed.

Lemma wp_zoom {T A} (proj : S -> T) upd (m : M T A) (Q : A -> S -> Prop) s :
  wp m (fun a t => Q a (upd t s)) (proj s) -> wp (zoom proj upd m) Q s.
Proof. unfold wp, zoom. destruct (m (proj s)); done. Qed.

(** A counted loop keeps an invariant indexed by the counter. *)
Lemma wp_for (Inv : Z -> S -> Prop) n i (f : Z -> M S unit) (Q : unit -> S -> Prop) s :
  Inv i s ->
  (forall j s', i <= j < i + Z.of_nat n -> Inv j s' -> wp (f j) (fun _ s'' => Inv (j + 1) s'') s') ->
  (forall s', Inv (i + Z.of_nat n) s' -> Q tt s') ->
  wp (for_ n i f) Q s.
Proof.
  revert i s. induction n as [|n IH]; intros i s Hi Hf HQ; simpl.
  - apply wp_ret, HQ. by rewrite Z.add_0_r.
  - apply wp_bind. eapply wp_mono; [apply Hf; [lia | done]|].
    intros [] s' Hs'. simpl in Hs'. apply IH; [done | |].
    + intros j s'' Hj. apply Hf. lia.
    + intros s''. replace (i + 1 + Z.of_nat n) with (i + Z.of_nat (Datatypes.S n)) by lia.
      apply HQ.
Qed.

(** Two facts about the same run hold together. *)
Lemma wp_and {A} (m : M S A) (P Q : A -> S -> Prop) s :
  wp m P s -> wp m Q s -> wp m (fun a s' => P a s' /\ Q a s') s.
Proof. unfold wp. destruct (m s); done. Qed.
End wp.

(** One step of symbolic execution; it leaves the conditions of assertions,
    checks and partial reads as subgoals. *)
Ltac wp_step :=
  lazymatch goal with
  | |- wp (bind _ _) _ _ => apply wp_bind
  | |- wp (ret _) _ _ => apply wp_ret
  | |- wp get _ _ => apply wp_get
  | |- wp (gets _) _ _ => apply wp_gets
  | |- wp (put _) _ _ => apply wp_put
  | |- wp (modify _) _ _ => apply wp_modify
  | |- wp (assert_ _ _) _ _ => apply wp_assert
  | |- wp (check_ _ _) _ _ => apply wp_check
  | |- wp (of_opt _ _) _ _ => eapply wp_of_opt
  | |- wp (zoom _ _ _) _ _ => apply wp_zoom
  end.
Ltac wp_steps := repeat (wp_step; try done; simpl).

(** ** Automation shared by the files *)

(** Boolean tests of the source as propositions. *)
Ltac b2p :=
  repeat match goal with
  | H : (_ && _)%bool = true |- _ => apply andb_true_iff in H; destruct H
  | H : (_ || _)%bool = false |- _ => apply orb_false_iff in H; destruct H
  | H : (_ && _)%bool = false |- _ => apply andb_false_iff in H
  | H : (_ || _)%bool = true |- _ => apply orb_true_iff in H
  | H : negb _ = true |- _ => apply negb_true_iff in H
  | H : negb _ = false |- _ => apply negb_false_iff in H
  | H : (_ =? _) = true |- _ => apply Z.eqb_eq in H
  | H : (_ =? _) = false |- _ => apply Z.eqb_neq in H
  | H : (_ <? _) = true |- _ => apply Z.ltb_lt in H
  | H : (_ <? _) = false |- _ => apply Z.ltb_ge in H
  | H : (_ <=? _) = true |- _ => apply Z.leb_le in H
  | H : (_ <=? _) = false |- _ => apply Z.leb_gt in H
  | |- (_ && _)%bool = true => apply andb_true_iff
  | |- (_ || _)%bool = true => apply orb_true_iff
  | |- (_ && _)%bool = false => apply andb_false_iff
  | |- (_ || _)%bool = false => apply orb_false_iff
  | |- negb _ = true => apply negb_true_iff
  | |- negb _ = false => apply negb_false_iff
  | |- (_ =? _) = true => apply Z.eqb_eq
  | |- (_ =? _) = false => apply Z.eqb_neq
  | |- (_ <? _) = true => apply Z.ltb_lt
  | |- (_ <? _) = false => apply Z.ltb_ge
  | |- (_ <=? _) = true => apply Z.leb_le
  | |- (_ <=? _) = false => apply Z.leb_gt
  end.

(** Case on a boolean test of the goal, as a proposition. *)
Ltac case_test :=
  match goal with
  | |- context [if ?b then _ else _] => destruct b eqn:?; b2p
  end.

(** ** Generic lemmas on machine integers *)

Lemma u32_small x : 0 <= x < 2 ^ 32 -> u32 x = x.
Proof. intros. by apply Z.mod_small. Qed.
Lemma u32_range x : 0 <= u32 x < 2 ^ 32.
Proof. by apply Z.mod_pos_bound. Qed.
Lemma s32_small x : - 2 ^ 31 <= x < 2 ^ 31 -> s32 x = x.
Proof.
  intros Hx. unfold s32. destruct (Z.lt_ge_cases x 0) as [Hn|Hp].
  - replace (x mod 2 ^ 32) with (x + 2 ^ 32).
    + destruct (Z.ltb_spec (x + 2 ^ 32) (2 ^ 31)); lia.
    + apply (Z.mod_unique_pos x (2 ^ 32) (-1)); lia.
  - rewrite Z.mod_small by lia. destruct (Z.ltb_spec x (2 ^ 31)); lia.
Qed.

Create HintDb kernel.
Create Rewrite HintDb kernel.
#[export] Hint Rewrite @u32_small @s32_small using lia : kernel.
#[export] Hint Resolve u32_range : kernel.

(** ** Generic lemmas on lists indexed by [Z] *)

(** A C array read and write with a [Z] index. *)
Definition zlookup {A} (l : list A) (i : Z) : option A :=
  if i <? 0 then None else l !! Z.to_nat i.
Definition zinsert {A} (i : Z) (x : A) (l : list A) : list A :=
  if i <? 0 then l else <[Z.to_nat i := x]> l.

Section zlist.
  Context {A : Type}.
  Implicit Types (l : list A) (x : A).

Lemma zlookup_range l i x : zlookup l i = Some x -> 0 <= i < Z.of_nat (length l).
Proof.
  unfold zlookup. case_test; [done|]. intros H%lookup_lt_Some. lia.
Qed.
Lemma zlookup_is_Some l i : 0 <= i < Z.of_nat (length l) -> exists x, zlookup l i = Some x.
Proof.
  intros Hi. unfold zlookup. case_test; [lia|].
  destruct (lookup_lt_is_Some_2 l (Z.to_nat i)) as [x Hx]; [lia | eauto].
Qed.
Lemma zinsert_length i x l : length (zinsert i x l) = length l.
Proof. unfold zinsert. case_test; [done|]. apply length_insert. Qed.
Lemma zlookup_zinsert_eq l i x :
  0 <= i < Z.of_nat (length l) -> zlookup (zinsert i x l) i = Some x.
Proof.
  intros Hi. unfold zlookup, zinsert. repeat (case_test; [lia|]).
  apply list_lookup_insert_eq. lia.
Qed.
Lemma zlookup_zinsert_ne l i j x : i <> j -> zlookup (zinsert i x l) j = zlookup l j.
Proof.
  intros Hi. unfold zlookup, zinsert. destruct (Z.ltb_spec j 0); [done|].
  case_test; [done|]. apply list_lookup_insert_ne. lia.
Qed.
End zlist.
