(* ===== verification/Constants.v ===== *)
(** * Constants

    The macros of source/constants.h, kernel.h, user.h, buddy.h and
    filesystem.h that the modelled code uses, with the configuration the
    source directory selects (every [USE_*] macro defined). *)

From S2P Require Import Prelude.

(** ** Memory (constants.h) *)

Definition MB : Z := 1048576.
Definition KB : Z := 1024.
Definition BUFSIZE : Z := 1024.
Definition PAGE_SIZE : Z := 4096.
Definition KERNEL_CODE_SEGMENT : Z := 0x08.
Definition KERNEL_DATA_SEGMENT : Z := 0x10.
Definition USER_CODE_SEGMENT : Z := 0x18.
Definition USER_DATA_SEGMENT : Z := 0x20.
Definition TSS_SEGMENT : Z := 0x28.
Definition MAX_PROCESSES : Z := 32.
Definition PROCESS_STACK_BASE : Z := 0x40000000.
Definition PROCESS_STACK_SIZE : Z := 64 * KB.
Definition KERNEL_MEM_BASE : Z := 2 * MB.
Definition KERNEL_MEM_SIZEPOW2 : Z := 22.
Definition KERNEL_MEM_SIZE : Z := 4 * MB.
Definition PAGE_START : Z := 6 * MB.
Definition PROCESS_DATA_BASE : Z := 0x20000000.
Definition PROCESS_DATA_MAX : Z := 4 * MB.
Definition PROCESS_TEXT_BASE : Z := 0x10000000.
Definition STDIN_FILENO : Z := 0.
Definition STDOUT_FILENO : Z := 1.
Definition STDERR_FILENO : Z := 2.
Definition MAX_FDS : Z := 16.
Definition PATH_MAX : Z := 1024.
Definition NAME_MAX : Z := 1024.

(** ** Hardware (constants.h) *)

Definition SCREEN_WIDTH : Z := 80.
Definition SCREEN_HEIGHT : Z := 25.
Definition VIDEO_MEMORY : Z := 0xB8000.
Definition TICKS_PER_SECOND : Z := 50.
Definition RING_0 : Z := 0.
Definition RING_3 : Z := 3.
Definition KEY_SHIFT : Z := 42.
Definition MAX_EXCEPTION : Z := 31.
Definition INTERRUPT_TIMER : Z := 32.
Definition INTERRUPT_KEYBOARD : Z := 33.
Definition INTERRUPT_SYSCALL : Z := 48.

(** ** System call numbers (constants.h) *)

Definition SYSCALL_GETPID : Z := 1.
Definition SYSCALL_EXIT : Z := 2.
Definition SYSCALL_WRITE : Z := 3.
Definition SYSCALL_READ : Z := 4.
Definition SYSCALL_GETERRNO : Z := 5.
Definition SYSCALL_BRK : Z := 6.
Definition SYSCALL_SEND : Z := 7.
Definition SYSCALL_RECEIVE : Z := 8.
Definition SYSCALL_CLOSE : Z := 9.
Definition SYSCALL_PIPE : Z := 10.
Definition SYSCALL_DUP2 : Z := 11.
Definition SYSCALL_FORK : Z := 12.
Definition SYSCALL_EXECVE : Z := 13.
Definition SYSCALL_WAITPID : Z := 14.
Definition SYSCALL_STAT : Z := 15.
Definition SYSCALL_OPEN : Z := 16.
Definition SYSCALL_GETDENT : Z := 17.
Definition SYSCALL_CHDIR : Z := 18.
Definition SYSCALL_GETCWD : Z := 19.
Definition SYSCALL_KILL : Z := 20.

(** ** errno values (constants.h) *)

Definition EBADF : Z := 2.
Definition EINVAL : Z := 3.
Definition ESRCH : Z := 4.
Definition EPERM : Z := 5.
Definition ENOENT : Z := 6.
Definition EMFILE : Z := 7.
Definition EISDIR : Z := 8.
Definition ENOTDIR : Z := 9.
Definition ENOSYS : Z := 10.
Definition ENOMEM : Z := 11.
Definition EFAULT : Z := 12.
Definition EAGAIN : Z := 13.
Definition ECHILD : Z := 14.
Definition ERRNO_MAX : Z := 14.
Definition ESUSPEND : Z := 1000.

(** ** Paging bits (kernel.h) *)

Definition PAGE_ADDRESS_MASK : Z := 0xFFFFF000.
Definition PAGE_USER : Z := 0x4.
Definition PAGE_SUPERVISOR : Z := 0.
Definition PAGE_READ_WRITE : Z := 0x2.
Definition PAGE_READ_ONLY : Z := 0.
Definition PAGE_PRESENT : Z := 0x1.

(** ** File handle types and messages (kernel.h, user.h) *)

Definition FH_NONE : Z := 0.
Definition FH_SCREEN : Z := 1.
Definition FH_PIPE_WRITER : Z := 2.
Definition FH_PIPE_READER : Z := 3.
Definition FH_FILE : Z := 4.
Definition FH_DIR : Z := 5.
Definition OPEN_DIRECTORY : Z := 0xFFFF.
Definition MAX_MESSAGE_SIZE : Z := 1024.

(** ** Filesystem (filesystem.h) *)

Definition TYPE_DIR : Z := 1.
Definition TYPE_FILE : Z := 2.
Definition MAX_FILENAME_LEN : Z := 255.

(** ** Buddy allocator (buddy.h, buddy.c) *)

Definition EMPTY : Z := 0xFFFFFFFF.
Definition DEFAULT_LOWER : Z := 8.
