(* ===== verification/Buddy.v ===== *)
(** * The buddy allocator (source/buddy.c, buddy.h)

    State, macros and operations.  A [memarea] carries the struct of buddy.h
    together with the two memory regions it points to: the [blocks] array and
    the words of the managed heap that the free lists are threaded through.
    Heap offsets are relative to [ma->mem], as in the source. *)

From S2P Require Import Prelude Constants.

(** [struct blockinfo]: a 7-bit size exponent and a used bit. *)
Record blockinfo := { sizem : Z; used : bool }.

#[export] Instance blockinfo_eq_dec : EqDecision blockinfo.
Proof. solve_decision. Defined.

(** [struct memarea], with the memory behind [mem] and [blocks]. *)
Record memarea := {
  lower : Z;
  upper : Z;
  mem : Z;                    (* address of the heap *)
  blocks : list blockinfo;    (* the array [ma->blocks] points to *)
  freelist : list Z;          (* heads of the 32 free lists *)
  heap : gmap Z Z             (* word at each heap offset; 0 when never written *)
}.

Definition set_blocks (b : list blockinfo) (ma : memarea) : memarea :=
  {| lower := lower ma; upper := upper ma; mem := mem ma; blocks := b;
     freelist := freelist ma; heap := heap ma |}.
Definition set_freelist (f : list Z) (ma : memarea) : memarea :=
  {| lower := lower ma; upper := upper ma; mem := mem ma; blocks := blocks ma;
     freelist := f; heap := heap ma |}.
Definition set_heap (h : gmap Z Z) (ma : memarea) : memarea :=
  {| lower := lower ma; upper := upper ma; mem := mem ma; blocks := blocks ma;
     freelist := freelist ma; heap := h |}.

(** The word stored at a heap offset. *)
Definition word (h : gmap Z Z) (off : Z) : Z := default 0 (h !! off).

(** [1 << k] as the unsigned value the comparisons of the source use. *)
Definition shl1 (k : Z) : Z := u32 (Z.shiftl 1 k).

(** ** The helper macros *)

Definition block_index (ma : memarea) (b : Z) : Z := b / shl1 (lower ma).

Definition get_sizem (b : Z) : M memarea Z :=
  ma <- get;
  bi <- of_opt (zlookup (blocks ma) (block_index ma b)) "blocks[]";
  ret (sizem bi).
Definition is_used (b : Z) : M memarea bool :=
  ma <- get;
  bi <- of_opt (zlookup (blocks ma) (block_index ma b)) "blocks[]";
  ret (used bi).
Definition set_sizem (b s : Z) : M memarea unit :=
  ma <- get;
  bi <- of_opt (zlookup (blocks ma) (block_index ma b)) "blocks[]";
  put (set_blocks (zinsert (block_index ma b) {| sizem := s mod 2 ^ 7; used := used bi |} (blocks ma)) ma).
Definition set_used (b : Z) (u : bool) : M memarea unit :=
  ma <- get;
  bi <- of_opt (zlookup (blocks ma) (block_index ma b)) "blocks[]";
  put (set_blocks (zinsert (block_index ma b) {| sizem := sizem bi; used := u |} (blocks ma)) ma).

(** [ma->freelist[m]], with C's array bound. *)
Definition get_freelist (m : Z) : M memarea Z :=
  ma <- get; of_opt (zlookup (freelist ma) m) "freelist[]".
Definition put_freelist (m v : Z) : M memarea unit :=
  ma <- get;
  _ <- of_opt (zlookup (freelist ma) m) "freelist[]";
  put (set_freelist (zinsert m v (freelist ma)) ma).

(** [*(unsigned int* )(ma->mem+off)]: the word must lie inside the heap. *)
Definition in_heap (ma : memarea) (off : Z) : bool :=
  (0 <=? off) && (off + 4 <=? shl1 (upper ma)).
Definition load_word (off : Z) : M memarea Z :=
  ma <- get; check_ (in_heap ma off) "heap word";; ret (word (heap ma) off).
Definition store_word (off v : Z) : M memarea unit :=
  ma <- get; check_ (in_heap ma off) "heap word";;
  put (set_heap (<[off := v]> (heap ma)) ma).

(** ** mforsize *)

(** The loop [for (pow2 = 1; pow2 <= nbytes; pow2 *= 2) m++].  [pow2] is an
    unsigned int, so the multiplication wraps. *)
Fixpoint mforsize_loop (fuel : nat) (nbytes pow2 m : Z) : option Z :=
  match fuel with
  | O => None
  | S fuel' =>
      if pow2 <=? nbytes then mforsize_loop fuel' nbytes (u32 (pow2 * 2)) (u32 (m + 1))
      else Some m
  end.

(** 33 rounds are enough whenever the loop ends at all
    ([mforsize_loop_bound]). *)
Definition mforsize (nbytes : Z) : M memarea Z :=
  ma <- get;
  match mforsize_loop 33 nbytes 1 0 with
  | Some m => ret (if lower ma <=? m then m else lower ma)
  | None => spin
  end.

(** ** get_buddy *)

Definition get_buddy (block : Z) : M memarea Z :=
  ma <- get;
  m <- get_sizem block;
  assert_ ((lower ma <=? m) && (m <=? upper ma)) "(ma->lower <= m) && (ma->upper >= m)";;
  ret (if truthy (Z.land block (shl1 m))
       then Z.land block (u32 (Z.lnot (Z.shiftl 1 m)))
       else Z.lor block (shl1 m)).

(** ** add_to_freelist *)

Definition add_to_freelist (m block : Z) : M memarea unit :=
  ma <- get;
  assert_ (u32 (block + shl1 m) <=? shl1 (upper ma)) "block+(1 << m) <= (1 << ma->upper)";;
  f <- get_freelist m;
  store_word block f;;
  put_freelist m block.

(** ** remove_from_freelist *)

(** The variable [ptr] of the source points either to [ma->freelist[m]] or to
    the link word of a free block. *)
Inductive linkptr := PHead | PLink (off : Z).

Definition load_ptr (m : Z) (p : linkptr) : M memarea Z :=
  match p with PHead => get_freelist m | PLink off => load_word off end.
Definition store_ptr (m : Z) (p : linkptr) (v : Z) : M memarea unit :=
  match p with PHead => put_freelist m v | PLink off => store_word off v end.

Fixpoint remove_loop (fuel : nat) (m block : Z) (ptr : linkptr) : M memarea bool :=
  match fuel with
  | O => spin
  | S fuel' =>
      cur <- load_ptr m ptr;
      if negb (EMPTY =? cur) then
        if cur =? block then
          next <- load_word cur; store_ptr m ptr next;; ret true
        else remove_loop fuel' m block (PLink cur)
      else ret false
  end.

(** A free list holds at most one entry per element of [blocks], which bounds
    the walk ([remove_from_freelist_spec]). *)
Definition remove_from_freelist (m block : Z) : M memarea unit :=
  ma <- get;
  found <- remove_loop (S (length (blocks ma))) m block PHead;
  assert_ found "found".

(** ** buddy_alloc *)

(** [for (cm = m+1; cm <= ma->upper; cm++) if (EMPTY != freelist[cm]) break;]
    The result is the value of [cm] after the loop. *)
Fixpoint find_larger (fuel : nat) (cm : Z) : M memarea Z :=
  match fuel with
  | O => spin
  | S fuel' =>
      ma <- get;
      if cm <=? upper ma then
        f <- get_freelist cm;
        if negb (EMPTY =? f) then ret cm else find_larger fuel' (cm + 1)
      else ret cm
  end.

(** One round of the splitting loop. *)
Definition split_block (cm : Z) : M memarea unit :=
  block <- get_freelist cm;
  u <- is_used block; assert_ (negb u) "!is_used(block)";;
  sz <- get_sizem block; assert_ (sz =? cm) "get_sizem(block) == cm";;
  remove_from_freelist cm block;;
  let half1 := block in
  let half2 := u32 (block + shl1 (cm - 1)) in
  set_sizem half1 (cm - 1);;
  set_sizem half2 (cm - 1);;
  u1 <- is_used half1; assert_ (negb u1) "!is_used(half1)";;
  u2 <- is_used half2; assert_ (negb u2) "!is_used(half2)";;
  add_to_freelist (cm - 1) half2;;
  add_to_freelist (cm - 1) half1.

(** [for (; cm > m; cm--)]: [n] rounds are left. *)
Fixpoint split_loop (n : nat) (cm : Z) : M memarea unit :=
  match n with
  | O => ret tt
  | S n' => split_block cm;; split_loop n' (cm - 1)
  end.

(** [userland] selects the [USERLAND] build (testbuddy), in which running out
    of memory returns NULL instead of failing an assertion. *)
Definition buddy_alloc (userland : bool) (nbytes : Z) : M memarea Z :=
  m <- mforsize nbytes;
  f <- get_freelist m;
  ok <- (if EMPTY =? f then
           ma <- get;
           cm <- find_larger 33 (m + 1);
           if upper ma <? cm then
             if userland then ret false else halt "Memory exhausted"
           else split_loop (Z.to_nat (cm - m)) cm;; ret true
         else ret true);
  if negb ok then ret 0
  else
    block <- get_freelist m;
    assert_ (negb (EMPTY =? block)) "EMPTY != block";;
    u <- is_used block; assert_ (negb u) "!is_used(block)";;
    sz <- get_sizem block; assert_ (sz =? m) "get_sizem(block) == m";;
    set_used block true;;
    remove_from_freelist m block;;
    ma <- get;
    ret (u32 (block + mem ma)).

(** ** buddy_free *)

(** The loop that merges a block with its buddy; returns the final block and
    its size exponent.  [m] grows at every round and stays below [upper]. *)
Fixpoint merge_loop (fuel : nat) (m block buddy : Z) : M memarea (Z * Z) :=
  match fuel with
  | O => spin
  | S fuel' =>
      ma <- get;
      go <- (if m <? upper ma then
               u <- is_used buddy;
               if negb u then sz <- get_sizem buddy; ret (sz =? m) else ret false
             else ret false);
      if (go : bool) then
        remove_from_freelist m buddy;;
        let lo := if buddy <? block then buddy else block in
        let hi := if buddy <? block then block else buddy in
        set_sizem lo (m + 1);;
        set_sizem hi 0;;
        buddy' <- get_buddy lo;
        merge_loop fuel' (m + 1) lo buddy'
      else ret (m, block)
  end.

Definition buddy_free (ptr : Z) : M memarea unit :=
  if ptr =? 0 then ret tt
  else
    ma <- get;
    assert_ ((mem ma <=? ptr) && (ptr <? u32 (mem ma + shl1 (upper ma))))
      "ptr is within the memory range of the area";;
    let block := u32 (ptr - mem ma) in
    m <- get_sizem block;
    assert_ ((lower ma <=? m) && (m <=? upper ma)) "(ma->lower <= m) && (ma->upper >= m)";;
    u <- is_used block; assert_ u "is_used(block)";;
    set_used block false;;
    buddy <- get_buddy block;
    '(m', block') <- merge_loop 33 m block buddy;
    add_to_freelist m' block'.

(** ** buddy_nblocks, buddy_init *)

Definition buddy_nblocks (sizepow2 : Z) : Z := shl1 (sizepow2 - DEFAULT_LOWER).

(** [h] is the content of the heap before the call. *)
Definition buddy_init (sizepow2 membase : Z) (h : gmap Z Z) : memarea :=
  {| lower := DEFAULT_LOWER;
     upper := sizepow2;
     mem := membase;
     blocks := zinsert 0 {| sizem := sizepow2 mod 2 ^ 7; used := false |}
                 (replicate (Z.to_nat (shl1 (sizepow2 - DEFAULT_LOWER))) {| sizem := 0; used := false |});
     freelist := zinsert sizepow2 0 (replicate 32 EMPTY);
     heap := <[0 := EMPTY]> h |}.

(** ** The kernel's wrappers *)

(** [kmalloc_init]: the kernel heap is [KERNEL_MEM_SIZEPOW2] bits at
    [KERNEL_MEM_BASE]. *)
Definition kmalloc_init (h : gmap Z Z) : memarea :=
  buddy_init KERNEL_MEM_SIZEPOW2 KERNEL_MEM_BASE h.

Definition kmalloc_ma (nbytes : Z) : M memarea Z :=
  ptr <- buddy_alloc false nbytes;
  assert_ (truthy ptr) "Out of kernel memory";;
  ret ptr.

Definition kfree_ma (ptr : Z) : M memarea unit := buddy_free ptr.
