(* ===== verification/BuddyLayout.v ===== *)
(** * Block layouts of the buddy allocator

    The arithmetic of power-of-two blocks, and the partition of the heap that
    the [blocks] array describes: how it changes when a block is split, when
    two buddies are merged, and when the used bit of a block changes.  A
    layout is a relation [H o m u]: a block of size [2^m] starts at offset
    [o], and [u] is its used bit. *)

From S2P Require Import Prelude Constants Buddy.

Definition layout := Z -> Z -> bool -> Prop.

(** The offset of the buddy of the block of size [2^m] at [o]. *)
Definition buddy_of (o m : Z) : Z := if Z.odd (o / 2 ^ m) then o - 2 ^ m else o + 2 ^ m.

(** Layouts are compared pointwise. *)
Definition layout_eq (H1 H2 : layout) : Prop := forall o m u, H1 o m u <-> H2 o m u.
#[export] Instance layout_eq_equivalence : Equivalence layout_eq.
Proof. unfold layout_eq; split; repeat intro; naive_solver. Qed.

(** ** Powers of two *)

Lemma pow2_pos k : 0 <= k -> 0 < 2 ^ k.
Proof. intros. apply Z.pow_pos_nonneg; lia. Qed.
Lemma pow2_succ k : 0 <= k -> 2 ^ (k + 1) = 2 * 2 ^ k.
Proof. intros. rewrite Z.add_1_r. by rewrite Z.pow_succ_r. Qed.
Lemma pow2_pred k : 1 <= k -> 2 ^ k = 2 * 2 ^ (k - 1).
Proof. intros. rewrite <- pow2_succ by lia. f_equal. lia. Qed.
Lemma pow2_le a b : 0 <= a <= b -> 2 ^ a <= 2 ^ b.
Proof. intros. apply Z.pow_le_mono_r; lia. Qed.
Lemma pow2_divide a b : 0 <= a <= b -> (2 ^ a | 2 ^ b).
Proof. intros. exists (2 ^ (b - a)). rewrite <- Z.pow_add_r by lia. f_equal. lia. Qed.
Lemma pow2_lt_32 k : 0 <= k <= 31 -> 2 ^ k < 2 ^ 32.
Proof. intros. apply Z.pow_lt_mono_r; lia. Qed.

Lemma shl1_eq k : 0 <= k <= 31 -> shl1 k = 2 ^ k.
Proof.
  intros. unfold shl1. rewrite Z.shiftl_1_l. apply u32_small.
  pose proof (pow2_pos k). pose proof (pow2_lt_32 k). lia.
Qed.

(** Two multiples of [d] that are less than [d] apart are equal. *)
Lemma divide_close d a b : 0 < d -> (d | a) -> (d | b) -> - d < a - b < d -> a = b.
Proof. intros Hd [x ->] [y ->] H. assert (x = y) by nia. by subst. Qed.

(** ** The buddy of a block *)

Lemma buddy_cases o m :
  0 <= m -> (2 ^ m | o) ->
  (buddy_of o m = o + 2 ^ m /\ (2 ^ (m + 1) | o)) \/
  (buddy_of o m = o - 2 ^ m /\ (2 ^ (m + 1) | o - 2 ^ m)).
Proof.
  intros Hm [k ->]. unfold buddy_of. pose proof (pow2_pos m Hm).
  rewrite Z.div_mul by lia. rewrite pow2_succ by done.
  destruct (Z.odd k) eqn:Hk.
  - right. split; [done|]. apply Z.odd_spec in Hk as [j ->]. exists j. lia.
  - left. split; [done|]. rewrite <- Z.negb_even in Hk. apply negb_false_iff in Hk.
    apply Z.even_spec in Hk as [j ->]. exists j. lia.
Qed.

Lemma buddy_of_aligned o m : 0 <= m -> (2 ^ m | o) -> (2 ^ m | buddy_of o m).
Proof.
  intros Hm Hd. destruct (buddy_cases o m Hm Hd) as [[-> _]|[-> _]].
  - apply Z.divide_add_r; [done | apply Z.divide_refl].
  - apply Z.divide_sub_r; [done | apply Z.divide_refl].
Qed.

Lemma buddy_of_ne o m : 0 <= m -> buddy_of o m <> o.
Proof. intros Hm. unfold buddy_of. pose proof (pow2_pos m Hm). case_match; lia. Qed.

Lemma odd_even_multiple p a : 0 < p -> (2 * p | a) -> (2 * p | a + p) -> False.
Proof.
  intros Hp [x Hx] [y Hy]. assert ((2 * (y - x) - 1) * p = 0) as Hz by lia.
  apply Z.mul_eq_0 in Hz. lia.
Qed.

Lemma buddy_of_invol o m : 0 <= m -> (2 ^ m | o) -> buddy_of (buddy_of o m) m = o.
Proof.
  intros Hm Hd. pose proof (pow2_pos m Hm) as Hp.
  pose proof (buddy_cases o m Hm Hd) as Ho.
  pose proof (buddy_cases (buddy_of o m) m Hm (buddy_of_aligned _ _ Hm Hd)) as Hb.
  rewrite pow2_succ in * by done.
  destruct Ho as [[E Ho]|[E Ho]], Hb as [[E' Ho']|[E' Ho']]; rewrite E' ; rewrite E in *; try lia.
  - exfalso. by apply (odd_even_multiple (2 ^ m) o).
  - exfalso. apply (odd_even_multiple (2 ^ m) (o - 2 * 2 ^ m)); [done | |].
    + by replace (o - 2 * 2 ^ m) with (o - 2 ^ m - 2 ^ m) by lia.
    + by replace (o - 2 * 2 ^ m + 2 ^ m) with (o - 2 ^ m) by lia.
Qed.

Lemma buddy_of_range o m up :
  0 <= m < up -> (2 ^ m | o) -> 0 <= o -> o + 2 ^ m <= 2 ^ up ->
  0 <= buddy_of o m /\ buddy_of o m + 2 ^ m <= 2 ^ up.
Proof.
  intros Hm Hd Ho Hup. pose proof (pow2_pos m ltac:(lia)).
  destruct (buddy_cases o m ltac:(lia) Hd) as [[-> He]|[-> He]].
  - split; [lia|]. assert (2 ^ (m + 1) | 2 ^ up) as Hdu by (apply pow2_divide; lia).
    rewrite pow2_succ in * by lia. destruct He as [x ->], Hdu as [y Hy].
    assert (x < y) by nia. nia.
  - split; [|lia]. rewrite pow2_succ in He by lia. destruct He as [x Hx].
    assert (0 <= x) by nia. nia.
Qed.

(** The bit operations of [get_buddy] compute [buddy_of]. *)
Lemma land_shl1 b m : 0 <= m <= 31 -> truthy (Z.land b (2 ^ m)) = Z.odd (b / 2 ^ m).
Proof.
  intros Hm. rewrite <- Z.shiftr_div_pow2 by lia.
  rewrite <- Z.bit0_odd, Z.shiftr_spec, Z.add_0_l by lia. unfold truthy.
  destruct (Z.testbit b m) eqn:Hb.
  - apply negb_true_iff, Z.eqb_neq. intros Hz. apply (f_equal (fun z => Z.testbit z m)) in Hz.
    rewrite Z.land_spec, Hb, Z.pow2_bits_true, Z.bits_0 in Hz by lia. done.
  - apply negb_false_iff, Z.eqb_eq, Z.bits_inj'. intros n Hn.
    rewrite Z.land_spec, Z.bits_0, Z.pow2_bits_eqb by lia.
    destruct (Z.eqb_spec m n) as [->|]; [by rewrite Hb | apply andb_false_r].
Qed.

Lemma mask_disjoint b m :
  0 <= m <= 31 -> Z.land (Z.land b (u32 (Z.lnot (2 ^ m)))) (2 ^ m) = 0.
Proof.
  intros Hm. apply Z.bits_inj'. intros n Hn. rewrite !Z.land_spec, Z.bits_0. unfold u32.
  destruct (Z.lt_ge_cases n 32).
  - rewrite Z.mod_pow2_bits_low, Z.lnot_spec, Z.pow2_bits_eqb by lia.
    destruct (m =? n); simpl; by rewrite ?andb_false_r.
  - by rewrite Z.mod_pow2_bits_high, andb_false_r by lia.
Qed.

Lemma clear_bit b m :
  0 <= m <= 31 -> 0 <= b < 2 ^ 32 -> Z.odd (b / 2 ^ m) = true ->
  Z.land b (u32 (Z.lnot (Z.shiftl 1 m))) = b - 2 ^ m.
Proof.
  intros Hm Hb Hodd. rewrite Z.shiftl_1_l.
  assert (Z.testbit b m = true) as Hbit.
  { rewrite <- Hodd, <- Z.shiftr_div_pow2, <- Z.bit0_odd, Z.shiftr_spec by lia. f_equal. }
  rewrite <- (Z.add_simpl_r (Z.land b _) (2 ^ m)). f_equal.
  rewrite Z.add_nocarry_lxor, Z.lxor_lor.
  - apply Z.bits_inj'. intros n Hn. rewrite Z.lor_spec, Z.land_spec.
    unfold u32. destruct (Z.lt_ge_cases n 32).
    + rewrite Z.mod_pow2_bits_low, Z.lnot_spec, Z.pow2_bits_eqb by lia.
      destruct (Z.eqb_spec m n) as [->|]; rewrite ?Hbit; simpl; by rewrite ?andb_true_r, ?orb_false_r.
    + rewrite Z.mod_pow2_bits_high, andb_false_r, Z.pow2_bits_false by lia. simpl.
      symmetry. apply Z.bits_above_log2; [lia|]. destruct (Z.eq_dec b 0) as [->|].
      * simpl. lia.
      * apply Z.log2_lt_pow2; [lia|]. apply Z.lt_le_trans with (2 ^ 32); [lia|].
        apply pow2_le. lia.
  - by apply mask_disjoint.
  - by apply mask_disjoint.
Qed.

Lemma set_bit b m :
  0 <= m <= 31 -> Z.odd (b / 2 ^ m) = false -> Z.lor b (2 ^ m) = b + 2 ^ m.
Proof.
  intros Hm Hodd. assert (Z.land b (2 ^ m) = 0) as Hl.
  { rewrite <- land_shl1 in Hodd by done. unfold truthy in Hodd. b2p. done. }
  by rewrite <- Z.lxor_lor, <- Z.add_nocarry_lxor.
Qed.

(** The value [get_buddy] returns. *)
Lemma get_buddy_value b m :
  0 <= m <= 31 -> 0 <= b < 2 ^ 32 ->
  (if truthy (Z.land b (shl1 m)) then Z.land b (u32 (Z.lnot (Z.shiftl 1 m))) else Z.lor b (shl1 m))
  = buddy_of b m.
Proof.
  intros Hm Hb. rewrite shl1_eq, land_shl1 by done. unfold buddy_of.
  destruct (Z.odd (b / 2 ^ m)) eqn:Ho; [by apply clear_bit | by apply set_bit].
Qed.

(** ** Partitions of the heap *)

(** The blocks of [H] are aligned to their size, lie in [0, 2^up), do not
    overlap and together cover the heap. *)
Record partition (lo up : Z) (H : layout) : Prop := {
  part_fun o m u m' u' : H o m u -> H o m' u' -> m = m' /\ u = u';
  part_size o m u : H o m u -> lo <= m <= up;
  part_align o m u : H o m u -> (2 ^ m | o);
  part_range o m u : H o m u -> 0 <= o /\ o + 2 ^ m <= 2 ^ up;
  part_disj o1 m1 u1 o2 m2 u2 :
    H o1 m1 u1 -> H o2 m2 u2 -> o1 <> o2 -> o1 + 2 ^ m1 <= o2 \/ o2 + 2 ^ m2 <= o1;
  part_cover x : 0 <= x < 2 ^ up -> exists o m u, H o m u /\ o <= x < o + 2 ^ m
}.

Arguments part_fun {lo up H} _ {o m u m' u'} _ _.
Arguments part_size {lo up H} _ {o m u} _.
Arguments part_align {lo up H} _ {o m u} _.
Arguments part_range {lo up H} _ {o m u} _.
Arguments part_disj {lo up H} _ {o1 m1 u1 o2 m2 u2} _ _ _.
Arguments part_cover {lo up H} _ x _.

(** No free block has a free buddy of its own size, the blocks of [X] and
    their buddies aside. *)
Definition coalesced (X : list Z) (up : Z) (H : layout) : Prop :=
  forall o m, H o m false -> m < up -> o ∉ X -> buddy_of o m ∉ X -> ~ H (buddy_of o m) m false.

#[export] Instance partition_proper lo up : Proper (layout_eq ==> impl) (partition lo up).
Proof.
  intros H1 H2 E [F S A R D C]. unfold layout_eq in E. split; intros *; rewrite <- ?E; eauto.
  intros Hx. destruct (C x Hx) as (o & m & u & Ho & Hin). exists o, m, u. by rewrite <- E.
Qed.
#[export] Instance coalesced_proper X up : Proper (layout_eq ==> impl) (coalesced X up).
Proof. intros H1 H2 E C o m Ho Hm HX HX' Hb. apply (C o m); [by apply E | done.. | by apply E]. Qed.

(** The layouts after the three kinds of update. *)
Definition split_layout (o m : Z) (H : layout) : layout := fun o' m' u' =>
  if decide (o' = o \/ o' = o + 2 ^ (m - 1)) then m' = m - 1 /\ u' = false else H o' m' u'.
Definition merge_layout (o m : Z) (H : layout) : layout := fun o' m' u' =>
  if decide (o' = o) then m' = m + 1 /\ u' = false
  else o' <> o + 2 ^ m /\ H o' m' u'.
Definition mark_layout (o : Z) (u : bool) (H : layout) : layout := fun o' m' u' =>
  if decide (o' = o) then u' = u /\ exists u0, H o' m' u0 else H o' m' u'.

Section partition.
  Context (lo up : Z) (Hlo : 0 <= lo).

Lemma split_partition H o m :
  partition lo up H -> H o m false -> lo < m -> partition lo up (split_layout o m H).
Proof.
  intros P Ho Hm. pose proof (part_size P Ho). pose proof (part_align P Ho) as Ha.
  pose proof (part_range P Ho). pose proof (pow2_pred m ltac:(lia)) as Em.
  pose proof (pow2_pos (m - 1) ltac:(lia)).
  assert (2 ^ (m - 1) | o) as Ha'.
  { etrans; [|exact Ha]. apply pow2_divide. lia. }
  assert (forall o' m' u', H o' m' u' -> o' <> o -> 0 < 2 ^ m' /\ (o' + 2 ^ m' <= o \/ o + 2 ^ m <= o')) as Hdis.
  { intros o' m' u' H' Hne. pose proof (part_size P H').
    split; [apply pow2_pos; lia|]. destruct (part_disj P Ho H'); lia. }
  split; unfold split_layout.
  - intros. repeat case_decide; destruct_and?; subst; try done. by eapply (part_fun P).
  - intros. case_decide; [lia|]. by eapply (part_size P).
  - intros o' m' u'. case_decide as Hd; [|by apply (part_align P)].
    intros [-> ->]. destruct Hd as [->| ->]; [done|].
    apply Z.divide_add_r; [done | apply Z.divide_refl].
  - intros o' m' u'. case_decide as Hd; [|by apply (part_range P)].
    intros [-> ->]. lia.
  - intros o1 m1 u1 o2 m2 u2. repeat case_decide; intros B1 B2 Hne; destruct_and?; subst.
    + lia.
    + destruct (Hdis _ _ _ B2 ltac:(naive_solver)). lia.
    + destruct (Hdis _ _ _ B1 ltac:(naive_solver)). lia.
    + by eapply (part_disj P).
  - intros x Hx. destruct (part_cover P x Hx) as (o' & m' & u' & H' & Hin).
    destruct (decide (o' = o)) as [->|Hne].
    + destruct (part_fun P H' Ho) as [-> ->].
      destruct (Z.lt_ge_cases x (o + 2 ^ (m - 1))).
      * exists o, (m - 1), false. rewrite decide_True by auto. lia.
      * exists (o + 2 ^ (m - 1)), (m - 1), false. rewrite decide_True by auto. lia.
    + exists o', m', u'. destruct (Hdis _ _ _ H' Hne). rewrite decide_False by lia. done.
Qed.

Lemma merge_partition H o m u1 u2 :
  partition lo up H -> H o m u1 -> H (o + 2 ^ m) m u2 -> (2 ^ (m + 1) | o) ->
  partition lo up (merge_layout o m H).
Proof.
  intros P Ho Hb Ha. pose proof (part_size P Ho).
  pose proof (part_range P Ho). pose proof (part_range P Hb).
  pose proof (pow2_pos m ltac:(lia)) as Hp. pose proof (pow2_succ m ltac:(lia)) as Em.
  assert (m + 1 <= up) as Hmu.
  { destruct (Z.le_gt_cases (m + 1) up); [done|]. exfalso.
    assert (m = up) as -> by lia. lia. }
  assert (forall o' m' u', H o' m' u' -> o' <> o -> o' <> o + 2 ^ m ->
            0 < 2 ^ m' /\ (o' + 2 ^ m' <= o \/ o + 2 ^ (m + 1) <= o')) as Hdis.
  { intros o' m' u' H' Hne Hne'. pose proof (part_size P H').
    pose proof (pow2_pos m' ltac:(lia)). split; [done|].
    destruct (part_disj P Ho H'), (part_disj P Hb H'); lia. }
  split; unfold merge_layout.
  - intros. repeat case_decide; destruct_and?; subst; try done. by eapply (part_fun P).
  - intros o' m' u'. case_decide; [lia|]. intros [_ H']. by eapply (part_size P).
  - intros o' m' u'. case_decide; [by intros [-> _]; subst|]. intros [_ H']. by eapply (part_align P).
  - intros o' m' u'. case_decide; [intros [-> _]; subst; lia|]. intros [_ H']. by eapply (part_range P).
  - intros o1 m1 u1' o2 m2 u2'. repeat case_decide; intros B1 B2 Hne; destruct_and?; subst.
    + done.
    + match goal with H' : H o2 _ _ |- _ => destruct (Hdis _ _ _ H'); [done..|lia] end.
    + match goal with H' : H o1 _ _ |- _ => destruct (Hdis _ _ _ H'); [done..|lia] end.
    + by eapply (part_disj P).
  - intros x Hx. destruct (part_cover P x Hx) as (o' & m' & u' & H' & Hin).
    destruct (decide (o' = o)) as [->|Hne]; [|destruct (decide (o' = o + 2 ^ m)) as [->|Hne']].
    + destruct (part_fun P H' Ho) as [-> ->].
      exists o, (m + 1), false. rewrite decide_True by auto. lia.
    + destruct (part_fun P H' Hb) as [-> ->].
      exists o, (m + 1), false. rewrite decide_True by auto. lia.
    + exists o', m', u'. by rewrite decide_False by done.
Qed.

Lemma mark_partition H o u : partition lo up H -> partition lo up (mark_layout o u H).
Proof.
  intros P. assert (forall o' m' u', mark_layout o u H o' m' u' -> exists u0, H o' m' u0) as Hold.
  { intros o' m' u'. unfold mark_layout. case_decide; naive_solver. }
  split.
  - intros o' m1 u1 m2 u2 H1 H2. destruct (Hold _ _ _ H1) as [v1 Hv1], (Hold _ _ _ H2) as [v2 Hv2].
    destruct (part_fun P Hv1 Hv2) as [-> ->]. split; [done|].
    unfold mark_layout in *. case_decide; [naive_solver|].
    by destruct (part_fun P H1 H2).
  - intros o' m' u' [u0 H']%Hold. by eapply (part_size P).
  - intros o' m' u' [u0 H']%Hold. by eapply (part_align P).
  - intros o' m' u' [u0 H']%Hold. by eapply (part_range P).
  - intros o1 m1 u1 o2 m2 u2 [v1 H1]%Hold [v2 H2]%Hold. by eapply (part_disj P).
  - intros x Hx. destruct (part_cover P x Hx) as (o' & m' & u' & H' & Hin).
    destruct (decide (o' = o)) as [->|Hne].
    + exists o, m', u. unfold mark_layout. rewrite decide_True by done. eauto.
    + exists o', m', u'. unfold mark_layout. by rewrite decide_False by done.
Qed.
End partition.

(** ** Coalescing *)

Lemma coalesced_weaken up X Y H : X ⊆ Y -> coalesced X up H -> coalesced Y up H.
Proof. intros Hsub C o m Ho Hm HX HX'. apply C; [done..| |]; set_solver. Qed.

Lemma mark_used_coalesced up H o : coalesced [o] up H -> coalesced [] up (mark_layout o true H).
Proof.
  intros C o' m' Ho' Hm' _ _ Hb. unfold mark_layout in *.
  case_decide; [naive_solver|]. case_decide; [naive_solver|].
  apply (C o' m'); set_solver.
Qed.

Lemma mark_free_coalesced up H o : coalesced [] up H -> coalesced [o] up (mark_layout o false H).
Proof.
  intros C o' m' Ho' Hm' Hx Hx' Hb. unfold mark_layout in *.
  rewrite !decide_False in * by set_solver. apply (C o' m'); set_solver.
Qed.

Section coalescing.
  Context (lo up : Z) (Hlo : 0 <= lo).

Lemma split_coalesced H o m :
  partition lo up H -> H o m false -> lo < m ->
  coalesced [o] up H -> coalesced [o] up (split_layout o m H).
Proof.
  intros P Ho Hm C. pose proof (part_size P Ho). pose proof (part_align P Ho) as Ha.
  assert (buddy_of o (m - 1) = o + 2 ^ (m - 1)) as Hb.
  { pose proof (pow2_pos (m - 1) ltac:(lia)).
    assert (2 ^ (m - 1) | o) as Ha' by (etrans; [|exact Ha]; apply pow2_divide; lia).
    destruct (buddy_cases o (m - 1) ltac:(lia) Ha') as [[? _]|[_ He]]; [done|exfalso].
    replace (m - 1 + 1) with m in He by lia. rewrite (pow2_pred m) in * by lia.
    apply (odd_even_multiple (2 ^ (m - 1)) (o - 2 ^ (m - 1))); [done..|].
    by replace (o - 2 ^ (m - 1) + 2 ^ (m - 1)) with o by lia. }
  assert (buddy_of (o + 2 ^ (m - 1)) (m - 1) = o) as Hb'.
  { rewrite <- Hb. apply buddy_of_invol; [lia|]. etrans; [|exact Ha]. apply pow2_divide. lia. }
  intros o' m' Ho' Hm' Hx Hx'. unfold split_layout in *. intros Hbb.
  rewrite !list_elem_of_singleton in *.
  destruct (decide (o' = o \/ o' = o + 2 ^ (m - 1))) as [[->| ->]|D1];
    [done | destruct Ho' as [-> _]; by rewrite Hb' in Hx' |].
  destruct (decide (buddy_of o' m' = o \/ buddy_of o' m' = o + 2 ^ (m - 1))) as [[D2|D2]|D2];
    [| destruct Hbb as [-> _] |].
  - done.
  - apply Hx.
    rewrite <- (buddy_of_invol o' (m - 1)); [by rewrite D2 | lia | by apply (part_align P Ho')].
  - apply (C o' m'); rewrite ?list_elem_of_singleton; done.
Qed.

Lemma merge_coalesced H o m l :
  partition lo up H -> H o m false -> m < up -> (l = o \/ l = buddy_of o m) ->
  l + 2 ^ m = o \/ l + 2 ^ m = buddy_of o m ->
  coalesced [o] up H -> coalesced [l] up (merge_layout l m H).
Proof.
  intros P Ho Hm Hl Hh C. pose proof (part_size P Ho). pose proof (part_align P Ho) as Ha.
  pose proof (buddy_of_ne o m ltac:(lia)). pose proof (pow2_pos m ltac:(lia)).
  intros o' m' Ho' Hm' Hx Hx' Hb. unfold merge_layout in *.
  rewrite decide_False in Ho' by set_solver. rewrite decide_False in Hb by set_solver.
  destruct_and!. apply (C o' m'); [done..| | |done]; rewrite list_elem_of_singleton in *; lia.
Qed.

(** The merging loop may stop when the buddy is not a free block of the same
    size, or when the block is the whole heap. *)
Lemma stop_coalesced H o m :
  partition lo up H -> H o m false -> (m < up -> ~ H (buddy_of o m) m false) ->
  coalesced [o] up H -> coalesced [] up H.
Proof.
  intros P Ho Hstop C o' m' Ho' Hm' _ _ Hb.
  pose proof (part_size P Ho').
  destruct (decide (o' = o)) as [->|Hne].
  { destruct (part_fun P Ho Ho') as [-> _]. by apply Hstop. }
  destruct (decide (buddy_of o' m' = o)) as [He|Hne'].
  { rewrite He in Hb. destruct (part_fun P Ho Hb) as [-> _]. apply Hstop; [done|].
    rewrite <- He, buddy_of_invol; [done | lia | by apply (part_align P Ho')]. }
  apply (C o' m'); [done..| | |done]; by rewrite list_elem_of_singleton.
Qed.

(** When every block of a coalesced partition is free, the heap is one free
    block again. *)
Lemma all_free_whole H :
  0 <= up -> partition lo up H -> coalesced [] up H -> (forall o m u, H o m u -> u = false) ->
  H 0 up false.
Proof.
  intros Hup P C Hfree.
  assert (forall n m o, m - lo < Z.of_nat n -> m < up -> ~ H o m false) as Hno.
  { induction n as [|n IH]; intros m o Hn Hm Ho; pose proof (part_size P Ho) as Hs; [lia|].
    pose proof (part_align P Ho) as Ha. pose proof (part_range P Ho) as Hr.
    destruct (buddy_of_range o m up ltac:(lia) Ha ltac:(lia) ltac:(lia)) as [Hb0 Hb1].
    pose proof (pow2_pos m ltac:(lia)) as Hpm.
    destruct (part_cover P (buddy_of o m) ltac:(lia)) as (o1 & m1 & u1 & H1 & Hin).
    assert (u1 = false) as -> by eauto.
    pose proof (part_size P H1) as Hs1. pose proof (part_align P H1) as Ha1.
    destruct (Z.lt_trichotomy m1 m) as [Hlt|[->|Hgt]].
    - apply (IH m1 o1); [lia | lia | done].
    - assert (o1 = buddy_of o m) as ->.
      { apply (divide_close (2 ^ m)); [lia | done | apply buddy_of_aligned; [lia | done] | lia]. }
      by apply (C o m); [done | lia | set_solver | set_solver|].
    - assert (o1 <> o) as Hne. { intros ->. destruct (part_fun P Ho H1). lia. }
      assert (2 ^ (m + 1) | o1) as Ha1' by (etrans; [apply pow2_divide | exact Ha1]; lia).
      assert (2 ^ (m + 1) | 2 ^ m1) as [q Hq] by (apply pow2_divide; lia).
      rewrite pow2_succ in * by lia. destruct Ha1' as [k Hk].
      assert (0 < q) by (pose proof (pow2_pos m1); nia).
      assert (exists j, j * (2 * 2 ^ m) <= o <= j * (2 * 2 ^ m) + 2 ^ m /\
                j * (2 * 2 ^ m) <= buddy_of o m <= j * (2 * 2 ^ m) + 2 ^ m) as (j & Hjo & Hjb).
      { destruct (buddy_cases o m ltac:(lia) Ha) as [[E [j Hj]]|[E [j Hj]]];
          rewrite pow2_succ in Hj by lia; exists j; lia. }
      assert (k <= j) by nia. assert (j < k + q) by nia.
      destruct (part_disj P Ho H1 ltac:(done)); nia. }
  destruct (part_cover P 0) as (o & m & u & Ho & Hin); [pose proof (pow2_pos up Hup); lia|].
  assert (u = false) as -> by eauto. pose proof (part_size P Ho) as Hs.
  pose proof (part_range P Ho). assert (o = 0) as -> by lia.
  destruct (decide (m = up)) as [->|]; [done|]. exfalso.
  eapply (Hno (Z.to_nat (m - lo + 1)) m 0); [lia | lia | done].
Qed.
End coalescing.
