(* ===== verification/BuddyInv.v ===== *)
(** * The buddy allocator: representation invariant

    The representation invariant of a [memarea] over an abstract state
    [live], a finite map from the offsets of allocated blocks to their size
    exponents, and what the helpers of buddy.c (the macros, the free list
    routines, the writes to [blocks]) do to it. *)

From S2P Require Import Prelude Constants Buddy BuddyLayout.

(** ** Representation *)

(** The element of [blocks] for an offset. *)
Definition ent (ma : memarea) (o : Z) : option blockinfo := zlookup (blocks ma) (block_index ma o).

(** The layout described by [blocks]: an element with a non-zero size
    exponent is the start of a block. *)
Definition head (ma : memarea) : layout := fun o m u =>
  (2 ^ lower ma | o) /\ ent ma o = Some {| sizem := m; used := u |} /\ m <> 0.

(** The free list that starts at [p] is [L]. *)
Fixpoint chain (h : gmap Z Z) (p : Z) (L : list Z) : Prop :=
  match L with
  | [] => p = EMPTY
  | x :: L' => p = x /\ x <> EMPTY /\ chain h (word h x) L'
  end.

Record geometry (ma : memarea) : Prop := {
  geo_bounds : 2 <= lower ma <= upper ma /\ upper ma <= 31;
  geo_mem : 0 < mem ma /\ mem ma + 2 ^ upper ma < 2 ^ 32;
  geo_blocks : Z.of_nat (length (blocks ma)) = 2 ^ (upper ma - lower ma);
  geo_lists : length (freelist ma) = 32%nat
}.

(** Free list [m] threads exactly the free blocks of size [2^m], the offsets
    of [X] aside. *)
Definition lists (X : list Z) (ma : memarea) : Prop :=
  forall m, 0 <= m < 32 -> exists p L,
    zlookup (freelist ma) m = Some p /\ chain (heap ma) p L /\ NoDup L /\
    forall o, o ∈ L <-> head ma o m false /\ o ∉ X.

(** [keep] is a part of the live blocks whose words are still those of [h0]. *)
Definition framed (keep h0 : gmap Z Z) (ma : memarea) : Prop :=
  forall o m a, keep !! o = Some m -> o <= a < o + 2 ^ m -> word (heap ma) a = word h0 a.

Record wf (X : list Z) (live keep h0 : gmap Z Z) (ma : memarea) : Prop := {
  wf_geo : geometry ma;
  wf_entry i e : zlookup (blocks ma) i = Some e -> sizem e = 0 -> used e = false;
  wf_part : partition (lower ma) (upper ma) (head ma);
  wf_live o m : head ma o m true <-> live !! o = Some m;
  wf_lists : lists X ma;
  wf_keep : keep ⊆ live;
  wf_frame : framed keep h0 ma
}.
Arguments wf_geo {X live keep h0 ma} _.
Arguments wf_entry {X live keep h0 ma} _ {i e} _ _.
Arguments wf_part {X live keep h0 ma} _.
Arguments wf_live {X live keep h0 ma} _ o m.
Arguments wf_lists {X live keep h0 ma} _ m _.
Arguments wf_keep {X live keep h0 ma} _.
Arguments wf_frame {X live keep h0 ma} _.

(** The invariant between calls: [live] is the abstract state. *)
Definition buddy_inv (live : gmap Z Z) (ma : memarea) : Prop :=
  wf [] live live (heap ma) ma /\ coalesced [] (upper ma) (head ma).

(** Two areas with the same geometry and the same [blocks] array. *)
Definition same_layout (ma ma' : memarea) : Prop :=
  lower ma' = lower ma /\ upper ma' = upper ma /\ mem ma' = mem ma /\ blocks ma' = blocks ma.

(** Two areas with the same constants. *)
Definition same_area (ma ma' : memarea) : Prop :=
  lower ma' = lower ma /\ upper ma' = upper ma /\ mem ma' = mem ma.

(** ** Basic facts *)

Lemma word_insert_eq h a v : word (<[a := v]> h) a = v.
Proof. unfold word. by rewrite lookup_insert_eq. Qed.
Lemma word_insert_ne h a b v : a <> b -> word (<[a := v]> h) b = word h b.
Proof. intros. unfold word. by rewrite lookup_insert_ne. Qed.

Lemma same_layout_head ma ma' : same_layout ma ma' -> layout_eq (head ma) (head ma').
Proof.
  intros (El & Eu & Em & Eb) o m u. unfold head, ent, block_index. by rewrite El, Eb.
Qed.
Lemma same_layout_area ma ma' : same_layout ma ma' -> same_area ma ma'.
Proof. unfold same_layout, same_area. tauto. Qed.

Lemma block_index_eq ma o : geometry ma -> block_index ma o = o / 2 ^ lower ma.
Proof. intros [[[? ?] ?] _ _ _]. unfold block_index. by rewrite shl1_eq by lia. Qed.

Lemma shl1_upper ma : geometry ma -> shl1 (upper ma) = 2 ^ upper ma.
Proof. intros [[[? ?] ?] _ _ _]. by rewrite shl1_eq by lia. Qed.

Lemma upper_lt_EMPTY ma : geometry ma -> 0 < 2 ^ upper ma < EMPTY.
Proof.
  intros [[[? ?] ?] _ _ _]. split; [apply pow2_pos; lia|].
  apply Z.le_lt_trans with (2 ^ 31); [apply pow2_le; lia | done].
Qed.

Lemma ent_is_Some ma o : geometry ma -> 0 <= o < 2 ^ upper ma -> exists e, ent ma o = Some e.
Proof.
  intros G Ho. unfold ent. rewrite block_index_eq by done. apply zlookup_is_Some.
  destruct G as [[[? ?] ?] _ Hb _]. rewrite Hb. pose proof (pow2_pos (lower ma) ltac:(lia)).
  split; [apply Z.div_pos; lia|]. apply Z.div_lt_upper_bound; [done|].
  rewrite <- Z.pow_add_r by lia. replace (lower ma + (upper ma - lower ma)) with (upper ma) by lia. lia.
Qed.

Lemma head_range X live keep h0 ma o m u :
  wf X live keep h0 ma -> head ma o m u ->
  lower ma <= m <= upper ma /\ 0 <= o /\ o + 2 ^ m <= 2 ^ upper ma /\ 0 < 2 ^ m /\ o <> EMPTY /\ 0 <= m <= 31.
Proof.
  intros W H. pose proof (part_size (wf_part W) H). pose proof (part_range (wf_part W) H).
  pose proof (upper_lt_EMPTY _ (wf_geo W)). destruct (geo_bounds _ (wf_geo W)).
  pose proof (pow2_pos m ltac:(lia)). lia.
Qed.

(** Distinct multiples of the granularity have distinct indices. *)
Lemma block_index_inj ma a b :
  geometry ma -> (2 ^ lower ma | a) -> (2 ^ lower ma | b) ->
  block_index ma a = block_index ma b -> a = b.
Proof.
  intros G [x ->] [y ->]. rewrite !block_index_eq by done.
  destruct (geo_bounds _ G). pose proof (pow2_pos (lower ma) ltac:(lia)).
  rewrite !Z.div_mul by lia. by intros ->.
Qed.

(** ** Updates of the [blocks] array *)

Definition upd (b : Z) (e : blockinfo) (ma : memarea) : memarea :=
  set_blocks (zinsert (block_index ma b) e (blocks ma)) ma.

Lemma head_upd ma b e o m u :
  geometry ma -> (2 ^ lower ma | b) -> 0 <= b < 2 ^ upper ma ->
  head (upd b e ma) o m u <->
  if decide (o = b) then e = {| sizem := m; used := u |} /\ m <> 0 else head ma o m u.
Proof.
  intros G Hb Hr. unfold head, ent, upd. simpl.
  change (block_index (set_blocks _ ma) o) with (block_index ma o).
  destruct (ent_is_Some ma b G Hr) as [e0 He0]. unfold ent in He0.
  case_decide as D.
  - subst o. rewrite zlookup_zinsert_eq by (by eapply zlookup_range). naive_solver.
  - split; intros (Ha & He & Hm); (split; [done|split; [|done]]); revert He;
      (rewrite zlookup_zinsert_ne; [done|]); intros E; apply D; by eapply block_index_inj.
Qed.

Lemma upd_geometry ma b e : geometry ma -> geometry (upd b e ma).
Proof. intros [? ? ? ?]. split; simpl; rewrite ?zinsert_length; done. Qed.

Lemma upd_entry ma b e :
  (forall i e', zlookup (blocks ma) i = Some e' -> sizem e' = 0 -> used e' = false) ->
  (sizem e = 0 -> used e = false) ->
  forall i e', zlookup (blocks (upd b e ma)) i = Some e' -> sizem e' = 0 -> used e' = false.
Proof.
  intros H He i e'. simpl. destruct (decide (i = block_index ma b)) as [->|Hne].
  - intros Hl. pose proof (zlookup_range _ _ _ Hl) as Hr. rewrite zinsert_length in Hr.
    rewrite zlookup_zinsert_eq in Hl by done. by simplify_eq.
  - rewrite zlookup_zinsert_ne by done. apply H.
Qed.

(** ** The macros *)

Section macros.
  Implicit Types (Q : Z -> memarea -> Prop).

Lemma wp_get_sizem b e Q ma : ent ma b = Some e -> Q (sizem e) ma -> wp (get_sizem b) Q ma.
Proof. intros He HQ. unfold get_sizem. by wp_steps. Qed.
Lemma wp_is_used b e (Q : bool -> memarea -> Prop) ma :
  ent ma b = Some e -> Q (used e) ma -> wp (is_used b) Q ma.
Proof. intros He HQ. unfold is_used. by wp_steps. Qed.
Lemma wp_set_sizem b s e (Q : unit -> memarea -> Prop) ma :
  ent ma b = Some e -> 0 <= s < 128 -> Q tt (upd b {| sizem := s; used := used e |} ma) ->
  wp (set_sizem b s) Q ma.
Proof.
  intros He Hs HQ. unfold set_sizem. rewrite (Z.mod_small s) by lia.
  by wp_steps.
Qed.
Lemma wp_set_used b u e (Q : unit -> memarea -> Prop) ma :
  ent ma b = Some e -> Q tt (upd b {| sizem := sizem e; used := u |} ma) ->
  wp (set_used b u) Q ma.
Proof. intros He HQ. unfold set_used. by wp_steps. Qed.
Lemma wp_get_freelist m p Q ma :
  zlookup (freelist ma) m = Some p -> Q p ma -> wp (get_freelist m) Q ma.
Proof. intros Hp HQ. unfold get_freelist. by wp_steps. Qed.
Lemma wp_put_freelist m v (Q : unit -> memarea -> Prop) ma :
  geometry ma -> 0 <= m < 32 -> Q tt (set_freelist (zinsert m v (freelist ma)) ma) ->
  wp (put_freelist m v) Q ma.
Proof.
  intros G Hm HQ. unfold put_freelist.
  destruct (zlookup_is_Some (freelist ma) m) as [p Hp]; [rewrite (geo_lists _ G); lia|].
  by wp_steps.
Qed.
Lemma in_heap_true ma off : geometry ma -> 0 <= off -> off + 4 <= 2 ^ upper ma -> in_heap ma off = true.
Proof. intros G ? ?. unfold in_heap. rewrite shl1_upper by done. b2p. lia. Qed.
Lemma wp_load_word off Q ma :
  in_heap ma off = true -> Q (word (heap ma) off) ma -> wp (load_word off) Q ma.
Proof. intros Hi HQ. unfold load_word. by wp_steps. Qed.
Lemma wp_store_word off v (Q : unit -> memarea -> Prop) ma :
  in_heap ma off = true -> Q tt (set_heap (<[off := v]> (heap ma)) ma) -> wp (store_word off v) Q ma.
Proof. intros Hi HQ. unfold store_word. by wp_steps. Qed.
End macros.

(** The link word of a block lies inside of the heap. *)
Lemma head_in_heap X live keep h0 ma o m u :
  wf X live keep h0 ma -> head ma o m u -> in_heap ma o = true.
Proof.
  intros W H. destruct (head_range _ _ _ _ _ _ _ _ W H) as (? & ? & ? & _).
  apply in_heap_true; [by apply wf_geo in W | done|].
  destruct (geo_bounds _ (wf_geo W)). assert (2 ^ 2 <= 2 ^ m) by (apply pow2_le; lia). lia.
Qed.

(** The link word of a free block is outside of every block of [keep]. *)
Lemma free_not_kept X live keep h0 ma o m o' m' :
  wf X live keep h0 ma -> head ma o m false -> keep !! o' = Some m' -> ~ (o' <= o < o' + 2 ^ m').
Proof.
  intros W Ho Hk Hin. assert (head ma o' m' true) as Ho'.
  { apply (wf_live W). by eapply lookup_weaken; [|apply (wf_keep W)]. }
  destruct (head_range _ _ _ _ _ _ _ _ W Ho) as (_ & _ & _ & Hp & _).
  destruct (decide (o' = o)) as [->|Hne].
  - destruct (part_fun (wf_part W) Ho Ho'). done.
  - destruct (part_disj (wf_part W) Ho' Ho Hne); lia.
Qed.

(** ** Free lists *)

Lemma chain_frame h h' L : forall p,
  (forall x, x ∈ L -> word h' x = word h x) -> chain h p L -> chain h' p L.
Proof.
  induction L as [|x L IH]; intros p Hw; simpl; [done|]. intros (-> & Hx & Hc).
  split; [done|]. split; [done|]. rewrite Hw by set_solver. apply IH; [set_solver | done].
Qed.

Lemma chain_insert h p L x v : x ∉ L -> chain h p L -> chain (<[x := v]> h) p L.
Proof. intros Hx. apply chain_frame. intros y Hy. apply word_insert_ne. set_solver. Qed.

(** Every list is short: its elements are distinct starts of blocks. *)
Lemma list_short X live keep h0 ma m L :
  wf X live keep h0 ma -> NoDup L -> (forall o, o ∈ L -> head ma o m false) ->
  (length L <= length (blocks ma))%nat.
Proof.
  intros W Hnd HL. rewrite <- (length_fmap (fun o => Z.to_nat (block_index ma o)) L).
  assert (G := wf_geo W). rewrite <- (length_seq (length (blocks ma)) 0).
  apply submseteq_length, NoDup_submseteq.
  - apply NoDup_fmap_2_strong; [|done]. intros x y Hx Hy E.
    apply HL in Hx, Hy. eapply block_index_inj; [done | apply Hx | apply Hy|].
    destruct Hx as (_ & Hx & _), Hy as (_ & Hy & _). unfold ent in *.
    apply zlookup_range in Hx, Hy. lia.
  - intros i Hi. apply list_elem_of_fmap in Hi as (o & -> & Ho). apply HL in Ho.
    destruct Ho as (_ & He & _). unfold ent in He. apply zlookup_range in He.
    apply elem_of_seq. lia.
Qed.

(** The value of a link pointer, and the pointers of a list. *)
Definition ptr_val (ma : memarea) (m : Z) (p : linkptr) : option Z :=
  match p with PHead => zlookup (freelist ma) m | PLink off => Some (word (heap ma) off) end.
Definition ptr_ok (ma : memarea) (m : Z) (p : linkptr) (L : list Z) : Prop :=
  match p with PHead => 0 <= m < 32 | PLink off => in_heap ma off = true /\ off ∉ L end.

(** The effect of unlinking on the words and heads of the free lists. *)
Record unlinked (m : Z) (p : linkptr) (L1 L2 : list Z) (ma ma' : memarea) : Prop := {
  unl_layout : same_layout ma ma';
  unl_length : length (freelist ma') = length (freelist ma);
  unl_other m' : m' <> m -> zlookup (freelist ma') m' = zlookup (freelist ma) m';
  unl_head off : p = PLink off -> freelist ma' = freelist ma;
  unl_words a : a ∉ L1 -> p <> PLink a -> word (heap ma') a = word (heap ma) a;
  unl_chain : exists v, ptr_val ma' m p = Some v /\ chain (heap ma') v (L1 ++ L2)
}.

Lemma remove_loop_spec m b L2 : forall L1 fuel p ma v,
  (length L1 < fuel)%nat -> geometry ma ->
  ptr_val ma m p = Some v -> ptr_ok ma m p (L1 ++ b :: L2) ->
  chain (heap ma) v (L1 ++ b :: L2) -> NoDup (L1 ++ b :: L2) ->
  (forall x, x ∈ L1 ++ b :: L2 -> in_heap ma x = true) ->
  wp (remove_loop fuel m b p) (fun r ma' => r = true /\ unlinked m p L1 L2 ma ma') ma.
Proof.
  induction L1 as [|x L1 IH]; intros fuel p ma v Hf G Hv Hp Hc Hnd Hin;
    (destruct fuel as [|fuel]; [simpl in Hf; lia|]); simpl in Hc; destruct Hc as (-> & Hx & Hc).
  - simpl. apply wp_bind.
    assert (wp (load_ptr m p) (fun r ma' => r = b /\ ma' = ma) ma) as Hload.
    { destruct p; simpl in *; [by eapply wp_get_freelist|].
      destruct Hp. apply wp_load_word; [done|]. split; [by simplify_eq | done]. }
    eapply wp_mono; [exact Hload|]. intros r ma' [-> ->]. clear Hload.
    replace (EMPTY =? b) with false by (symmetry; b2p; done). rewrite Z.eqb_refl. simpl.
    wp_step. apply wp_load_word; [apply Hin; set_solver|].
    destruct p as [|off]; simpl in Hp; apply wp_bind.
    + apply wp_put_freelist; [done..|]. apply wp_ret. split; [done|].
      split; simpl; try done.
      * apply zinsert_length.
      * intros m' Hm'. by apply zlookup_zinsert_ne.
      * exists (word (heap ma) b). split; [|done].
        apply zlookup_zinsert_eq. rewrite (geo_lists _ G). lia.
    + destruct Hp as [Hoff Hni]. apply wp_store_word; [done|]. apply wp_ret. split; [done|].
      split; simpl; try done.
      * intros a _ Ha. apply word_insert_ne. naive_solver.
      * exists (word (heap ma) b). rewrite word_insert_eq. split; [done|].
        apply chain_insert; [set_solver | done].
  - simpl. apply wp_bind.
    assert (wp (load_ptr m p) (fun r ma' => r = x /\ ma' = ma) ma) as Hload.
    { destruct p; simpl in *; [by eapply wp_get_freelist|].
      destruct Hp. apply wp_load_word; [done|]. split; [by simplify_eq | done]. }
    eapply wp_mono; [exact Hload|]. intros r ma' [-> ->]. clear Hload.
    rewrite <- app_comm_cons in *. apply list.NoDup_cons in Hnd as [Hni Hnd].
    replace (EMPTY =? x) with false by (symmetry; b2p; done).
    replace (x =? b) with false by (symmetry; b2p; set_solver). simpl.
    eapply wp_mono.
    + apply (IH fuel (PLink x) ma (word (heap ma) x)); try done; simpl in *; [lia | | set_solver].
      split; [apply Hin; set_solver | done].
    + intros r ma' [-> U]. split; [done|]. destruct U as [Ul Uf Uo Uh Uw Uc].
      assert (freelist ma' = freelist ma) as Ef by (by eapply Uh).
      split; [exact Ul | exact Uf | exact Uo | done | |].
      * intros a Ha Hpa. apply Uw; [set_solver|]. intros [= ->]. set_solver.
      * destruct Uc as (w & [= <-] & Hcc). exists x. split.
        -- destruct p as [|off]; simpl in *; [by rewrite Ef|].
           destruct Hp as [_ Hoff]. rewrite Uw; [done | set_solver |]. intros [= ->]. set_solver.
        -- simpl. done.
Qed.

(** Routines that only relink free lists keep the invariant. *)
Lemma wf_relink X X' live keep h0 ma ma' :
  wf X live keep h0 ma -> same_layout ma ma' ->
  length (freelist ma') = length (freelist ma) ->
  (forall a, word (heap ma') a = word (heap ma) a \/ exists m, head ma a m false) ->
  lists X' ma' -> wf X' live keep h0 ma'.
Proof.
  intros W S Hlen Hw HL. pose proof (same_layout_head _ _ S) as E.
  destruct S as (El & Eu & Em & Eb). split.
  - destruct (wf_geo W). split; rewrite ?El, ?Eu, ?Em, ?Eb, ?Hlen; done.
  - intros i e. rewrite Eb. apply (wf_entry W).
  - rewrite El, Eu. apply (partition_proper _ _ _ _ E), (wf_part W).
  - intros o m. rewrite <- (E o m true). apply (wf_live W).
  - done.
  - apply (wf_keep W).
  - intros o m a Hk Ha. rewrite <- (wf_frame W o m a) by done.
    destruct (Hw a) as [->|[m' Hf]]; [done|]. exfalso.
    by eapply (free_not_kept _ _ _ _ _ _ _ _ _ W Hf Hk).
Qed.

Lemma remove_from_freelist_spec X live keep h0 ma m o :
  wf X live keep h0 ma -> head ma o m false -> o ∉ X ->
  wp (remove_from_freelist m o) (fun _ ma' => wf (o :: X) live keep h0 ma' /\ same_layout ma ma') ma.
Proof.
  intros W Ho HX. destruct (head_range _ _ _ _ _ _ _ _ W Ho) as (_ & _ & _ & _ & _ & Hm).
  destruct (wf_lists W m ltac:(lia)) as (p & L & Hp & Hc & Hnd & HL).
  assert (o ∈ L) as HoL by (apply HL; done).
  apply list_elem_of_split in HoL as (L1 & L2 & ->).
  assert (forall x, x ∈ L1 ++ o :: L2 -> head ma x m false) as Hfree.
  { intros x Hx. by apply HL in Hx as [? _]. }
  unfold remove_from_freelist. do 3 wp_step. eapply wp_mono.
  { apply (remove_loop_spec m o L2 L1 _ PHead ma p); try done; [|apply (wf_geo W)| simpl; lia|].
    - pose proof (list_short _ _ _ _ _ m (L1 ++ o :: L2) W Hnd Hfree) as Hs.
      rewrite length_app in Hs. simpl in *. lia.
    - intros x Hx. by eapply head_in_heap, Hfree. }
  intros r ma' [-> [S Hlen Hoth _ Hw (v & Hv & Hcv)]]. apply wp_assert; [done|].
  split; [|done]. pose proof (same_layout_head _ _ S) as E.
  apply list.NoDup_app in Hnd as Hnd'. destruct Hnd' as (Hnd1 & Hdis & Hnd2).
  apply list.NoDup_cons in Hnd2 as [Hno2 Hnd2].
  eapply wf_relink; [exact W | done | done | |].
  - intros a. destruct (decide (a ∈ L1)) as [Ha|Ha]; [right; exists m; apply Hfree; set_solver|].
    left. by apply Hw.
  - intros m' Hm'. destruct (decide (m' = m)) as [->|Hne].
    + exists v, (L1 ++ L2). split; [done|]. split; [done|]. split.
      * apply list.NoDup_app. set_solver.
      * intros o'. rewrite <- (E o' m false). specialize (HL o'). rewrite elem_of_app, elem_of_cons in HL.
        rewrite elem_of_app, not_elem_of_cons. split; [|intuition congruence].
        intros Hin. assert (o' <> o) by (intros ->; set_solver). intuition.
    + destruct (wf_lists W m' Hm') as (p' & L' & Hp' & Hc' & Hnd' & HL').
      exists p', L'. split; [by rewrite Hoth|]. split; [|split; [done|]].
      * eapply chain_frame; [|done]. intros x Hx. apply Hw; [|done]. intros Hx1.
        assert (head ma x m false) as F1 by (apply Hfree; set_solver).
        apply HL' in Hx as [F2 _]. by destruct (part_fun (wf_part W) F1 F2).
      * intros o'. rewrite <- (E o' m' false). rewrite HL'.
        split; [|set_solver]. intros [F1 F2]. split; [done|]. apply not_elem_of_cons. split; [|done].
        intros ->. by destruct (part_fun (wf_part W) F1 Ho).
Qed.

Lemma add_to_freelist_spec X live keep h0 ma m o :
  wf (o :: X) live keep h0 ma -> head ma o m false -> o ∉ X ->
  wp (add_to_freelist m o)
    (fun _ ma' => wf X live keep h0 ma' /\ same_layout ma ma' /\ zlookup (freelist ma') m = Some o) ma.
Proof.
  intros W Ho HX. destruct (head_range _ _ _ _ _ _ _ _ W Ho) as (Hml & H0 & Hup & Hpm & HE & Hm).
  assert (G := wf_geo W). pose proof (upper_lt_EMPTY _ G) as HEmpty.
  destruct (wf_lists W m ltac:(lia)) as (p & L & Hp & Hc & Hnd & HL).
  assert (o ∉ L) as HoL. { intros [_ Hn]%HL. set_solver. }
  unfold add_to_freelist. wp_step. wp_step. wp_step. apply wp_assert.
  { rewrite shl1_upper, shl1_eq by (done || lia). b2p. rewrite u32_small; [done|].
    unfold EMPTY in HEmpty. lia. }
  wp_step. eapply wp_get_freelist; [done|]. wp_step. apply wp_store_word.
  { by eapply head_in_heap. }
  apply wp_put_freelist; [by destruct G|lia|]. simpl.
  set (ma' := set_freelist _ _). assert (same_layout ma ma') as S by done.
  pose proof (same_layout_head _ _ S) as E.
  assert (zlookup (freelist ma') m = Some o) as Hhead.
  { apply zlookup_zinsert_eq. simpl. rewrite (geo_lists _ G). lia. }
  split; [|done]. eapply wf_relink; [exact W | done | simpl; by rewrite zinsert_length | |].
  - intros a. simpl. destruct (decide (o = a)) as [<-|]; [by right; exists m|].
    left. by apply word_insert_ne.
  - intros m' Hm'. destruct (decide (m' = m)) as [->|Hne].
    + exists o, (o :: L). split; [done|]. split; [|split].
      * simpl. rewrite word_insert_eq. split; [done|]. split; [done|]. by apply chain_insert.
      * by apply list.NoDup_cons.
      * intros o'. rewrite <- (E o' m false). rewrite elem_of_cons, HL.
        destruct (decide (o' = o)) as [->|]; set_solver.
    + destruct (wf_lists W m' Hm') as (p' & L' & Hp' & Hc' & Hnd' & HL').
      exists p', L'. split; [simpl; by rewrite zlookup_zinsert_ne by done|].
      split; [|split; [done|]].
      * simpl. apply chain_insert; [|done]. intros [_ Hn]%HL'. set_solver.
      * intros o'. rewrite <- (E o' m' false), HL'. split; [set_solver|].
        intros [F1 F2]. split; [done|]. apply not_elem_of_cons. split; [|done].
        intros ->. by destruct (part_fun (wf_part W) F1 Ho).
Qed.

(** ** Changes of the layout *)

(** An offset strictly inside a block has an unused element of size 0. *)
Lemma inner_entry X live keep h0 ma o m u a e :
  wf X live keep h0 ma -> head ma o m u -> o < a < o + 2 ^ m -> (2 ^ lower ma | a) ->
  ent ma a = Some e -> e = {| sizem := 0; used := false |}.
Proof.
  intros W Ho Ha Hd He. destruct e as [s us].
  destruct (decide (s = 0)) as [->|Hs].
  - f_equal. by apply (wf_entry W He).
  - exfalso. assert (head ma a s us) as Hh by done.
    destruct (head_range _ _ _ _ _ _ _ _ W Hh) as (_ & _ & _ & Hp & _).
    destruct (part_disj (wf_part W) Ho Hh ltac:(lia)); lia.
Qed.

(** [ma'] differs from [ma] in the [blocks] array only, and describes [H']. *)
Definition relayout (ma ma' : memarea) (H' : layout) : Prop :=
  lower ma' = lower ma /\ upper ma' = upper ma /\ mem ma' = mem ma /\
  freelist ma' = freelist ma /\ heap ma' = heap ma /\
  length (blocks ma') = length (blocks ma) /\ layout_eq (head ma') H'.

Lemma wf_relayout X X' live live' keep h0 ma ma' H' :
  wf X live keep h0 ma -> relayout ma ma' H' ->
  (forall i e, zlookup (blocks ma') i = Some e -> sizem e = 0 -> used e = false) ->
  partition (lower ma) (upper ma) H' ->
  (forall o m, H' o m true <-> live' !! o = Some m) -> keep ⊆ live' ->
  (forall o m, head ma o m false /\ o ∉ X <-> H' o m false /\ o ∉ X') ->
  wf X' live' keep h0 ma'.
Proof.
  intros W (El & Eu & Em & Ef & Eh & Elen & E) Hent P Hlive Hkeep Hfree. symmetry in E. split.
  - destruct (wf_geo W). split; rewrite ?El, ?Eu, ?Em, ?Ef, ?Elen; done.
  - done.
  - rewrite El, Eu. by apply (partition_proper _ _ _ _ E).
  - intros o m. rewrite <- (E o m true). apply Hlive.
  - intros m Hm. destruct (wf_lists W m Hm) as (p & L & Hp & Hc & Hnd & HL).
    exists p, L. rewrite Ef, Eh. split; [done|]. split; [done|]. split; [done|].
    intros o. rewrite <- (E o m false), HL. apply Hfree.
  - done.
  - intros o m a. rewrite Eh. apply (wf_frame W).
Qed.

Lemma half_not_head X live keep h0 ma o m m' u' :
  wf X live keep h0 ma -> head ma o m false -> lower ma < m -> ~ head ma (o + 2 ^ (m - 1)) m' u'.
Proof.
  intros W Ho Hm Hh. destruct (head_range _ _ _ _ _ _ _ _ W Ho) as (? & _).
  destruct (head_range _ _ _ _ _ _ _ _ W Hh) as (_ & _ & _ & Hp & _).
  destruct (geo_bounds _ (wf_geo W)).
  pose proof (pow2_pred m ltac:(lia)). pose proof (pow2_pos (m - 1) ltac:(lia)).
  destruct (part_disj (wf_part W) Ho Hh ltac:(lia)); lia.
Qed.

Lemma wf_split X live keep h0 ma ma' o m :
  wf (o :: X) live keep h0 ma -> head ma o m false -> lower ma < m -> o + 2 ^ (m - 1) ∉ X ->
  relayout ma ma' (split_layout o m (head ma)) ->
  (forall i e, zlookup (blocks ma') i = Some e -> sizem e = 0 -> used e = false) ->
  wf (o + 2 ^ (m - 1) :: o :: X) live keep h0 ma'.
Proof.
  intros W Ho Hm HX R Hent. destruct (geo_bounds _ (wf_geo W)).
  pose proof (fun m' u' => half_not_head _ _ _ _ _ _ _ m' u' W Ho Hm) as Hnh.
  eapply wf_relayout; [exact W | exact R | done | | | apply (wf_keep W) |].
  - apply split_partition; [lia | apply (wf_part W) | done | done].
  - intros o' m'. rewrite <- (wf_live W). unfold split_layout. case_decide as D; [|done].
    split; [by intros [_ ?]|]. intros Hh. exfalso. destruct D as [->| ->].
    + by destruct (part_fun (wf_part W) Ho Hh).
    + by eapply Hnh.
  - intros o' m'. unfold split_layout. case_decide as D.
    + split; intros [F1 F2]; [|set_solver]. destruct D as [->| ->]; [set_solver|].
      exfalso. by eapply Hnh.
    + set_solver.
Qed.

Lemma wf_merge X live keep h0 ma ma' o m l :
  wf (buddy_of o m :: o :: X) live keep h0 ma -> head ma o m false -> head ma (buddy_of o m) m false ->
  m < upper ma -> l = Z.min o (buddy_of o m) -> o ∉ X -> buddy_of o m ∉ X ->
  relayout ma ma' (merge_layout l m (head ma)) ->
  (forall i e, zlookup (blocks ma') i = Some e -> sizem e = 0 -> used e = false) ->
  wf (l :: X) live keep h0 ma'.
Proof.
  intros W Ho Hb Hm Hl HX HX' R Hent. destruct (geo_bounds _ (wf_geo W)).
  destruct (head_range _ _ _ _ _ _ _ _ W Ho) as (? & _ & _ & Hp & _).
  pose proof (part_align (wf_part W) Ho) as Ha.
  assert (((o = l /\ buddy_of o m = l + 2 ^ m) \/ (o = l + 2 ^ m /\ buddy_of o m = l)) /\ (2 ^ (m + 1) | l))
    as [Hcase Hal].
  { destruct (buddy_cases o m ltac:(lia) Ha) as [[E Hd]|[E Hd]]; rewrite E in *.
    - rewrite Z.min_l in Hl by lia. subst l. split; [left; lia | done].
    - rewrite Z.min_r in Hl by lia. subst l. split; [right; lia | done]. }
  assert (head ma l m false /\ head ma (l + 2 ^ m) m false) as [Hl1 Hl2].
  { destruct Hcase as [[E1 E2]|[E1 E2]]; rewrite ?E1, ?E2 in *; done. }
  eapply wf_relayout; [exact W | exact R | done | | | apply (wf_keep W) |].
  - eapply merge_partition; [lia | apply (wf_part W) | done..].
  - intros o' m'. rewrite <- (wf_live W). unfold merge_layout. case_decide as D.
    + subst o'. split; [by intros [_ ?]|]. intros Hh. exfalso. by destruct (part_fun (wf_part W) Hl1 Hh).
    + split; [by intros [_ ?]|]. intros Hh. split; [|done]. intros ->.
      by destruct (part_fun (wf_part W) Hl2 Hh).
  - intros o' m'. unfold merge_layout. case_decide as D.
    + subst o'. split; [|set_solver]. intros [_ F]. destruct Hcase as [[E1 E2]|[E1 E2]]; set_solver.
    + rewrite !not_elem_of_cons. destruct Hcase as [[E1 E2]|[E1 E2]]; rewrite E2, E1; naive_solver.
Qed.

Lemma wf_mark_used X live keep h0 ma ma' o m :
  wf (o :: X) live keep h0 ma -> head ma o m false -> o ∉ X ->
  relayout ma ma' (mark_layout o true (head ma)) ->
  (forall i e, zlookup (blocks ma') i = Some e -> sizem e = 0 -> used e = false) ->
  wf X (<[o := m]> live) keep h0 ma'.
Proof.
  intros W Ho HX R Hent. destruct (geo_bounds _ (wf_geo W)).
  assert (live !! o = None) as Hnone.
  { destruct (live !! o) as [m'|] eqn:El; [|done]. apply (wf_live W) in El.
    by destruct (part_fun (wf_part W) Ho El). }
  eapply wf_relayout; [exact W | exact R | done | | | |].
  - apply mark_partition, (wf_part W).
  - intros o' m'. unfold mark_layout. case_decide as D.
    + subst o'. rewrite lookup_insert_eq. split.
      * intros (_ & u0 & Hu). by destruct (part_fun (wf_part W) Ho Hu) as [-> _].
      * intros [= <-]. eauto.
    + rewrite lookup_insert_ne by done. apply (wf_live W).
  - etrans; [apply (wf_keep W) | by apply insert_subseteq].
  - intros o' m'. unfold mark_layout. case_decide as D; [subst o'; set_solver|]. set_solver.
Qed.

Lemma wf_mark_free X live keep h0 ma ma' o m :
  wf X live keep h0 ma -> head ma o m true -> keep ⊆ delete o live ->
  relayout ma ma' (mark_layout o false (head ma)) ->
  (forall i e, zlookup (blocks ma') i = Some e -> sizem e = 0 -> used e = false) ->
  wf (o :: X) (delete o live) keep h0 ma'.
Proof.
  intros W Ho Hk R Hent. destruct (geo_bounds _ (wf_geo W)).
  eapply wf_relayout; [exact W | exact R | done | | | done |].
  - apply mark_partition, (wf_part W).
  - intros o' m'. unfold mark_layout. case_decide as D.
    + subst o'. rewrite lookup_delete_eq. naive_solver.
    + rewrite lookup_delete_ne by done. apply (wf_live W).
  - intros o' m'. unfold mark_layout. case_decide as D; [subst o'|set_solver].
    split; [|set_solver]. intros [F _]. by destruct (part_fun (wf_part W) Ho F).
Qed.

(** The effect of one or two writes to [blocks], as layouts. *)
Lemma upd_mark ma o m u u' :
  geometry ma -> head ma o m u -> 0 <= o < 2 ^ upper ma ->
  relayout ma (upd o {| sizem := m; used := u' |} ma) (mark_layout o u' (head ma)).
Proof.
  intros G Ho Hr. do 5 (split; [done|]). split; [simpl; apply zinsert_length|].
  intros o' m' v. rewrite head_upd by (try done; apply Ho). unfold mark_layout.
  case_decide; [subst o'|done]. split.
  - intros [[= -> ->] _]. eauto.
  - intros [-> [u0 Hu0]]. destruct Ho as (_ & He & Hm), Hu0 as (_ & He' & _).
    rewrite He in He'. by simplify_eq.
Qed.

Lemma upd_upd_relayout ma a b ea eb H' :
  geometry ma -> (2 ^ lower ma | a) -> (2 ^ lower ma | b) ->
  0 <= a < 2 ^ upper ma -> 0 <= b < 2 ^ upper ma -> a <> b ->
  (forall o m u, H' o m u <->
    if decide (o = a) then ea = {| sizem := m; used := u |} /\ m <> 0
    else if decide (o = b) then eb = {| sizem := m; used := u |} /\ m <> 0 else head ma o m u) ->
  relayout ma (upd b eb (upd a ea ma)) H'.
Proof.
  intros G Ha Hb Ra Rb Hne HH. do 5 (split; [done|]).
  split; [simpl; by rewrite !zinsert_length|]. intros o m u. rewrite HH.
  rewrite head_upd by (done || by apply upd_geometry).
  destruct (decide (o = b)) as [->|]; [by rewrite decide_False by done|].
  by rewrite head_upd by done.
Qed.

Lemma upd_split ma o m :
  geometry ma -> head ma o m false -> lower ma < m -> (2 ^ m | o) -> 0 <= o -> o + 2 ^ m <= 2 ^ upper ma ->
  relayout ma (upd (o + 2 ^ (m - 1)) {| sizem := m - 1; used := false |}
                 (upd o {| sizem := m - 1; used := false |} ma))
    (split_layout o m (head ma)).
Proof.
  intros G Ho Hm Ha H0 Hup. destruct (geo_bounds _ G).
  pose proof (pow2_pred m ltac:(lia)). pose proof (pow2_pos (m - 1) ltac:(lia)).
  apply upd_upd_relayout; try lia; try done.
  - apply Ho.
  - apply Z.divide_add_r; [apply Ho | apply pow2_divide; lia].
  - intros o' m' u'. unfold split_layout. repeat case_decide; try naive_solver lia.
    all: split; [intros [-> ->]; split; [done | lia] | intros [[= -> ->] _]; done].
Qed.

Lemma upd_merge ma o m :
  geometry ma -> head ma o m false -> head ma (o + 2 ^ m) m false -> (2 ^ (m + 1) | o) ->
  0 <= m -> 0 <= o -> o + 2 ^ m < 2 ^ upper ma ->
  relayout ma (upd (o + 2 ^ m) {| sizem := 0; used := false |}
                 (upd o {| sizem := m + 1; used := false |} ma))
    (merge_layout o m (head ma)).
Proof.
  intros G Ho Hb Ha Hm H0 Hup. pose proof (pow2_pos m ltac:(lia)).
  apply upd_upd_relayout; try lia; try done; [apply Ho | apply Hb|].
  intros o' m' u'. unfold merge_layout. repeat case_decide; subst; try lia.
  - split; [intros [-> ->]; split; [done | lia] | intros [[= -> ->] _]; done].
  - naive_solver.
  - naive_solver.
Qed.
