(* ===== verification/BuddyProofs.v ===== *)
(** * The buddy allocator: functional correctness

    The specification of every routine of buddy.c on the representation
    invariant, and the theorems on allocation and release. *)

From S2P Require Import Prelude Constants Buddy BuddyLayout BuddyInv.

(** ** mforsize *)

Lemma mforsize_loop_bound fuel n : forall k,
  0 <= k <= 31 -> 2 ^ k <= 2 * n \/ k = 0 -> 0 <= n < 2 ^ 31 -> (32 - k <= Z.of_nat fuel) ->
  exists m, mforsize_loop fuel n (2 ^ k) k = Some m /\ k <= m <= 31 /\ n < 2 ^ m /\ (m = 0 \/ 2 ^ (m - 1) <= n \/ m = k).
Proof.
  induction fuel as [|fuel IH]; intros k Hk Hle Hn Hf; [lia|]. simpl.
  destruct (Z.leb_spec (2 ^ k) n) as [Hc|Hc].
  - assert (k < 31) as Hk31.
    { destruct (Z.lt_ge_cases k 31); [done|]. assert (k = 31) as -> by lia. lia. }
    rewrite (u32_small (k + 1)) by lia.
    replace (2 ^ k * 2) with (2 ^ (k + 1)) by (rewrite pow2_succ by lia; lia).
    rewrite u32_small by (pose proof (pow2_pos (k + 1)); pose proof (pow2_lt_32 (k + 1)); lia).
    destruct (IH (k + 1)) as (m & Hm & Hkm & Hlt & Hlow); [lia | left; rewrite pow2_succ; lia | done | lia|].
    exists m. split; [done|]. split; [lia|]. split; [done|]. right; left.
    destruct Hlow as [->|[?| ->]]; [lia | done |]. by replace (k + 1 - 1) with k by lia.
  - exists k. split; [done|]. split; [lia|]. split; [done|]. by right; right.
Qed.

(** The exponent [mforsize] computes: the least one, and at least [lower],
    whose power of two is strictly above the request. *)
Definition size_exponent (lower nbytes m : Z) : Prop :=
  nbytes < 2 ^ m /\ lower <= m /\ (m = lower \/ 2 ^ (m - 1) <= nbytes).

Lemma mforsize_spec ma n :
  geometry ma -> 0 <= n < 2 ^ 31 ->
  wp (mforsize n) (fun m ma' => ma' = ma /\ m <= 31 /\ size_exponent (lower ma) n m) ma.
Proof.
  intros G Hn. destruct (geo_bounds _ G). unfold mforsize. do 2 wp_step.
  destruct (mforsize_loop_bound 33 n 0) as (m & Hm & Hk & Hlt & Hlow); [lia | by right | done | lia|].
  change (2 ^ 0) with 1 in Hm. rewrite Hm. apply wp_ret. split; [done|].
  destruct (Z.leb_spec (lower ma) m) as [Hl|Hl].
  - split; [lia|]. split; [done|]. split; [done|].
    destruct Hlow as [->|[?| ->]]; [left; lia | by right | left; lia].
  - split; [lia|]. split; [|split; [lia | by left]].
    apply Z.lt_le_trans with (2 ^ m); [done | apply pow2_le; lia].
Qed.

(** ** buddy_alloc *)

(** What a non-empty free list has at its head. *)
Lemma freelist_head X live keep h0 ma m p :
  wf X live keep h0 ma -> 0 <= m < 32 -> zlookup (freelist ma) m = Some p -> p <> EMPTY ->
  head ma p m false /\ p ∉ X.
Proof.
  intros W Hm Hp HE. destruct (wf_lists W m Hm) as (p' & L & Hp' & Hc & _ & HL).
  rewrite Hp in Hp'. simplify_eq. destruct L as [|x L]; [done|]. destruct Hc as (-> & _ & _).
  apply HL. set_solver.
Qed.

Lemma freelist_empty X live keep h0 ma m :
  wf X live keep h0 ma -> 0 <= m < 32 -> zlookup (freelist ma) m = Some EMPTY ->
  forall o, head ma o m false -> o ∈ X.
Proof.
  intros W Hm Hp o Ho. destruct (wf_lists W m Hm) as (p' & L & Hp' & Hc & _ & HL).
  rewrite Hp in Hp'. simplify_eq. destruct (decide (o ∈ X)); [done|].
  assert (o ∈ L) as HoL by (apply HL; done).
  destruct L as [|x L]; [set_solver|]. destruct Hc as (-> & ? & _). done.
Qed.

Lemma freelist_some X live keep h0 ma m :
  wf X live keep h0 ma -> 0 <= m < 32 -> exists p, zlookup (freelist ma) m = Some p.
Proof. intros W Hm. destruct (wf_lists W m Hm) as (p & L & Hp & _). eauto. Qed.

Lemma head_ent ma o m u : head ma o m u -> ent ma o = Some {| sizem := m; used := u |}.
Proof. by intros (_ & ? & _). Qed.

(** The upper half of a free block that is being split has a clear entry, before and after the
    block's own entry is rewritten. *)
Lemma half_entry pend live keep h0 ma o cm e half :
  wf pend live keep h0 ma -> head ma o cm false -> o < half < o + 2 ^ cm -> o + 2 ^ cm <= 2 ^ upper ma ->
  (2 ^ lower ma | half) -> 0 <= o ->
  ent (upd o e ma) half = Some {| sizem := 0; used := false |}.
Proof.
  intros W Ho Hr Hup Hal Hpos. assert (G := wf_geo W).
  destruct (ent_is_Some ma half G ltac:(lia)) as [e2 He2].
  assert (e2 = {| sizem := 0; used := false |}) as ->.
  { apply (inner_entry pend live keep h0 ma o cm false half); done || lia. }
  unfold ent, upd. simpl. rewrite zlookup_zinsert_ne; [exact He2|].
  intros Ei. assert (o = half); [|lia]. eapply block_index_inj; [exact G | apply Ho | done | done].
Qed.

Lemma split_block_spec live keep h0 ma cm o :
  wf [] live keep h0 ma -> lower ma < cm <= upper ma ->
  zlookup (freelist ma) cm = Some o -> o <> EMPTY -> coalesced [o] (upper ma) (head ma) ->
  wp (split_block cm)
    (fun _ ma' => wf [] live keep h0 ma' /\ same_area ma ma' /\
       zlookup (freelist ma') (cm - 1) = Some o /\ coalesced [o] (upper ma) (head ma')) ma.
Proof.
  intros W Hcm Hp HE C. assert (G := wf_geo W). destruct (geo_bounds _ G) as [B1 B2].
  destruct (freelist_head _ _ _ _ _ cm o W ltac:(lia) Hp HE) as [Ho _].
  pose proof (pow2_pred cm ltac:(lia)). pose proof (pow2_pos (cm - 1) ltac:(lia)).
  unfold split_block. wp_step. eapply wp_get_freelist; [done|].
  wp_step. eapply wp_is_used; [by apply head_ent|]. wp_step. apply wp_assert; [done|].
  wp_step. eapply wp_get_sizem; [by apply head_ent|]. wp_step. apply wp_assert; [simpl; by b2p|].
  wp_step. eapply wp_mono; [apply remove_from_freelist_spec; [done | done | set_solver]|]. intros [] ma1 [W1 S1].
  pose proof (same_layout_head _ _ S1) as E1. destruct S1 as (El & Eu & Em & Eb).
  assert (head ma1 o cm false) as Ho1 by (by apply E1). clear Ho.
  assert (G1 := wf_geo W1). rewrite <- El in Hcm.
  destruct (head_range _ _ _ _ _ _ _ _ W1 Ho1) as (_ & Hpos & Hup & _).
  pose proof (part_align (wf_part W1) Ho1) as Ha. rewrite Eu in Hup.
  remember (o + 2 ^ (cm - 1)) as half2 eqn:Hhalf.
  assert (u32 (o + shl1 (cm - 1)) = half2) as ->.
  { rewrite shl1_eq, Hhalf by lia. apply u32_small. pose proof (pow2_lt_32 (upper ma) ltac:(lia)). lia. }
  assert (2 ^ lower ma1 | half2) as Hal2.
  { rewrite Hhalf. apply Z.divide_add_r; [apply Ho1 | apply pow2_divide; lia]. }
  wp_step. eapply wp_set_sizem; [by apply head_ent | lia |]. simpl.
  set (ma2 := upd o _ ma1). wp_step.
  assert (ent ma2 half2 = Some {| sizem := 0; used := false |}) as He2'.
  { apply (half_entry [o] live keep h0 ma1 o cm); [done | done | lia | rewrite Eu; lia | done | done]. }
  eapply wp_set_sizem; [exact He2' | lia |]. simpl. set (ma3 := upd half2 _ ma2).
  assert (relayout ma1 ma3 (split_layout o cm (head ma1))) as R.
  { subst half2. apply upd_split; try done; try lia. rewrite Eu. lia. }
  assert (wf [half2; o] live keep h0 ma3) as W3.
  { subst half2. eapply wf_split; [exact W1 | done | lia | set_solver | exact R |].
    apply upd_entry; [|simpl; lia]. apply upd_entry; [|simpl; lia].
    intros i e. apply (wf_entry W1). }
  destruct R as (_ & _ & _ & _ & _ & _ & E3).
  assert (head ma3 o (cm - 1) false) as Hh1.
  { apply E3. unfold split_layout. by rewrite decide_True by auto. }
  assert (head ma3 half2 (cm - 1) false) as Hh2.
  { apply E3. unfold split_layout. by rewrite decide_True by auto. }
  wp_step. eapply wp_is_used; [by apply head_ent|]. wp_step. apply wp_assert; [done|].
  wp_step. eapply wp_is_used; [by apply head_ent|]. wp_step. apply wp_assert; [done|].
  wp_step. eapply wp_mono.
  { apply (add_to_freelist_spec [o]); [done | done |].
    rewrite list_elem_of_singleton. lia. }
  intros [] ma4 (W4 & S4 & _). pose proof (same_layout_head _ _ S4) as E4.
  eapply wp_mono.
  { apply (add_to_freelist_spec []); [done | by apply E4 | set_solver]. }
  intros [] ma5 (W5 & S5 & Hf5). pose proof (same_layout_head _ _ S5) as E5.
  split; [done|]. split; [|split; [done|]].
  - apply same_layout_area in S4, S5. unfold same_area in *. simpl in *. naive_solver congruence.
  - apply (coalesced_proper _ _ _ _ E5), (coalesced_proper _ _ _ _ E4).
    apply (coalesced_proper _ _ (split_layout o cm (head ma1))); [by symmetry|].
    rewrite <- Eu. apply (split_coalesced (lower ma1)); [lia | apply (wf_part W1) | done | lia|].
    apply (coalesced_proper _ _ _ _ E1). by rewrite Eu.
Qed.

Lemma split_loop_spec live keep h0 o n : forall ma cm,
  wf [] live keep h0 ma -> lower ma <= cm - Z.of_nat n -> cm <= upper ma ->
  zlookup (freelist ma) cm = Some o -> o <> EMPTY -> coalesced [o] (upper ma) (head ma) ->
  wp (split_loop n cm)
    (fun _ ma' => wf [] live keep h0 ma' /\ same_area ma ma' /\
       zlookup (freelist ma') (cm - Z.of_nat n) = Some o /\ coalesced [o] (upper ma) (head ma')) ma.
Proof.
  induction n as [|n IH]; intros ma cm W Hlo Hup Hp HE C; cbn [split_loop].
  - apply wp_ret. rewrite Z.sub_0_r. done.
  - wp_step. eapply wp_mono; [by apply split_block_spec; try done; lia|].
    intros [] ma1 (W1 & (El & Eu & Em) & Hp1 & C1). eapply wp_mono.
    { apply (IH ma1 (cm - 1)); [done | lia | lia | done | done | by rewrite Eu]. }
    intros [] ma2 (W2 & (El2 & Eu2 & Em2) & Hp2 & C2). split; [done|]. split; [|split].
    + unfold same_area. by rewrite El2, Eu2, Em2.
    + by replace (cm - Z.of_nat (S n)) with (cm - 1 - Z.of_nat n) by lia.
    + by rewrite <- Eu.
Qed.

Lemma find_larger_spec live keep h0 ma fuel : forall cm,
  wf [] live keep h0 ma -> 0 <= cm -> upper ma - cm + 2 <= Z.of_nat fuel -> (0 < fuel)%nat ->
  wp (find_larger fuel cm)
    (fun r ma' => ma' = ma /\ cm <= r /\
       (forall k, cm <= k < r -> k <= upper ma -> zlookup (freelist ma) k = Some EMPTY) /\
       (r <= upper ma -> exists p, zlookup (freelist ma) r = Some p /\ p <> EMPTY)) ma.
Proof.
  induction fuel as [|fuel IH]; intros cm W Hcm Hf Hpos; [lia|].
  destruct (geo_bounds _ (wf_geo W)) as [B1 B2]. cbn [find_larger]. do 2 wp_step.
  apply wp_if; intros Hc; b2p; [|apply wp_ret; split; [done|]; split; [lia|]; split; intros; lia].
  destruct (freelist_some _ _ _ _ _ cm W ltac:(lia)) as [p Hp].
  wp_step. eapply wp_get_freelist; [done|]. apply wp_if; intros HE; b2p.
  - apply wp_ret. split; [done|]. split; [lia|]. split; [intros; lia|]. intros _. by exists p.
  - subst p. eapply wp_mono; [apply (IH (cm + 1) W); lia|].
    intros r ma' (-> & Hr & Hk & Hlast). split; [done|]. split; [lia|]. split; [|done].
    intros k Hk1 Hk2. destruct (decide (k = cm)) as [->|]; [done|]. apply Hk; lia.
Qed.

(** Unlinking does not look at the contents of [blocks]. *)
Lemma remove_loop_blocks B m o Q fuel : forall p ma,
  wp (remove_loop fuel m o p) (fun r ma' => Q r (set_blocks B ma')) ma ->
  wp (remove_loop fuel m o p) Q (set_blocks B ma).
Proof.
  induction fuel as [|fuel IH]; intros p ma; [done|]. cbn [remove_loop].
  intros Hw%wp_bind_inv. apply wp_bind. destruct p as [|off]; simpl in *.
  - unfold get_freelist, wp, bind, get, of_opt in Hw |- *. simpl in *.
    destruct (zlookup (freelist ma) m) as [cur|] eqn:Ez; [|done]. unfold ret in *.
    destruct (negb (EMPTY =? cur)); [|done]. destruct (cur =? o); [|by apply IH].
    unfold load_word, check_, bind, get, put_freelist, of_opt, put in Hw |- *. simpl in *.
    change (in_heap (set_blocks B ma) cur) with (in_heap ma cur).
    destruct (in_heap ma cur); [|done]. unfold ret, bind, get in *. simpl in *.
    by rewrite Ez in Hw |- *.
  - unfold load_word, wp, bind, get, check_ in Hw |- *. simpl in *.
    change (in_heap (set_blocks B ma) off) with (in_heap ma off).
    destruct (in_heap ma off) eqn:Ez; [|done]. unfold ret in *.
    destruct (negb (EMPTY =? word (heap ma) off)); [|done].
    destruct (word (heap ma) off =? o); [|by apply IH].
    unfold load_word, store_word, check_, bind, get, put in Hw |- *. simpl in *.
    change (in_heap (set_blocks B ma) (word (heap ma) off)) with (in_heap ma (word (heap ma) off)).
    destruct (in_heap ma (word (heap ma) off)); [|done]. unfold ret, bind, get in *. simpl in *.
    change (in_heap (set_blocks B ma) off) with (in_heap ma off).
    by rewrite Ez in Hw |- *.
Qed.

Lemma remove_from_freelist_blocks B m o (Q : unit -> memarea -> Prop) ma :
  length B = length (blocks ma) ->
  wp (remove_from_freelist m o) (fun r ma' => Q r (set_blocks B ma')) ma ->
  wp (remove_from_freelist m o) Q (set_blocks B ma).
Proof.
  intros HB Hw. unfold remove_from_freelist in *. apply wp_bind_inv in Hw.
  change (wp (found <- remove_loop (S (length (blocks ma))) m o PHead; assert_ found "found")
            (fun r ma' => Q r (set_blocks B ma')) ma) in Hw.
  apply wp_bind_inv in Hw. do 3 wp_step. change (blocks (set_blocks B ma)) with B. rewrite HB.
  apply remove_loop_blocks. eapply wp_mono; [exact Hw|]. intros r ma'. by destruct r.
Qed.

(** Taking the first block of free list [m]. *)
Lemma take_block_spec live h0 ma m o :
  wf [] live live h0 ma -> 0 <= m < 32 -> zlookup (freelist ma) m = Some o -> o <> EMPTY ->
  coalesced [o] (upper ma) (head ma) ->
  wp (set_used o true;; remove_from_freelist m o)
    (fun _ ma' => wf [] (<[o := m]> live) live h0 ma' /\ same_area ma ma' /\ live !! o = None /\
       coalesced [] (upper ma) (head ma')) ma.
Proof.
  intros W Hm Hp HE C. destruct (freelist_head _ _ _ _ _ m o W Hm Hp HE) as [Ho _].
  destruct (head_range _ _ _ _ _ _ _ _ W Ho) as (Hs & Hpos & Hup & Hpm & _).
  wp_step. eapply wp_set_used; [by apply head_ent|]. simpl.
  unfold upd. apply remove_from_freelist_blocks; [apply zinsert_length|].
  eapply wp_mono; [apply remove_from_freelist_spec; [done | done | set_solver]|].
  intros [] ma1 [W1 S1]. pose proof (same_layout_head _ _ S1) as E1.
  assert (head ma1 o m false) as Ho1 by (by apply E1).
  destruct S1 as (El & Eu & Em & Eb).
  assert (block_index ma1 o = block_index ma o) as Ei by (unfold block_index; by rewrite El).
  rewrite <- Ei, <- Eb.
  change (set_blocks _ ma1) with (upd o {| sizem := m; used := true |} ma1).
  assert (relayout ma1 (upd o {| sizem := m; used := true |} ma1) (mark_layout o true (head ma1))) as R.
  { eapply upd_mark; [apply (wf_geo W1) | done | rewrite Eu; lia]. }
  split; [|split; [done|split]].
  - eapply wf_mark_used; [exact W1 | done | set_solver | exact R |].
    apply upd_entry; [intros i e; apply (wf_entry W1) | simpl].
    destruct (geo_bounds _ (wf_geo W)). lia.
  - destruct (live !! o) as [m'|] eqn:Elive; [|done]. apply (wf_live W) in Elive.
    by destruct (part_fun (wf_part W) Ho Elive).
  - destruct R as (_ & _ & _ & _ & _ & _ & E2). symmetry in E2.
    apply (coalesced_proper _ _ _ _ E2), mark_used_coalesced.
    by apply (coalesced_proper _ _ _ _ E1).
Qed.

Lemma wf_rebase X live keep h0 ma : wf X live keep h0 ma -> wf X live live (heap ma) ma.
Proof. intros []. split; try done. Qed.

Lemma wf_keep_less X live keep keep' h0 ma :
  keep' ⊆ keep -> wf X live keep h0 ma -> wf X live keep' h0 ma.
Proof.
  intros Hk [? ? ? ? ? Hk' Hfr]. split; try done; [by etrans|].
  intros o m a Ho. apply Hfr. by eapply lookup_weaken.
Qed.

(** The words of the live blocks are untouched. *)
Definition live_words_kept (live : gmap Z Z) (ma ma' : memarea) : Prop :=
  forall o m a, live !! o = Some m -> o <= a < o + 2 ^ m -> word (heap ma') a = word (heap ma) a.

(** A free block that is large enough for a request. *)
Definition has_room (ma : memarea) (n : Z) : Prop := exists o m, head ma o m false /\ n < 2 ^ m.

Lemma size_exponent_least X live keep h0 ma n m o m' :
  wf X live keep h0 ma -> size_exponent (lower ma) n m -> head ma o m' false -> n < 2 ^ m' -> m <= m'.
Proof.
  intros W (Hlt & Hlo & Hleast) Ho Hn.
  destruct (head_range _ _ _ _ _ _ _ _ W Ho) as (Hs & _ & _ & _ & _ & Hm').
  destruct Hleast as [->|Hp]; [lia|]. destruct (Z.le_gt_cases m m'); [done|].
  assert (2 ^ m' <= 2 ^ (m - 1)) by (apply pow2_le; lia). lia.
Qed.

Lemma alloc_prepare (userland : bool) live ma n m :
  buddy_inv live ma -> has_room ma n -> size_exponent (lower ma) n m -> m <= 31 ->
  wp (f <- get_freelist m;
      if EMPTY =? f then
        ma <- get;
        cm <- find_larger 33 (m + 1);
        if upper ma <? cm then
          if userland then ret false else halt "Memory exhausted"
        else split_loop (Z.to_nat (cm - m)) cm;; ret true
      else ret true)
    (fun ok ma' => ok = true /\ wf [] live live (heap ma) ma' /\ same_area ma ma' /\ exists o,
       zlookup (freelist ma') m = Some o /\ o <> EMPTY /\ coalesced [o] (upper ma) (head ma')) ma.
Proof.
  intros [W C] (o' & m' & Ho' & Hn') Hsz Hm31. destruct (geo_bounds _ (wf_geo W)) as [B1 B2].
  pose proof (size_exponent_least _ _ _ _ _ _ _ _ _ W Hsz Ho' Hn') as Hle.
  assert (lower ma <= m) as Hlm by apply Hsz.
  destruct (head_range _ _ _ _ _ _ _ _ W Ho') as (Hs' & _).
  destruct (freelist_some _ _ _ _ _ m W ltac:(lia)) as [p Hp].
  wp_step. eapply wp_get_freelist; [done|]. apply wp_if; intros HE; b2p.
  - subst p. do 3 wp_step. eapply wp_mono; [eapply find_larger_spec; [exact W | lia | lia | lia]|].
    intros r ma' (-> & Hr & Hempty & Hlast).
    assert (r <= upper ma) as Hru.
    { destruct (Z.le_gt_cases r (upper ma)); [done|]. exfalso.
      assert (zlookup (freelist ma) m' = Some EMPTY) as Hm'.
      { destruct (decide (m' = m)) as [->|]; [done|]. apply Hempty; lia. }
      pose proof (freelist_empty _ _ _ _ _ m' W ltac:(lia) Hm' _ Ho'). set_solver. }
    replace (upper ma <? r) with false by (symmetry; b2p; lia).
    destruct (Hlast Hru) as (o & Ho & HoE). wp_step. eapply wp_mono.
    { apply (split_loop_spec live live (heap ma) o); [exact W | lia | lia | done | done|].
      eapply coalesced_weaken; [|exact C]. set_solver. }
    intros [] ma1 (W1 & S1 & Hf1 & C1). apply wp_ret. split; [done|]. split; [done|]. split; [done|].
    exists o. split; [|done]. by replace (r - Z.of_nat (Z.to_nat (r - m))) with m in Hf1 by lia.
  - apply wp_ret. split; [done|]. split; [done|]. split; [done|]. exists p.
    split; [done|]. split; [done|]. eapply coalesced_weaken; [|exact C]. set_solver.
Qed.

Lemma buddy_alloc_wp userland live ma n :
  buddy_inv live ma -> 0 <= n < 2 ^ 31 -> has_room ma n ->
  wp (buddy_alloc userland n)
    (fun p ma' => exists o m, p = mem ma + o /\ live !! o = None /\ size_exponent (lower ma) n m /\
       buddy_inv (<[o := m]> live) ma' /\ same_area ma ma' /\ live_words_kept live ma ma') ma.
Proof.
  intros I Hn Hroom. assert (G := wf_geo (proj1 I)). unfold buddy_alloc.
  wp_step. eapply wp_mono; [by apply mforsize_spec|]. intros m ma0 (-> & Hm31 & Hsz).
  apply wp_bind_assoc. eapply wp_mono; [by apply (alloc_prepare userland live ma n m)|].
  intros ok ma1 (-> & W1 & S1 & o & Hf & HoE & C1). cbn [negb].
  destruct (geo_bounds _ (wf_geo W1)) as [B1 B2]. assert (lower ma <= m) as Hlm by apply Hsz.
  destruct S1 as (El & Eu & Em).
  destruct (freelist_head _ _ _ _ _ m o W1 ltac:(lia) Hf HoE) as [Ho _].
  destruct (head_range _ _ _ _ _ _ _ _ W1 Ho) as (_ & Hpos & Hup & Hpm & _).
  wp_step. eapply wp_get_freelist; [done|]. wp_step. apply wp_assert; [b2p; congruence|].
  wp_step. eapply wp_is_used; [by apply head_ent|]. wp_step. apply wp_assert; [done|].
  wp_step. eapply wp_get_sizem; [by apply head_ent|]. wp_step. apply wp_assert; [simpl; by b2p|].
  apply wp_bind_assoc. eapply wp_mono.
  { apply take_block_spec; [exact W1 | lia | done | done | by rewrite Eu]. }
  intros [] ma2 (W2 & (El2 & Eu2 & Em2) & Hnone & C2). do 2 wp_step. apply wp_ret.
  exists o, m. split; [|split; [done|split; [done|split; [|split]]]].
  - rewrite Em2, Em, Z.add_comm. apply u32_small.
    destruct (geo_mem _ G). rewrite Eu in Hup. lia.
  - split; [by eapply wf_rebase | by rewrite Eu2].
  - unfold same_area. by rewrite El2, Eu2, Em2.
  - exact (wf_frame W2).
Qed.

(** Without a large enough free block the request fails, and the area is
    left as it was. *)
Lemma buddy_alloc_full userland live ma n :
  buddy_inv live ma -> 0 <= n < 2 ^ 31 -> ~ has_room ma n ->
  buddy_alloc userland n ma = if userland then Ok 0 ma else Halt "Memory exhausted" ma.
Proof.
  intros [W C] Hn Hno. assert (G := wf_geo W). destruct (geo_bounds _ G) as [B1 B2].
  pose proof (mforsize_spec ma n G Hn) as (m & ma0 & Em & -> & Hm31 & Hsz)%wp_ok.
  assert (lower ma <= m /\ n < 2 ^ m) as [Hlm Hnm] by (split; apply Hsz).
  assert (forall k, m <= k < 32 -> zlookup (freelist ma) k = Some EMPTY) as Hempty.
  { intros k Hk. destruct (freelist_some _ _ _ _ _ k W ltac:(lia)) as [p Hp].
    destruct (decide (p = EMPTY)) as [->|HE]; [done|]. exfalso. apply Hno.
    destruct (freelist_head _ _ _ _ _ k p W ltac:(lia) Hp HE) as [Hh _].
    exists p, k. split; [done|]. apply Z.lt_le_trans with (2 ^ m); [done | apply pow2_le; lia]. }
  pose proof (find_larger_spec live live (heap ma) ma 33 (m + 1) W ltac:(lia) ltac:(lia) ltac:(lia))
    as (r & ma0 & Er & -> & Hr & _ & Hlast)%wp_ok.
  assert (upper ma < r) as Hru.
  { destruct (Z.lt_ge_cases (upper ma) r) as [?|Hge]; [done|].
    destruct (Hlast Hge) as (p & Hp & HE). rewrite Hempty in Hp by lia. by simplify_eq. }
  unfold buddy_alloc, bind. rewrite Em. unfold get_freelist, bind, get, of_opt.
  rewrite Hempty by lia. unfold ret. rewrite Z.eqb_refl, Er.
  replace (upper ma <? r) with true by (symmetry; b2p; done). by destruct userland.
Qed.

Lemma has_room_dec live ma n :
  buddy_inv live ma -> 0 <= n < 2 ^ 31 -> has_room ma n \/ ~ has_room ma n.
Proof.
  intros [W C] Hn. assert (G := wf_geo W). destruct (geo_bounds _ G) as [B1 B2].
  pose proof (mforsize_spec ma n G Hn) as (m & ma0 & _ & -> & Hm31 & Hsz)%wp_ok.
  assert (lower ma <= m /\ n < 2 ^ m) as [Hlm Hnm] by (split; apply Hsz).
  pose proof (find_larger_spec live live (heap ma) ma 33 m W ltac:(lia) ltac:(lia) ltac:(lia))
    as (r & ma0 & _ & -> & Hr & Hempty & Hlast)%wp_ok.
  destruct (Z.le_gt_cases r (upper ma)) as [Hle|Hgt].
  - left. destruct (Hlast Hle) as (p & Hp & HE).
    destruct (freelist_head _ _ _ _ _ r p W ltac:(lia) Hp HE) as [Hh _].
    exists p, r. split; [done|]. apply Z.lt_le_trans with (2 ^ m); [done | apply pow2_le; lia].
  - right. intros (o & k & Ho & Hk).
    pose proof (size_exponent_least _ _ _ _ _ _ _ _ _ W Hsz Ho Hk) as Hmk.
    destruct (head_range _ _ _ _ _ _ _ _ W Ho) as (Hs & _).
    pose proof (freelist_empty _ _ _ _ _ k W ltac:(lia) (Hempty k ltac:(lia) ltac:(lia)) _ Ho) as Hx.
    by apply not_elem_of_nil in Hx.
Qed.

(** The same, read off a run that returned. *)
Lemma buddy_alloc_inv live ma n p ma' :
  buddy_inv live ma -> 0 <= n < 2 ^ 31 -> buddy_alloc false n ma = Ok p ma' ->
  exists o m, p = mem ma + o /\ live !! o = None /\ size_exponent (lower ma) n m /\
    buddy_inv (<[o := m]> live) ma' /\ same_area ma ma' /\ live_words_kept live ma ma'.
Proof.
  intros I Hn E. destruct (has_room_dec live ma n I Hn) as [Hr|Hno].
  - pose proof (buddy_alloc_wp false live ma n I Hn Hr) as Hw. unfold wp in Hw. by rewrite E in Hw.
  - rewrite (buddy_alloc_full false live ma n I Hn Hno) in E. done.
Qed.

(** ** buddy_free *)

Lemma get_buddy_spec X live keep h0 ma o m u :
  wf X live keep h0 ma -> head ma o m u ->
  wp (get_buddy o) (fun b ma' => b = buddy_of o m /\ ma' = ma) ma.
Proof.
  intros W Ho. destruct (head_range _ _ _ _ _ _ _ _ W Ho) as (Hs & Hpos & Hup & Hpm & _ & Hm).
  unfold get_buddy. do 3 wp_step. eapply wp_get_sizem; [by apply head_ent|].
  wp_step. apply wp_assert; [simpl; b2p; split; b2p; lia|]. apply wp_ret. split; [|done].
  apply get_buddy_value; [done|]. destruct (geo_bounds _ (wf_geo W)).
  pose proof (pow2_lt_32 (upper ma) ltac:(lia)). lia.
Qed.

(** One round of the merging loop, after its test succeeded. *)
Lemma merge_round live keep h0 ma m o :
  wf [o] live keep h0 ma -> head ma o m false -> head ma (buddy_of o m) m false -> m < upper ma ->
  coalesced [o] (upper ma) (head ma) ->
  let l := Z.min o (buddy_of o m) in
  wp (remove_from_freelist m (buddy_of o m);;
      set_sizem (if buddy_of o m <? o then buddy_of o m else o) (m + 1);;
      set_sizem (if buddy_of o m <? o then o else buddy_of o m) 0)
    (fun _ ma' => wf [l] live keep h0 ma' /\ head ma' l (m + 1) false /\ same_area ma ma' /\
       coalesced [l] (upper ma) (head ma')) ma.
Proof.
  intros W Ho Hb Hmu C l. destruct (geo_bounds _ (wf_geo W)) as [B1 B2].
  destruct (head_range _ _ _ _ _ _ _ _ W Ho) as (Hs & Hpos & Hup & Hpm & _ & Hm).
  destruct (head_range _ _ _ _ _ _ _ _ W Hb) as (_ & Hbpos & Hbup & _).
  pose proof (part_align (wf_part W) Ho) as Ha. pose proof (buddy_of_ne o m ltac:(lia)) as Hne.
  wp_step. eapply wp_mono.
  { apply (remove_from_freelist_spec [o]); [exact W | exact Hb | by rewrite list_elem_of_singleton]. }
  intros [] ma1 [W1 S1]. pose proof (same_layout_head _ _ S1) as E1.
  destruct S1 as (El & Eu & Em & Eb).
  assert (Ho1 := proj1 (E1 _ _ _) Ho). assert (Hb1 := proj1 (E1 _ _ _) Hb).
  assert (head ma1 l m false /\ head ma1 (l + 2 ^ m) m false /\ (2 ^ (m + 1) | l) /\
          (if buddy_of o m <? o then buddy_of o m else o) = l /\
          (if buddy_of o m <? o then o else buddy_of o m) = l + 2 ^ m /\ l + 2 ^ m < 2 ^ upper ma /\ 0 <= l)
    as (Hl1 & Hl2 & Hal & -> & -> & Hlup & Hlpos).
  { unfold l. destruct (buddy_cases o m ltac:(lia) Ha) as [[E Hd]|[E Hd]]; rewrite E in *.
    - rewrite Z.min_l by lia. destruct (Z.ltb_spec (o + 2 ^ m) o); [lia|]. repeat split; try done; try apply Ho1; try apply Hb1; lia.
    - rewrite Z.min_r by lia. destruct (Z.ltb_spec (o - 2 ^ m) o); [|lia].
      replace (o - 2 ^ m + 2 ^ m) with o by lia. repeat split; try done; try apply Ho1; try apply Hb1; lia. }
  wp_step. eapply wp_set_sizem; [by apply head_ent | lia |]. simpl.
  eapply wp_set_sizem; [ | lia | ].
  { unfold ent, upd. simpl. rewrite zlookup_zinsert_ne; [apply (head_ent _ _ _ _ Hl2)|].
    intros Ei. assert (l = l + 2 ^ m); [|lia].
    eapply block_index_inj; [apply (wf_geo W1) | apply Hl1 | apply Hl2 | done]. }
  simpl. set (ma3 := upd (l + 2 ^ m) _ _).
  assert (relayout ma1 ma3 (merge_layout l m (head ma1))) as R.
  { apply upd_merge; try done; [apply (wf_geo W1) | lia | by rewrite Eu]. }
  split; [|split; [|split; [done|]]].
  - eapply (wf_merge []); [exact W1 | exact Ho1 | exact Hb1 | by rewrite Eu | done | set_solver | set_solver | exact R |].
    apply upd_entry; [|done]. apply upd_entry; [intros i e; apply (wf_entry W1) | simpl; lia].
  - destruct R as (_ & _ & _ & _ & _ & _ & E3). apply E3. unfold merge_layout. by rewrite decide_True.
  - destruct R as (_ & _ & _ & _ & _ & _ & E3). symmetry in E3. apply (coalesced_proper _ _ _ _ E3).
    eapply (merge_coalesced (lower ma1)); [lia | rewrite <- Eu; apply (wf_part W1) | exact Ho1 | done | | |].
    + unfold l. lia.
    + unfold l. destruct (buddy_cases o m ltac:(lia) Ha) as [[-> _]|[-> _]]; lia.
    + by apply (coalesced_proper _ _ _ _ E1).
Qed.

Lemma merge_loop_spec live keep h0 fuel : forall ma m o,
  wf [o] live keep h0 ma -> head ma o m false -> coalesced [o] (upper ma) (head ma) ->
  upper ma - m < Z.of_nat fuel ->
  wp (merge_loop fuel m o (buddy_of o m))
    (fun r ma' => wf [r.2] live keep h0 ma' /\ head ma' r.2 r.1 false /\ same_area ma ma' /\
       coalesced [] (upper ma) (head ma')) ma.
Proof.
  induction fuel as [|fuel IH]; intros ma m o W Ho C Hf;
    destruct (head_range _ _ _ _ _ _ _ _ W Ho) as (Hs & Hpos & Hup & Hpm & _ & Hm); [lia|].
  destruct (geo_bounds _ (wf_geo W)) as [B1 B2].
  pose proof (part_align (wf_part W) Ho) as Ha. cbn [merge_loop]. do 2 wp_step.
  assert (wp (if m <? upper ma then
               u <- is_used (buddy_of o m);
               if negb u then sz <- get_sizem (buddy_of o m); ret (sz =? m) else ret false
             else ret false)
          (fun go ma' => ma' = ma /\ (go = true <-> m < upper ma /\ head ma (buddy_of o m) m false)) ma) as Htest.
  { apply wp_if; intros Hmu; b2p; [|apply wp_ret; split; [done|]; split; [done|lia]].
    destruct (buddy_of_range o m (upper ma) ltac:(lia) Ha Hpos Hup) as [Hb0 Hb1].
    destruct (ent_is_Some ma (buddy_of o m) (wf_geo W) ltac:(lia)) as [[s u] He].
    assert (2 ^ lower ma | buddy_of o m) as Hal.
    { etrans; [|apply buddy_of_aligned; [lia | exact Ha]]. apply pow2_divide. lia. }
    wp_step. eapply wp_is_used; [exact He|]. apply wp_if; intros Hu; simpl in Hu; b2p; subst u.
    - wp_step. eapply wp_get_sizem; [exact He|]. apply wp_ret. split; [done|]. simpl.
      rewrite Z.eqb_eq. split; [intros ->; split; [done|]; split; [done|]; split; [done | lia]|].
      intros (_ & _ & He' & _). rewrite He in He'. by simplify_eq.
    - apply wp_ret. split; [done|]. split; [done|]. intros (_ & _ & He' & _).
      rewrite He in He'. by simplify_eq. }
  wp_step. eapply wp_mono; [exact Htest|]. clear Htest. intros go ma' [-> Hgo]. apply wp_if; intros Eg.
  - destruct (proj1 Hgo Eg) as [Hmu Hb].
    pose proof (merge_round _ _ _ _ _ _ W Ho Hb Hmu C) as R%wp_bind_inv.
    wp_step. eapply wp_mono; [exact R|]. clear R. intros [] maa R%wp_bind_inv.
    wp_step. eapply wp_mono; [exact R|]. clear R. intros [] mab R.
    wp_step. eapply wp_mono; [exact R|]. clear R. intros [] ma1 (W1 & Hl & (El & Eu & Em) & C1).
    rewrite <- Eu in C1. wp_step.
    replace (if buddy_of o m <? o then buddy_of o m else o) with (Z.min o (buddy_of o m)).
    2:{ destruct (Z.ltb_spec (buddy_of o m) o); lia. }
    eapply wp_mono; [by eapply get_buddy_spec|]. intros b ma2 [-> ->].
    eapply wp_mono; [apply IH; [done..|rewrite Eu; lia]|].
    intros [m' o'] ma2 (W2 & Ho2 & (El2 & Eu2 & Em2) & C2). simpl in *.
    split; [done|]. split; [done|]. split; [|by rewrite <- Eu].
    unfold same_area. by rewrite El2, Eu2, Em2.
  - apply wp_ret. simpl. split; [done|]. split; [done|]. split; [done|].
    eapply (stop_coalesced (lower ma)); [lia | apply (wf_part W) | exact Ho | | done].
    intros Hmu Hb. rewrite (proj2 Hgo) in Eg; done.
Qed.

Lemma buddy_free_wp live ma o m :
  buddy_inv live ma -> live !! o = Some m ->
  wp (buddy_free (mem ma + o))
    (fun _ ma' => buddy_inv (delete o live) ma' /\ same_area ma ma' /\
       live_words_kept (delete o live) ma ma') ma.
Proof.
  intros [W C] Hlive. assert (G := wf_geo W). destruct (geo_bounds _ G) as [B1 B2].
  assert (head ma o m true) as Ho by (by apply (wf_live W)).
  destruct (head_range _ _ _ _ _ _ _ _ W Ho) as (Hs & Hpos & Hup & Hpm & _ & Hm).
  destruct (geo_mem _ G) as [M1 M2]. unfold buddy_free.
  replace (mem ma + o =? 0) with false by (symmetry; b2p; lia). do 3 wp_step.
  apply wp_assert.
  { rewrite shl1_upper, u32_small by (done || lia). b2p. split; b2p; lia. }
  replace (u32 (mem ma + o - mem ma)) with o
    by (rewrite u32_small; [lia|]; replace (mem ma + o - mem ma) with o by lia; lia).
  wp_step. eapply wp_get_sizem; [by apply head_ent|]. wp_step.
  apply wp_assert; [simpl; b2p; split; b2p; lia|].
  wp_step. eapply wp_is_used; [by apply head_ent|]. wp_step. apply wp_assert; [done|]. cbn [used sizem].
  wp_step. eapply wp_set_used; [by apply head_ent|]. cbn [used sizem].
  set (ma1 := upd o _ ma).
  assert (relayout ma ma1 (mark_layout o false (head ma))) as R.
  { by eapply upd_mark; [|exact Ho|lia]. }
  assert (wf [o] (delete o live) (delete o live) (heap ma) ma1) as W1.
  { eapply wf_mark_free; [|exact Ho | done | exact R|].
    - eapply wf_keep_less; [apply delete_subseteq | exact W].
    - apply upd_entry; [intros i e; apply (wf_entry W) | done]. }
  destruct R as (_ & _ & _ & _ & _ & _ & E1).
  assert (head ma1 o m false) as Ho1.
  { apply E1. unfold mark_layout. rewrite decide_True by done. eauto. }
  wp_step. eapply wp_mono; [by eapply get_buddy_spec|]. intros b ma2 [-> ->].
  wp_step. eapply wp_mono.
  { apply (merge_loop_spec (delete o live) (delete o live) (heap ma)); [exact W1 | exact Ho1 | | simpl; lia].
    symmetry in E1. apply (coalesced_proper _ _ _ _ E1). by apply mark_free_coalesced. }
  intros [m' o'] ma3 (W3 & Ho3 & (El3 & Eu3 & Em3) & C3). simpl in *.
  eapply wp_mono; [apply (add_to_freelist_spec []); [exact W3 | exact Ho3 | set_solver]|].
  intros [] ma4 (W4 & S4 & _). pose proof (same_layout_head _ _ S4) as E4.
  destruct S4 as (El4 & Eu4 & Em4 & Eb4). split; [|split].
  - split; [by eapply wf_rebase|]. rewrite Eu4, Eu3. by apply (coalesced_proper _ _ _ _ E4).
  - unfold same_area. by rewrite El4, Eu4, Em4.
  - exact (wf_frame W4).
Qed.

Lemma buddy_free_inv live ma o m p ma' :
  buddy_inv live ma -> live !! o = Some m -> p = mem ma + o -> buddy_free p ma = Ok tt ma' ->
  buddy_inv (delete o live) ma' /\ same_area ma ma' /\ live_words_kept (delete o live) ma ma'.
Proof.
  intros I Ho -> E. pose proof (buddy_free_wp live ma o m I Ho) as Hw.
  unfold wp in Hw. by rewrite E in Hw.
Qed.
