(* ===== verification/BuddyTheorems.v ===== *)
(** * The buddy allocator: theorems

    What buddy.c promises to its callers: initialisation establishes the
    invariant, an allocation returns a fresh block that is large enough and
    leaves every other block alone, a release gives the block back, free
    memory is always fully coalesced, and no assertion of the file can fail
    on a well-behaved caller except for exhaustion. *)

From S2P Require Import Prelude Constants Buddy BuddyLayout BuddyInv BuddyProofs.

(** ** Initialisation *)

Lemma block_index_0 ma : block_index ma 0 = 0.
Proof. apply Zdiv_0_l. Qed.

Section init.
  Context (sp base : Z) (h : gmap Z Z).
  Context (Hsp : DEFAULT_LOWER <= sp <= 31) (Hbase : 0 < base) (Htop : base + 2 ^ sp < 2 ^ 32).

Lemma init_blocks_length :
  Z.of_nat (length (blocks (buddy_init sp base h))) = 2 ^ (sp - DEFAULT_LOWER).
Proof using Hsp.
  unfold DEFAULT_LOWER in *. simpl. rewrite zinsert_length, length_replicate.
  rewrite shl1_eq by (unfold DEFAULT_LOWER; lia).
  pose proof (pow2_pos (sp - DEFAULT_LOWER)). unfold DEFAULT_LOWER in *. lia.
Qed.

Lemma init_geometry : geometry (buddy_init sp base h).
Proof using Hsp Hbase Htop.
  split.
  - simpl. unfold DEFAULT_LOWER in *. lia.
  - simpl. lia.
  - apply init_blocks_length.
  - simpl. rewrite zinsert_length. done.
Qed.

Lemma init_entry i e :
  zlookup (blocks (buddy_init sp base h)) i = Some e ->
  e = if decide (i = 0) then {| sizem := sp; used := false |} else {| sizem := 0; used := false |}.
Proof using Hsp.
  unfold DEFAULT_LOWER in *. simpl. rewrite (Z.mod_small sp) by lia. case_decide as D.
  - subst i. intros Hl. pose proof (zlookup_range _ _ _ Hl) as Hr. rewrite zinsert_length in Hr.
    rewrite zlookup_zinsert_eq in Hl by done. by simplify_eq.
  - rewrite zlookup_zinsert_ne by done. unfold zlookup. case_match; [done|].
    intros [-> _]%lookup_replicate. done.
Qed.

Lemma init_head o m u : head (buddy_init sp base h) o m u <-> o = 0 /\ m = sp /\ u = false.
Proof using Hsp Hbase Htop.
  unfold DEFAULT_LOWER in *. split.
  - intros (Ha & He & Hm). unfold ent in He. apply init_entry in He. case_decide as D; [|by simplify_eq].
    simplify_eq. split; [|done]. eapply block_index_inj; [apply init_geometry | exact Ha | apply Z.divide_0_r |].
    by rewrite D, block_index_0.
  - intros (-> & -> & ->). split; [apply Z.divide_0_r|]. split; [|lia].
    destruct (ent_is_Some (buddy_init sp base h) 0) as [e He].
    { apply init_geometry. }
    { simpl. pose proof (pow2_pos sp). lia. }
    rewrite He. unfold ent in He. apply init_entry in He.
    rewrite block_index_0, decide_True in He by done.
    by subst e.
Qed.

Lemma init_freelist m : 0 <= m < 32 ->
  zlookup (freelist (buddy_init sp base h)) m = Some (if decide (m = sp) then 0 else EMPTY).
Proof using Hsp.
  unfold DEFAULT_LOWER in *. intros Hm. cbn [freelist buddy_init]. case_decide as D.
  - subst m. apply zlookup_zinsert_eq. rewrite length_replicate. lia.
  - rewrite zlookup_zinsert_ne by done. unfold zlookup. case_test; [lia|].
    apply lookup_replicate. split; [done | lia].
Qed.

Lemma init_wf : wf [] ∅ ∅ (heap (buddy_init sp base h)) (buddy_init sp base h).
Proof using Hsp Hbase Htop.
  pose proof init_head as HH. pose proof init_geometry as G.
  assert (0 < 2 ^ sp) by (apply pow2_pos; unfold DEFAULT_LOWER in *; lia).
  split; [done| | | | | done |].
  - intros i e He%init_entry _. subst e. by case_decide.
  - split; intros *; rewrite ?HH; cbn [lower upper buddy_init].
    + by intros (-> & -> & ->) (_ & -> & ->).
    + lia.
    + intros (-> & -> & ->). apply Z.divide_0_r.
    + intros (-> & -> & ->). lia.
    + lia.
    + intros Hx. exists 0, sp, false. rewrite HH. lia.
  - intros o m. rewrite HH, lookup_empty. naive_solver.
  - intros m Hm. rewrite init_freelist by done. case_decide as D.
    + exists 0, [0]. split; [done|]. split; [|split].
      * simpl. rewrite word_insert_eq. done.
      * apply NoDup_singleton.
      * intros o. rewrite HH, list_elem_of_singleton. set_solver.
    + exists EMPTY, []. split; [done|]. split; [done|]. split; [constructor|].
      intros o. rewrite HH. set_solver.
  - intros o m a. by rewrite lookup_empty.
Qed.

Lemma init_coalesced : coalesced [] sp (head (buddy_init sp base h)).
Proof using Hsp Hbase Htop. intros o m (_ & -> & _)%init_head Hlt. lia. Qed.
End init.

(** buddy_init establishes the allocator's invariant with no block
    allocated: the free lists, the [blocks] array and the partition of the
    heap agree, for every size of at least one block and every address range
    below 4 GB. *)
Theorem buddy_init_correct sp base h :
  DEFAULT_LOWER <= sp <= 31 -> 0 < base -> base + 2 ^ sp < 2 ^ 32 ->
  buddy_inv ∅ (buddy_init sp base h).
Proof. intros. split; [by apply init_wf | by apply init_coalesced]. Qed.

Lemma buddy_init_correct_witness : buddy_inv ∅ (buddy_init KERNEL_MEM_SIZEPOW2 KERNEL_MEM_BASE ∅).
Proof.
  apply (buddy_init_correct KERNEL_MEM_SIZEPOW2 KERNEL_MEM_BASE ∅); vm_compute; by split || done.
Defined.

(** ** Consequences of the invariant *)

(** Live blocks are inside the heap, aligned to their size, and pairwise
    disjoint. *)
Lemma live_block live ma o m :
  buddy_inv live ma -> live !! o = Some m ->
  lower ma <= m <= upper ma /\ (2 ^ m | o) /\ 0 <= o /\ o + 2 ^ m <= 2 ^ upper ma.
Proof.
  intros [W _] Ho%(wf_live W). pose proof (part_size (wf_part W) Ho).
  pose proof (part_align (wf_part W) Ho). pose proof (part_range (wf_part W) Ho). lia || done.
Qed.

Lemma live_disjoint live ma o1 m1 o2 m2 :
  buddy_inv live ma -> live !! o1 = Some m1 -> live !! o2 = Some m2 -> o1 <> o2 ->
  o1 + 2 ^ m1 <= o2 \/ o2 + 2 ^ m2 <= o1.
Proof. intros [W _] H1%(wf_live W) H2%(wf_live W). by apply (part_disj (wf_part W) H1 H2). Qed.

(** Stores of a client into its own blocks keep the invariant. *)
Lemma client_store_inv live ma o m a v :
  buddy_inv live ma -> live !! o = Some m -> o <= a < o + 2 ^ m ->
  buddy_inv live (set_heap (<[a := v]> (heap ma)) ma).
Proof.
  intros [W C] Ho Ha. split; [|exact C].
  assert (forall k L p, (forall x, x ∈ L <-> head ma x k false /\ x ∉ []) ->
            chain (heap ma) p L -> chain (<[a := v]> (heap ma)) p L) as Hc.
  { intros k L p HL. apply chain_insert. intros [Hf _]%HL.
    by eapply (free_not_kept _ _ _ _ _ _ _ _ _ W Hf Ho). }
  destruct W as [W1 W2 W3 W4 W5 W6 W7]. split; [by destruct W1 | done | done | done | | done | done].
  intros k Hk. destruct (W5 k Hk) as (p & L & Hp & Hch & Hnd & HL).
  exists p, L. simpl. split; [done|]. split; [by eapply Hc | done].
Qed.

(** C3. An allocation request below 2^31 bytes that a free block can satisfy
    returns the address of a block that was not allocated, whose size is the
    least power of two above the request (and at least the granularity);
    the invariant holds again with that block added, and the contents of all
    blocks allocated before are unchanged. *)
Theorem buddy_alloc_correct live ma n :
  buddy_inv live ma -> 0 <= n < 2 ^ 31 -> has_room ma n ->
  exists o m ma', buddy_alloc false n ma = Ok (mem ma + o) ma' /\
    live !! o = None /\ size_exponent (lower ma) n m /\
    buddy_inv (<[o := m]> live) ma' /\ same_area ma ma' /\ live_words_kept live ma ma'.
Proof.
  intros I Hn Hr. pose proof (buddy_alloc_wp false live ma n I Hn Hr) as (p & ma' & E & o & m & -> & H)%wp_ok.
  by exists o, m, ma'.
Qed.

Lemma buddy_alloc_correct_witness : exists o m ma',
  buddy_alloc false 100 (buddy_init 10 4096 ∅) = Ok (4096 + o) ma' /\ (∅ : gmap Z Z) !! o = None /\
  size_exponent 8 100 m /\ buddy_inv (<[o := m]> ∅) ma' /\ same_area (buddy_init 10 4096 ∅) ma' /\
  live_words_kept ∅ (buddy_init 10 4096 ∅) ma'.
Proof.
  apply (buddy_alloc_correct ∅ (buddy_init 10 4096 ∅) 100).
  - split; [apply init_wf | apply init_coalesced]; vm_compute; by split || done.
  - done.
  - exists 0, 10. split; [|done]. apply init_head; vm_compute; by repeat split || done.
Defined.

(** C4. Releasing an allocated block returns without a failed assertion, the
    invariant holds with that block gone, and the contents of the remaining
    allocated blocks are unchanged. *)
Theorem buddy_free_correct live ma o m :
  buddy_inv live ma -> live !! o = Some m ->
  exists ma', buddy_free (mem ma + o) ma = Ok tt ma' /\
    buddy_inv (delete o live) ma' /\ same_area ma ma' /\ live_words_kept (delete o live) ma ma'.
Proof.
  intros I Ho. pose proof (buddy_free_wp live ma o m I Ho) as ([] & ma' & E & H)%wp_ok.
  by exists ma'.
Qed.

(** An area with one allocated block, for the witnesses. *)
Definition area1 : memarea :=
  match buddy_alloc false 100 (buddy_init 10 4096 ∅) with Ok _ ma => ma | _ => buddy_init 10 4096 ∅ end.

Lemma area1_eq : buddy_alloc false 100 (buddy_init 10 4096 ∅) = Ok 4096 area1.
Proof. vm_compute. reflexivity. Qed.

Lemma area1_inv : buddy_inv {[0 := 8]} area1.
Proof.
  assert (buddy_inv ∅ (buddy_init 10 4096 ∅)) as I.
  { split; [apply init_wf | apply init_coalesced]; vm_compute; by split || done. }
  destruct (buddy_alloc_inv ∅ _ 100 _ _ I ltac:(lia) area1_eq) as (o & m & Ep & _ & Hsz & I' & _).
  change (mem (buddy_init 10 4096 ∅)) with 4096 in Ep. assert (o = 0) as -> by lia.
  change (lower (buddy_init 10 4096 ∅)) with 8 in Hsz. destruct Hsz as (Hlt & Hlo & Hleast).
  assert (m = 8) as <-; [|exact I'].
  destruct Hleast as [|Hl]; [done|]. destruct (Z.le_gt_cases m 8); [lia|].
  assert (2 ^ 8 <= 2 ^ (m - 1)) by (apply pow2_le; lia). lia.
Qed.

Lemma buddy_free_correct_witness : exists ma',
  buddy_free (4096 + 0) area1 = Ok tt ma' /\ buddy_inv (delete 0 {[0 := 8]}) ma' /\
  same_area area1 ma' /\ live_words_kept (delete 0 {[0 := 8]}) area1 ma'.
Proof. apply (buddy_free_correct {[0 := 8]} area1 0 8); [exact area1_inv | done]. Defined.

(** C38. A request fails exactly when no free block is larger than it; the
    kernel then stops in a failed assertion, while the userland build
    returns NULL, and in both cases the area is unchanged. *)
Theorem buddy_alloc_exhausted live ma n :
  buddy_inv live ma -> 0 <= n < 2 ^ 31 ->
  (buddy_alloc false n ma = Halt "Memory exhausted" ma <-> ~ has_room ma n) /\
  (buddy_alloc true n ma = Ok 0 ma <-> ~ has_room ma n).
Proof.
  intros I Hn. split; (split; [|intros Hno; by rewrite (buddy_alloc_full _ _ _ _ I Hn Hno)]);
    intros E Hr.
  - pose proof (buddy_alloc_wp false live ma n I Hn Hr) as (p & ma' & E' & _)%wp_ok. congruence.
  - pose proof (buddy_alloc_wp true live ma n I Hn Hr) as (p & ma' & E' & o & m & -> & _)%wp_ok.
    rewrite E in E'. destruct (wf_geo (proj1 I)) as [_ [Hmem _] _ _].
    assert (0 <= o); [|simplify_eq; lia].
    (* the block of the result is live in the new state *)
    pose proof (buddy_alloc_wp true live ma n I Hn Hr) as W. unfold wp in W. rewrite E in W.
    destruct W as (o' & m' & Ep & _ & _ & I' & _).
    destruct (live_block _ _ o' m' I') as (_ & _ & Hpos & _); [apply lookup_insert_eq|]. simplify_eq. lia.
Qed.

Lemma buddy_alloc_exhausted_witness :
  (buddy_alloc false 2000 area1 = Halt "Memory exhausted" area1 <-> ~ has_room area1 2000) /\
  (buddy_alloc true 2000 area1 = Ok 0 area1 <-> ~ has_room area1 2000).
Proof. apply (buddy_alloc_exhausted {[0 := 8]} area1 2000); [exact area1_inv | done]. Defined.

(** When no block is allocated the area is one free block. *)
Lemma all_freed ma :
  buddy_inv ∅ ma ->
  head ma 0 (upper ma) false /\ zlookup (freelist ma) (upper ma) = Some 0 /\
  forall m, 0 <= m < 32 -> m <> upper ma -> zlookup (freelist ma) m = Some EMPTY.
Proof.
  intros [W C]. destruct (geo_bounds _ (wf_geo W)) as [B1 B2].
  assert (head ma 0 (upper ma) false) as Hw.
  { apply (all_free_whole (lower ma)); [lia | lia | apply (wf_part W) | done |].
    intros o m [|] Ho; [|done]. apply (wf_live W) in Ho. by rewrite lookup_empty in Ho. }
  assert (forall o m, head ma o m false -> o = 0) as Honly.
  { intros o m Ho. destruct (decide (o = 0)) as [->|Hne]; [done|].
    destruct (head_range _ _ _ _ _ _ _ _ W Ho) as (_ & Hpos & Hup & Hpm & _).
    destruct (part_disj (wf_part W) Ho Hw Hne); lia. }
  split; [done|]. split.
  - destruct (wf_lists W (upper ma) ltac:(lia)) as (p & L & Hp & Hc & _ & HL).
    destruct L as [|x L]; [exfalso; apply (not_elem_of_nil 0), HL; split; [done | apply not_elem_of_nil]|].
    destruct Hc as (-> & _). rewrite Hp. f_equal. eapply Honly, HL. by left.
  - intros m Hm Hne. destruct (wf_lists W m Hm) as (p & L & Hp & Hc & _ & HL).
    destruct L as [|x L]; [by rewrite Hp, Hc|]. exfalso.
    assert (head ma x m false) as Hx by (apply HL; by left).
    rewrite (Honly _ _ Hx) in Hx. by destruct (part_fun (wf_part W) Hx Hw).
Qed.

(** [area1] with its block released again. *)
Definition area2 : memarea := match buddy_free 4096 area1 with Ok _ ma => ma | _ => area1 end.

Lemma area2_eq : buddy_free 4096 area1 = Ok tt area2.
Proof. vm_compute. reflexivity. Qed.

(** ** Requests of 2 GB and more *)

Lemma mforsize_loop_zero fuel n m : 0 <= n -> mforsize_loop fuel n 0 m = None.
Proof.
  intros Hn. revert m. induction fuel as [|fuel IH]; intros m; simpl; [done|].
  replace (0 <=? n) with true by (symmetry; b2p; done). apply IH.
Qed.

Lemma mforsize_loop_top k : forall fuel n m,
  (k <= 32)%nat -> 2 ^ 31 <= n -> mforsize_loop fuel n (2 ^ (32 - Z.of_nat k)) m = None \/ k = 0%nat.
Proof.
  induction k as [|k IH]; intros fuel n m Hk Hn; [by right|]. left.
  destruct fuel as [|fuel]; [done|]. simpl.
  assert (2 ^ (32 - Z.of_nat (S k)) <= 2 ^ 31) by (apply pow2_le; lia).
  replace (2 ^ (32 - Z.of_nat (S k)) <=? n) with true by (symmetry; b2p; lia).
  replace (2 ^ (32 - Z.of_nat (S k)) * 2) with (2 ^ (32 - Z.of_nat k)).
  2:{ replace (32 - Z.of_nat k) with (32 - Z.of_nat (S k) + 1) by lia. rewrite pow2_succ by lia. lia. }
  destruct k as [|k].
  - replace (u32 (2 ^ (32 - Z.of_nat 0))) with 0 by done. apply mforsize_loop_zero. lia.
  - rewrite u32_small.
    + destruct (IH fuel n (u32 (m + 1))); [lia | done | done | done].
    + split; [apply Z.pow_nonneg; lia | apply Z.pow_lt_mono_r; lia].
Qed.

(** The size computation of a request: below 2 GB it ends within 33
    rounds with the least exponent whose power of two is strictly above the
    request; from 2 GB on the unsigned multiplication wraps to 0 and the loop
    never ends, whatever its number of rounds. *)
Theorem mforsize_total n :
  0 <= n < 2 ^ 32 ->
  (n < 2 ^ 31 -> exists m, mforsize_loop 33 n 1 0 = Some m /\ 0 <= m <= 31 /\
                   n < 2 ^ m /\ (m = 0 \/ 2 ^ (m - 1) <= n)) /\
  (2 ^ 31 <= n -> forall fuel, mforsize_loop fuel n 1 0 = None).
Proof.
  intros Hn. split.
  - intros Hlt. destruct (mforsize_loop_bound 33 n 0) as (m & Hm & Hk & Hlt' & Hlow); [lia | by right | lia | lia|].
    exists m. split; [exact Hm|]. split; [done|]. split; [done|]. tauto.
  - intros Hge fuel. destruct (mforsize_loop_top 32 fuel n 0 ltac:(lia) Hge) as [E|E]; [exact E | lia].
Qed.

Lemma mforsize_total_witness :
  (3000000000 < 2 ^ 31 -> exists m, mforsize_loop 33 3000000000 1 0 = Some m /\ 0 <= m <= 31 /\
                   3000000000 < 2 ^ m /\ (m = 0 \/ 2 ^ (m - 1) <= 3000000000)) /\
  (2 ^ 31 <= 3000000000 -> forall fuel, mforsize_loop fuel 3000000000 1 0 = None).
Proof. apply (mforsize_total 3000000000). done. Defined.

(** ** Clients of the allocator

    The runs of a client that allocates, stores words into blocks it holds
    and releases blocks it holds.  [R] maps the pointers it holds to the
    sizes it asked for. *)
Inductive client (sp base : Z) (h : gmap Z Z) : gmap Z Z -> memarea -> Prop :=
  | client_init : client sp base h ∅ (buddy_init sp base h)
  | client_alloc R ma n p ma' :
      client sp base h R ma -> 0 <= n < 2 ^ 31 -> buddy_alloc false n ma = Ok p ma' ->
      client sp base h (<[p := n]> R) ma'
  | client_store R ma p n a v :
      client sp base h R ma -> R !! p = Some n -> 0 <= a < n ->
      client sp base h R (set_heap (<[p - mem ma + a := v]> (heap ma)) ma)
  | client_free R ma p n ma' :
      client sp base h R ma -> R !! p = Some n -> buddy_free p ma = Ok tt ma' ->
      client sp base h (delete p R) ma'.

(** The pointers of the client are the live blocks, with room to spare. *)
Definition holds (R live : gmap Z Z) (ma : memarea) : Prop :=
  (forall p n, R !! p = Some n -> exists m, live !! (p - mem ma) = Some m /\ n < 2 ^ m) /\
  (forall o m, live !! o = Some m -> exists n, R !! (mem ma + o) = Some n).

Section client.
  Context (sp base : Z) (h : gmap Z Z).
  Context (Hsp : DEFAULT_LOWER <= sp <= 31) (Hbase : 0 < base) (Htop : base + 2 ^ sp < 2 ^ 32).

Lemma client_inv R ma :
  client sp base h R ma ->
  exists live, buddy_inv live ma /\ holds R live ma /\ mem ma = base /\ upper ma = sp.
Proof using Hsp Hbase Htop.
  induction 1 as [|R ma n p ma' _ (live & I & [HR HL] & Hm & Hu) Hn E
                 |R ma p n a v _ (live & I & [HR HL] & Hm & Hu) Hp Ha
                 |R ma p n ma' _ (live & I & [HR HL] & Hm & Hu) Hp E].
  - exists ∅. split; [split; [by apply init_wf | by apply init_coalesced]|].
    split; [|done]. split; intros ? ?; rewrite lookup_empty; done.
  - destruct (buddy_alloc_inv live ma n p ma' I Hn E) as (o & m & -> & Hnone & Hsz & I' & (_ & Eu & Em) & _).
    exists (<[o := m]> live). split; [done|]. rewrite Em, Eu. split; [|done]. split.
    + intros q k. rewrite Em. destruct (decide (q = mem ma + o)) as [->|Hne].
      * rewrite lookup_insert_eq. intros [= <-]. exists m.
        replace (mem ma + o - mem ma) with o by lia. rewrite lookup_insert_eq. split; [done | apply Hsz].
      * rewrite lookup_insert_ne by done. intros Hq. destruct (HR _ _ Hq) as (m' & Hm' & Hk).
        exists m'. rewrite lookup_insert_ne by lia. done.
    + intros o' m'. rewrite Em. destruct (decide (o' = o)) as [->|Hne].
      * intros _. exists n. apply lookup_insert_eq.
      * rewrite !lookup_insert_ne by lia. apply HL.
  - destruct (HR _ _ Hp) as (m & Ho & Hlt). exists live. split; [|done].
    eapply client_store_inv; [done | exact Ho | lia].
  - destruct (HR _ _ Hp) as (m & Ho & Hlt).
    destruct (buddy_free_inv live ma (p - mem ma) m p ma' I Ho ltac:(lia) E) as (I' & (_ & Eu & Em) & _).
    exists (delete (p - mem ma) live).
    split; [done|]. rewrite Em, Eu. split; [|done]. split.
    + intros q k. rewrite Em. destruct (decide (q = p)) as [->|Hne]; [by rewrite lookup_delete_eq|].
      rewrite lookup_delete_ne by done. intros Hq. destruct (HR _ _ Hq) as (m' & Hm' & Hk).
      exists m'. rewrite lookup_delete_ne by lia. done.
    + intros o' m'. rewrite Em. destruct (decide (o' = p - mem ma)) as [->|Hne]; [by rewrite lookup_delete_eq|].
      rewrite !lookup_delete_ne by lia. apply HL.
Qed.
End client.

(** C2. Safety of the allocator for every client that only stores into and
    releases blocks it holds: in every reachable state the blocks it holds
    are inside the area and pairwise disjoint, a release of any of them
    returns (no assertion of buddy.c fails and no undefined access happens),
    and an allocation either returns or stops with "Memory exhausted". *)
Theorem buddy_client_safe sp base h R ma :
  DEFAULT_LOWER <= sp <= 31 -> 0 < base -> base + 2 ^ sp < 2 ^ 32 -> client sp base h R ma ->
  (forall p n, R !! p = Some n -> base <= p /\ p + n <= base + 2 ^ sp) /\
  (forall p n q k, R !! p = Some n -> R !! q = Some k -> p <> q -> p + n < q \/ q + k < p) /\
  (forall p n, R !! p = Some n -> exists ma', buddy_free p ma = Ok tt ma') /\
  (forall n, 0 <= n < 2 ^ 31 -> (exists p ma', buddy_alloc false n ma = Ok p ma' /\ R !! p = None) \/
                                buddy_alloc false n ma = Halt "Memory exhausted" ma).
Proof.
  intros Hsp Hb Ht HC. destruct (client_inv sp base h Hsp Hb Ht R ma HC) as (live & I & [HR HL] & Hm & Hu).
  split; [|split; [|split]].
  - intros p n Hp. destruct (HR _ _ Hp) as (m & Ho & Hn).
    destruct (live_block _ _ _ _ I Ho) as (_ & _ & Hpos & Hup). rewrite Hm, Hu in *. lia.
  - intros p n q k Hp Hq Hne. destruct (HR _ _ Hp) as (m & Ho & Hn), (HR _ _ Hq) as (m' & Ho' & Hk).
    destruct (live_disjoint _ _ _ _ _ _ I Ho Ho' ltac:(lia)); lia.
  - intros p n Hp. destruct (HR _ _ Hp) as (m & Ho & Hn).
    pose proof (buddy_free_wp _ _ _ _ I Ho) as ([] & ma' & E & _)%wp_ok.
    exists ma'. by replace (mem ma + (p - mem ma)) with p in E by lia.
  - intros n Hn. destruct (has_room_dec live ma n I Hn) as [Hr|Hno].
    + left. pose proof (buddy_alloc_wp false live ma n I Hn Hr) as (p & ma' & E & o & m & -> & Hnone & _)%wp_ok.
      exists (mem ma + o), ma'. split; [done|]. destruct (R !! (mem ma + o)) as [k|] eqn:ER; [|done].
      destruct (HR _ _ ER) as (m' & Ho & _). by replace (mem ma + o - mem ma) with o in Ho by lia; congruence.
    + right. by apply (buddy_alloc_full false live).
Qed.

Lemma buddy_client_safe_witness :
  (forall p n, ({[4096 := 100]} : gmap Z Z) !! p = Some n -> 4096 <= p /\ p + n <= 4096 + 2 ^ 10) /\
  (forall p n q k, ({[4096 := 100]} : gmap Z Z) !! p = Some n -> ({[4096 := 100]} : gmap Z Z) !! q = Some k ->
     p <> q -> p + n < q \/ q + k < p) /\
  (forall p n, ({[4096 := 100]} : gmap Z Z) !! p = Some n -> exists ma', buddy_free p area1 = Ok tt ma') /\
  (forall n, 0 <= n < 2 ^ 31 ->
     (exists p ma', buddy_alloc false n area1 = Ok p ma' /\ ({[4096 := 100]} : gmap Z Z) !! p = None) \/
     buddy_alloc false n area1 = Halt "Memory exhausted" area1).
Proof.
  apply (buddy_client_safe 10 4096 ∅ {[4096 := 100]} area1); [done | done | done |].
  apply (client_alloc 10 4096 ∅ ∅ (buddy_init 10 4096 ∅) 100 4096 area1);
    [constructor | done | exact area1_eq].
Defined.

(** C37. Nothing is lost to fragmentation in the end: after any sequence of
    requests, stores and releases by a client that has given back every block,
    the free lists are those of a fresh area, one block of the full size and
    nothing else, so that a request for any size below it is met again, and
    one for more than half of it gets the whole area. *)
Theorem buddy_client_released sp base h ma :
  DEFAULT_LOWER <= sp <= 31 -> 0 < base -> base + 2 ^ sp < 2 ^ 32 -> client sp base h ∅ ma ->
  zlookup (freelist ma) sp = Some 0 /\
  (forall m, 0 <= m < 32 -> m <> sp -> zlookup (freelist ma) m = Some EMPTY) /\
  (forall n, 0 <= n < 2 ^ sp -> exists p ma', buddy_alloc false n ma = Ok p ma' /\ (2 ^ (sp - 1) <= n -> p = base)).
Proof.
  intros Hsp Hb Ht HC. destruct (client_inv sp base h Hsp Hb Ht ∅ ma HC) as (live & I & [_ HL] & Hm & Hu).
  assert (live = ∅) as ->.
  { apply map_empty. intros o. destruct (live !! o) as [m|] eqn:Ho; [|done]. destruct (HL o m Ho) as [n Hn]. by rewrite lookup_empty in Hn. }
  destruct (all_freed ma I) as (Hw & H1 & H2). rewrite Hu in *. split; [done|]. split; [done|].
  unfold DEFAULT_LOWER in Hsp. intros n Hn. pose proof (pow2_le sp 31 ltac:(lia)).
  pose proof (buddy_alloc_wp false ∅ ma n I ltac:(lia) ltac:(exists 0, sp; split; [done | lia])) as (p & ma' & E & o & m & -> & _ & Hsz & I' & (_ & Eu & Em) & _)%wp_ok.
  exists (mem ma + o), ma'. split; [done|]. intros Hbig.
  destruct (live_block _ _ o m I' (lookup_insert_eq _ _ _)) as (_ & _ & Hpos & Hup). rewrite Eu, Hu in Hup. destruct Hsz as (Hlt & Hlo & _).
  destruct (geo_bounds _ (wf_geo (proj1 I))) as [B1 B2].
  assert (sp <= m). { destruct (Z.le_gt_cases sp m) as [|Hg]; [done|]. pose proof (pow2_le m (sp - 1) ltac:(lia)). lia. }
  pose proof (pow2_le sp m ltac:(lia)). lia.
Qed.

Lemma buddy_client_released_witness :
  zlookup (freelist area2) 10 = Some 0 /\
  (forall m, 0 <= m < 32 -> m <> 10 -> zlookup (freelist area2) m = Some EMPTY) /\
  (forall n, 0 <= n < 2 ^ 10 -> exists p ma', buddy_alloc false n area2 = Ok p ma' /\ (2 ^ 9 <= n -> p = 4096)).
Proof.
  apply (buddy_client_released 10 4096 ∅ area2); [done | done | done |].
  rewrite <- (delete_singleton_eq (M := gmap Z) 4096 100).
  apply (client_free 10 4096 ∅ {[4096 := 100]} area1 4096 100 area2); [|apply lookup_singleton_eq | exact area2_eq].
  apply (client_alloc 10 4096 ∅ ∅ (buddy_init 10 4096 ∅) 100 4096 area1); [constructor | done | exact area1_eq].
Defined.
