(* ===== verification/Libc.v ===== *)
(** * The C library (source/libc.c)

    String and memory routines, number printing and [vsnprintf].  A C string
    is the list of the bytes from its pointer to the end of the object it
    lies in; a read past that list is an undefined access and yields [None].
    [char] is signed on this machine, so comparisons go through [s8]. *)

From Stdlib Require Import Ascii.
From S2P Require Import Prelude Constants.

(** ** Characters and strings *)

Definition chr (c : ascii) : Z := Z.of_N (N_of_ascii c).
Fixpoint bytes (s : string) : list Z :=
  match s with EmptyString => [] | String c s' => chr c :: bytes s' end.
(** A string literal, with its terminator. *)
Definition cstr (s : string) : list Z := bytes s ++ [0].

(** ** strlen, strcmp, strncmp *)

Fixpoint strlen (s : list Z) : option Z :=
  match s with
  | [] => None
  | c :: s' => if truthy c then Z.add 1 <$> strlen s' else Some 0
  end.

(** The loop advances both strings in step; [s1[pos]] and [s2[pos]] are the
    first bytes of the two suffixes. *)
Fixpoint strcmp (s1 s2 : list Z) : option Z :=
  match s1, s2 with
  | a :: s1', b :: s2' =>
      if truthy a && truthy b then
        if negb (a =? b) then Some (s8 a - s8 b) else strcmp s1' s2'
      else if truthy a then Some (-1)
      else if truthy b then Some 1
      else Some 0
  | _, _ => None
  end.

(** [n] bytes are left to compare. *)
Fixpoint strncmp (s1 s2 : list Z) (n : nat) : option Z :=
  match n with
  | O => Some 0
  | S n' =>
      match s1, s2 with
      | a :: s1', b :: s2' =>
          if truthy a && truthy b then
            if negb (a =? b) then Some (s8 a - s8 b) else strncmp s1' s2' n'
          else if truthy b then Some (-1)
          else Some 1
      | _, _ => None
      end
  end.

(** ** memset, memmove, memcpy

    The loops, over the loads and stores of the memory they run on. *)

Section mem.
  Context {S : Type}.
  Context (load : Z -> M S Z) (store : Z -> Z -> M S unit).

Definition memset (b c len : Z) : M S unit :=
  for_ (Z.to_nat len) 0 (fun i => store (b + i) (u8 c)).
Definition memmove (dst src len : Z) : M S unit :=
  for_ (Z.to_nat len) 0 (fun pos => x <- load (src + pos); store (dst + pos) x).
Definition memcpy (dst src len : Z) : M S unit := memmove dst src len.
End mem.

(** A flat byte memory. *)
Definition byte_at (m : gmap Z Z) (a : Z) : Z := default 0 (m !! a).
Definition flat_load (a : Z) : M (gmap Z Z) Z := gets (fun m => byte_at m a).
Definition flat_store (a v : Z) : M (gmap Z Z) unit := modify (fun m => <[a := v]> m).

(** ** strerror *)

Definition error_names : list string :=
  [ "Success"; ""; "Bad file descriptor"; "Invalid argument"; "No such process";
    "Operation not permitted"; "No such file or directory"; "Too many open files";
    "Is a directory"; "Not a directory"; "Function not implemented"; "Not enough space";
    "Bad address"; "Resource unavailable, try again"; "No child processes" ]%string.

Definition strerror (errnum : Z) : option string :=
  if (errnum <? 0) || (ERRNO_MAX <? errnum) then Some "Unknown error"%string
  else zlookup error_names errnum.

(** ** Printing into a buffer *)

(** The destination of a print: the bytes of [str] and the position. *)
Definition pbuf : Type := list Z * Z.

(** A store to [str[i]]; outside of the object it is an undefined access. *)
Definition store_char (str : list Z) (i c : Z) : option (list Z) :=
  _ ← zlookup str i; Some (zinsert i c str).

(** [addchar(pos,c)]: the byte is stored only while a terminator still fits. *)
Definition addchar (size : Z) (c : Z) (b : pbuf) : option pbuf :=
  let '(str, pos) := b in
  str' ← (if u32 (pos + 1) <? size then store_char str pos c else Some str);
  Some (str', u32 (pos + 1)).

Definition hexdigits : list Z := bytes "0123456789abcdef".
Definition hexdigit (d : Z) : Z := default 0 (zlookup hexdigits d).

(** [for (; x >= base; x /= base, mult *= base) digits++]: the final [mult]. *)
Fixpoint mult_loop (fuel : nat) (base x mult : Z) : option Z :=
  match fuel with
  | O => None
  | S fuel' => if base <=? x then mult_loop fuel' base (x / base) (u32 (mult * base)) else Some mult
  end.

(** [for (x = val; x >= base; x /= base, mult /= base) addchar(...)]. *)
Fixpoint digit_loop (fuel : nat) (size val base x mult : Z) (b : pbuf) : option pbuf :=
  match fuel with
  | O => None
  | S fuel' =>
      if base <=? x then
        b' ← addchar size (hexdigit ((val / mult) mod base)) b;
        digit_loop fuel' size val base (x / base) (mult / base) b'
      else Some b
  end.

(** 33 rounds are enough for a 32-bit value ([print_num_spec]). *)
Definition print_num (size val base : Z) (b : pbuf) : option pbuf :=
  mult ← mult_loop 33 base val 1;
  b' ← digit_loop 33 size val base val mult b;
  addchar size (hexdigit (val mod base)) b'.

(** The variable arguments: a word, or a pointer to a string. *)
Inductive arg := AInt (z : Z) | AStr (s : list Z).

Definition va_int (ap : list arg) : option (Z * list arg) :=
  match ap with AInt z :: ap' => Some (z, ap') | _ => None end.
Definition va_str (ap : list arg) : option (list Z * list arg) :=
  match ap with AStr s :: ap' => Some (s, ap') | _ => None end.

(** [for (s = ...; *s; s++) addchar( *pos, *s)]. *)
Fixpoint print_str (size : Z) (s : list Z) (b : pbuf) : option pbuf :=
  match s with
  | [] => None
  | c :: s' => if truthy c then b' ← addchar size c b; print_str size s' b' else Some b
  end.

Definition print_field (size c : Z) (ap : list arg) (b : pbuf) : option (pbuf * list arg) :=
  if c =? chr "s" then
    '(s, ap') ← va_str ap; b' ← print_str size s b; Some (b', ap')
  else if c =? chr "c" then
    '(z, ap') ← va_int ap; b' ← addchar size (u8 z) b; Some (b', ap')
  else if c =? chr "d" then
    '(z, ap') ← va_int ap;
    let val := s32 z in
    '(val, b) ← (if val <? 0 then b' ← addchar size (chr "-") b; Some (s32 (- val), b') else Some (val, b));
    b' ← print_num size (u32 val) 10 b; Some (b', ap')
  else if c =? chr "u" then
    '(z, ap') ← va_int ap; b' ← print_num size (u32 z) 10 b; Some (b', ap')
  else if c =? chr "p" then
    b ← addchar size (chr "0") b;
    b ← addchar size (chr "x") b;
    '(z, ap') ← va_int ap; b' ← print_num size (u32 z) 16 b; Some (b', ap')
  else if c =? chr "x" then
    '(z, ap') ← va_int ap; b' ← print_num size (u32 z) 16 b; Some (b', ap')
  else b' ← addchar size (chr "%") b; Some (b', ap).

(** [for (; 0 < pad; pad--) addchar(pos,' ')]. *)
Fixpoint add_spaces (n : nat) (size : Z) (b : pbuf) : option pbuf :=
  match n with O => Some b | S n' => b' ← addchar size (chr " ") b; add_spaces n' size b' end.

Definition is_digit (c : Z) : bool := (chr "0" <=? c) && (c <=? chr "9").

(** The padding digits of a conversion; returns the rest of the format. *)
Fixpoint read_pad (c : list Z) (pad : Z) : Z * list Z :=
  match c with
  | d :: c' => if is_digit d then read_pad c' (s32 (pad * 10 + d - chr "0")) else (pad, c)
  | [] => (pad, [])
  end.

(** One conversion, from just after the [%] to its letter.  A right-aligned
    field is printed twice: once to learn its width, and again after the
    padding. *)
Definition conversion (size : Z) (c : list Z) (ap : list arg) (b : pbuf) :
    option (list Z * list arg * pbuf) :=
  let start_pos := b.2 in
  let '(right_aligned, c) :=
    match c with d :: c' => if d =? chr "-" then (false, c') else (true, c) | [] => (true, c) end in
  let '(pad, c) := read_pad c 0 in
  match c with
  | [] => None
  | letter :: c' =>
      '(b1, ap1) ← print_field size letter ap b;
      let pad := s32 (pad - (b1.2 - start_pos)) in
      if (right_aligned : bool) then
        b2 ← add_spaces (Z.to_nat pad) size (b1.1, start_pos);
        '(b3, ap3) ← print_field size letter ap b2;
        Some (c', ap3, b3)
      else b2 ← add_spaces (Z.to_nat pad) size b1; Some (c', ap1, b2)
  end.

Fixpoint format_loop (fuel : nat) (size : Z) (c : list Z) (ap : list arg) (b : pbuf) : option pbuf :=
  match fuel with
  | O => None
  | S fuel' =>
      match c with
      | [] => None
      | ch :: c' =>
          if truthy ch then
            if ch =? chr "%" then
              '(c'', ap', b') ← conversion size c' ap b; format_loop fuel' size c'' ap' b'
            else b' ← addchar size ch b; format_loop fuel' size c' ap b'
          else Some b
      end
  end.

(** The result is the buffer and the returned length. *)
Definition vsnprintf (str : list Z) (size : Z) (format : list Z) (ap : list arg) : option (list Z * Z) :=
  '(str, pos) ← format_loop (S (length format)) size format ap (str, 0);
  str ← (if 0 <? size then
           if u32 (pos + 1) <? size then store_char str pos 0 else store_char str (size - 1) 0
         else Some str);
  Some (str, s32 pos).

Definition snprintf (str : list Z) (size : Z) (format : list Z) (ap : list arg) : option (list Z * Z) :=
  vsnprintf str size format ap.
