(* ===== verification/LibcProofs.v ===== *)
(** * The C library: theorems

    Reference definitions for the string, memory and printing routines of
    libc.c, and proofs that the loops of the source compute them. *)

From Stdlib Require Import Ascii.
From S2P Require Import Prelude Constants Libc.

(** ** Strings *)

(** [s] without its terminator; the bytes after it do not matter. *)
Definition no_nul (s : list Z) : Prop := Forall (fun c => c <> 0) s.

Lemma no_nul_cons c s : no_nul (c :: s) <-> c <> 0 /\ no_nul s.
Proof. unfold no_nul. by rewrite list.Forall_cons. Qed.
Lemma no_nul_nil : no_nul [].
Proof. constructor. Qed.
#[export] Hint Resolve no_nul_nil : kernel.

#[export] Instance is_byte_dec x : Decision (is_byte x).
Proof. unfold is_byte. apply _. Defined.
#[export] Instance no_nul_dec s : Decision (no_nul s).
Proof. unfold no_nul. apply _. Defined.
(** Facts about concrete byte strings. *)
Ltac by_bytes := apply (bool_decide_unpack _); vm_compute; exact I.

Lemma truthy_true c : c <> 0 -> truthy c = true.
Proof. intros. unfold truthy. by destruct (Z.eqb_spec c 0). Qed.

Lemma strlen_spec s rest : no_nul s -> strlen (s ++ 0 :: rest) = Some (Z.of_nat (length s)).
Proof.
  induction s as [|c s IH]; intros Hs; [done|]. apply no_nul_cons in Hs as [Hc Hs].
  simpl. rewrite truthy_true, IH by done. simpl. f_equal. lia.
Qed.

(** The comparison strcmp makes: at the first difference the bytes are
    subtracted; a proper prefix counts as larger. *)
Fixpoint strcmp_spec (s1 s2 : list Z) : Z :=
  match s1, s2 with
  | [], [] => 0
  | _ :: _, [] => -1
  | [], _ :: _ => 1
  | a :: s1', b :: s2' => if a =? b then strcmp_spec s1' s2' else s8 a - s8 b
  end.

Lemma strcmp_eq s1 : forall s2 r1 r2, no_nul s1 -> no_nul s2 ->
  strcmp (s1 ++ 0 :: r1) (s2 ++ 0 :: r2) = Some (strcmp_spec s1 s2).
Proof.
  induction s1 as [|a s1 IH]; intros [|b s2] r1 r2 H1 H2; try apply no_nul_cons in H1 as [Ha H1];
    try apply no_nul_cons in H2 as [Hb H2]; simpl; rewrite ?truthy_true by done; try done.
  simpl. destruct (a =? b); [by apply IH | done].
Qed.

Lemma s8_inj a b : is_byte a -> is_byte b -> s8 a = s8 b -> a = b.
Proof.
  unfold is_byte, s8. intros Ha Hb. rewrite !Z.mod_small by lia.
  destruct (Z.ltb_spec a (2 ^ 7)), (Z.ltb_spec b (2 ^ 7)); lia.
Qed.

(** strcmp tells equal strings from different ones: on any two
    terminated strings it returns, and the result is 0 exactly when they are
    the same. *)
Theorem strcmp_decides s1 s2 r1 r2 :
  no_nul s1 -> no_nul s2 -> Forall is_byte s1 -> Forall is_byte s2 ->
  exists v, strcmp (s1 ++ 0 :: r1) (s2 ++ 0 :: r2) = Some v /\ (v = 0 <-> s1 = s2).
Proof.
  intros H1 H2 B1 B2. exists (strcmp_spec s1 s2). split; [by apply strcmp_eq|]. clear H1 H2.
  revert s2 B2. induction s1 as [|a s1 IH]; intros [|b s2] B2; simpl; try done.
  apply list.Forall_cons in B1 as [Ba B1]. apply list.Forall_cons in B2 as [Bb B2].
  destruct (Z.eqb_spec a b) as [-> |Hab].
  - rewrite (IH B1 s2 B2). naive_solver.
  - split; [|naive_solver]. intros Hd. exfalso. apply Hab, s8_inj; [done | done | lia].
Qed.

Lemma strcmp_decides_witness : exists v,
  strcmp (bytes "ls" ++ 0 :: []) (bytes "sh" ++ 0 :: [1]) = Some v /\ (v = 0 <-> bytes "ls" = bytes "sh").
Proof. apply strcmp_decides; by_bytes. Defined.

(** The order of strcmp is reversed when one string is a proper prefix
    of the other: "ab" compares greater than "abc". *)
Theorem strcmp_prefix_reversed s1 c s2 r1 r2 :
  no_nul s1 -> no_nul (c :: s2) ->
  strcmp (s1 ++ 0 :: r1) ((s1 ++ c :: s2) ++ 0 :: r2) = Some 1 /\
  strcmp ((s1 ++ c :: s2) ++ 0 :: r1) (s1 ++ 0 :: r2) = Some (-1).
Proof.
  intros H1 H2. assert (no_nul (s1 ++ c :: s2)) by (by apply Forall_app).
  rewrite !strcmp_eq by done. clear.
  induction s1 as [|a s1 IH]; simpl; [done|]. by rewrite Z.eqb_refl.
Qed.

Lemma strcmp_prefix_reversed_witness :
  strcmp (bytes "ab" ++ 0 :: []) ((bytes "ab" ++ 99 :: []) ++ 0 :: []) = Some 1 /\
  strcmp ((bytes "ab" ++ 99 :: []) ++ 0 :: []) (bytes "ab" ++ 0 :: []) = Some (-1).
Proof. apply (strcmp_prefix_reversed (bytes "ab") 99 []); by_bytes. Defined.

(** strncmp compares the first [n] bytes when neither string ends before
    them; this is how the kernel uses it. *)
Lemma strncmp_spec n : forall s1 s2, (n <= length s1)%nat -> (n <= length s2)%nat ->
  no_nul (take n s1) -> no_nul (take n s2) ->
  exists v, strncmp s1 s2 n = Some v /\ (Forall is_byte s1 -> Forall is_byte s2 -> v = 0 <-> take n s1 = take n s2).
Proof.
  induction n as [|n IH]; intros s1 s2 L1 L2 H1 H2; [by exists 0; destruct s1, s2|].
  destruct s1 as [|a s1], s2 as [|b s2]; simpl in *; try lia.
  apply no_nul_cons in H1 as [Ha H1]. apply no_nul_cons in H2 as [Hb H2].
  rewrite !truthy_true by done. simpl. destruct (Z.eqb_spec a b) as [-> |Hab]; simpl.
  - destruct (IH s1 s2) as (v & Hv & Hz); [lia | lia | done | done |]. exists v. split; [done|].
    intros [_ B1]%list.Forall_cons [_ B2]%list.Forall_cons. rewrite Hz by done. split; [by intros -> | by intros [= ?]].
  - eexists. split; [done|]. intros [B1 _]%list.Forall_cons [B2 _]%list.Forall_cons.
    split; [|by intros [= ? ?]]. intros Hd. exfalso. apply Hab, s8_inj; [done | done | lia].
Qed.

(** ** Memory *)

Lemma byte_at_insert_eq m a v : byte_at (<[a := v]> m) a = v.
Proof. unfold byte_at. by rewrite lookup_insert_eq. Qed.
Lemma byte_at_insert_ne m a b v : a <> b -> byte_at (<[a := v]> m) b = byte_at m b.
Proof. intros. unfold byte_at. by rewrite lookup_insert_ne. Qed.

(** memmove copies correctly when the destination does not start inside
    of the source: afterwards the destination holds what the source held, and
    nothing else has changed.  (The pipe and mailbox code moves data towards
    lower addresses, so its overlapping moves are covered.) *)
Theorem memmove_correct dst src len m :
  0 <= len -> dst <= src \/ src + len <= dst ->
  exists m', memmove flat_load flat_store dst src len m = Ok tt m' /\
    forall a, byte_at m' a = if (dst <=? a) && (a <? dst + len) then byte_at m (src + (a - dst)) else byte_at m a.
Proof.
  intros Hlen Hov. enough (wp (memmove flat_load flat_store dst src len) (fun _ m' => forall a, byte_at m' a =
    if (dst <=? a) && (a <? dst + len) then byte_at m (src + (a - dst)) else byte_at m a) m) as H.
  { apply wp_ok in H as ([] & m' & H1 & H2). eauto. }
  unfold memmove. apply (wp_for (fun i m' => forall a, byte_at m' a =
    if (dst <=? a) && (a <? dst + i) then byte_at m (src + (a - dst)) else byte_at m a)).
  - intros a. destruct (Z.leb_spec dst a), (Z.ltb_spec a (dst + 0)); try done; lia.
  - intros i m' Hi Hm. unfold flat_load, flat_store. repeat wp_step. intros a.
    destruct (decide (a = dst + i)) as [-> |Hne].
    + rewrite byte_at_insert_eq, Hm.
      destruct (Z.leb_spec dst (dst + i)), (Z.ltb_spec (dst + i) (dst + (i + 1))); try lia.
      replace (src + (dst + i - dst)) with (src + i) by lia. simpl.
      destruct (Z.leb_spec dst (src + i)), (Z.ltb_spec (src + i) (dst + i)); try done. lia.
    + rewrite byte_at_insert_ne, Hm by done.
      destruct (Z.leb_spec dst a), (Z.ltb_spec a (dst + i)), (Z.ltb_spec a (dst + (i + 1))); try done; lia.
  - intros m' Hm a. rewrite Hm. by rewrite Z.add_0_l, Z2Nat.id.
Qed.

Definition abc_memory : gmap Z Z := <[10 := 97]> (<[11 := 98]> (<[12 := 99]> ∅)).

Lemma memmove_correct_witness : exists m', memmove flat_load flat_store 9 10 3 abc_memory = Ok tt m' /\
  forall a, byte_at m' a = if (9 <=? a) && (a <? 9 + 3) then byte_at abc_memory (10 + (a - 9)) else byte_at abc_memory a.
Proof. apply memmove_correct; [done | left; done]. Defined.

(** memmove is not overlap-safe: when the destination starts inside of
    the source it smears the first byte, unlike the C standard's memmove. *)
Theorem memmove_overlap_bug :
  exists m', memmove flat_load flat_store 11 10 3 abc_memory = Ok tt m' /\
    (byte_at m' 11, byte_at m' 12, byte_at m' 13) = (97, 97, 97) /\
    (byte_at abc_memory 10, byte_at abc_memory 11, byte_at abc_memory 12) = (97, 98, 99).
Proof. eexists. split; [vm_compute; reflexivity | done]. Qed.
