(* ===== verification/PrintProofs.v ===== *)
(** * Formatted output: theorems

    [render] says what a format and its arguments print, as a list of
    characters; vsnprintf stores as much of that as fits, with a terminator,
    and returns the full length. *)

From Stdlib Require Import Ascii.
From S2P Require Import Prelude Constants Libc LibcProofs.

(** ** The reference: what a format prints *)

(** The digits of a number, most significant first. *)
Fixpoint digits (fuel : nat) (base v : Z) : list Z :=
  match fuel with
  | O => []
  | S fuel' => if v <? base then [hexdigit v] else digits fuel' base (v / base) ++ [hexdigit (v mod base)]
  end.

(** What the digits mean. *)
Definition digit_value (c : Z) : Z :=
  if is_digit c then c - chr "0"%char else c - chr "a"%char + 10.
Definition number (base : Z) (ds : list Z) : Z := foldl (fun n c => n * base + digit_value c) 0 ds.

(** The string up to its terminator. *)
Fixpoint string_of (s : list Z) : option (list Z) :=
  match s with
  | [] => None
  | c :: s' => if truthy c then cons c <$> string_of s' else Some []
  end.

Definition signed_digits (z : Z) : list Z :=
  if s32 z <? 0 then chr "-"%char :: digits 33 10 (u32 (s32 (- s32 z))) else digits 33 10 (u32 (s32 z)).

Definition field (letter : Z) (ap : list arg) : option (list Z * list arg) :=
  if letter =? chr "s"%char then '(s, ap') ← va_str ap; o ← string_of s; Some (o, ap')
  else if letter =? chr "c"%char then '(z, ap') ← va_int ap; Some ([u8 z], ap')
  else if letter =? chr "d"%char then '(z, ap') ← va_int ap; Some (signed_digits z, ap')
  else if letter =? chr "u"%char then '(z, ap') ← va_int ap; Some (digits 33 10 (u32 z), ap')
  else if letter =? chr "p"%char then
    '(z, ap') ← va_int ap; Some (bytes "0x" ++ digits 33 16 (u32 z), ap')
  else if letter =? chr "x"%char then '(z, ap') ← va_int ap; Some (digits 33 16 (u32 z), ap')
  else Some ([chr "%"%char], ap).

(** Pad a field with blanks to its width (an int of the source). *)
Definition padding (pad : Z) (o : list Z) : list Z :=
  replicate (Z.to_nat (s32 (pad - Z.of_nat (length o)))) (chr " "%char).
Definition align (right_aligned : bool) (pad : Z) (o : list Z) : list Z :=
  if right_aligned then padding pad o ++ o else o ++ padding pad o.

(** The flag, width and letter after a [%], and the rest of the format. *)
Definition directive (c : list Z) : bool * Z * list Z :=
  let '(right_aligned, c) :=
    match c with d :: c' => if d =? chr "-"%char then (false, c') else (true, c) | [] => (true, c) end in
  let '(pad, c) := read_pad c 0 in (right_aligned, pad, c).

Fixpoint render (fuel : nat) (c : list Z) (ap : list arg) : option (list Z) :=
  match fuel, c with
  | S fuel', ch :: c' =>
      if truthy ch then
        if ch =? chr "%"%char then
          match directive c' with
          | (right_aligned, pad, letter :: c'') =>
              '(o, ap') ← field letter ap;
              rest ← render fuel' c'' ap';
              Some (align right_aligned pad o ++ rest)
          | _ => None
          end
        else cons ch <$> render fuel' c' ap
      else Some []
  | _, _ => None
  end.

(** ** Storing characters *)

Fixpoint addchars (size : Z) (o : list Z) (b : pbuf) : option pbuf :=
  match o with
  | [] => Some b
  | c :: o' => b' ← addchar size c b; addchars size o' b'
  end.

Lemma addchars_app size o1 o2 b : addchars size (o1 ++ o2) b = b' ← addchars size o1 b; addchars size o2 b'.
Proof.
  revert b. induction o1 as [|c o1 IH]; intros b; simpl; [done|].
  destruct (addchar size c b); simpl; [apply IH | done].
Qed.

(** The buffer after [o] has been written at [pos]: the positions below
    [size-1] are overwritten. *)
Definition overlay (size pos : Z) (o str : list Z) : list Z :=
  imap (fun i c => if (pos <=? Z.of_nat i) && (Z.of_nat i + 1 <? size)
                   then default c (zlookup o (Z.of_nat i - pos)) else c) str.

Lemma overlay_lookup size pos o str i :
  overlay size pos o str !! i =
  (fun c => if (pos <=? Z.of_nat i) && (Z.of_nat i + 1 <? size)
            then default c (zlookup o (Z.of_nat i - pos)) else c) <$> str !! i.
Proof. unfold overlay. by rewrite list_lookup_imap. Qed.
Lemma overlay_length size pos o str : length (overlay size pos o str) = length str.
Proof. apply length_imap. Qed.

Lemma zlookup_cons {A} (x : A) l i : zlookup (x :: l) i = if i =? 0 then Some x else zlookup l (i - 1).
Proof.
  unfold zlookup. destruct (Z.ltb_spec i 0).
  - destruct (Z.eqb_spec i 0); [lia|]. by destruct (Z.ltb_spec (i - 1) 0); [|lia].
  - destruct (Z.eqb_spec i 0) as [-> |]; [done|]. destruct (Z.ltb_spec (i - 1) 0); [lia|].
    by replace (Z.to_nat i) with (S (Z.to_nat (i - 1))) by lia.
Qed.
Lemma zlookup_neg {A} (l : list A) i : i < 0 -> zlookup l i = None.
Proof. unfold zlookup. intros. by destruct (Z.ltb_spec i 0); [|lia]. Qed.
Lemma zlookup_ge {A} (l : list A) i : Z.of_nat (length l) <= i -> zlookup l i = None.
Proof.
  unfold zlookup. intros. destruct (Z.ltb_spec i 0); [done|]. apply lookup_ge_None_2. lia.
Qed.
Lemma zinsert_lookup (str : list Z) p c i : 0 <= p ->
  zinsert p c str !! i = if Z.of_nat i =? p then (fun _ => c) <$> str !! i else str !! i.
Proof.
  intros Hp. unfold zinsert. destruct (Z.ltb_spec p 0); [lia|].
  destruct (Z.eqb_spec (Z.of_nat i) p) as [<- |Hne].
  - rewrite Nat2Z.id. destruct (str !! i) eqn:Hi.
    + rewrite list_lookup_insert_eq; [done|]. by eapply lookup_lt_Some.
    + simpl. apply lookup_ge_None in Hi. apply lookup_ge_None. by rewrite length_insert.
  - apply list_lookup_insert_ne. lia.
Qed.

Lemma store_char_ok str i c : 0 <= i < Z.of_nat (length str) -> store_char str i c = Some (zinsert i c str).
Proof.
  intros Hi. unfold store_char. by destruct (zlookup_is_Some str i Hi) as [x ->].
Qed.

Lemma addchars_spec size o : forall str pos,
  size <= Z.of_nat (length str) -> 0 <= pos -> pos + Z.of_nat (length o) < 2 ^ 32 ->
  addchars size o (str, pos) = Some (overlay size pos o str, pos + Z.of_nat (length o)).
Proof.
  induction o as [|c o IH]; intros str pos Hs Hp Hb; cbn [addchars length] in *.
  - do 2 f_equal; [|lia]. apply list_eq. intros i. rewrite overlay_lookup. destruct (str !! i); [|done].
    simpl. unfold zlookup. rewrite lookup_nil. by repeat case_match.
  - unfold addchar. rewrite (u32_small (pos + 1)) by lia.
    set (str' := if pos + 1 <? size then zinsert pos c str else str).
    assert (Hl : length str' = length str) by (unfold str'; case_test; [apply zinsert_length | done]).
    replace (if pos + 1 <? size then store_char str pos c else Some str) with (Some str').
    2: { unfold str'. case_test; [by rewrite store_char_ok by lia | done]. }
    simpl. rewrite IH by lia. do 2 f_equal; [|lia].
    apply list_eq. intros i. rewrite !overlay_lookup.
    replace (str' !! i) with (if (pos + 1 <? size) && (Z.of_nat i =? pos) then (fun _ => c) <$> str !! i else str !! i).
    2: { unfold str'. destruct (pos + 1 <? size); simpl; [by rewrite zinsert_lookup | done]. }
    destruct (str !! i) as [x|]; [|by repeat case_match]. rewrite zlookup_cons.
    destruct (Z.leb_spec pos (Z.of_nat i)), (Z.leb_spec (pos + 1) (Z.of_nat i)), (Z.eqb_spec (Z.of_nat i) pos),
      (Z.ltb_spec (pos + 1) size), (Z.ltb_spec (Z.of_nat i + 1) size), (Z.eqb_spec (Z.of_nat i - pos) 0);
      simpl; try done; try lia.
    by replace (Z.of_nat i - (pos + 1)) with (Z.of_nat i - pos - 1) by lia.
Qed.

(** ** Numbers *)

Section num.
  Context (base : Z) (Hbase : 2 <= base <= 16).

(** The number of rounds of the two loops. *)
Fixpoint ndiv (fuel : nat) (x : Z) : nat :=
  match fuel with
  | O => O
  | S fuel' => if base <=? x then S (ndiv fuel' (x / base)) else O
  end.

Definition digit_at (v : Z) (i : nat) : Z := hexdigit ((v / base ^ Z.of_nat i) mod base).
(** Digits [k], ..., 1 of [v]. *)
Fixpoint upper_digits (v : Z) (k : nat) : list Z :=
  match k with O => [] | S k' => digit_at v k :: upper_digits v k' end.

Lemma shrink f x : 0 <= x < 2 ^ Z.of_nat (S f) -> 0 <= x / base < 2 ^ Z.of_nat f.
Proof.
  intros Hx. rewrite Nat2Z.inj_succ, Z.pow_succ_r in Hx by lia.
  split; [apply Z.div_pos; lia|]. apply Z.div_lt_upper_bound; [lia|]. nia.
Qed.

Lemma mult_loop_eq f : forall x m, 0 <= x < 2 ^ Z.of_nat f -> 0 < m -> m * x < 2 ^ 32 ->
  mult_loop (S f) base x m = Some (m * base ^ Z.of_nat (ndiv (S f) x)).
Proof.
  induction f as [|f IH]; intros x m Hx Hm Hmx.
  - simpl. assert (x = 0) as -> by (simpl in Hx; lia). case_test; [lia|]. f_equal. simpl. lia.
  - change (mult_loop (S (S f)) base x m) with
      (if base <=? x then mult_loop (S f) base (x / base) (u32 (m * base)) else Some m).
    change (ndiv (S (S f)) x) with (if base <=? x then S (ndiv (S f) (x / base)) else O).
    case_test; [|f_equal; simpl; lia].
    assert (Hdm := Z.mul_div_le x base ltac:(lia)).
    rewrite u32_small by nia. rewrite IH; [|by apply shrink | nia | nia].
    f_equal. rewrite Nat2Z.inj_succ, Z.pow_succ_r by lia. lia.
Qed.

Lemma digit_loop_eq v size f : forall x b, 0 <= x < 2 ^ Z.of_nat f -> 0 <= v ->
  digit_loop (S f) size v base x (base ^ Z.of_nat (ndiv (S f) x)) b =
  addchars size (upper_digits v (ndiv (S f) x)) b.
Proof.
  induction f as [|f IH]; intros x b Hx Hv.
  - simpl. assert (x = 0) as -> by (simpl in Hx; lia). by case_test; [lia|].
  - change (ndiv (S (S f)) x) with (if base <=? x then S (ndiv (S f) (x / base)) else O).
    cbn [digit_loop]. destruct (base <=? x) eqn:Hbx; [|done]. b2p. cbn [upper_digits addchars].
    change (hexdigit ((v / base ^ Z.of_nat (S (ndiv (S f) (x / base)))) mod base))
      with (digit_at v (S (ndiv (S f) (x / base)))).
    destruct (addchar size _ b) as [b'|]; [|done]. cbn [mbind option_bind].
    rewrite Nat2Z.inj_succ, Z.pow_succ_r, Z.mul_comm, Z.div_mul by lia.
    apply IH; [by apply shrink | done].
Qed.

Lemma digit_at_div v i : 0 <= v -> digit_at v (S i) = digit_at (v / base) i.
Proof.
  intros Hv. unfold digit_at. rewrite Nat2Z.inj_succ, Z.pow_succ_r by lia.
  by rewrite Z.div_div by lia.
Qed.
Lemma upper_digits_div v k : 0 <= v -> upper_digits v (S k) = upper_digits (v / base) k ++ [digit_at (v / base) 0].
Proof.
  intros Hv. induction k as [|k IH]; [simpl; by rewrite digit_at_div|].
  change (upper_digits v (S (S k))) with (digit_at v (S (S k)) :: upper_digits v (S k)).
  rewrite IH. simpl. by rewrite digit_at_div.
Qed.

Lemma digits_eq f : forall v, 0 <= v < 2 ^ Z.of_nat f ->
  digits (S f) base v = upper_digits v (ndiv (S f) v) ++ [hexdigit (v mod base)].
Proof.
  induction f as [|f IH]; intros v Hv.
  - simpl. assert (v = 0) as -> by (simpl in Hv; lia). destruct (Z.ltb_spec 0 base); [|lia].
    destruct (Z.leb_spec base 0); [lia|]. by rewrite Z.mod_0_l by lia.
  - change (ndiv (S (S f)) v) with (if base <=? v then S (ndiv (S f) (v / base)) else O).
    change (digits (S (S f)) base v) with
      (if v <? base then [hexdigit v] else digits (S f) base (v / base) ++ [hexdigit (v mod base)]).
    destruct (Z.ltb_spec v base), (Z.leb_spec base v); try lia.
    + by rewrite Z.mod_small by lia.
    + rewrite upper_digits_div, IH by (try lia; by apply shrink). f_equal. f_equal.
      unfold digit_at. by rewrite Z.div_1_r.
Qed.

(** [print_num] stores exactly the digits. *)
Lemma print_num_eq size val b : 0 <= val < 2 ^ 32 ->
  print_num size val base b = addchars size (digits 33 base val) b.
Proof.
  intros Hv. unfold print_num. rewrite (mult_loop_eq 32) by lia. cbn [mbind option_bind].
  rewrite Z.mul_1_l, (digit_loop_eq val size 32) by lia.
  rewrite (digits_eq 32 val) by lia. rewrite addchars_app.
  destruct (addchars size _ b) as [b'|]; [|done]. cbn [mbind option_bind addchars].
  by destruct (addchar size _ b').
Qed.

Lemma hexdigit_value d : 0 <= d < 16 -> digit_value (hexdigit d) = d.
Proof.
  intros Hd. assert (d = 0 \/ d = 1 \/ d = 2 \/ d = 3 \/ d = 4 \/ d = 5 \/ d = 6 \/ d = 7 \/ d = 8 \/ d = 9 \/
    d = 10 \/ d = 11 \/ d = 12 \/ d = 13 \/ d = 14 \/ d = 15) as H by lia.
  repeat (destruct H as [-> |H]; [reflexivity|]). by subst.
Qed.

Lemma digits_value f : forall v, 0 <= v < 2 ^ Z.of_nat f -> number base (digits (S f) base v) = v.
Proof.
  induction f as [|f IH]; intros v Hv.
  - assert (v = 0) as -> by (simpl in Hv; lia). simpl. destruct (Z.ltb_spec 0 base); [|lia]. done.
  - change (digits (S (S f)) base v) with
      (if v <? base then [hexdigit v] else digits (S f) base (v / base) ++ [hexdigit (v mod base)]).
    destruct (Z.ltb_spec v base).
    + unfold number. simpl. rewrite hexdigit_value; lia.
    + unfold number. rewrite foldl_app. fold (number base (digits (S f) base (v / base))).
      rewrite IH by (by apply shrink). simpl.
      rewrite hexdigit_value by (pose proof (Z.mod_pos_bound v base); lia).
      pose proof (Z.div_mod v base). lia.
Qed.
End num.

(** ** Fields *)

Lemma print_str_eq size s o b : string_of s = Some o -> print_str size s b = addchars size o b.
Proof.
  revert o b. induction s as [|c s IH]; intros o b H; simpl in *; [done|].
  destruct (truthy c); [|by simplify_eq]. destruct (string_of s) as [o'|] eqn:Ho; simpl in H; simplify_eq. simpl.
  destruct (addchar size c b); simpl; [by apply IH | done].
Qed.

Lemma signed_eq size z b :
  ('(val, b) ← (if s32 z <? 0 then b' ← addchar size (chr "-"%char) b; Some (s32 (- s32 z), b') else Some (s32 z, b));
   print_num size (u32 val) 10 b) = addchars size (signed_digits z) b.
Proof.
  unfold signed_digits. destruct (s32 z <? 0); cbn [mbind option_bind addchars].
  - destruct (addchar size _ b) as [b'|]; [|done]. cbn [mbind option_bind].
    apply print_num_eq; [lia | apply u32_range].
  - apply print_num_eq; [lia | apply u32_range].
Qed.

Lemma Some_pair_inj {A B} (a c : A) (b d : B) : Some (a, b) = Some (c, d) -> a = c /\ b = d.
Proof. by intros [= -> ->]. Qed.

Lemma print_field_eq size letter ap o ap' b : field letter ap = Some (o, ap') ->
  print_field size letter ap b = b' ← addchars size o b; Some (b', ap').
Proof.
  unfold field, print_field. intros H.
  assert (Hn : forall z base, 2 <= base <= 16 -> forall b, print_num size (u32 z) base b = addchars size (digits 33 base (u32 z)) b).
  { intros z base Hb b0. apply print_num_eq; [lia | apply u32_range]. }
  assert (Hone : forall (c : Z) (ap0 : list arg) b, (b' ← addchar size c b; Some (b', ap0)) = b' ← addchars size [c] b; Some (b', ap0)).
  { intros c ap0 b0. cbn [addchars]. by destruct (addchar size c b0). }
  repeat match goal with
  | _ : context [letter =? ?c] |- _ => destruct (letter =? c)
  end;
  try (destruct (va_int ap) as [[z ap1]|]; cbn [mbind option_bind] in H |- *; [|done]);
  try (destruct (va_str ap) as [[str ap1]|]; cbn [mbind option_bind] in H |- *; [|done]).
  - destruct (string_of str) as [o'|] eqn:Hs; [|done]. cbn [mbind option_bind] in H. apply Some_pair_inj in H as [-> ->].
    by rewrite (print_str_eq _ _ _ _ Hs).
  - apply Some_pair_inj in H as [<- <-]. apply Hone.
  - apply Some_pair_inj in H as [<- <-]. rewrite <- signed_eq.
    destruct (s32 z <? 0); cbn [mbind option_bind]; [|done]. by destruct (addchar size (chr "-"%char) b).
  - apply Some_pair_inj in H as [<- <-]. by rewrite Hn by lia.
  - apply Some_pair_inj in H as [<- <-]. rewrite addchars_app. cbn [bytes addchars].
    destruct (addchar size (chr "0"%char) b) as [b1|]; [|done]. cbn [mbind option_bind].
    destruct (addchar size (chr "x"%char) b1) as [b2|]; [|done]. cbn [mbind option_bind]. by rewrite Hn by lia.
  - apply Some_pair_inj in H as [<- <-]. by rewrite Hn by lia.
  - apply Some_pair_inj in H as [<- <-]. apply Hone.
Qed.

Lemma add_spaces_eq n size b : add_spaces n size b = addchars size (replicate n (chr " "%char)) b.
Proof.
  revert b. induction n as [|n IH]; intros b; [done|]. simpl. by destruct (addchar size _ b); simpl.
Qed.

(** ** Conversions *)

Lemma overlay_again size pos o1 o2 str : (length o1 <= length o2)%nat ->
  overlay size pos o2 (overlay size pos o1 str) = overlay size pos o2 str.
Proof.
  intros Hl. apply list_eq. intros i. rewrite !overlay_lookup. destruct (str !! i) as [c|]; [|done]. simpl.
  f_equal. destruct (_ && _) eqn:Hin; [|done]. b2p.
  destruct (zlookup o2 (Z.of_nat i - pos)) eqn:H2; [done|]. simpl.
  rewrite zlookup_ge; [done|]. destruct (Z.lt_ge_cases (Z.of_nat i - pos) (Z.of_nat (length o2))); [|lia].
  destruct (zlookup_is_Some o2 (Z.of_nat i - pos)); [lia | congruence].
Qed.
Lemma overlay_app size pos o1 o2 str :
  overlay size (pos + Z.of_nat (length o1)) o2 (overlay size pos o1 str) = overlay size pos (o1 ++ o2) str.
Proof.
  apply list_eq. intros i. rewrite !overlay_lookup. destruct (str !! i) as [c|]; [|done]. simpl. f_equal.
  assert (Ha : forall k, 0 <= k -> zlookup (o1 ++ o2) k =
    if k <? Z.of_nat (length o1) then zlookup o1 k else zlookup o2 (k - Z.of_nat (length o1))).
  { intros k Hk. unfold zlookup. destruct (Z.ltb_spec k 0); [lia|]. destruct (Z.ltb_spec k (Z.of_nat (length o1))).
    - apply lookup_app_l. lia.
    - destruct (Z.ltb_spec (k - Z.of_nat (length o1)) 0); [lia|]. rewrite lookup_app_r by lia. f_equal. lia. }
  destruct (Z.leb_spec pos (Z.of_nat i)), (Z.leb_spec (pos + Z.of_nat (length o1)) (Z.of_nat i)),
    (Z.ltb_spec (Z.of_nat i + 1) size); simpl; try done; try lia; rewrite Ha by lia;
    destruct (Z.ltb_spec (Z.of_nat i - pos) (Z.of_nat (length o1))); try done; try lia.
  replace (Z.of_nat i - pos - Z.of_nat (length o1)) with (Z.of_nat i - (pos + Z.of_nat (length o1))) by lia.
  by rewrite (zlookup_ge o1) by lia.
Qed.

(** The buffer has been filled with [o] from its start. *)
Definition filled (size : Z) (str o : list Z) : pbuf := (overlay size 0 o str, Z.of_nat (length o)).

Lemma filled_app size str o o' : size <= Z.of_nat (length str) ->
  Z.of_nat (length (o ++ o')) < 2 ^ 32 -> addchars size o' (filled size str o) = Some (filled size str (o ++ o')).
Proof.
  intros Hs Hb. rewrite length_app in Hb. unfold filled.
  rewrite addchars_spec by (rewrite ?overlay_length; lia). do 2 f_equal.
  - apply (overlay_app size 0).
  - rewrite length_app. lia.
Qed.

(** A conversion adds its aligned field. *)
Lemma conversion_eq size c ap str o right_aligned pad letter c' f ap' :
  directive c = (right_aligned, pad, letter :: c') -> field letter ap = Some (f, ap') ->
  size <= Z.of_nat (length str) -> Z.of_nat (length (o ++ align right_aligned pad f)) < 2 ^ 31 ->
  conversion size c ap (filled size str o) = Some (c', ap', filled size str (o ++ align right_aligned pad f)).
Proof.
  intros Hd Hf Hs Hb. unfold conversion, directive in *.
  destruct (match c with d :: c0 => if d =? chr "-"%char then (false, c0) else (true, c) | [] => (true, c) end) as [ra c0].
  destruct (read_pad c0 0) as [pd c1]. injection Hd as -> -> ->.
  assert (Hlen : (length (o ++ f) <= length (o ++ align right_aligned pad f))%nat).
  { rewrite !length_app. unfold align. destruct right_aligned; rewrite length_app; lia. }
  rewrite (print_field_eq _ _ _ _ _ _ Hf), filled_app by lia. cbn [mbind option_bind].
  assert (He : (filled size str (o ++ f)).2 - (filled size str o).2 = Z.of_nat (length f)).
  { simpl. rewrite length_app. lia. }
  rewrite He, !add_spaces_eq. fold (padding pad f). destruct right_aligned.
  - assert (Hback : addchars size (padding pad f) ((filled size str (o ++ f)).1, (filled size str o).2) =
      Some (overlay size (Z.of_nat (length o)) (padding pad f) (overlay size 0 (o ++ f) str),
            Z.of_nat (length o) + Z.of_nat (length (padding pad f)))).
    { apply addchars_spec; simpl; rewrite ?overlay_length; try lia. unfold align in Hb. rewrite !length_app in Hb. lia. }
    rewrite Hback. cbn [mbind option_bind]. rewrite (print_field_eq _ _ _ _ _ _ Hf).
    unfold align in *. rewrite !length_app in Hb.
    rewrite addchars_spec by (rewrite ?overlay_length; lia). cbn [mbind option_bind]. do 2 f_equal.
    unfold filled. f_equal; [|rewrite !length_app; lia].
    rewrite overlay_app, <- (overlay_app size 0 o f), Z.add_0_l, overlay_again by (rewrite length_app; lia).
    apply (overlay_app size 0).
  - rewrite filled_app; [|done|].
    + cbn [mbind option_bind]. by rewrite <- app_assoc.
    + rewrite <- app_assoc. unfold align in Hb. lia.
Qed.

(** ** vsnprintf *)

Lemma format_loop_eq size str fuel : forall c ap o out,
  size <= Z.of_nat (length str) -> render fuel c ap = Some out ->
  Z.of_nat (length (o ++ out)) < 2 ^ 31 ->
  format_loop fuel size c ap (filled size str o) = Some (filled size str (o ++ out)).
Proof.
  induction fuel as [|fuel IH]; intros c ap o out Hs Hr Hb; [done|].
  destruct c as [|ch c]; [done|]. cbn [render format_loop] in *. destruct (truthy ch).
  2: { injection Hr as <-. by rewrite app_nil_r. }
  destruct (ch =? chr "%"%char).
  - destruct (directive c) as [[ra pad] [|letter c']] eqn:Hd; [done|].
    destruct (field letter ap) as [[f ap']|] eqn:Hf; [|done]. cbn [mbind option_bind] in Hr.
    destruct (render fuel c' ap') as [rest|] eqn:Hrest; [|done]. injection Hr as <-.
    rewrite app_assoc in Hb |- *. rewrite length_app in Hb.
    rewrite (conversion_eq size c ap str o ra pad letter c' f ap') by (done || lia).
    cbn [mbind option_bind]. apply IH; [done | done |]. rewrite length_app. lia.
  - destruct (render fuel c ap) as [rest|] eqn:Hrest; [|done]. injection Hr as <-.
    change (ch :: rest) with ([ch] ++ rest) in Hb |- *. rewrite app_assoc in Hb |- *.
    pose proof (filled_app size str o [ch] Hs) as Hadd. cbn [addchars] in Hadd.
    rewrite (length_app (o ++ [ch])) in Hb.
    destruct (addchar size ch (filled size str o)) as [b'|]; cbn [mbind option_bind] in *.
    + assert (b' = filled size str (o ++ [ch])) as -> by (apply Some_inj, Hadd; lia).
      apply IH; [done | done |]. rewrite length_app. lia.
    + discriminate Hadd. lia.
Qed.

Lemma overlay_take size o str :
  overlay size 0 o str = take (Z.to_nat (size - 1)) (take (length str) o) ++
    drop (length (take (Z.to_nat (size - 1)) (take (length str) o))) str.
Proof.
  apply list_eq. intros i. rewrite overlay_lookup.
  set (k := Z.to_nat (size - 1)). rewrite !length_take.
  destruct (decide (i < k `min` (length str `min` length o))%nat) as [Hlt|Hge].
  - rewrite lookup_app_l by (rewrite !length_take; lia). rewrite !lookup_take_lt by lia.
    destruct (lookup_lt_is_Some_2 str i) as [c Hc]; [lia|]. destruct (lookup_lt_is_Some_2 o i) as [x Hx]; [lia|].
    rewrite Hc, Hx. simpl. destruct (Z.leb_spec 0 (Z.of_nat i)), (Z.ltb_spec (Z.of_nat i + 1) size); try lia.
    simpl. unfold zlookup. destruct (Z.ltb_spec (Z.of_nat i - 0) 0); [lia|].
    by rewrite Z.sub_0_r, Nat2Z.id, Hx.
  - rewrite lookup_app_r by (rewrite !length_take; lia). rewrite !length_take, lookup_drop.
    replace (k `min` (length str `min` length o) + (i - k `min` (length str `min` length o)))%nat with i by lia.
    destruct (str !! i) as [c|] eqn:Hc; [|done]. simpl. f_equal. destruct (_ && _) eqn:Hin; [|done]. b2p.
    apply lookup_lt_Some in Hc. rewrite Z.sub_0_r, zlookup_ge; [done | lia].
Qed.

(** ** The reference renderer, step by step *)

Lemma string_of_app s r : no_nul s -> string_of (s ++ 0 :: r) = Some s.
Proof.
  induction s as [|x s IH]; intros Hn; [done|]. apply no_nul_cons in Hn as [Hx Hs].
  simpl. by rewrite truthy_true, IH.
Qed.
Lemma align_none o : Z.of_nat (length o) < 2 ^ 31 -> align true 0 o = o.
Proof.
  intros Hl. unfold align, padding. rewrite s32_small by lia.
  by replace (Z.to_nat (0 - Z.of_nat (length o))) with O by lia.
Qed.
Lemma render_char fuel ch c ap : truthy ch = true -> (ch =? chr "%"%char) = false ->
  render (S fuel) (ch :: c) ap = cons ch <$> render fuel c ap.
Proof. intros H1 H2. cbn [render]. by rewrite H1, H2. Qed.
Lemma render_str fuel c s ap o : string_of s = Some o -> Z.of_nat (length o) < 2 ^ 31 ->
  render (S fuel) (chr "%"%char :: chr "s"%char :: c) (AStr s :: ap) = rest ← render fuel c ap; Some (o ++ rest).
Proof.
  intros Hs Hl. change (render (S fuel) _ _) with ('(o, ap') ← field (chr "s"%char) (AStr s :: ap);
    rest ← render fuel c ap'; Some (align true 0 o ++ rest)).
  assert (Hf : field (chr "s"%char) (AStr s :: ap) = Some (o, ap)).
  { unfold field. rewrite Z.eqb_refl. simpl. by rewrite Hs. }
  rewrite Hf. cbn [mbind option_bind]. by rewrite align_none.
Qed.
Lemma render_int fuel c z ap : Z.of_nat (length (signed_digits z)) < 2 ^ 31 ->
  render (S fuel) (chr "%"%char :: chr "d"%char :: c) (AInt z :: ap) =
  rest ← render fuel c ap; Some (signed_digits z ++ rest).
Proof.
  intros Hl. change (render (S fuel) _ _) with ('(o, ap') ← field (chr "d"%char) (AInt z :: ap);
    rest ← render fuel c ap'; Some (align true 0 o ++ rest)).
  change (field (chr "d"%char) (AInt z :: ap)) with (Some (signed_digits z, ap)).
  cbn [mbind option_bind]. by rewrite align_none.
Qed.
Lemma digits_length f base v : (length (digits f base v) <= f)%nat.
Proof.
  revert v. induction f as [|f IH]; intros v; cbn [digits]; [done|].
  case_match; cbn [length]; [lia|]. rewrite length_app. cbn [length]. specialize (IH (v / base)). lia.
Qed.
Lemma signed_digits_length z : (length (signed_digits z) <= 34)%nat.
Proof.
  unfold signed_digits. case_match; cbn [length].
  - pose proof (digits_length 33 10 (u32 (s32 (- s32 z)))). lia.
  - pose proof (digits_length 33 10 (u32 (s32 z))). lia.
Qed.

(** The buffer a print leaves behind: as much of [out] as fits, a
    terminator, and the rest of the buffer as it was. *)
Definition printed (size : Z) (out str : list Z) : list Z :=
  if 0 <? size then
    let k := Nat.min (length out) (Z.to_nat (size - 1)) in
    take k out ++ 0 :: drop (S k) str
  else str.

Lemma zinsert_split (str a b : list Z) c x i : str = a ++ x :: b -> Z.of_nat (length a) = i ->
  zinsert i c str = a ++ c :: b.
Proof.
  intros -> <-. unfold zinsert. destruct (Z.ltb_spec (Z.of_nat (length a)) 0); [lia|].
  by rewrite Nat2Z.id, insert_app_r_alt, Nat.sub_diag by lia.
Qed.

Lemma printed_length size out str : 0 <= size <= Z.of_nat (length str) -> length (printed size out str) = length str.
Proof.
  intros Hs. unfold printed. case_test; [|done]. rewrite length_app, length_take. cbn [length]. rewrite length_drop. lia.
Qed.
Lemma printed_beyond size out str i : 0 <= size <= Z.of_nat (length str) -> size <= Z.of_nat i ->
  printed size out str !! i = str !! i.
Proof.
  intros Hs Hi. unfold printed. case_test; [|done].
  set (k := Nat.min (length out) (Z.to_nat (size - 1))).
  assert (Hk : length (take k out) = k) by (rewrite length_take; lia).
  rewrite lookup_app_r, Hk by lia. destruct (i - k)%nat as [|j] eqn:E; [lia|].
  rewrite <- lookup_tail. cbn [tail]. rewrite lookup_drop. f_equal. lia.
Qed.

Lemma vsnprintf_prints str size format ap out :
  0 <= size <= Z.of_nat (length str) ->
  render (S (length format)) format ap = Some out -> Z.of_nat (length out) < 2 ^ 31 - 1 ->
  vsnprintf str size format ap = Some (printed size out str, Z.of_nat (length out)).
Proof.
  intros Hs Hr Hb. unfold vsnprintf.
  assert (Hfill : (str, 0) = filled size str []).
  { unfold filled. f_equal. pose proof (overlay_take size [] str) as H. rewrite take_nil, take_nil in H. done. }
  rewrite Hfill, (format_loop_eq size str _ format ap [] out) by (done || simpl; lia).
  cbn [mbind option_bind]. unfold filled. rewrite app_nil_l. unfold printed.
  set (k := Nat.min (length out) (Z.to_nat (size - 1))).
  destruct (Z.ltb_spec 0 size) as [Hpos|]; cbn [mbind option_bind].
  - rewrite u32_small, s32_small by lia.
    assert (Hover : overlay size 0 out str = take k out ++ drop k str).
    { rewrite overlay_take, !length_take, take_take. f_equal; [|f_equal; unfold k; lia].
      destruct (decide (length out <= Z.to_nat (size - 1))%nat).
      - rewrite !take_ge; [done | unfold k; lia | lia].
      - unfold k. f_equal. lia. }
    destruct (lookup_lt_is_Some_2 str k) as [x Hx]; [unfold k; lia|].
    assert (Hdrop : drop k str = x :: drop (S k) str) by (by apply drop_S).
    rewrite Hdrop in Hover.
    assert (Hlk : length (take k out) = k) by (rewrite length_take; unfold k; lia).
    replace (if Z.of_nat (length out) + 1 <? size then _ else _) with
      (store_char (overlay size 0 out str) (Z.of_nat k) 0).
    2: { case_test; f_equal; unfold k; lia. }
    rewrite store_char_ok by (rewrite overlay_length; unfold k; lia). cbn [mbind option_bind].
    do 2 f_equal. eapply zinsert_split; [done | lia].
  - rewrite s32_small by lia. do 2 f_equal. pose proof (overlay_take size out str) as H0.
    replace (Z.to_nat (size - 1)) with O in H0 by lia. done.
Qed.

(** C35. vsnprintf: when [format] with the arguments [ap] prints [out], it
    returns [out]'s length and leaves the characters of [out] that fit into
    [size-1] bytes and a terminator in the buffer; it stores nothing past
    [size] bytes, whatever the length of [out]. *)
Theorem vsnprintf_correct str size format ap out :
  0 <= size <= Z.of_nat (length str) ->
  render (S (length format)) format ap = Some out -> Z.of_nat (length out) < 2 ^ 31 - 1 ->
  exists buf, vsnprintf str size format ap = Some (buf, Z.of_nat (length out)) /\
    buf = printed size out str /\ length buf = length str /\
    forall i, size <= Z.of_nat i -> buf !! i = str !! i.
Proof.
  intros Hs Hr Hb. exists (printed size out str). repeat split; [by apply vsnprintf_prints | |].
  - by apply printed_length.
  - intros i Hi. by apply printed_beyond.
Qed.

Lemma vsnprintf_correct_witness :
  vsnprintf (replicate 8 1) 8 (cstr "%5d|%x") [AInt 42; AInt 255] =
  Some (printed 8 (bytes "   42|ff") (replicate 8 1), 8).
Proof.
  destruct (vsnprintf_correct (replicate 8 1) 8 (cstr "%5d|%x") [AInt 42; AInt 255] (bytes "   42|ff")) as (buf & E & -> & _); [done | vm_compute; reflexivity | done |].
  exact E.
Defined.

(** Printed numbers read back: for every 32-bit value and base 10 or 16
    print_num ends (33 rounds are enough), adds only digits, and these digits
    denote the value. *)
Theorem print_num_roundtrip size val base str :
  base = 10 \/ base = 16 -> 0 <= val < 2 ^ 32 -> size <= Z.of_nat (length str) ->
  exists ds, print_num size val base (str, 0) = Some (overlay size 0 ds str, Z.of_nat (length ds)) /\
    number base ds = val /\ (length ds <= 33)%nat.
Proof.
  intros Hbase Hv Hs. exists (digits 33 base val).
  assert (Hlen : forall f v, (length (digits f base v) <= f)%nat).
  { induction f as [|f IH]; intros v; simpl; [done|]. case_test; simpl; [lia|].
    rewrite length_app. simpl. specialize (IH (v / base)). lia. }
  specialize (Hlen 33%nat val).
  assert (Hb : 2 <= base <= 16) by (destruct Hbase; lia). split; [|split; [|done]].
  - rewrite print_num_eq by done. rewrite addchars_spec by lia. by rewrite Z.add_0_l.
  - by apply (digits_value base Hb 32).
Qed.

Lemma print_num_roundtrip_witness :
  exists ds, print_num 5 1234 10 (replicate 5 0, 0) = Some (overlay 5 0 ds (replicate 5 0), Z.of_nat (length ds)) /\
    number 10 ds = 1234 /\ (length ds <= 33)%nat.
Proof. apply print_num_roundtrip; [by left | done | done]. Defined.

(** A format that ends in a lone [%] makes vsnprintf run past its
    terminator: the result depends on the memory that follows the string. *)
Theorem vsnprintf_trailing_percent :
  vsnprintf (replicate 9 1) 9 (cstr "50%") [] = None /\
  vsnprintf (replicate 9 1) 9 (cstr "50%" ++ cstr "xy") [] = Some (cstr "50%xy" ++ [1; 1; 1], 5).
Proof. split; vm_compute; reflexivity. Qed.
