(* ===== verification/Screen.v ===== *)
(** * The screen (source/main.c, source/interrupts.c)

    Text-mode video memory, the cursor, and the routines that write to them:
    scroll and write_to_screen of main.c, addstr, fatal, __assert and
    move_cursor of interrupts.c. *)

From Stdlib Require Import Ascii.
From S2P Require Import Prelude Constants Libc.

(** [struct screenchar]. *)
Record screenchar := mkChar { sc_c : Z; sc_fg : Z; sc_bg : Z }.

(** Video memory, the cursor globals of main.c, and the bytes sent to the
    ports by [outb], the latest first. *)
Record screen := mkScreen {
  cells : list screenchar;
  xpos : Z;
  ypos : Z;
  ports : list (Z * Z)
}.

Definition with_cells (l : list screenchar) (s : screen) : screen :=
  mkScreen l (xpos s) (ypos s) (ports s).
Definition with_pos (x y : Z) (s : screen) : screen := mkScreen (cells s) x y (ports s).

Definition outb (port data : Z) : M screen unit :=
  modify (fun s => mkScreen (cells s) (xpos s) (ypos s) ((port, u8 data) :: ports s)).

(** [screen[i]], inside of the 80x25 characters of the text screen. *)
Definition get_cell (i : Z) : M screen screenchar :=
  s <- get; of_opt (zlookup (cells s) i) "screen[]".
Definition set_cell (i : Z) (c : screenchar) : M screen unit :=
  s <- get; _ <- of_opt (zlookup (cells s) i) "screen[]";
  put (with_cells (zinsert i c (cells s)) s).
Definition set_char (i c : Z) : M screen unit :=
  old <- get_cell i; set_cell i (mkChar c (sc_fg old) (sc_bg old)).

(** ** main.c *)

Definition scroll : M screen unit :=
  for_ 24 0 (fun y => for_ 80 0 (fun x =>
    c <- get_cell (u32 ((y + 1) * SCREEN_WIDTH + x)); set_cell (u32 (y * SCREEN_WIDTH + x)) c));;
  for_ 80 0 (fun x => set_char (u32 (24 * SCREEN_WIDTH + x)) (chr " "%char));;
  modify (fun s => with_pos (xpos s) (u32 (ypos s - 1)) s).

Definition NEWLINE : Z := 10.
Definition TAB : Z := 9.

(** The body of the loop of [write_to_screen] for the character [c]. *)
Definition put_char (c : Z) : M screen unit :=
  s <- get;
  (if c =? NEWLINE then put (with_pos 0 (u32 (ypos s + 1)) s)
   else if c =? TAB then put (with_pos (u32 (xpos s + (8 - xpos s mod 8))) (ypos s) s)
   else
     set_char (u32 (ypos s * SCREEN_WIDTH + xpos s)) c;;
     modify (fun s => with_pos (u32 (xpos s + 1)) (ypos s) s));;
  s <- get;
  when_ (SCREEN_WIDTH <=? xpos s) (put (with_pos 0 (u32 (ypos s + 1)) s));;
  s <- get;
  when_ (SCREEN_HEIGHT <=? ypos s) scroll.

(** ** interrupts.c *)

Definition move_cursor (x y : Z) : M screen unit :=
  let val := u32 (y * 80 + x) in
  outb 0x3D4 14;;
  outb 0x3D5 (Z.shiftr val 8);;
  outb 0x3D4 15;;
  outb 0x3D5 val.

(** [write_to_screen] on data that has been read. *)
Fixpoint put_chars (data : list Z) : M screen unit :=
  match data with [] => ret tt | c :: data' => put_char c;; put_chars data' end.
Definition write_to_screen_bytes (data : list Z) : M screen unit :=
  put_chars data;; s <- get; move_cursor (s32 (xpos s)) (s32 (ypos s)).

(** [addstr(&x,str)]: returns the new [x]. *)
Fixpoint addstr (x : Z) (str : list Z) : M screen Z :=
  match str with
  | [] => fault "string without terminator"
  | c :: str' =>
      if truthy c then set_cell x (mkChar c 15 0);; addstr (u32 (x + 1)) str' else ret x
  end.

(** [fatal] and [__assert] in kernel mode write their message to the top of
    the screen and loop forever. *)
Definition fatal (str : list Z) : M screen unit :=
  x <- addstr 0 (cstr "Fatal error: ");
  _ <- addstr x str;
  halt "fatal".

Definition assert_fail (str function : list Z) : M screen unit :=
  x <- addstr 0 (cstr "Assertion failure in ");
  x <- addstr x function;
  x <- addstr x (cstr ": ");
  _ <- addstr x str;
  halt "__assert".

(** The screen as [kernel_main] clears it. *)
Definition clear_screen : M screen unit :=
  for_ 25 0 (fun y => for_ 80 0 (fun x => set_char (u32 (y * SCREEN_WIDTH + x)) (chr " "%char))).
