(* ===== verification/ScreenProofs.v ===== *)
(** * The screen: theorems

    The console as a user thinks of it is an endless roll of paper, 80
    columns wide: characters are written one after the other, a newline or the
    end of a line starts the next row.  The screen always shows the part of
    the roll around the cursor; the scrolling code implements this. *)

From Stdlib Require Import Ascii.
From S2P Require Import Prelude Constants Libc Screen.

Definition blank : Z := chr " "%char.

(** ** The abstract console *)

Record paper := mkPaper { ink : gmap (Z * Z) Z; row : Z; col : Z }.

(** Where the next character goes. *)
Definition wrap (p : paper) : paper :=
  if SCREEN_WIDTH <=? col p then mkPaper (ink p) (row p + 1) 0 else p.
Definition paper_char (c : Z) (p : paper) : paper :=
  wrap (if c =? NEWLINE then mkPaper (ink p) (row p + 1) 0
        else if c =? TAB then mkPaper (ink p) (row p) (col p + (8 - col p mod 8))
        else mkPaper (<[(row p, col p) := c]> (ink p)) (row p) (col p + 1)).
Definition paper_chars (data : list Z) (p : paper) : paper := fold_left (fun p c => paper_char c p) data p.

(** The character a position of the roll shows. *)
Definition shown (p : paper) (r x : Z) : Z := default blank (ink p !! (r, x)).

(** The screen shows the 25 rows of the roll that start at [top]. *)
Record window (p : paper) (top : Z) (s : screen) : Prop := {
  w_cells : length (cells s) = 2000%nat;
  w_x : xpos s = col p;
  w_y : ypos s = row p - top;
  w_top : 0 <= top;
  w_shown y x : 0 <= y < 25 -> 0 <= x < 80 ->
    sc_c <$> zlookup (cells s) (y * 80 + x) = Some (shown p (top + y) x);
  w_fresh r x : row p < r -> ink p !! (r, x) = None
}.
(** ... and the cursor is on it; once scrolling has begun it stays on the
    last line. *)
Definition shows (p : paper) (s : screen) : Prop :=
  exists top, window p top s /\ 0 <= xpos s < 80 /\ 0 <= ypos s < 25 /\ (top = 0 \/ ypos s = 24).

(** ** Cells *)

Lemma wp_get_cell i c (Q : screenchar -> screen -> Prop) s :
  zlookup (cells s) i = Some c -> Q c s -> wp (get_cell i) Q s.
Proof. intros Hc HQ. unfold get_cell. wp_step. wp_step. wp_step; [done|]. done. Qed.
Lemma wp_set_cell i c (Q : unit -> screen -> Prop) s :
  0 <= i < Z.of_nat (length (cells s)) -> Q tt (with_cells (zinsert i c (cells s)) s) ->
  wp (set_cell i c) Q s.
Proof.
  intros Hi HQ. destruct (zlookup_is_Some (cells s) i Hi) as [old Ho].
  unfold set_cell. wp_step. wp_step. wp_step. wp_step; [done|]. by wp_step.
Qed.
Lemma wp_set_char i c old (Q : unit -> screen -> Prop) s :
  zlookup (cells s) i = Some old ->
  Q tt (with_cells (zinsert i (mkChar c (sc_fg old) (sc_bg old)) (cells s)) s) -> wp (set_char i c) Q s.
Proof.
  intros Ho HQ. unfold set_char. wp_step. eapply wp_get_cell; [done|].
  apply wp_set_cell; [by eapply zlookup_range | done].
Qed.

(** ** scroll *)

(** The cells from [j] on are still those of [l], the ones below have been
    replaced by the cells one line further down. *)
Definition shifted (l l' : list screenchar) (j : Z) : Prop :=
  length l' = length l /\
  forall i, 0 <= i < 2000 -> zlookup l' i = if i <? j then zlookup l (i + 80) else zlookup l i.

Lemma shift_cell s0 s j :
  length (cells s0) = 2000%nat -> shifted (cells s0) (cells s) j -> 0 <= j < 1920 ->
  wp (c <- get_cell (j + 80); set_cell j c)
    (fun _ s' => exists l', s' = with_cells l' s /\ shifted (cells s0) l' (j + 1)) s.
Proof.
  intros Hlen [Hl Hsh] Hj. destruct (zlookup_is_Some (cells s0) (j + 80)) as [c Hc]; [lia|].
  wp_step. eapply wp_get_cell.
  { rewrite Hsh by lia. destruct (Z.ltb_spec (j + 80) j); [lia | done]. }
  apply wp_set_cell; [lia|]. eexists. split; [done|]. split; [by rewrite zinsert_length|].
  intros i Hi. destruct (decide (i = j)) as [-> |Hne].
  - rewrite zlookup_zinsert_eq by lia. destruct (Z.ltb_spec j (j + 1)); [done | lia].
  - rewrite zlookup_zinsert_ne, Hsh by done. destruct (Z.ltb_spec i j), (Z.ltb_spec i (j + 1)); try done; lia.
Qed.

Lemma shift_rows s : length (cells s) = 2000%nat ->
  wp (for_ 24 0 (fun y => for_ 80 0 (fun x =>
        c <- get_cell (u32 ((y + 1) * SCREEN_WIDTH + x)); set_cell (u32 (y * SCREEN_WIDTH + x)) c)))
    (fun _ s' => exists l', s' = with_cells l' s /\ shifted (cells s) l' 1920) s.
Proof.
  intros Hlen.
  apply (wp_for (fun y s' => exists l', s' = with_cells l' s /\ shifted (cells s) l' (y * 80))).
  - exists (cells s). split; [by destruct s|]. split; [done|]. intros i Hi.
    by destruct (Z.ltb_spec i (0 * 80)); [lia|].
  - intros y s' Hy (l' & -> & Hsh).
    apply (wp_for (fun x s' => exists l', s' = with_cells l' s /\ shifted (cells s) l' (y * 80 + x))).
    + exists l'. rewrite Z.add_0_r. done.
    + intros x s' Hx (l2 & -> & Hsh2). unfold SCREEN_WIDTH. rewrite !u32_small by lia.
      replace ((y + 1) * 80 + x) with (y * 80 + x + 80) by lia.
      eapply wp_mono; [apply (shift_cell s); [done | done | lia]|]. intros [] s'' (l3 & -> & Hsh3).
      exists l3. rewrite Z.add_assoc. done.
    + intros s' (l2 & -> & Hsh2). exists l2. split; [done|].
      by replace ((y + 1) * 80) with (y * 80 + (0 + Z.of_nat 80)) by lia.
  - intros s' H. done.
Qed.

(** The last line is blanked; its colours stay. *)
Lemma blank_line s : length (cells s) = 2000%nat ->
  wp (for_ 80 0 (fun x => set_char (u32 (24 * SCREEN_WIDTH + x)) (chr " "%char)))
    (fun _ s' => exists l', s' = with_cells l' s /\ length l' = 2000%nat /\
       forall i, 0 <= i < 2000 -> sc_c <$> zlookup l' i =
         if i <? 1920 then sc_c <$> zlookup (cells s) i else Some blank) s.
Proof.
  intros Hlen. apply (wp_for (fun x s' => exists l', s' = with_cells l' s /\ length l' = 2000%nat /\
    forall i, 0 <= i < 2000 -> sc_c <$> zlookup l' i =
      if (1920 <=? i) && (i <? 1920 + x) then Some blank else sc_c <$> zlookup (cells s) i)).
  - exists (cells s). split; [by destruct s|]. split; [done|]. intros i Hi.
    destruct (Z.leb_spec 1920 i), (Z.ltb_spec i (1920 + 0)); try done; lia.
  - intros x s' Hx (l' & -> & Hl & Hc). unfold SCREEN_WIDTH. rewrite u32_small by lia.
    destruct (zlookup_is_Some l' (24 * 80 + x)) as [old Ho]; [lia|].
    eapply wp_set_char; [done|]. eexists. split; [done|]. simpl. split; [by rewrite zinsert_length|].
    intros i Hi. destruct (decide (i = 24 * 80 + x)) as [-> |Hne].
    + rewrite zlookup_zinsert_eq by lia. simpl.
      destruct (Z.leb_spec 1920 (24 * 80 + x)), (Z.ltb_spec (24 * 80 + x) (1920 + (x + 1))); try done; lia.
    + rewrite zlookup_zinsert_ne, Hc by done.
      destruct (Z.leb_spec 1920 i), (Z.ltb_spec i (1920 + x)), (Z.ltb_spec i (1920 + (x + 1))); try done; lia.
  - intros s' (l' & -> & Hl & Hc). exists l'. split; [done|]. split; [done|]. intros i Hi. rewrite Hc by done.
    destruct (Z.leb_spec 1920 i), (Z.ltb_spec i (1920 + (0 + Z.of_nat 80))), (Z.ltb_spec i 1920); try done; lia.
Qed.

Lemma scroll_spec s : length (cells s) = 2000%nat -> 0 < ypos s < 2 ^ 32 ->
  wp scroll (fun _ s' => exists l', s' = with_pos (xpos s) (ypos s - 1) (with_cells l' s) /\
    length l' = 2000%nat /\ forall i, 0 <= i < 2000 -> sc_c <$> zlookup l' i =
      if i <? 1920 then sc_c <$> zlookup (cells s) (i + 80) else Some blank) s.
Proof.
  intros Hlen Hy. unfold scroll. wp_step. eapply wp_mono; [by apply shift_rows|].
  intros [] s1 (l1 & -> & Hl1 & Hsh). wp_step.
  eapply wp_mono; [apply blank_line; simpl; lia|]. intros [] s2 (l2 & -> & Hl2 & Hc).
  wp_step. simpl. exists l2. rewrite u32_small by lia. split; [done|]. split; [done|].
  intros i Hi. rewrite Hc by done. simpl. destruct (Z.ltb_spec i 1920); [|done].
  rewrite Hsh by done. by destruct (Z.ltb_spec i 1920); [|lia].
Qed.

(** Scrolling moves the window one row down the roll. *)
Lemma scroll_window p top s : window p top s -> row p - top = 25 -> 0 <= row p < 2 ^ 31 ->
  (forall x, ink p !! (row p, x) = None) ->
  wp scroll (fun _ s' => window p (top + 1) s') s.
Proof.
  intros [Hl Hx Hy Ht Hs Hf] Hrow Hb Hnew. eapply wp_mono; [apply scroll_spec; [done | lia]|].
  intros [] s' (l' & -> & Hl' & Hc). split; simpl; try done; [lia | lia |].
  intros y x Hyr Hxr. rewrite Hc by lia. destruct (Z.ltb_spec (y * 80 + x) 1920).
  - replace (y * 80 + x + 80) with ((y + 1) * 80 + x) by lia. rewrite Hs by lia. do 2 f_equal. lia.
  - unfold shown. replace (top + 1 + y) with (row p) by lia. by rewrite Hnew.
Qed.

(** ** put_char *)

(** The end of the loop body: scroll when the cursor has left the screen. *)
Lemma put_char_tail p top s :
  window p top s -> 0 <= col p < 80 -> 0 <= row p - top <= 25 -> row p < 2 ^ 31 ->
  (row p - top = 25 -> forall x, ink p !! (row p, x) = None) -> (top = 0 \/ 24 <= row p - top) ->
  wp (when_ (SCREEN_HEIGHT <=? ypos s) scroll) (fun _ s' => shows p s') s.
Proof.
  intros Hw Hc Hr Hb Hnew Htop. pose proof Hw as [Hl Hx Hy Ht Hs Hf]. apply wp_when; intros Hcond; b2p.
  - unfold SCREEN_HEIGHT in Hcond. eapply wp_mono; [apply (scroll_window p top); try done; [lia | lia | apply Hnew; lia]|].
    intros [] s' Hw'. exists (top + 1). pose proof Hw' as [_ Hx' Hy' _ _ _]. rewrite Hx', Hy'.
    split; [done|]. split; [lia|]. split; lia.
  - unfold SCREEN_HEIGHT in Hcond. exists top. rewrite Hx, Hy. split; [done|]. split; [lia|]. split; lia.
Qed.

(** The middle of the loop body: wrap at the end of the line. *)
Lemma put_char_wrap p top s :
  window p top s -> 0 <= col p < 89 -> 0 <= row p - top <= 25 -> (80 <= col p -> row p - top <= 24) ->
  row p < 2 ^ 31 - 1 ->
  (row p - top = 25 -> forall x, ink p !! (row p, x) = None) -> (top = 0 \/ 24 <= row p - top) ->
  wp (s <- get; when_ (SCREEN_WIDTH <=? xpos s) (put (with_pos 0 (u32 (ypos s + 1)) s));;
      s <- get; when_ (SCREEN_HEIGHT <=? ypos s) scroll) (fun _ s' => shows (wrap p) s') s.
Proof.
  intros Hw Hc Hr Hc' Hb Hnew Htop. pose proof Hw as [Hl Hx Hy Ht Hs Hf]. wp_step. wp_step. wp_step.
  unfold wrap. rewrite Hx. apply wp_when; intros Hcond; rewrite Hcond; b2p; unfold SCREEN_WIDTH in Hcond.
  - wp_step. wp_step. wp_step. apply (put_char_tail _ top); simpl; try done; try lia.
    + split; simpl; try done; [rewrite u32_small; lia|]. intros r x Hrx. apply Hf. lia.
    + intros _ x. apply Hf. lia.
  - wp_step. wp_step. apply (put_char_tail _ top); try done; lia.
Qed.

Lemma window_write p top s c old :
  window p top s -> 0 <= col p < 80 -> 0 <= row p - top < 25 ->
  zlookup (cells s) (ypos s * 80 + xpos s) = Some old ->
  window (mkPaper (<[(row p, col p) := c]> (ink p)) (row p) (col p + 1)) top
    (with_pos (xpos s + 1) (ypos s)
      (with_cells (zinsert (ypos s * 80 + xpos s) (mkChar c (sc_fg old) (sc_bg old)) (cells s)) s)).
Proof.
  intros [Hl Hx Hy Ht Hs Hf] Hc Hr Ho. split; simpl; try done.
  - by rewrite zinsert_length.
  - lia.
  - intros y x Hyr Hxr. unfold shown. simpl. destruct (decide ((row p, col p) = (top + y, x))) as [Heq|Hne].
    + injection Heq as H1 H2. rewrite H1, H2, lookup_insert_eq.
      replace (y * 80 + x) with (ypos s * 80 + xpos s) by lia. rewrite zlookup_zinsert_eq by lia. done.
    + rewrite lookup_insert_ne by done. rewrite zlookup_zinsert_ne; [by apply Hs|].
      intros Heq. apply Hne. rewrite Hx, Hy in Heq. f_equal; lia.
  - intros r x Hrx. rewrite lookup_insert_ne; [by apply Hf|]. intros Heq. injection Heq. lia.
Qed.

Lemma put_char_spec p s c : shows p s -> row p < 2 ^ 31 - 2 ->
  wp (put_char c) (fun _ s' => shows (paper_char c p) s') s.
Proof.
  intros (top & Hw & Hxr & Hyr & Htop) Hb. pose proof Hw as [Hl Hx Hy Ht Hs Hf]. unfold put_char, paper_char.
  wp_step. wp_step. destruct (Z.eqb_spec c NEWLINE).
  - wp_step. wp_step. apply (put_char_wrap _ top); simpl; try lia.
    + split; simpl; try done; [rewrite u32_small; lia|]. intros r x Hrx. apply Hf. lia.
    + intros _ x. apply Hf. lia.
  - destruct (Z.eqb_spec c TAB).
    + pose proof (Z.mod_pos_bound (col p) 8 ltac:(done)) as Hm8. rewrite Hx.
      wp_step. wp_step. apply (put_char_wrap _ top); simpl; try lia.
      split; simpl; try done. rewrite u32_small; lia.
    + destruct (zlookup_is_Some (cells s) (ypos s * 80 + xpos s)) as [old Ho]; [lia|].
      wp_step. wp_step. unfold SCREEN_WIDTH at 1. rewrite u32_small by lia. eapply wp_set_char; [done|].
      wp_step. simpl. rewrite u32_small by lia. apply (put_char_wrap _ top); simpl; try lia.
      apply window_write; try done; lia.
Qed.

Lemma paper_char_row c p : row p <= row (paper_char c p) <= row p + 2.
Proof.
  unfold paper_char, wrap.
  destruct (c =? NEWLINE); [|destruct (c =? TAB)]; simpl;
    repeat case_match; simpl; lia.
Qed.

Lemma put_chars_spec data : forall p s, shows p s -> row p + 2 * Z.of_nat (length data) < 2 ^ 31 - 2 ->
  wp (put_chars data) (fun _ s' => shows (paper_chars data p) s') s.
Proof.
  induction data as [|c data IH]; intros p s Hsh Hb; simpl in *; [by apply wp_ret|].
  wp_step. eapply wp_mono; [apply put_char_spec; [done | lia]|]. intros [] s' Hsh'.
  apply IH; [done|]. pose proof (paper_char_row c p). lia.
Qed.

Lemma move_cursor_spec p s : shows p s -> forall (Q : unit -> screen -> Prop),
  (forall s', shows p s' -> ports s' = (0x3D5, u8 (ypos s * 80 + xpos s)) :: (0x3D4, 15) ::
       (0x3D5, (ypos s * 80 + xpos s) / 256) :: (0x3D4, 14) :: ports s -> xpos s' = xpos s -> ypos s' = ypos s -> Q tt s') ->
  wp (move_cursor (s32 (xpos s)) (s32 (ypos s))) Q s.
Proof.
  intros (top & Hw & Hxr & Hyr & Htop) Q HQ. unfold move_cursor, outb.
  rewrite !s32_small, u32_small by lia. repeat wp_step. apply HQ; simpl; try done.
  - exists top. destruct Hw. by split; [split|].
  - rewrite Z.shiftr_div_pow2 by lia. change (2 ^ 8) with 256.
    replace (u8 ((ypos s * 80 + xpos s) / 256)) with ((ypos s * 80 + xpos s) / 256); [done|].
    symmetry. apply Z.mod_small. split; [apply Z.div_pos; lia | apply Z.div_lt_upper_bound; lia].
Qed.

(** C36. write_to_screen implements the endless roll: from a screen that
    shows a roll [p], writing any data returns (no access outside of video
    memory) and shows the roll with the data written to it, the cursor on the
    screen, and the hardware cursor registers set to that position. *)
Theorem write_to_screen_refines p s data :
  shows p s -> row p + 2 * Z.of_nat (length data) < 2 ^ 31 - 2 ->
  exists s', write_to_screen_bytes data s = Ok tt s' /\ shows (paper_chars data p) s' /\
    exists old, ports s' = (0x3D5, u8 (ypos s' * 80 + xpos s')) :: (0x3D4, 15) ::
       (0x3D5, (ypos s' * 80 + xpos s') / 256) :: (0x3D4, 14) :: old.
Proof.
  intros Hsh Hb. enough (wp (write_to_screen_bytes data) (fun _ s' => shows (paper_chars data p) s' /\
    exists old, ports s' = (0x3D5, u8 (ypos s' * 80 + xpos s')) :: (0x3D4, 15) ::
       (0x3D5, (ypos s' * 80 + xpos s') / 256) :: (0x3D4, 14) :: old) s) as H.
  { apply wp_ok in H as ([] & s' & H1 & H2). eauto. }
  unfold write_to_screen_bytes. wp_step. eapply wp_mono; [by apply put_chars_spec|].
  intros [] s1 Hs1. wp_step. wp_step. apply (move_cursor_spec _ _ Hs1). intros s2 Hs2 Hp Hx Hy.
  split; [done|]. rewrite Hx, Hy. eauto.
Qed.

(** The blank screen [kernel_main] starts from. *)
Definition blank_screen : screen := mkScreen (replicate 2000 (mkChar blank 7 0)) 0 0 [].
Lemma blank_screen_shows : shows (mkPaper ∅ 0 0) blank_screen.
Proof.
  exists 0. split; [|split; [done|]; split; [done | by left]]. split; try done.
  intros y x Hy Hx. unfold zlookup, shown. destruct (Z.ltb_spec (y * 80 + x) 0); [lia|].
  change (cells blank_screen) with (replicate 2000 (mkChar blank 7 0)).
  rewrite lookup_replicate_2 by lia. done.
Qed.

Lemma write_to_screen_refines_witness :
  exists s', write_to_screen_bytes (bytes "Welcome" ++ [NEWLINE]) blank_screen = Ok tt s' /\
    shows (paper_chars (bytes "Welcome" ++ [NEWLINE]) (mkPaper ∅ 0 0)) s' /\
    exists old, ports s' = (0x3D5, u8 (ypos s' * 80 + xpos s')) :: (0x3D4, 15) ::
       (0x3D5, (ypos s' * 80 + xpos s') / 256) :: (0x3D4, 14) :: old.
Proof.
  apply (write_to_screen_refines (mkPaper ∅ 0 0) blank_screen).
  - apply blank_screen_shows.
  - vm_compute. reflexivity.
Defined.

(** ** addstr, and the messages of a failed assertion *)

Lemma addstr_spec str : forall s x, length (cells s) = 2000%nat -> 0 <= x ->
  Forall (fun c => c <> 0) str -> x + Z.of_nat (length str) <= 2000 ->
  wp (addstr x (str ++ [0])) (fun x' s' => x' = x + Z.of_nat (length str) /\ length (cells s') = 2000%nat /\
    (forall i, 0 <= i < 2000 -> i < x \/ x' <= i -> zlookup (cells s') i = zlookup (cells s) i) /\
    forall i c, str !! i = Some c -> zlookup (cells s') (x + Z.of_nat i) = Some (mkChar c 15 0)) s.
Proof.
  induction str as [|c str IH]; intros s x Hl Hx Hnz Hb; simpl in *.
  - apply wp_ret. split; [lia|]. split; [done|]. split; [done|]. intros i c Hi. done.
  - apply list.Forall_cons in Hnz as [Hc Hnz]. unfold truthy. destruct (Z.eqb_spec c 0); [done|]. simpl.
    wp_step. apply wp_set_cell; [lia|]. rewrite u32_small by lia.
    eapply wp_mono; [eapply IH; simpl; [by rewrite zinsert_length | lia | done | lia]|].
    intros x' s' (-> & Hl' & Hs & Hw). split; [lia|]. split; [done|]. simpl in Hs. split.
    + intros i Hi Hout. rewrite Hs by lia. apply zlookup_zinsert_ne. lia.
    + intros i ch Hi. destruct i as [|i]; simpl in Hi.
      * injection Hi as ->. rewrite Z.add_0_r, Hs by lia. apply zlookup_zinsert_eq. lia.
      * replace (x + Z.of_nat (S i)) with (x + 1 + Z.of_nat i) by lia. by apply Hw.
Qed.
