(* ===== verification/Tables.v ===== *)
(** * Descriptor tables (source/segmentation.c, source/interrupts.c)

    The global descriptor table, the task state segment and the interrupt
    descriptor table as the kernel sets them up, the keyboard maps and the
    exception names.  The addresses of the tables, of the interrupt stack and
    of the handlers (symbols of the linker and of start.s) are arguments. *)

From Stdlib Require Import Ascii.
From S2P Require Import Prelude Constants Libc Screen.

(** ** segmentation.c *)

Definition OPSIZE_32BIT : Z := 1.
Definition GRANULARITY_4KB : Z := 1.
Definition DESC_SYSTEM : Z := 0.
Definition DESC_CODEDATA : Z := 1.
Definition SEG_READ_WRITE : Z := 2.
Definition SEG_EXECUTE_READ : Z := 10.
Definition SEG_TSS : Z := 9.
Definition NUM_SEGMENTS : Z := 6.

(** [gdt_entry]; the stores truncate to the widths of the bit fields. *)
Record gdt_entry := mkGdt {
  limit_low : Z; base_low : Z; base_middle : Z;
  seg_type : Z; desc_type : Z; dpl : Z; present : Z;
  limit_high : Z; avl : Z; op64 : Z; opsize : Z; granularity : Z;
  base_high : Z
}.
Definition gdt_zero : gdt_entry := mkGdt 0 0 0 0 0 0 0 0 0 0 0 0 0.

(** The tables: [gdt], [gp], the words of [tss], [idt] and [idtp]; the two
    pointers are pairs of limit and base. *)
Record tables := mkTables {
  gdt : list gdt_entry;
  gp : Z * Z;
  tss : list Z;
  idt : list (Z * Z * Z * Z * Z);    (* base_lo, sel, always0, flags, base_hi *)
  idtp : Z * Z
}.

Definition gdt_value (num base limit dpl desc_type seg_type : Z) : gdt_entry :=
  {| base_low := u16 (Z.land base 0xFFFF);
     base_middle := u8 (Z.land (Z.shiftr base 16) 0xFF);
     base_high := u8 (Z.land (Z.shiftr base 24) 0xFF);
     limit_low := u16 (Z.land limit 0xFFFF);
     limit_high := (Z.land (Z.shiftr limit 16) 0x0F) mod 2 ^ 4;
     present := if num =? 0 then 0 else 1;
     dpl := dpl mod 2 ^ 2;
     desc_type := desc_type mod 2 ^ 1;
     seg_type := seg_type mod 2 ^ 4;
     granularity := if num =? 0 then 0 else GRANULARITY_4KB;
     opsize := if num =? 0 then 0 else OPSIZE_32BIT;
     op64 := 0;
     avl := 0 |}.

Definition set_gdt_entry (num : Z) (e : gdt_entry) : M tables unit :=
  t <- get;
  _ <- of_opt (zlookup (gdt t) num) "gdt[]";
  put (mkTables (zinsert num e (gdt t)) (gp t) (tss t) (idt t) (idtp t)).
Definition gdt_set_gate (num base limit dpl desc_type seg_type : Z) : M tables unit :=
  set_gdt_entry num (gdt_value num base limit dpl desc_type seg_type).

(** The size of the task state segment, and the word numbers of its fields. *)
Definition SIZEOF_TSS : Z := 104.
Definition TSS_ESP0 : Z := 1.
Definition TSS_SS0 : Z := 2.
Definition TSS_ES : Z := 18.
Definition TSS_CS : Z := 19.
Definition TSS_SS : Z := 20.
Definition TSS_DS : Z := 21.
Definition TSS_FS : Z := 22.
Definition TSS_GS : Z := 23.

Definition set_tss_word (i v : Z) : M tables unit :=
  t <- get;
  _ <- of_opt (zlookup (tss t) i) "tss";
  put (mkTables (gdt t) (gp t) (zinsert i v (tss t)) (idt t) (idtp t)).
(** A 16-bit field: the low half of its word. *)
Definition set_tss_half (i v : Z) : M tables unit :=
  t <- get;
  w <- of_opt (zlookup (tss t) i) "tss";
  set_tss_word i (Z.lor (Z.shiftl (Z.shiftr w 16) 16) (u16 v)).

Definition setup_segmentation (gdt_address tss_address ih_stack : Z) : M tables unit :=
  modify (fun t => mkTables (gdt t) (u16 (8 * NUM_SEGMENTS - 1), gdt_address) (tss t) (idt t) (idtp t));;
  gdt_set_gate 0 0 0 0 0 0;;
  gdt_set_gate 1 0 0xFFFFFFFF RING_0 DESC_CODEDATA SEG_EXECUTE_READ;;
  gdt_set_gate 2 0 0xFFFFFFFF RING_0 DESC_CODEDATA SEG_READ_WRITE;;
  gdt_set_gate 3 0 0xFFFFFFFF RING_3 DESC_CODEDATA SEG_EXECUTE_READ;;
  gdt_set_gate 4 0 0xFFFFFFFF RING_3 DESC_CODEDATA SEG_READ_WRITE;;
  gdt_set_gate 5 tss_address (u32 (tss_address + SIZEOF_TSS - 1)) RING_3 DESC_SYSTEM SEG_TSS;;
  t <- get;
  e <- of_opt (zlookup (gdt t) 5) "gdt[]";
  set_gdt_entry 5
    {| limit_low := limit_low e; base_low := base_low e; base_middle := base_middle e;
       seg_type := seg_type e; desc_type := desc_type e; dpl := dpl e; present := present e;
       limit_high := limit_high e; avl := avl e; op64 := op64 e; opsize := 0; granularity := 0;
       base_high := base_high e |};;
  for_ (Z.to_nat (SIZEOF_TSS / 4)) 0 (fun i => set_tss_word i 0);;
  set_tss_half TSS_SS0 KERNEL_DATA_SEGMENT;;
  set_tss_word TSS_ESP0 ih_stack;;
  set_tss_half TSS_CS (Z.lor KERNEL_CODE_SEGMENT RING_3);;
  set_tss_half TSS_SS (Z.lor KERNEL_DATA_SEGMENT RING_3);;
  set_tss_half TSS_DS (Z.lor KERNEL_DATA_SEGMENT RING_3);;
  set_tss_half TSS_ES (Z.lor KERNEL_DATA_SEGMENT RING_3);;
  set_tss_half TSS_FS (Z.lor KERNEL_DATA_SEGMENT RING_3);;
  set_tss_half TSS_GS (Z.lor KERNEL_DATA_SEGMENT RING_3).

(** ** interrupts.c: the interrupt descriptor table *)

Definition set_idt_entry (num : Z) (e : Z * Z * Z * Z * Z) : M tables unit :=
  t <- get;
  _ <- of_opt (zlookup (idt t) num) "idt[]";
  put (mkTables (gdt t) (gp t) (tss t) (zinsert num e (idt t)) (idtp t)).

Definition idt_set_gate (num base sel flags : Z) : M tables unit :=
  set_idt_entry (u8 num)
    (u16 (Z.land base 0xFFFF), u16 sel, 0, u8 flags, u16 (Z.land (Z.shiftr base 16) 0xFFFF)).

(** The part of [setup_interrupts] that fills the table; the byte loop that
    clears it writes zero entries. *)
Definition setup_idt (idt_address : Z) (interrupt_handlers : list Z) : M tables unit :=
  modify (fun t => mkTables (gdt t) (gp t) (tss t) (idt t) (u16 (8 * 256 - 1), idt_address));;
  for_ 256 0 (fun i => set_idt_entry i (0, 0, 0, 0, 0));;
  for_ 48 0 (fun i =>
    h <- of_opt (zlookup interrupt_handlers i) "interrupt_handlers[]";
    idt_set_gate i h 0x08 0x8E);;
  h <- of_opt (zlookup interrupt_handlers 48) "interrupt_handlers[]";
  idt_set_gate 48 h 0x08 0xEE.

(** The part that programs the two interrupt controllers. *)
Definition setup_pic : M screen unit :=
  outb 0x20 0x11;; outb 0xA0 0x11;; outb 0x21 0x20;; outb 0xA1 0x28;;
  outb 0x21 0x04;; outb 0xA1 0x02;; outb 0x21 0x01;; outb 0xA1 0x01;;
  outb 0x21 0x0;; outb 0xA1 0x0.

(** ... and the timer, 50 ticks a second. *)
Definition setup_timer : M screen unit :=
  let div := 1193180 / TICKS_PER_SECOND in
  outb 0x43 0x36;; outb 0x40 (Z.land div 0xFF);; outb 0x40 (Z.shiftr div 8).

(** ** Keyboard maps and exception names *)

Definition pad128 (l : list Z) : list Z := l ++ replicate (128 - length l) 0.

Definition kbdmap : list Z := pad128 (
  [0; 27] ++ bytes "1234567890-=" ++ [8; 9] ++ bytes "qwertyuiop[]" ++ [10; 0] ++
  bytes "asdfghjkl;'`" ++ [0] ++ bytes "\zxcvbnm,./" ++ [0] ++ bytes "*" ++ [0] ++ bytes " ").

Definition DQUOTE : Z := 34.
Definition kbdmap_shift : list Z := pad128 (
  [0; 27] ++ bytes "!@#$%^&*()_+" ++ [8; 9] ++ bytes "QWERTYUIOP{}" ++ [10; 0] ++
  bytes "ASDFGHJKL:" ++ [DQUOTE] ++ bytes "~" ++ [0] ++ bytes "|ZXCVBNM<>?" ++ [0] ++ bytes "*" ++ [0] ++ bytes " ").

Definition exception_messages : list string :=
  [ "Division By Zero"; "Debug"; "Non Maskable Interrupt"; "Breakpoint";
    "Into Detected Overflow"; "Out of Bounds"; "Invalid Opcode"; "No Coprocessor";
    "Double Fault"; "Coprocessor Segment Overrun"; "Bad TSS"; "Segment Not Present";
    "Stack Fault"; "General Protection Fault"; "Page Fault"; "Unknown Interrupt";
    "Coprocessor Fault"; "Alignment Check"; "Machine Check"; "Reserved";
    "Reserved"; "Reserved"; "Reserved"; "Reserved"; "Reserved"; "Reserved";
    "Reserved"; "Reserved"; "Reserved"; "Reserved"; "Reserved"; "Reserved" ]%string.
