(* ===== verification/TablesProofs.v ===== *)
(** * Descriptor tables: theorems

    How the processor reads the tables back: the segments a selector names,
    the handler and the privilege level of an interrupt vector. *)

From S2P Require Import Prelude Constants Libc Screen Tables.

(** ** Reading a segment descriptor *)

Definition seg_base (e : gdt_entry) : Z := base_low e + 2 ^ 16 * base_middle e + 2 ^ 24 * base_high e.
(** The offset of the last byte of the segment. *)
Definition seg_limit (e : gdt_entry) : Z :=
  let l := limit_low e + 2 ^ 16 * limit_high e in
  if granularity e =? 1 then l * 4096 + 4095 else l.
(** The descriptor a selector names; its low three bits are the table
    indicator and the requested privilege. *)
Definition seg_of (t : tables) (selector : Z) : option gdt_entry := zlookup (gdt t) (selector / 8).

Lemma bytes_of_word base : 0 <= base < 2 ^ 32 ->
  u16 (Z.land base 0xFFFF) + 2 ^ 16 * u8 (Z.land (Z.shiftr base 16) 0xFF) +
  2 ^ 24 * u8 (Z.land (Z.shiftr base 24) 0xFF) = base.
Proof.
  intros Hb. unfold u16, u8. change 0xFFFF with (Z.ones 16). change 0xFF with (Z.ones 8).
  rewrite !Z.land_ones, !Z.mod_mod, !Z.shiftr_div_pow2 by lia.
  pose proof (Z.div_mod base (2 ^ 16)). pose proof (Z.div_mod (base / 2 ^ 16) (2 ^ 8)).
  rewrite Z.div_div in H0 by lia. change (2 ^ 16 * 2 ^ 8) with (2 ^ 24) in *.
  rewrite (Z.mod_small (base / 2 ^ 24)); [lia|].
  split; [apply Z.div_pos; lia | apply Z.div_lt_upper_bound; lia].
Qed.

Lemma limit_of_word limit : 0 <= limit < 2 ^ 32 ->
  u16 (Z.land limit 0xFFFF) + 2 ^ 16 * ((Z.land (Z.shiftr limit 16) 0x0F) mod 2 ^ 4) = limit mod 2 ^ 20.
Proof.
  intros Hl. unfold u16. change 0xFFFF with (Z.ones 16). change 0x0F with (Z.ones 4).
  rewrite !Z.land_ones, !Z.mod_mod, Z.shiftr_div_pow2 by lia.
  change (2 ^ 20) with (2 ^ 16 * 2 ^ 4). rewrite Z.rem_mul_r by lia. done.
Qed.

Lemma gdt_value_base n base limit d t s : 0 <= base < 2 ^ 32 -> seg_base (gdt_value n base limit d t s) = base.
Proof. intros. by apply bytes_of_word. Qed.
Lemma gdt_value_limit n base limit d t s : n <> 0 -> 0 <= limit < 2 ^ 32 ->
  seg_limit (gdt_value n base limit d t s) = (limit mod 2 ^ 20) * 4096 + 4095.
Proof.
  intros Hn Hl. unfold seg_limit. simpl. destruct (Z.eqb_spec n 0); [done|].
  change (GRANULARITY_4KB =? 1) with true. cbv iota. by rewrite limit_of_word.
Qed.

(** ** Running the set-up *)

Lemma wp_set_gdt_entry num e (Q : unit -> tables -> Prop) t :
  0 <= num < Z.of_nat (length (gdt t)) ->
  Q tt (mkTables (zinsert num e (gdt t)) (gp t) (tss t) (idt t) (idtp t)) -> wp (set_gdt_entry num e) Q t.
Proof.
  intros Hn HQ. destruct (zlookup_is_Some (gdt t) num Hn) as [old Ho]. unfold set_gdt_entry.
  wp_step. wp_step. wp_step. wp_step; [done|]. by wp_step.
Qed.
Lemma wp_set_tss_word i v (Q : unit -> tables -> Prop) t :
  0 <= i < Z.of_nat (length (tss t)) ->
  Q tt (mkTables (gdt t) (gp t) (zinsert i v (tss t)) (idt t) (idtp t)) -> wp (set_tss_word i v) Q t.
Proof.
  intros Hn HQ. destruct (zlookup_is_Some (tss t) i Hn) as [old Ho]. unfold set_tss_word.
  wp_step. wp_step. wp_step. wp_step; [done|]. by wp_step.
Qed.
Lemma wp_set_tss_half i v w (Q : unit -> tables -> Prop) t :
  zlookup (tss t) i = Some w ->
  Q tt (mkTables (gdt t) (gp t) (zinsert i (Z.lor (Z.shiftl (Z.shiftr w 16) 16) (u16 v)) (tss t)) (idt t) (idtp t)) ->
  wp (set_tss_half i v) Q t.
Proof.
  intros Hw HQ. unfold set_tss_half. wp_step. wp_step. wp_step. wp_step; [done|].
  apply wp_set_tss_word; [by eapply zlookup_range | done].
Qed.

Lemma zero_tss t : length (tss t) = 26%nat ->
  wp (for_ 26 0 (fun i => set_tss_word i 0)) (fun _ t' =>
    t' = mkTables (gdt t) (gp t) (replicate 26 0) (idt t) (idtp t)) t.
Proof.
  intros Hl. apply (wp_for (fun i t' => exists l, t' = mkTables (gdt t) (gp t) l (idt t) (idtp t) /\
    length l = 26%nat /\ forall k, (Z.of_nat k < i) -> (k < 26)%nat -> l !! k = Some 0)).
  - exists (tss t). split; [by destruct t|]. split; [done | lia].
  - intros i t' Hi (l & -> & Hll & Hk). apply wp_set_tss_word; simpl; [lia|]. eexists. split; [done|].
    split; [by rewrite zinsert_length|]. intros k Hki Hkl. unfold zinsert. destruct (Z.ltb_spec i 0); [lia|].
    destruct (decide (k = Z.to_nat i)) as [-> |]; [apply list_lookup_insert_eq; lia|].
    rewrite list_lookup_insert_ne by done. apply Hk; [lia | done].
  - intros t' (l & -> & Hll & Hk). f_equal. apply list_eq. intros k.
    destruct (decide (k < 26)%nat); [by rewrite Hk, lookup_replicate_2 by lia|].
    by rewrite !lookup_ge_None_2 by (rewrite ?length_replicate; lia).
Qed.

(** The fields set after the task state segment has been cleared. *)
Definition tss_words (ih_stack : Z) : list Z :=
  [ 0; ih_stack; KERNEL_DATA_SEGMENT; 0; 0; 0; 0; 0; 0; 0; 0; 0; 0; 0; 0; 0; 0; 0;
    Z.lor KERNEL_DATA_SEGMENT 3; Z.lor KERNEL_CODE_SEGMENT 3; Z.lor KERNEL_DATA_SEGMENT 3;
    Z.lor KERNEL_DATA_SEGMENT 3; Z.lor KERNEL_DATA_SEGMENT 3; Z.lor KERNEL_DATA_SEGMENT 3; 0; 0 ].
Lemma fill_tss g p i ip st :
  (set_tss_half TSS_SS0 KERNEL_DATA_SEGMENT;;
   set_tss_word TSS_ESP0 st;;
   set_tss_half TSS_CS (Z.lor KERNEL_CODE_SEGMENT RING_3);;
   set_tss_half TSS_SS (Z.lor KERNEL_DATA_SEGMENT RING_3);;
   set_tss_half TSS_DS (Z.lor KERNEL_DATA_SEGMENT RING_3);;
   set_tss_half TSS_ES (Z.lor KERNEL_DATA_SEGMENT RING_3);;
   set_tss_half TSS_FS (Z.lor KERNEL_DATA_SEGMENT RING_3);;
   set_tss_half TSS_GS (Z.lor KERNEL_DATA_SEGMENT RING_3)) (mkTables g p (replicate 26 0) i ip) =
  Ok tt (mkTables g p (tss_words st) i ip).
Proof. vm_compute. reflexivity. Qed.

(** The tables after [setup_segmentation]. *)
Definition segment_tables (gdt_address tss_address ih_stack : Z) (t : tables) : tables :=
  let e := gdt_value 5 tss_address (u32 (tss_address + SIZEOF_TSS - 1)) RING_3 DESC_SYSTEM SEG_TSS in
  mkTables
    [ gdt_value 0 0 0 0 0 0;
      gdt_value 1 0 0xFFFFFFFF RING_0 DESC_CODEDATA SEG_EXECUTE_READ;
      gdt_value 2 0 0xFFFFFFFF RING_0 DESC_CODEDATA SEG_READ_WRITE;
      gdt_value 3 0 0xFFFFFFFF RING_3 DESC_CODEDATA SEG_EXECUTE_READ;
      gdt_value 4 0 0xFFFFFFFF RING_3 DESC_CODEDATA SEG_READ_WRITE;
      mkGdt (limit_low e) (base_low e) (base_middle e) (seg_type e) (desc_type e) (dpl e) (present e)
        (limit_high e) (avl e) (op64 e) 0 0 (base_high e) ]
    (47, gdt_address)
    (tss_words ih_stack)
    (idt t) (idtp t).

Lemma setup_segmentation_run ga ta st t : length (gdt t) = 6%nat -> length (tss t) = 26%nat ->
  wp (setup_segmentation ga ta st) (fun _ t' => t' = segment_tables ga ta st t) t.
Proof.
  intros Hg Ht. unfold setup_segmentation. destruct t as [g p s i ip]. simpl in *.
  do 6 (destruct g as [|? g]; [done|]). destruct g; [|done].
  wp_step. wp_step. unfold gdt_set_gate.
  do 6 (wp_step; apply wp_set_gdt_entry; [simpl; lia|]; simpl).
  wp_step. wp_step. wp_step. wp_step; [reflexivity|]. wp_step. apply wp_set_gdt_entry; [simpl; lia|].
  wp_step. change (Z.to_nat (SIZEOF_TSS / 4)) with 26%nat.
  eapply wp_mono; [by apply zero_tss|]. intros [] t' ->. cbn [gdt gp tss idt idtp].
  unfold wp. rewrite fill_tss. reflexivity.
Qed.

(** The segments setup_segmentation makes: kernel and user code and data
    segments start at 0 and reach to the end of the 4 GB address space, with
    ring 0 for the kernel's selectors and ring 3 for the user's, so that
    protection rests on paging and the privilege level alone; the task state
    segment starts at [tss] and gives the interrupt stack for ring 0. *)
Theorem segments_flat ga ta st t :
  0 <= ta < 2 ^ 32 -> length (gdt t) = 6%nat -> length (tss t) = 26%nat ->
  exists t' kc kd uc ud ts, setup_segmentation ga ta st t = Ok tt t' /\
    seg_of t' KERNEL_CODE_SEGMENT = Some kc /\ seg_of t' KERNEL_DATA_SEGMENT = Some kd /\
    seg_of t' (Z.lor USER_CODE_SEGMENT RING_3) = Some uc /\
    seg_of t' (Z.lor USER_DATA_SEGMENT RING_3) = Some ud /\
    seg_of t' (Z.lor TSS_SEGMENT RING_3) = Some ts /\
    Forall (fun e => seg_base e = 0 /\ seg_limit e = 2 ^ 32 - 1) [kc; kd; uc; ud] /\
    (dpl kc, dpl kd, dpl uc, dpl ud) = (0, 0, 3, 3) /\
    (seg_type kc, seg_type kd, seg_type uc, seg_type ud) = (10, 2, 10, 2) /\
    seg_base ts = ta /\ zlookup (tss t') 1 = Some st /\ zlookup (tss t') 2 = Some KERNEL_DATA_SEGMENT.
Proof.
  intros Hta Hg Ht. pose proof (setup_segmentation_run ga ta st t Hg Ht) as H.
  apply wp_ok in H as ([] & t' & He & ->). eexists _, _, _, _, _, _.
  split; [done|]. do 5 (split; [reflexivity|]). split; [by repeat constructor|].
  split; [done|]. split; [done|]. split; [by apply bytes_of_word | done].
Qed.

Definition blank_tables : tables :=
  mkTables (replicate 6 gdt_zero) (0, 0) (replicate 26 0) (replicate 256 (0, 0, 0, 0, 0)) (0, 0).

Lemma segments_flat_witness :
  exists t' kc kd uc ud ts, setup_segmentation 0x100100 0x100200 0x101000 blank_tables = Ok tt t' /\
    seg_of t' KERNEL_CODE_SEGMENT = Some kc /\ seg_of t' KERNEL_DATA_SEGMENT = Some kd /\
    seg_of t' (Z.lor USER_CODE_SEGMENT RING_3) = Some uc /\
    seg_of t' (Z.lor USER_DATA_SEGMENT RING_3) = Some ud /\
    seg_of t' (Z.lor TSS_SEGMENT RING_3) = Some ts /\
    Forall (fun e => seg_base e = 0 /\ seg_limit e = 2 ^ 32 - 1) [kc; kd; uc; ud] /\
    (dpl kc, dpl kd, dpl uc, dpl ud) = (0, 0, 3, 3) /\
    (seg_type kc, seg_type kd, seg_type uc, seg_type ud) = (10, 2, 10, 2) /\
    seg_base ts = 0x100200 /\ zlookup (tss t') 1 = Some 0x101000 /\ zlookup (tss t') 2 = Some KERNEL_DATA_SEGMENT.
Proof. apply segments_flat; [split; done | done | done]. Defined.

(** The limit of the task state segment is computed as if it were an
    address: with [tss] at the offset [x] of its megabyte the limit is
    [x+103], where the 104 bytes of the structure ask for 103. *)
Theorem tss_limit_is_address ga ta st t :
  0 <= ta <= 2 ^ 32 - SIZEOF_TSS -> length (gdt t) = 6%nat -> length (tss t) = 26%nat ->
  exists t' ts, setup_segmentation ga ta st t = Ok tt t' /\
    seg_of t' (Z.lor TSS_SEGMENT RING_3) = Some ts /\ seg_limit ts = (ta + SIZEOF_TSS - 1) mod 2 ^ 20.
Proof.
  intros Hta Hg Ht. pose proof (setup_segmentation_run ga ta st t Hg Ht) as H.
  apply wp_ok in H as ([] & t' & He & ->). eexists _, _. split; [done|]. split; [reflexivity|].
  unfold seg_limit. simpl. change (0 =? 1) with false. cbv iota.
  rewrite limit_of_word by apply u32_range. rewrite u32_small by (unfold SIZEOF_TSS in *; lia). done.
Qed.

Lemma tss_limit_is_address_witness :
  exists t' ts, setup_segmentation 0 0x108000 0 blank_tables = Ok tt t' /\
    seg_of t' (Z.lor TSS_SEGMENT RING_3) = Some ts /\ seg_limit ts = (0x108000 + SIZEOF_TSS - 1) mod 2 ^ 20.
Proof. apply tss_limit_is_address; [split; done | done | done]. Defined.

(** ** Reading an interrupt gate *)

Definition gate_handler (g : Z * Z * Z * Z * Z) : Z := let '(lo, _, _, _, hi) := g in lo + 2 ^ 16 * hi.
Definition gate_selector (g : Z * Z * Z * Z * Z) : Z := let '(_, sel, _, _, _) := g in sel.
(** The lowest privilege that may raise the interrupt by an instruction, and
    whether the gate is present. *)
Definition gate_dpl (g : Z * Z * Z * Z * Z) : Z := let '(_, _, _, flags, _) := g in (flags / 2 ^ 5) mod 4.
Definition gate_present (g : Z * Z * Z * Z * Z) : bool := let '(_, _, _, flags, _) := g in flags / 2 ^ 7 =? 1.

Lemma halves base : 0 <= base < 2 ^ 32 ->
  u16 (Z.land base 0xFFFF) + 2 ^ 16 * u16 (Z.land (Z.shiftr base 16) 0xFFFF) = base.
Proof.
  intros Hb. unfold u16. change 0xFFFF with (Z.ones 16).
  rewrite !Z.land_ones, !Z.mod_mod, Z.shiftr_div_pow2 by lia.
  pose proof (Z.div_mod base (2 ^ 16)). rewrite (Z.mod_small (base / 2 ^ 16)); [lia|].
  split; [apply Z.div_pos; lia | apply Z.div_lt_upper_bound; lia].
Qed.

Lemma wp_set_idt_entry num e (Q : unit -> tables -> Prop) t :
  0 <= num < Z.of_nat (length (idt t)) ->
  Q tt (mkTables (gdt t) (gp t) (tss t) (zinsert num e (idt t)) (idtp t)) -> wp (set_idt_entry num e) Q t.
Proof.
  intros Hn HQ. destruct (zlookup_is_Some (idt t) num Hn) as [old Ho]. unfold set_idt_entry.
  wp_step. wp_step. wp_step. wp_step; [done|]. by wp_step.
Qed.

(** The gate of vector [i]. *)
Definition vector_ok (hs : list Z) (i : Z) (g : Z * Z * Z * Z * Z) : Prop :=
  if i <=? 48 then
    zlookup hs i = Some (gate_handler g) /\ gate_selector g = KERNEL_CODE_SEGMENT /\
    gate_present g = true /\ gate_dpl g = if i =? INTERRUPT_SYSCALL then RING_3 else RING_0
  else gate_present g = false.

Lemma gate_ok hs h i flags : zlookup hs i = Some h -> 0 <= h < 2 ^ 32 -> 0 <= i <= 48 ->
  flags = (if i =? INTERRUPT_SYSCALL then 0xEE else 0x8E) ->
  vector_ok hs i (u16 (Z.land h 0xFFFF), u16 0x08, 0, u8 flags, u16 (Z.land (Z.shiftr h 16) 0xFFFF)).
Proof.
  intros Hh Hr Hi ->. unfold vector_ok. destruct (Z.leb_spec i 48); [|lia]. simpl.
  rewrite halves by done. split; [done|]. split; [done|]. by destruct (i =? INTERRUPT_SYSCALL).
Qed.

Lemma clear_idt t : length (idt t) = 256%nat ->
  wp (for_ 256 0 (fun i => set_idt_entry i (0, 0, 0, 0, 0))) (fun _ t' => length (idt t') = 256%nat /\
    forall k, 0 <= k < 256 -> zlookup (idt t') k = Some (0, 0, 0, 0, 0)) t.
Proof.
  intros Hl. apply (wp_for (fun i t' => length (idt t') = 256%nat /\
    forall k, 0 <= k < i -> k < 256 -> zlookup (idt t') k = Some (0, 0, 0, 0, 0))).
  - split; [done | lia].
  - intros i t1 Hi [Hl1 Hz]. apply wp_set_idt_entry; [lia|]. split; simpl; [by rewrite zinsert_length|].
    intros k Hk Hk'. destruct (decide (k = i)) as [-> |]; [by rewrite zlookup_zinsert_eq by lia|].
    rewrite zlookup_zinsert_ne by done. apply Hz; lia.
  - intros t' [Hl' Hz]. split; [done|]. intros k Hk. apply Hz; lia.
Qed.

(** The gates below [i] have been set. *)
Definition gates_below (hs : list Z) (i : Z) (t : tables) : Prop :=
  length (idt t) = 256%nat /\ forall k, 0 <= k < 256 ->
    exists g, zlookup (idt t) k = Some g /\ if k <? i then vector_ok hs k g else g = (0, 0, 0, 0, 0).

Lemma set_gate hs h i flags t : zlookup hs i = Some h -> 0 <= h < 2 ^ 32 -> 0 <= i <= 48 ->
  flags = (if i =? INTERRUPT_SYSCALL then 0xEE else 0x8E) -> gates_below hs i t ->
  wp (idt_set_gate i h 0x08 flags) (fun _ t' => gates_below hs (i + 1) t') t.
Proof.
  intros Hh Hr Hi Hf [Hl Hg]. unfold idt_set_gate.
  assert (Hu : u8 i = i) by (apply Z.mod_small; lia). rewrite Hu.
  apply wp_set_idt_entry; [lia|]. split; simpl; [by rewrite zinsert_length|]. intros k Hk.
  destruct (decide (k = i)) as [-> |Hne].
  - eexists. split; [by rewrite zlookup_zinsert_eq by lia|]. destruct (Z.ltb_spec i (i + 1)); [|lia].
    by apply (gate_ok hs h i flags).
  - rewrite zlookup_zinsert_ne by done. destruct (Hg k Hk) as (g & Hg1 & Hg2). exists g. split; [done|].
    destruct (Z.ltb_spec k i), (Z.ltb_spec k (i + 1)); try done; lia.
Qed.

(** C39. Every interrupt vector from 0 to 48 enters its handler in the
    kernel's code segment; only the system call vector can be raised from
    user mode; all other vectors are absent. *)
Theorem interrupt_vectors ia hs t :
  length hs = 49%nat -> Forall (fun h => 0 <= h < 2 ^ 32) hs -> length (idt t) = 256%nat ->
  exists t', setup_idt ia hs t = Ok tt t' /\
    forall i, 0 <= i < 256 -> exists g, zlookup (idt t') i = Some g /\ vector_ok hs i g.
Proof.
  intros Hhs Hr Hl. enough (wp (setup_idt ia hs) (fun _ t' => gates_below hs 49 t') t) as H.
  { apply wp_ok in H as ([] & t' & H1 & _ & H2). exists t'. split; [done|]. intros i Hi.
    destruct (H2 i Hi) as (g & Hg & Hv). exists g. split; [done|]. destruct (Z.ltb_spec i 49); [done|].
    subst g. unfold vector_ok. by destruct (Z.leb_spec i 48); [lia|]. }
  assert (Hh : forall i, 0 <= i <= 48 -> exists h, zlookup hs i = Some h /\ 0 <= h < 2 ^ 32).
  { intros i Hi. destruct (zlookup_is_Some hs i) as [h Hh]; [lia|]. exists h. split; [done|].
    unfold zlookup in Hh. destruct (i <? 0); [done|]. by eapply (Forall_lookup_1 (fun h => 0 <= h < 2 ^ 32)). }
  unfold setup_idt. wp_step. wp_step. wp_step. eapply wp_mono; [by apply clear_idt|].
  intros [] t1 [Hl1 Hz]. wp_step. apply (wp_for (gates_below hs)).
  - split; [done|]. intros k Hk. eexists. split; [by apply Hz|]. by destruct (Z.ltb_spec k 0); [lia|].
  - intros i t2 Hi Hg. destruct (Hh i) as (h & Hhi & Hhr); [lia|]. wp_step. wp_step; [done|].
    apply set_gate; [done | done | lia | | done].
    destruct (Z.eqb_spec i INTERRUPT_SYSCALL) as [->|]; [unfold INTERRUPT_SYSCALL in Hi; lia | done].
  - intros t2 Hg. destruct (Hh 48) as (h & Hhi & Hhr); [lia|]. wp_step. wp_step; [done|].
    by apply (set_gate hs h 48 0xEE).
Qed.

Lemma interrupt_vectors_witness : exists t', setup_idt 0x102000 (replicate 49 0x100500) blank_tables = Ok tt t' /\
  forall i, 0 <= i < 256 -> exists g, zlookup (idt t') i = Some g /\ vector_ok (replicate 49 0x100500) i g.
Proof. apply interrupt_vectors; [done | apply Forall_replicate; split; done | done]. Defined.
