(* ===== verification/Page.v ===== *)
(** * Physical pages and page tables (source/page.c)

    State and operations.  The physical memory from [PAGE_START] up is a map
    from word addresses to words; it holds the free list of pages, the page
    directories, the page tables and the pages of the processes.  The
    routines of page.c run with paging disabled, so their pointers are
    physical addresses. *)

From S2P Require Import Prelude Constants.

(** The globals of page.c, with the memory they manage. *)
Record pages := mkPages {
  pmem : gmap Z Z;     (* physical words; 0 when never written *)
  page_end : Z;
  page_free : Z;       (* head of the free list; 0 is NULL *)
  npages : Z
}.

Definition initial_pages (m : gmap Z Z) : pages := mkPages m PAGE_START 0 0.

Definition pword (m : gmap Z Z) (a : Z) : Z := default 0 (m !! a).

Definition with_pmem (f : gmap Z Z -> gmap Z Z) (p : pages) : pages :=
  mkPages (f (pmem p)) (page_end p) (page_free p) (npages p).
Definition with_page_end (e : Z) (p : pages) : pages :=
  mkPages (pmem p) e (page_free p) (npages p).
Definition with_page_free (a : Z) (p : pages) : pages :=
  mkPages (pmem p) (page_end p) a (npages p).
Definition with_npages (n : Z) (p : pages) : pages :=
  mkPages (pmem p) (page_end p) (page_free p) n.

(** A word access has to be aligned and inside of the page memory: what lies
    below [PAGE_START] belongs to the kernel image, the RAM disk and
    [kmalloc]. *)
Definition page_word (a : Z) : bool := (PAGE_START <=? a) && (a <? 2 ^ 32) && (a mod 4 =? 0).
Definition pread (a : Z) : M pages Z :=
  check_ (page_word a) "word outside of page memory";; gets (fun p => pword (pmem p) a).
Definition pwrite (a v : Z) : M pages unit :=
  check_ (page_word a) "word outside of page memory";; modify (with_pmem (insert a v)).

(** Bytes of the same memory (x86 is little-endian). *)
Definition byte_of (w k : Z) : Z := Z.land (Z.shiftr w (8 * k)) 255.
Definition set_byte (w k v : Z) : Z :=
  Z.lor (Z.ldiff w (Z.shiftl 255 (8 * k))) (Z.shiftl (u8 v) (8 * k)).
Definition pread8 (a : Z) : M pages Z :=
  w <- pread (a - a mod 4); ret (byte_of w (a mod 4)).
Definition pwrite8 (a v : Z) : M pages unit :=
  w <- pread (a - a mod 4); pwrite (a - a mod 4) (set_byte w (a mod 4) v).

(** ** alloc_page, free_page *)

Definition zero_page (address : Z) : M pages unit :=
  for_ 1024 0 (fun i => pwrite (address + 4 * i) 0).

Definition alloc_page : M pages Z :=
  n <- gets npages; modify (with_npages (u32 (n + 1)));;
  f <- gets page_free;
  address <-
    (if f =? 0 then
       e <- gets page_end;
       modify (with_page_end (u32 (e + PAGE_SIZE)));; ret e
     else
       next <- pread f;
       modify (with_page_free next);; ret f);
  zero_page address;;
  ret address.

Definition free_page (page : Z) : M pages unit :=
  n <- gets npages;
  assert_ (0 <? n) "0 < npages";;
  modify (with_npages (n - 1));;
  f <- gets page_free;
  pwrite page f;;
  modify (with_page_free page).

(** ** map_page, lookup_page, unmap_and_free_page *)

Definition dirindex (logical : Z) : Z := logical / PAGE_SIZE / 1024.
Definition tblindex (logical : Z) : Z := (logical / PAGE_SIZE) mod 1024.
Definition is_present (e : Z) : bool := truthy (Z.land e PAGE_PRESENT).

Definition map_page (pdir logical physical access readwrite : Z) : M pages unit :=
  assert_ (logical mod PAGE_SIZE =? 0) "0 == logical%PAGE_SIZE";;
  assert_ (physical mod PAGE_SIZE =? 0) "0 == physical%PAGE_SIZE";;
  e <- pread (pdir + 4 * dirindex logical);
  when_ (negb (is_present e))
    (dirpage <- alloc_page;
     pwrite (pdir + 4 * dirindex logical)
       (Z.lor (Z.lor (Z.lor dirpage PAGE_PRESENT) PAGE_USER) PAGE_READ_WRITE));;
  e <- pread (pdir + 4 * dirindex logical);
  let ptable := Z.land e PAGE_ADDRESS_MASK in
  pwrite (ptable + 4 * tblindex logical)
    (Z.lor (Z.lor (Z.lor physical PAGE_PRESENT) access) readwrite).

(** [Some phys] is a return value of 1 with [*phys] set, [None] one of 0. *)
Definition lookup_page (pdir logical : Z) : M pages (option Z) :=
  assert_ (logical mod PAGE_SIZE =? 0) "0 == logical%PAGE_SIZE";;
  e <- pread (pdir + 4 * dirindex logical);
  if negb (is_present e) then ret None
  else
    let ptable := Z.land e PAGE_ADDRESS_MASK in
    t <- pread (ptable + 4 * tblindex logical);
    if negb (is_present t) then ret None
    else ret (Some (Z.land t PAGE_ADDRESS_MASK)).

Definition unmap_and_free_page (pdir logical : Z) : M pages unit :=
  assert_ (logical mod PAGE_SIZE =? 0) "0 == logical%PAGE_SIZE";;
  e <- pread (pdir + 4 * dirindex logical);
  if negb (is_present e) then ret tt
  else
    let ptable := Z.land e PAGE_ADDRESS_MASK in
    t <- pread (ptable + 4 * tblindex logical);
    if negb (is_present t) then ret tt
    else
      free_page (Z.land t PAGE_ADDRESS_MASK);;
      pwrite (ptable + 4 * tblindex logical) 0.

(** ** Ranges of pages *)

(** [for (addr = start; addr < end; addr += PAGE_SIZE) f(addr)].  The counter
    is unsigned: it wraps, and the loop never ends, when [end] is above the
    last page; with [end] at most [0xFFFFF000] the rounds given are enough
    ([wp_for_pages]). *)
Fixpoint page_loop {S} (n : nat) (addr end_ : Z) (f : Z -> M S unit) : M S unit :=
  if addr <? end_ then
    match n with
    | O => spin
    | Datatypes.S n' => f addr;; page_loop n' (u32 (addr + PAGE_SIZE)) end_ f
    end
  else ret tt.
Definition for_pages {S} (start end_ : Z) (f : Z -> M S unit) : M S unit :=
  page_loop (Z.to_nat ((end_ - start + PAGE_SIZE - 1) / PAGE_SIZE)) start end_ f.

Definition identity_map (pdir start end_ access readwrite : Z) : M pages unit :=
  for_pages start end_ (fun addr => map_page pdir addr addr access readwrite).

Definition map_new_pages (pdir base n : Z) : M pages unit :=
  assert_ (base mod PAGE_SIZE =? 0) "0 == base%PAGE_SIZE";;
  for_ (Z.to_nat n) 0 (fun i =>
    page <- alloc_page;
    map_page pdir (u32 (base + i * PAGE_SIZE)) page PAGE_USER PAGE_READ_WRITE).

Definition free_page_dir (pdir : Z) : M pages unit :=
  for_ 1024 0 (fun dirindex =>
    e <- pread (pdir + 4 * dirindex);
    when_ (is_present e) (free_page (Z.land e PAGE_ADDRESS_MASK)));;
  free_page pdir.

(** ** The processor's address translation

    What a page directory means to the machine: the entries the processor
    walks through for a virtual address, and whether user mode may read or
    write there (the bits of both levels have to allow it). *)
Definition walk (m : gmap Z Z) (pdir va : Z) : option (Z * Z * Z) :=
  let e := pword m (pdir + 4 * dirindex va) in
  if is_present e then
    let t := pword m (Z.land e PAGE_ADDRESS_MASK + 4 * tblindex va) in
    if is_present t then Some (Z.land t PAGE_ADDRESS_MASK + va mod PAGE_SIZE, e, t) else None
  else None.
(** Supervisor accesses need the entries to be present (the kernel leaves
    the write-protect bit of CR0 clear). *)
Definition translate (m : gmap Z Z) (pdir va : Z) : option Z :=
  '(pa, _, _) ← walk m pdir va; Some pa.
Definition user_may (m : gmap Z Z) (pdir va : Z) (write : bool) : bool :=
  match walk m pdir va with
  | Some (_, e, t) =>
      truthy (Z.land (Z.land e t) PAGE_USER) &&
      (negb write || truthy (Z.land (Z.land e t) PAGE_READ_WRITE))
  | None => false
  end.
