(* ===== verification/PageInv.v ===== *)
(** * Physical pages: invariants and lemmas

    The page allocator owns the page frames between [PAGE_START] and
    [page_end]; the invariant [pinv A] says that the frames in [A] are handed
    out and every other one is on the free list, once.  [pagedir] relates the
    words of a page directory to the abstract address space they encode. *)

From S2P Require Import Prelude Constants Page.

(** ** Page frames *)

Definition frame (a : Z) : Prop := PAGE_START <= a < 2 ^ 32 /\ a mod PAGE_SIZE = 0.

(** [k] bytes into the frame [a]. *)
Definition same_page (m m' : gmap Z Z) (a : Z) : Prop :=
  forall k, 0 <= k < PAGE_SIZE -> pword m' (a + k) = pword m (a + k).
Definition zero_at (m : gmap Z Z) (a : Z) : Prop :=
  forall k, 0 <= k < PAGE_SIZE -> k mod 4 = 0 -> pword m (a + k) = 0.

(** The free list threaded through the first words of its pages. *)
Fixpoint free_chain (m : gmap Z Z) (p : Z) (F : list Z) : Prop :=
  match F with
  | [] => p = 0
  | x :: F' => p = x /\ x <> 0 /\ free_chain m (pword m x) F'
  end.

Record pinv (A : gset Z) (p : pages) : Prop := {
  pinv_end : PAGE_START <= page_end p < 2 ^ 32 /\ page_end p mod PAGE_SIZE = 0;
  pinv_free : exists F, free_chain (pmem p) (page_free p) F /\ NoDup F /\
    (forall a, frame a /\ a < page_end p <-> a ∈ A \/ a ∈ F) /\
    (forall a, a ∈ A -> a ∉ F);
  pinv_npages : npages p = Z.of_nat (size A)
}.
Arguments pinv_end {A p} _.
Arguments pinv_free {A p} _.
Arguments pinv_npages {A p} _.

(** The number of frames below the top of the address space; [room A n]: at
    least [n] are left. *)
Definition MAX_FRAMES : Z := (2 ^ 32 - PAGE_SIZE - PAGE_START) / PAGE_SIZE.
Definition room (A : gset Z) (n : Z) : Prop := Z.of_nat (size A) + n <= MAX_FRAMES.

Lemma MAX_FRAMES_eq : MAX_FRAMES = 1047039.
Proof. done. Qed.
Ltac punfold := unfold frame, room, PAGE_SIZE, PAGE_START, MB in *; rewrite ?MAX_FRAMES_eq in *.

Lemma frame_distinct a b k l :
  frame a -> frame b -> a <> b -> 0 <= k < PAGE_SIZE -> 0 <= l < PAGE_SIZE -> a + k <> b + l.
Proof.
  intros [_ Ha] [_ Hb] Hab Hk Hl Heq. punfold.
  apply Z.mod_divide in Ha as [x ->]; [|lia]. apply Z.mod_divide in Hb as [y ->]; lia.
Qed.

Lemma pword_insert_eq m a v : pword (<[a := v]> m) a = v.
Proof. unfold pword. by rewrite lookup_insert_eq. Qed.
Lemma pword_insert_ne m a b v : a <> b -> pword (<[a := v]> m) b = pword m b.
Proof. intros. unfold pword. by rewrite lookup_insert_ne. Qed.

Lemma same_page_refl m a : same_page m m a.
Proof. done. Qed.
Lemma same_page_trans m1 m2 m3 a : same_page m1 m2 a -> same_page m2 m3 a -> same_page m1 m3 a.
Proof. intros H1 H2 k Hk. by rewrite H2, H1. Qed.
Lemma same_page_insert m a b k v :
  frame a -> frame b -> a <> b -> 0 <= k < PAGE_SIZE -> same_page m (<[a + k := v]> m) b.
Proof. intros Ha Hb Hab Hk l Hl. by apply pword_insert_ne, frame_distinct. Qed.
#[export] Hint Resolve same_page_refl : kernel.

(** Words of a frame are accessible. *)
Lemma frame_word a k : frame a -> 0 <= k < PAGE_SIZE -> k mod 4 = 0 -> page_word (a + k) = true.
Proof.
  intros [Ha Hm] Hk H4. unfold page_word. punfold.
  apply Z.mod_divide in Hm as [x ->]; [|lia]. apply Z.mod_divide in H4 as [y ->]; [|lia].
  b2p; split; [b2p; split; b2p; lia|]. b2p. replace (x * 4096 + y * 4) with ((x * 1024 + y) * 4) by lia.
  apply Z.mod_mul. lia.
Qed.

Lemma wp_pread a (Q : Z -> pages -> Prop) p :
  page_word a = true -> Q (pword (pmem p) a) p -> wp (pread a) Q p.
Proof. intros Ha HQ. unfold pread. wp_step. wp_step; [done|]. by wp_step. Qed.
Lemma wp_pwrite a v (Q : unit -> pages -> Prop) p :
  page_word a = true -> Q tt (with_pmem (insert a v) p) -> wp (pwrite a v) Q p.
Proof. intros Ha HQ. unfold pwrite. wp_step. wp_step; [done|]. by wp_step. Qed.

(** ** The free list *)

Lemma free_chain_frame m m' F : forall p,
  free_chain m p F -> (forall x, x ∈ F -> pword m' x = pword m x) -> free_chain m' p F.
Proof.
  induction F as [|x F IH]; intros p Hc Hs; [done|]. destruct Hc as (-> & Hx & Hc).
  repeat split; [done|]. rewrite Hs by (by left). apply IH; [done|]. intros y Hy. apply Hs. by right.
Qed.

(** The frames below [e]. *)
Definition frames (e : Z) : list Z :=
  (fun k => PAGE_START + Z.of_nat k * PAGE_SIZE) <$> seq 0 (Z.to_nat ((e - PAGE_START) / PAGE_SIZE)).

Lemma elem_of_frames e a :
  e < 2 ^ 32 -> e mod PAGE_SIZE = 0 -> a ∈ frames e <-> frame a /\ a < e.
Proof.
  intros He He'. unfold frames. rewrite list_elem_of_fmap. setoid_rewrite elem_of_seq. punfold.
  apply Z.mod_divide in He' as [y ->]; [|lia].
  replace ((y * 4096 - 6 * 1048576) / 4096) with (y - 1536)
    by (rewrite <- (Z.div_mul (y - 1536) 4096) by lia; f_equal; lia).
  split.
  - intros (k & -> & Hk). split; [split|]; [lia | | lia].
    replace (6 * 1048576 + Z.of_nat k * 4096) with ((1536 + Z.of_nat k) * 4096) by lia.
    apply Z.mod_mul. lia.
  - intros [[Hb Ha] Hlt]. apply Z.mod_divide in Ha as [x ->]; [|lia].
    exists (Z.to_nat (x - 1536)). lia.
Qed.

Lemma frames_NoDup e : NoDup (frames e).
Proof.
  apply NoDup_fmap; [|apply NoDup_seq]. intros x y H. unfold PAGE_SIZE, PAGE_START, MB in H. lia.
Qed.

(** The frames handed out and the free ones add up. *)
Lemma pinv_count (A : gset Z) p (F : list Z) :
  PAGE_START <= page_end p < 2 ^ 32 -> page_end p mod PAGE_SIZE = 0 -> NoDup F ->
  (forall a, frame a /\ a < page_end p <-> a ∈ A \/ a ∈ F) ->
  (forall a, a ∈ A -> a ∉ F) ->
  Z.of_nat (size A) + Z.of_nat (length F) = (page_end p - PAGE_START) / PAGE_SIZE.
Proof.
  intros He He' HF Hall Hdis.
  assert (elements A ++ F ≡ₚ frames (page_end p)) as Hp%Permutation_length.
  { apply NoDup_Permutation; [apply list.NoDup_app | apply frames_NoDup |].
    - split; [apply NoDup_elements|]. split; [|done]. intros x Hx%elem_of_elements. by apply Hdis.
    - intros x. rewrite elem_of_app, elem_of_elements, elem_of_frames by (done || lia).
      by rewrite Hall. }
  unfold frames in Hp. rewrite length_app, length_fmap, length_seq in Hp.
  change (length (elements A)) with (size A) in Hp. punfold.
  assert (0 <= (page_end p - 6 * 1048576) / 4096) by (apply Z.div_pos; lia). lia.
Qed.

Lemma pinv_bound A p : pinv A p -> 0 <= npages p <= MAX_FRAMES.
Proof.
  intros [[He He'] (F & HF & Hnd & Hall & Hdis) Hn]. rewrite Hn.
  pose proof (pinv_count A p F He He' Hnd Hall Hdis) as Hc.
  enough ((page_end p - PAGE_START) / PAGE_SIZE <= MAX_FRAMES) by lia.
  change MAX_FRAMES with ((2 ^ 32 - PAGE_SIZE - PAGE_START) / PAGE_SIZE).
  apply Z.div_le_mono; [done|]. punfold.
  apply Z.mod_divide in He' as [x Hx]; lia.
Qed.

Lemma pinv_frame A p a : pinv A p -> a ∈ A -> frame a /\ a < page_end p.
Proof. intros [_ (F & _ & _ & Hall & _) _] Ha. apply Hall. by left. Qed.

(** ** alloc_page and free_page *)

Lemma zero_page_spec a p : frame a ->
  wp (zero_page a) (fun _ p' => exists m', p' = with_pmem (fun _ => m') p /\ zero_at m' a /\
    forall x, x < a \/ a + PAGE_SIZE <= x -> pword m' x = pword (pmem p) x) p.
Proof.
  intros Ha. unfold zero_page.
  apply (wp_for (fun i p' => exists m', p' = with_pmem (fun _ => m') p /\
    (forall k, 0 <= k < 4 * i -> k mod 4 = 0 -> pword m' (a + k) = 0) /\
    forall x, x < a \/ a + PAGE_SIZE <= x -> pword m' x = pword (pmem p) x)).
  - exists (pmem p). split; [by destruct p|]. split; [lia | done].
  - intros i p' Hi (m' & -> & Hz & Hs). apply wp_pwrite.
    { apply frame_word; [done | punfold; lia |]. rewrite Z.mul_comm. by apply Z.mod_mul. }
    exists (<[a + 4 * i := 0]> m'). split; [done|]. split.
    + intros k Hk H4. destruct (decide (k = 4 * i)) as [->|]; [apply pword_insert_eq|].
      rewrite pword_insert_ne by lia. apply Hz; [|done].
      apply Z.mod_divide in H4 as [y ->]; lia.
    + intros x Hx. rewrite pword_insert_ne by (punfold; lia). auto.
  - intros p' (m' & -> & Hz & Hs). exists m'. repeat split; [|done]. intros k Hk. apply Hz. punfold. lia.
Qed.

(** A free frame changes hands: what [alloc_page] does to the invariant. *)
Lemma pinv_take A p F a m' e' f' :
  pinv A p -> NoDup F -> a ∉ A -> a ∉ F -> frame a -> free_chain m' f' F ->
  PAGE_START <= e' < 2 ^ 32 -> e' mod PAGE_SIZE = 0 ->
  (forall x, frame x /\ x < e' <-> x ∈ A \/ x = a \/ x ∈ F) ->
  (forall x, x ∈ A -> x ∉ F) ->
  room A 1 ->
  pinv ({[a]} ∪ A) (mkPages m' e' f' (u32 (npages p + 1))).
Proof.
  intros Hp HF HaA HaF Ha Hc He He' Hall Hdis Hr. pose proof (pinv_bound A p Hp) as Hb.
  destruct Hp as [_ _ Hn]. split; simpl; [done | |].
  - exists F. split; [done|]. split; [done|]. split.
    + intros x. rewrite Hall, elem_of_union, elem_of_singleton. tauto.
    + intros x [->%elem_of_singleton|Hx]%elem_of_union; auto.
  - rewrite size_union by set_solver. rewrite size_singleton, u32_small; rewrite ?Hn in *; punfold; lia.
Qed.

(** What an allocation promises: a fresh zeroed frame; the frames that were
    handed out keep their contents. *)
Definition fresh_frame (A : gset Z) (m : gmap Z Z) (a : Z) (p' : pages) : Prop :=
  frame a /\ (a ∉ A) /\ zero_at (pmem p') a /\ pinv ({[a]} ∪ A) p' /\
  forall b, b ∈ A -> same_page m (pmem p') b.

Lemma outside_frame a b k : frame a -> frame b -> a <> b -> 0 <= k < PAGE_SIZE ->
  b + k < a \/ a + PAGE_SIZE <= b + k.
Proof.
  intros Ha Hb Hab Hk. destruct (Z.lt_ge_cases (b + k) a); [by left|].
  destruct (Z.lt_ge_cases (b + k) (a + PAGE_SIZE)); [|by right].
  exfalso. apply (frame_distinct a b (b + k - a) k); try done; lia.
Qed.

(** Zeroing the frame [a] leaves the frames of [A] and the free list alone. *)
Lemma zeroed_frames (A : gset Z) m m' a :
  frame a -> a ∉ A -> (forall b, b ∈ A -> frame b) ->
  (forall x, x < a \/ a + PAGE_SIZE <= x -> pword m' x = pword m x) ->
  forall b, b ∈ A -> same_page m m' b.
Proof.
  intros Ha HaA HA Hs b Hb k Hk. apply Hs, outside_frame; try done; [by apply HA|].
  by intros ->.
Qed.
Lemma zeroed_chain F m m' a f :
  frame a -> a ∉ F -> (forall b, b ∈ F -> frame b) ->
  (forall x, x < a \/ a + PAGE_SIZE <= x -> pword m' x = pword m x) ->
  free_chain m f F -> free_chain m' f F.
Proof.
  intros Ha HaF HF Hs Hc. eapply free_chain_frame; [done|]. intros x Hx. apply Hs.
  destruct (outside_frame a x 0) as [H|H]; rewrite ?Z.add_0_r in *; auto; [by intros -> | done].
Qed.

Lemma room_end A p F :
  pinv A p -> free_chain (pmem p) (page_free p) F -> NoDup F ->
  (forall a, frame a /\ a < page_end p <-> a ∈ A \/ a ∈ F) -> (forall a, a ∈ A -> a ∉ F) ->
  F = [] -> room A 1 -> page_end p + PAGE_SIZE < 2 ^ 32.
Proof.
  intros [[He He'] _ _] Hc Hnd Hall Hdis -> Hr.
  pose proof (pinv_count A p [] He He' Hnd Hall Hdis) as Hcnt. simpl in Hcnt. punfold.
  apply Z.mod_divide in He' as [x Hx]; [|lia]. rewrite Hx in *.
  replace (x * 4096 - 6 * 1048576) with ((x - 1536) * 4096) in Hcnt by lia.
  rewrite Z.div_mul in Hcnt by lia.
  lia.
Qed.

Lemma alloc_page_wp A p : pinv A p -> room A 1 -> wp alloc_page (fresh_frame A (pmem p)) p.
Proof.
  intros Hp Hr. pose proof Hp as [[He He'] (F & Hc & Hnd & Hall & Hdis) Hn].
  assert (HA : forall b, b ∈ A -> frame b) by (intros b Hb; apply Hall; by left).
  unfold alloc_page. wp_steps. destruct F as [|x F]; simpl in Hc.
  - rewrite Hc, Z.eqb_refl. wp_steps.
    pose proof (room_end A p [] Hp Hc Hnd Hall Hdis eq_refl Hr) as Hend.
    assert (Hfr : frame (page_end p)) by (by split).
    assert (HnA : page_end p ∉ A) by (intros H; destruct (proj2 (Hall _) (or_introl H)); lia).
    eapply wp_mono; [by apply zero_page_spec|]. intros [] p' (m' & -> & Hz & Hs). simpl in *.
    wp_steps. split; [done|]. split; [done|]. split; [done|]. split; [| by apply (zeroed_frames A _ _ (page_end p))].
    rewrite u32_small by (punfold; lia). apply (pinv_take A p []); try done; simpl.
    + by intros ?%elem_of_nil.
    + punfold. lia.
    + punfold. rewrite Z.add_mod, He' by lia. done.
    + intros x. specialize (Hall x). punfold.
      split.
      * intros [Hx Hlt]. destruct (Z.lt_ge_cases x (page_end p)); [tauto|]. right; left.
        destruct Hx as [_ Hx]. apply Z.mod_divide in Hx as [i ->]; [|lia].
        apply Z.mod_divide in He' as [j Hj]; lia.
      * intros [H|[->|[]%elem_of_nil]]; [|split; [done | lia]]. destruct Hall as [_ Hall].
        destruct Hall as [? ?]; [by left|]. split; [done | lia].
  - destruct Hc as (Hf & Hx0 & Hc). rewrite Hf. destruct (Z.eqb_spec x 0); [done|].
    apply list.NoDup_cons in Hnd as [HxF Hnd].
    assert (Hfr : frame x) by (apply Hall; right; by left).
    assert (HxA : x ∉ A) by (intros H; apply (Hdis x H); by left).
    repeat wp_step. apply wp_pread.
    { rewrite <- (Z.add_0_r x). by apply frame_word. }
    wp_steps. eapply wp_mono; [by apply zero_page_spec|]. intros [] p' (m' & -> & Hz & Hs). simpl in *.
    wp_steps. split; [done|]. split; [done|]. split; [done|]. split; [| by apply (zeroed_frames A _ _ x)].
    apply (pinv_take A p F); try done; simpl.
    + apply (zeroed_chain F (pmem p) m' x); try done. intros b Hb. apply Hall. right. by right.
    + intros y. rewrite Hall. rewrite elem_of_cons. tauto.
    + intros y Hy HyF. apply (Hdis y Hy). by right.
Qed.

(** A frame is given back. *)
Lemma free_page_wp A p a : pinv A p -> a ∈ A ->
  wp (free_page a) (fun _ p' => pinv (A ∖ {[a]}) p' /\
    forall b, b ∈ A -> b <> a -> same_page (pmem p) (pmem p') b) p.
Proof.
  intros Hp Ha. pose proof Hp as [[He He'] (F & Hc & Hnd & Hall & Hdis) Hn].
  assert (HA : forall b, b ∈ A \/ b ∈ F -> frame b) by (intros b Hb; by apply Hall).
  assert (Hfr : frame a) by auto.
  assert (Hsz : (size A = S (size (A ∖ {[a]})))%nat).
  { rewrite (union_difference_L {[a]} A) at 1 by set_solver.
    rewrite size_union by set_solver. by rewrite size_singleton. }
  unfold free_page. wp_step. wp_step. wp_step. wp_step; [b2p; lia|]. wp_steps.
  apply wp_pwrite; [rewrite <- (Z.add_0_r a); by apply frame_word|]. wp_steps. split.
  - split; simpl; [done | | lia]. exists (a :: F). simpl. split; [|split; [|split; [intros x; split|]]]; [repeat split| | | |].
    + punfold. lia.
    + rewrite pword_insert_eq. eapply free_chain_frame; [done|]. intros x Hx.
      apply pword_insert_ne. intros ->. by apply (Hdis x).
    + apply list.NoDup_cons. auto.
    + intros Hx%Hall. destruct (decide (x = a)) as [->|]; set_solver.
    + intros Hx. apply Hall. set_solver.
    + intros x Hx [->|HxF]%elem_of_cons; [set_solver|]. apply (Hdis x); [set_solver | done].
  - intros b Hb Hba k Hk. simpl. apply pword_insert_ne.
    rewrite <- (Z.add_0_r a). apply frame_distinct; auto. done.
Qed.

(** A store into a frame that is handed out keeps the invariant. *)
Lemma pinv_write A p a k v : pinv A p -> a ∈ A -> 0 <= k < PAGE_SIZE ->
  pinv A (with_pmem (insert (a + k) v) p).
Proof.
  intros Hp Ha Hk. pose proof Hp as [He (F & Hc & Hnd & Hall & Hdis) Hn]. split; simpl; try done.
  exists F. split; [|done]. eapply free_chain_frame; [done|]. intros x Hx. apply pword_insert_ne.
  rewrite <- (Z.add_0_r x). apply frame_distinct; try done.
  - apply Hall. by left.
  - apply Hall. by right.
  - intros ->. by apply (Hdis x).
Qed.
