(* ===== verification/PageSpec.v ===== *)
(** * Page directories: the abstract address space

    A page directory is the data structure behind an abstract address space:
    a finite map [V] from page numbers to page table entries.  [pagedir]
    relates the two levels of words in memory to [V]; the lemmas show what
    the routines of page.c do to it, to the frames handed out and to the
    frames of everybody else. *)

From S2P Require Import Prelude Constants Page PageInv.

(** ** Entries *)

Definition aligned (a : Z) : Prop := 0 <= a < 2 ^ 32 /\ a mod PAGE_SIZE = 0.

(** The permission arguments [map_page] documents. *)
Definition perms (access readwrite : Z) : Prop :=
  (access = PAGE_USER \/ access = PAGE_SUPERVISOR) /\
  (readwrite = PAGE_READ_WRITE \/ readwrite = PAGE_READ_ONLY).

Definition pte (physical access readwrite : Z) : Z :=
  Z.lor (Z.lor (Z.lor physical PAGE_PRESENT) access) readwrite.

Lemma frame_aligned a : frame a -> aligned a.
Proof. unfold aligned. punfold. intros [H ?]. split; [lia | done]. Qed.
#[export] Hint Resolve frame_aligned : kernel.

Lemma aligned_land t f : t mod 2 ^ 12 = 0 -> 0 <= f < 2 ^ 12 -> Z.land t f = 0.
Proof.
  intros Ht Hf. apply Z.mod_divide in Ht as [x ->]; [|lia].
  rewrite <- Z.shiftl_mul_pow2 by lia.
  rewrite <- (Z.mod_small f (2 ^ 12)), <- Z.land_ones by lia.
  apply Z.bits_inj'. intros n Hn. rewrite !Z.land_spec, Z.bits_0.
  destruct (Z.lt_ge_cases n 12).
  - by rewrite Z.shiftl_spec_low.
  - by rewrite Z.ones_spec_high, andb_false_r, andb_false_r by lia.
Qed.

Lemma aligned_lor t f : t mod 2 ^ 12 = 0 -> 0 <= f < 2 ^ 12 -> Z.lor t f = t + f.
Proof.
  intros Ht Hf. pose proof (aligned_land t f Ht Hf) as Hl.
  by rewrite Z.add_nocarry_lxor, Z.lxor_lor.
Qed.

Lemma mask_page x : 0 <= x < 2 ^ 32 -> Z.land x PAGE_ADDRESS_MASK = x - x mod 2 ^ 12.
Proof.
  intros Hx. change PAGE_ADDRESS_MASK with (Z.ldiff (Z.ones 32) (Z.ones 12)).
  replace (Z.land x _) with (Z.ldiff (Z.land x (Z.ones 32)) (Z.ones 12)).
  - rewrite Z.land_ones, Z.mod_small, Z.ldiff_ones_r by lia.
    rewrite Z.shiftl_mul_pow2, Z.shiftr_div_pow2 by lia.
    pose proof (Z.div_mod x (2 ^ 12)). lia.
  - apply Z.bits_inj'. intros n Hn. rewrite Z.ldiff_spec, !Z.land_spec, Z.ldiff_spec.
    by rewrite andb_assoc.
Qed.

Lemma is_present_bit e : is_present e = Z.testbit e 0.
Proof.
  unfold is_present, truthy, PAGE_PRESENT. change 1 with (Z.ones 1). rewrite Z.land_ones by lia.
  change (2 ^ 1) with 2. rewrite Z.bit0_odd, <- Z.negb_even, Zmod_even.
  by destruct (Z.even e).
Qed.

Lemma pte_flags t a r : perms a r ->
  exists f, 0 <= f < 2 ^ 12 /\ pte t a r = Z.lor t f /\ f = Z.lor PAGE_PRESENT (Z.lor a r).
Proof.
  intros [[->| ->] [->| ->]]; eexists; (split; [|split; [|reflexivity]]); try done;
    unfold pte; by rewrite <- !Z.lor_assoc.
Qed.

Lemma pte_phys t a r : aligned t -> perms a r -> Z.land (pte t a r) PAGE_ADDRESS_MASK = t.
Proof.
  intros [Ht Hm] Hp. destruct (pte_flags t a r Hp) as (f & Hf & -> & _).
  unfold PAGE_SIZE in Hm. change 4096 with (2 ^ 12) in Hm.
  rewrite aligned_lor by done. pose proof Hm as Hd. apply Z.mod_divide in Hd as [x Hx]; [|lia].
  rewrite mask_page by lia. rewrite Z.add_mod, Hm, Z.add_0_l, Z.mod_mod, (Z.mod_small f) by lia. lia.
Qed.

Lemma pte_present t a r : is_present (pte t a r) = true.
Proof.
  rewrite is_present_bit. unfold pte. rewrite !Z.lor_spec. change (Z.testbit PAGE_PRESENT 0) with true.
  by rewrite orb_true_r.
Qed.

Lemma lor7 t : Z.lor (Z.lor (Z.lor t PAGE_PRESENT) PAGE_USER) PAGE_READ_WRITE =
  pte t PAGE_USER PAGE_READ_WRITE.
Proof. done. Qed.

(** ** Page directories *)

(** [T] gives the frames of the page tables by directory index, [V] the
    entries by page number. *)
Record pagedir (m : gmap Z Z) (d : Z) (T V : gmap Z Z) : Prop := {
  pd_base : frame d;
  pd_tbl i t : T !! i = Some t ->
    0 <= i < 1024 /\ frame t /\ t <> d /\ pword m (d + 4 * i) = pte t PAGE_USER PAGE_READ_WRITE;
  pd_notbl i : 0 <= i < 1024 -> T !! i = None -> is_present (pword m (d + 4 * i)) = false;
  pd_inj i j t : T !! i = Some t -> T !! j = Some t -> i = j;
  pd_ent n e : V !! n = Some e -> is_present e = true /\
    exists t, T !! (n / 1024) = Some t /\ pword m (t + 4 * (n mod 1024)) = e;
  pd_noent n t : V !! n = None -> T !! (n / 1024) = Some t ->
    is_present (pword m (t + 4 * (n mod 1024))) = false
}.
Arguments pd_base {m d T V} _.
Arguments pd_tbl {m d T V} _ {i t} _.
Arguments pd_notbl {m d T V} _ {i} _ _.
Arguments pd_inj {m d T V} _ {i j t} _ _.
Arguments pd_ent {m d T V} _ {n e} _.
Arguments pd_noent {m d T V} _ {n t} _ _.

(** The frames a directory occupies. *)
Definition foot (d : Z) (T : gmap Z Z) : gset Z := {[d]} ∪ map_img T.

Lemma elem_of_foot d T x : x ∈ foot d T <-> x = d \/ exists i, T !! i = Some x.
Proof. unfold foot. by rewrite elem_of_union, elem_of_singleton, elem_of_map_img. Qed.
Lemma foot_mono d T T' : T ⊆ T' -> foot d T ⊆ foot d T'.
Proof.
  intros HT x. rewrite !elem_of_foot. intros [->|[i Hi]]; [by left|]. right. exists i.
  by eapply lookup_weaken.
Qed.

(** The state of the allocator together with one address space in it. *)
Record space (A : gset Z) (p : pages) (d : Z) (T V : gmap Z Z) : Prop := {
  sp_inv : pinv A p;
  sp_dir : pagedir (pmem p) d T V;
  sp_foot : foot d T ⊆ A
}.
Arguments sp_inv {A p d T V} _.
Arguments sp_dir {A p d T V} _.
Arguments sp_foot {A p d T V} _.

(** A routine working on the directory [d] may hand out new frames and use
    some of them for page tables; it leaves alone every frame that was handed
    out before and is not part of the directory. *)
Record grows (d : Z) (A : gset Z) (p : pages) (T : gmap Z Z) (A' : gset Z) (p' : pages) (T' : gmap Z Z) : Prop := {
  gr_mono : A ⊆ A';
  gr_tbl : T ⊆ T';
  gr_new : foot d T' ∖ foot d T ## A;
  gr_frame b : b ∈ A -> b ∉ foot d T -> same_page (pmem p) (pmem p') b
}.
Arguments gr_mono {d A p T A' p' T'} _.
Arguments gr_tbl {d A p T A' p' T'} _.
Arguments gr_new {d A p T A' p' T'} _.
Arguments gr_frame {d A p T A' p' T'} _ {b} _ _.

Lemma grows_refl d A p T : grows d A p T A p T.
Proof. split; [done | done | set_solver | done]. Qed.
Lemma grows_trans d A p T A1 p1 T1 A2 p2 T2 :
  grows d A p T A1 p1 T1 -> grows d A1 p1 T1 A2 p2 T2 -> grows d A p T A2 p2 T2.
Proof.
  intros [M1 T1' N1 F1] [M2 T2' N2 F2]. split.
  - set_solver.
  - by etrans.
  - set_solver.
  - intros b Hb Hf. eapply same_page_trans; [by apply F1|]. apply F2; set_solver.
Qed.
#[export] Hint Resolve grows_refl : kernel.

(** Index arithmetic of the two levels. *)
Lemma dirindex_page n k : 0 <= k < PAGE_SIZE -> dirindex (n * PAGE_SIZE + k) = n / 1024.
Proof. intros Hk. unfold dirindex, PAGE_SIZE in *. rewrite Z.div_add_l by lia. by rewrite (Z.div_small k), Z.add_0_r. Qed.
Lemma tblindex_page n k : 0 <= k < PAGE_SIZE -> tblindex (n * PAGE_SIZE + k) = n mod 1024.
Proof. intros Hk. unfold tblindex, PAGE_SIZE in *. rewrite Z.div_add_l by lia. by rewrite (Z.div_small k), Z.add_0_r. Qed.

Definition pageno (n : Z) : Prop := 0 <= n < 2 ^ 20.
Lemma pageno_index n : pageno n -> 0 <= n / 1024 < 1024 /\ 0 <= n mod 1024 < 1024.
Proof.
  intros Hn. unfold pageno in Hn. split; [|by apply Z.mod_pos_bound].
  split; [apply Z.div_pos; lia | apply Z.div_lt_upper_bound; lia].
Qed.
Lemma aligned_pageno a : aligned a -> exists n, pageno n /\ a = n * PAGE_SIZE.
Proof.
  intros [Ha Hm]. unfold PAGE_SIZE in *. apply Z.mod_divide in Hm as [n ->]; [|lia].
  exists n. unfold pageno. lia.
Qed.
Lemma word_of_frame a i : frame a -> 0 <= i < 1024 -> page_word (a + 4 * i) = true.
Proof.
  intros Ha Hi. apply frame_word; [done | unfold PAGE_SIZE; lia |].
  rewrite Z.mul_comm. by apply Z.mod_mul.
Qed.
Lemma index_ne a b i j : frame a -> frame b -> 0 <= i < 1024 -> 0 <= j < 1024 ->
  a <> b \/ i <> j -> a + 4 * i <> b + 4 * j.
Proof.
  intros Ha Hb Hi Hj [Hab|Hij]; [apply frame_distinct; try done; unfold PAGE_SIZE; lia|].
  destruct (decide (a = b)) as [->|]; [lia|]. apply frame_distinct; try done; unfold PAGE_SIZE; lia.
Qed.

(** A directory depends only on its own frames. *)
Lemma pagedir_frame m m' d T V :
  pagedir m d T V -> (forall b, b ∈ foot d T -> same_page m m' b) -> pagedir m' d T V.
Proof.
  intros Hd Hs. assert (Hw : forall b i, b ∈ foot d T -> 0 <= i < 1024 ->
    pword m' (b + 4 * i) = pword m (b + 4 * i)).
  { intros b i Hb Hi. apply Hs; [done | unfold PAGE_SIZE; lia]. }
  assert (Hmod : forall n, 0 <= n mod 1024 < 1024) by (intros; by apply Z.mod_pos_bound).
  split.
  - by apply Hd.
  - intros i t Ht. destruct (pd_tbl Hd Ht) as (Hi & Hf & Htd & Hx). repeat (split; [done|]).
    rewrite Hw; [done | apply elem_of_foot; by left | done].
  - intros i Hi Ht. rewrite Hw; [by apply Hd | apply elem_of_foot; by left | done].
  - apply Hd.
  - intros n e He. destruct (pd_ent Hd He) as [Hp (t & Ht & Hx)]. split; [done|]. exists t. split; [done|].
    rewrite Hw; [done | | done]. apply elem_of_foot. eauto.
  - intros n t Hn Ht. rewrite Hw; [by eapply pd_noent | | done]. apply elem_of_foot. eauto.
Qed.

Lemma space_alloc A p d T V a p' :
  space A p d T V -> fresh_frame A (pmem p) a p' ->
  space ({[a]} ∪ A) p' d T V /\ grows d A p T ({[a]} ∪ A) p' T.
Proof.
  intros [Hi Hd Hf] (Ha & HaA & Hz & Hp & Hs). split; split; try done; try set_solver.
  apply (pagedir_frame (pmem p)); [done|]. intros b Hb. apply Hs. set_solver.
Qed.

(** ** Writing entries *)

Lemma pagedir_new_table m d T V i t :
  pagedir m d T V -> 0 <= i < 1024 -> T !! i = None -> frame t -> t ∉ foot d T -> zero_at m t ->
  pagedir (<[d + 4 * i := pte t PAGE_USER PAGE_READ_WRITE]> m) d (<[i := t]> T) V.
Proof.
  intros Hd Hi HTi Ht Hfoot Hz.
  assert (Htd : t <> d) by (intros ->; apply Hfoot, elem_of_foot; by left).
  assert (HtT : forall j, T !! j <> Some t) by (intros j Hj; apply Hfoot, elem_of_foot; eauto).
  assert (Hmod : forall n, 0 <= n mod 1024 < 1024) by (intros; by apply Z.mod_pos_bound).
  assert (Hbase := pd_base Hd).
  assert (Hword : forall b j, frame b -> b <> d -> 0 <= j < 1024 ->
    pword (<[d + 4 * i := pte t PAGE_USER PAGE_READ_WRITE]> m) (b + 4 * j) = pword m (b + 4 * j)).
  { intros b j Hb Hbd Hj. apply pword_insert_ne, index_ne; auto. }
  split.
  - done.
  - intros j t' [(-> & ->)|(Hij & Hj)]%lookup_insert_Some.
    + repeat (split; [done|]). apply pword_insert_eq.
    + destruct (pd_tbl Hd Hj) as (Hj' & Hf & Htd' & Hx). repeat (split; [done|]).
      rewrite pword_insert_ne by lia. done.
  - intros j Hj [HTj Hij]%lookup_insert_None. rewrite pword_insert_ne by lia. by apply Hd.
  - intros j1 j2 t' [(<- & <-)|(H1 & H1')]%lookup_insert_Some [(<- & H2)|(H2 & H2')]%lookup_insert_Some.
    + done.
    + by destruct (HtT j2).
    + subst. by destruct (HtT j1).
    + by eapply pd_inj.
  - intros n e He. destruct (pd_ent Hd He) as [Hp (t' & Ht' & Hx)]. split; [done|]. exists t'.
    destruct (pd_tbl Hd Ht') as (_ & Hf & Htd' & _). split.
    + rewrite lookup_insert_ne; [done|]. intros ->. congruence.
    + by rewrite Hword.
  - intros n t' Hn [(Hin & <-)|(Hin & Ht')]%lookup_insert_Some.
    + rewrite Hword by done. rewrite Hz; [done | specialize (Hmod n); unfold PAGE_SIZE; lia |].
      rewrite Z.mul_comm. by apply Z.mod_mul.
    + destruct (pd_tbl Hd Ht') as (_ & Hf & Htd' & _). rewrite Hword by done. by eapply pd_noent.
Qed.

(** Storing any word into a page table changes one entry. *)
Lemma pagedir_entry m d T V n t e :
  pagedir m d T V -> T !! (n / 1024) = Some t ->
  pagedir (<[t + 4 * (n mod 1024) := e]> m) d T
    (if is_present e then <[n := e]> V else delete n V).
Proof.
  intros Hd Ht. destruct (pd_tbl Hd Ht) as (Hi & Hf & Htd & Hx).
  assert (Hmod : forall n, 0 <= n mod 1024 < 1024) by (intros; by apply Z.mod_pos_bound).
  assert (Hbase := pd_base Hd).
  assert (Hdir : forall i, 0 <= i < 1024 ->
    pword (<[t + 4 * (n mod 1024) := e]> m) (d + 4 * i) = pword m (d + 4 * i)).
  { intros i Hi'. apply pword_insert_ne, index_ne; auto. }
  assert (Hother : forall n' t', n' <> n -> T !! (n' / 1024) = Some t' ->
    pword (<[t + 4 * (n mod 1024) := e]> m) (t' + 4 * (n' mod 1024)) = pword m (t' + 4 * (n' mod 1024))).
  { intros n' t' Hn' Ht'. destruct (pd_tbl Hd Ht') as (_ & Hf' & _). apply pword_insert_ne, index_ne; auto.
    destruct (decide (t = t')) as [->|]; [right | by left]. intros Hm. apply Hn'.
    pose proof (pd_inj Hd Ht Ht') as Hij. rewrite (Z.div_mod n 1024), (Z.div_mod n' 1024) by lia. lia. }
  assert (HV : forall n', n' <> n -> (if is_present e then <[n := e]> V else delete n V) !! n' = V !! n').
  { intros n' Hn'. destruct (is_present e); by rewrite ?lookup_insert_ne, ?lookup_delete_ne by done. }
  split.
  - done.
  - intros i t' Ht'. destruct (pd_tbl Hd Ht') as (Hi' & Hf' & Htd' & Hx'). by rewrite Hdir.
  - intros i Hi' Hn. rewrite Hdir by done. by apply Hd.
  - apply Hd.
  - intros n' e' He'. destruct (decide (n' = n)) as [->|Hn'].
    + destruct (is_present e) eqn:He; [|by rewrite lookup_delete_eq in He'].
      rewrite lookup_insert_eq in He'. injection He' as <-. split; [done|]. exists t. split; [done|].
      apply pword_insert_eq.
    + rewrite HV in He' by done. destruct (pd_ent Hd He') as [Hp (t' & Ht' & Hw)]. split; [done|].
      exists t'. split; [done|]. by rewrite Hother.
  - intros n' t' Hn Ht'. destruct (decide (n' = n)) as [->|Hn'].
    + assert (t' = t) as -> by congruence. rewrite pword_insert_eq.
      destruct (is_present e); [|done]. by rewrite lookup_insert_eq in Hn.
    + rewrite HV in Hn by done. rewrite Hother by done. by eapply pd_noent.
Qed.

Lemma map_page_entry A p d T V n t e :
  space A p d T V -> T !! (n / 1024) = Some t -> is_present e = true ->
  wp (pwrite (t + 4 * (n mod 1024)) e) (fun _ p' =>
    space A p' d T (<[n := e]> V) /\ grows d A p T A p' T) p.
Proof.
  intros [Hi Hd Hf] Ht He. destruct (pd_tbl Hd Ht) as (Hix & Hft & Htd & Hx).
  assert (HtT : t ∈ foot d T) by (apply elem_of_foot; eauto).
  assert (Hmod : 0 <= n mod 1024 < 1024) by (by apply Z.mod_pos_bound).
  apply wp_pwrite; [by apply word_of_frame|].
  assert (Hs : forall b, b ∈ A -> b ∉ foot d T ->
    same_page (pmem p) (<[t + 4 * (n mod 1024) := e]> (pmem p)) b).
  { intros b Hb Hnf. apply same_page_insert; [done | by eapply pinv_frame | by intros -> |].
    unfold PAGE_SIZE. lia. }
  split; split; simpl; try done.
  - apply pinv_write; [done | set_solver | unfold PAGE_SIZE; lia].
  - pose proof (pagedir_entry _ _ _ _ n t e Hd Ht) as H. by rewrite He in H.
  - set_solver.
Qed.

Lemma pt_index n : pageno n -> (n * PAGE_SIZE) mod PAGE_SIZE = 0 /\
  dirindex (n * PAGE_SIZE) = n / 1024 /\ tblindex (n * PAGE_SIZE) = n mod 1024.
Proof.
  intros Hn. pose proof (dirindex_page n 0 ltac:(done)) as H1. pose proof (tblindex_page n 0 ltac:(done)) as H2.
  rewrite Z.add_0_r in H1, H2. split; [by apply Z.mod_mul | done].
Qed.

(** The first half of [map_page]: after it, the page table exists. *)
Lemma ensure_table_wp A p d T V i :
  space A p d T V -> 0 <= i < 1024 -> room A 1 ->
  wp (e <- pread (d + 4 * i);
      when_ (negb (is_present e))
        (dirpage <- alloc_page;
         pwrite (d + 4 * i) (Z.lor (Z.lor (Z.lor dirpage PAGE_PRESENT) PAGE_USER) PAGE_READ_WRITE)))
    (fun _ p' => exists A' T' t, T' !! i = Some t /\ space A' p' d T' V /\ grows d A p T A' p' T' /\
       (size A' <= size A + 1)%nat /\ A' = A ∪ foot d T') p.
Proof.
  intros Hsp Hi Hr. pose proof Hsp as [Hinv Hd Hf]. assert (Hb := pd_base Hd).
  wp_step. apply wp_pread; [by apply word_of_frame|]. apply wp_when; intros Hpres; b2p.
  - destruct (T !! i) as [t|] eqn:HTi.
    { destruct (pd_tbl Hd HTi) as (_ & _ & _ & Hx). rewrite Hx, pte_present in Hpres. done. }
    wp_step. eapply wp_mono; [by apply alloc_page_wp|]. intros t p1 Hfr.
    destruct (space_alloc _ _ _ _ _ _ _ Hsp Hfr) as [Hsp1 Hg1]. destruct Hfr as (Ht & HtA & Hz & _ & _).
    apply wp_pwrite; [by apply word_of_frame|]. rewrite lor7.
    exists ({[t]} ∪ A), (<[i := t]> T), t. split; [apply lookup_insert_eq|].
    assert (HtF : t ∉ foot d T) by set_solver.
    destruct Hsp1 as [Hi1 Hd1 Hf1].
    assert (HdA : d ∈ {[t]} ∪ A) by (apply Hf1, elem_of_foot; by left).
    assert (Hfoot : forall x, x ∈ foot d (<[i := t]> T) -> x = t \/ x ∈ foot d T).
    { intros x [->|[j [(_ & <-)|(_ & Hj)]%lookup_insert_Some]]%elem_of_foot;
        [right | by left | right]; apply elem_of_foot; eauto. }
    split; [split; simpl | split; [split; simpl |]].
    + apply pinv_write; [done | done | unfold PAGE_SIZE; lia].
    + by apply pagedir_new_table.
    + intros x [->|Hx]%Hfoot; set_solver.
    + set_solver.
    + by apply insert_subseteq.
    + intros x [[->|Hx]%Hfoot Hx']%elem_of_difference HxA; set_solver.
    + intros b HbA Hbf. eapply same_page_trans; [by apply (gr_frame Hg1)|].
      apply same_page_insert; [done | by apply (pinv_frame A p) | | unfold PAGE_SIZE; lia].
      intros ->. apply Hbf, elem_of_foot. by left.
    + split; [rewrite size_union by set_solver; rewrite size_singleton; lia|].
      assert (t ∈ foot d (<[i := t]> T)).
      { apply elem_of_foot. right. exists i. apply lookup_insert_eq. }
      apply leibniz_equiv. intros x. rewrite !elem_of_union, elem_of_singleton. split; [naive_solver|].
      intros [Hx|[-> |Hx]%Hfoot]; [by right | by left | right; by apply Hf].
  - destruct (T !! i) as [t|] eqn:HTi.
    + exists A, T, t. split; [done|]. split; [done|]. split; [apply grows_refl|]. split; [lia | set_solver].
    + rewrite (pd_notbl Hd) in Hpres by done. done.
Qed.

Lemma map_page_wp A p d T V n phys a r :
  space A p d T V -> pageno n -> aligned phys -> perms a r -> room A 1 ->
  wp (map_page d (n * PAGE_SIZE) phys a r) (fun _ p' => exists A' T',
    space A' p' d T' (<[n := pte phys a r]> V) /\ grows d A p T A' p' T' /\ (size A' <= size A + 1)%nat /\
    A' = A ∪ foot d T') p.
Proof.
  intros Hsp Hn [Hp Hp'] Har Hr. destruct (pt_index n Hn) as (Hal & Hdi & Hti).
  destruct (pageno_index n Hn) as [Hdr Htr].
  unfold map_page. rewrite Hdi, Hti.
  wp_step. wp_step; [by b2p|]. wp_step. wp_step; [by b2p|].
  apply wp_bind_assoc. eapply wp_mono; [by eapply ensure_table_wp|].
  intros [] p1 (A1 & T1 & t & Ht & Hsp1 & Hg1 & Hsz & HA1).
  pose proof Hsp1 as [Hi1 Hd1 Hf1]. destruct (pd_tbl Hd1 Ht) as (_ & Hft & _ & Hx).
  wp_step. apply wp_pread; [apply word_of_frame; [apply Hd1 | done]|].
  rewrite Hx, pte_phys by (auto with kernel; split; by left).
  eapply wp_mono; [apply (map_page_entry A1 p1 d T1 V n t _ Hsp1 Ht), pte_present|].
  intros [] p2 [Hsp2 Hg2]. exists A1, T1. split; [done|]. split; [by eapply grows_trans | done].
Qed.

Lemma lookup_page_wp A p d T V n :
  space A p d T V -> pageno n ->
  wp (lookup_page d (n * PAGE_SIZE))
    (fun res p' => p' = p /\ res = (fun e => Z.land e PAGE_ADDRESS_MASK) <$> V !! n) p.
Proof.
  intros [Hinv Hd Hf] Hn. destruct (pt_index n Hn) as (Hal & Hdi & Hti).
  destruct (pageno_index n Hn) as [Hdr Htr].
  unfold lookup_page. rewrite Hdi, Hti. wp_step. wp_step; [by b2p|].
  wp_step. apply wp_pread; [apply word_of_frame; [apply Hd | done]|].
  destruct (T !! (n / 1024)) as [t|] eqn:Ht.
  - destruct (pd_tbl Hd Ht) as (_ & Hft & _ & Hx). rewrite Hx, pte_present. simpl.
    rewrite pte_phys by (auto with kernel; split; by left).
    wp_step. apply wp_pread; [by apply word_of_frame|]. destruct (V !! n) as [e|] eqn:HV.
    + destruct (pd_ent Hd HV) as [Hpr (t' & Ht' & <-)]. assert (t' = t) as -> by congruence.
      rewrite Hpr. by wp_steps.
    + rewrite (pd_noent Hd HV Ht). by wp_steps.
  - rewrite (pd_notbl Hd Hdr Ht). simpl. wp_steps. destruct (V !! n) as [e|] eqn:HV; [|done].
    destruct (pd_ent Hd HV) as [_ (t & Ht' & _)]. congruence.
Qed.

(** Removing a mapping gives its frame back. *)
Lemma unmap_wp A p d T V n e :
  space A p d T V -> pageno n -> V !! n = Some e ->
  Z.land e PAGE_ADDRESS_MASK ∈ A -> Z.land e PAGE_ADDRESS_MASK ∉ foot d T ->
  wp (unmap_and_free_page d (n * PAGE_SIZE)) (fun _ p' =>
    space (A ∖ {[Z.land e PAGE_ADDRESS_MASK]}) p' d T (delete n V) /\
    forall b, b ∈ A -> b ∉ foot d T -> b <> Z.land e PAGE_ADDRESS_MASK -> same_page (pmem p) (pmem p') b) p.
Proof.
  intros Hsp Hn HV HA Hfo. pose proof Hsp as [Hinv Hd Hf]. destruct (pt_index n Hn) as (Hal & Hdi & Hti).
  destruct (pageno_index n Hn) as [Hdr Htr].
  destruct (pd_ent Hd HV) as [Hpr (t & Ht & Hx)]. destruct (pd_tbl Hd Ht) as (_ & Hft & _ & Hxd).
  unfold unmap_and_free_page. rewrite Hdi, Hti. wp_step. wp_step; [by b2p|].
  wp_step. apply wp_pread; [apply word_of_frame; [apply Hd | done]|].
  rewrite Hxd, pte_present. simpl. rewrite pte_phys by (auto with kernel; split; by left).
  wp_step. apply wp_pread; [by apply word_of_frame|]. rewrite Hx, Hpr. simpl.
  wp_step. eapply wp_mono; [by eapply free_page_wp|]. intros [] p1 [Hp1 Hs1].
  apply wp_pwrite; [by apply word_of_frame|].
  assert (Hd1 : pagedir (pmem p1) d T V).
  { apply (pagedir_frame (pmem p)); [done|]. intros b Hb. apply Hs1; [by apply Hf | by intros ->]. }
  assert (HtA : t ∈ A ∖ {[Z.land e PAGE_ADDRESS_MASK]}).
  { assert (HtT : t ∈ foot d T) by (apply elem_of_foot; eauto).
    apply elem_of_difference. split; [by apply Hf|]. intros Heq%elem_of_singleton. by rewrite Heq in HtT. }
  split; [split; simpl|].
  - apply pinv_write; [done | done | unfold PAGE_SIZE; lia].
  - apply (pagedir_entry _ _ _ _ n t 0 Hd1 Ht).
  - intros x Hx'. apply elem_of_difference. split; [by apply Hf|]. intros ->%elem_of_singleton. done.
  - intros b Hb Hbf Hbe. simpl. eapply same_page_trans; [by apply Hs1|].
    apply same_page_insert; [done | by apply (pinv_frame A p) | | unfold PAGE_SIZE; lia].
    intros ->. apply Hbf, elem_of_foot. eauto.
Qed.

Lemma unmap_none_wp A p d T V n (Q : unit -> pages -> Prop) :
  space A p d T V -> pageno n -> V !! n = None -> Q tt p ->
  wp (unmap_and_free_page d (n * PAGE_SIZE)) Q p.
Proof.
  intros [Hinv Hd Hf] Hn HV HQ. destruct (pt_index n Hn) as (Hal & Hdi & Hti).
  destruct (pageno_index n Hn) as [Hdr Htr].
  unfold unmap_and_free_page. rewrite Hdi, Hti. wp_step. wp_step; [by b2p|].
  wp_step. apply wp_pread; [apply word_of_frame; [apply Hd | done]|].
  destruct (T !! (n / 1024)) as [t|] eqn:Ht.
  - destruct (pd_tbl Hd Ht) as (_ & Hft & _ & Hx). rewrite Hx, pte_present. simpl.
    rewrite pte_phys by (auto with kernel; split; by left).
    wp_step. apply wp_pread; [by apply word_of_frame|]. rewrite (pd_noent Hd HV Ht). by wp_steps.
  - rewrite (pd_notbl Hd Hdr Ht). by wp_steps.
Qed.

(** ** Ranges *)

Lemma wp_page_loop {S} (Inv : Z -> S -> Prop) (f : Z -> M S unit) end_ K : forall s st,
  0 <= s -> end_ <= 2 ^ 32 - PAGE_SIZE -> end_ - s * PAGE_SIZE <= Z.of_nat K * PAGE_SIZE ->
  Inv s st ->
  (forall n st, s <= n -> n * PAGE_SIZE < end_ -> Inv n st ->
     wp (f (n * PAGE_SIZE)) (fun _ st' => Inv (n + 1) st') st) ->
  wp (page_loop K (s * PAGE_SIZE) end_ f)
    (fun _ st' => exists n, s <= n /\ end_ <= n * PAGE_SIZE /\ (n = s \/ (n - 1) * PAGE_SIZE < end_) /\ Inv n st') st.
Proof.
  induction K as [|K IH]; intros s st Hs He HK Hi Hf; simpl.
  - case_test; [unfold PAGE_SIZE in *; lia|]. apply wp_ret. exists s. repeat split; auto; lia.
  - case_test.
    + wp_step. eapply wp_mono; [apply Hf; [lia | done | done]|]. intros [] st' Hi'.
      rewrite u32_small by (unfold PAGE_SIZE in *; lia).
      replace (s * PAGE_SIZE + PAGE_SIZE) with ((s + 1) * PAGE_SIZE) by lia.
      eapply wp_mono; [apply IH; [lia | done | unfold PAGE_SIZE in *; lia | done |]|].
      * intros n st'' Hn. apply Hf. lia.
      * intros [] st'' (n & H1 & H2 & H3 & H4). exists n. repeat split; [lia | done | | done].
        right. destruct H3 as [->|]; [|done]. by replace (s + 1 - 1) with s by lia.
    + apply wp_ret. exists s. repeat split; auto; lia.
Qed.

(** Page numbers of the range from page [s] to the address [end_]. *)
Definition in_range (s end_ n : Z) : bool := (s <=? n) && (n * PAGE_SIZE <? end_).

Lemma wp_for_pages {S} (Inv : Z -> S -> Prop) (f : Z -> M S unit) s end_ st (Q : unit -> S -> Prop) :
  0 <= s -> end_ <= 2 ^ 32 - PAGE_SIZE -> Inv s st ->
  (forall n st, s <= n -> n * PAGE_SIZE < end_ -> Inv n st ->
     wp (f (n * PAGE_SIZE)) (fun _ st' => Inv (n + 1) st') st) ->
  (forall n st', s <= n -> (forall k, s <= k < n <-> in_range s end_ k = true) -> Inv n st' -> Q tt st') ->
  wp (for_pages (s * PAGE_SIZE) end_ f) Q st.
Proof.
  intros Hs He Hi Hf HQ. unfold for_pages. eapply wp_mono; [apply (wp_page_loop Inv); try done|].
  - pose proof (Z.div_mod (end_ - s * PAGE_SIZE + PAGE_SIZE - 1) PAGE_SIZE).
    pose proof (Z.mod_pos_bound (end_ - s * PAGE_SIZE + PAGE_SIZE - 1) PAGE_SIZE).
    unfold PAGE_SIZE in *. lia.
  - intros [] st' (n & H1 & H2 & H3 & H4). apply (HQ n); [done | | done].
    intros k. unfold in_range, PAGE_SIZE in *. split.
    + intros Hk. b2p. split; b2p; lia.
    + intros Hk. b2p. lia.
Qed.

Definition set_range (V : gmap Z Z) (inr : Z -> bool) (e : Z -> Z) (V' : gmap Z Z) : Prop :=
  forall n, V' !! n = if inr n then Some (e n) else V !! n.

Lemma identity_map_wp A p d T V s end_ a r :
  space A p d T V -> 0 <= s -> end_ <= 2 ^ 32 - PAGE_SIZE -> perms a r ->
  room A (Z.max 0 ((end_ + PAGE_SIZE - 1) / PAGE_SIZE - s)) ->
  wp (identity_map d (s * PAGE_SIZE) end_ a r) (fun _ p' => exists A' T' V',
    space A' p' d T' V' /\ grows d A p T A' p' T' /\ A' = A ∪ foot d T' /\
    Z.of_nat (size A') <= Z.of_nat (size A) + Z.max 0 ((end_ + PAGE_SIZE - 1) / PAGE_SIZE - s) /\
    set_range V (in_range s end_) (fun n => pte (n * PAGE_SIZE) a r) V') p.
Proof.
  intros Hsp Hs He Har Hr. unfold identity_map.
  apply (wp_for_pages (fun n p' => exists A' T' V', space A' p' d T' V' /\ grows d A p T A' p' T' /\
    set_range V (fun k => (s <=? k) && (k <? n)) (fun n => pte (n * PAGE_SIZE) a r) V' /\
    Z.of_nat (size A') <= Z.of_nat (size A) + (n - s) /\ A' = A ∪ foot d T' /\
    (n = s \/ (n - 1) * PAGE_SIZE < end_))); try done.
  - exists A, T, V. split; [done|]. split; [apply grows_refl|].
    split; [|pose proof (sp_foot Hsp); split; [lia | split; [set_solver | by left]]].
    intros k. destruct (Z.leb_spec s k), (Z.ltb_spec k s); try done; lia.
  - intros n p' Hn Hlt (A' & T' & V' & Hsp' & Hg' & HV' & Hsz & HA' & _).
    assert (Hpn : pageno n) by (unfold pageno, PAGE_SIZE in *; lia).
    eapply wp_mono; [apply (map_page_wp A' p' d T' V' n); try done|].
    + split; [unfold PAGE_SIZE in *; lia | by apply Z.mod_mul].
    + unfold room in *. assert (n < (end_ + PAGE_SIZE - 1) / PAGE_SIZE); [|lia].
      apply Z.lt_le_trans with (n + 1); [lia|]. apply Z.div_le_lower_bound; unfold PAGE_SIZE in *; lia.
    + intros [] p2 (A2 & T2 & Hsp2 & Hg2 & Hsz2 & HA2). exists A2, T2, (<[n := pte (n * PAGE_SIZE) a r]> V').
      split; [done|]. split; [by eapply grows_trans|].
      split; [|split; [lia|]; split; [pose proof (foot_mono d _ _ (gr_tbl Hg2)); set_solver |
                 right; by replace (n + 1 - 1) with n by lia]].
      intros k. destruct (decide (k = n)) as [->|Hk].
      * rewrite lookup_insert_eq. destruct (Z.leb_spec s n), (Z.ltb_spec n (n + 1)); try done; lia.
      * rewrite lookup_insert_ne, HV' by done.
        destruct (Z.ltb_spec k n), (Z.ltb_spec k (n + 1)); try done; lia.
  - intros n p' Hn Hrange (A' & T' & V' & Hsp' & Hg' & HV' & Hsz & HA' & Hlast). exists A', T', V'.
    split; [done|]. split; [done|]. split; [done|]. split.
    { destruct Hlast as [-> |Hlast]; [lia|].
      assert (n <= (end_ + PAGE_SIZE - 1) / PAGE_SIZE) by (apply Z.div_le_lower_bound; unfold PAGE_SIZE in *; lia).
      lia. }
    intros k. rewrite HV'. specialize (Hrange k).
    destruct (in_range s end_ k); destruct (Z.leb_spec s k), (Z.ltb_spec k n); simpl; try done; lia.
Qed.

(** The frames [L] back the pages from [b] on. *)
Definition backs (L : list Z) (b : Z) (V V' : gmap Z Z) : Prop :=
  forall n, V' !! n = match zlookup L (n - b) with
                      | Some a => Some (pte a PAGE_USER PAGE_READ_WRITE)
                      | None => V !! n
                      end.

Lemma zlookup_snoc {B} (l : list B) x i :
  zlookup (l ++ [x]) i = if i =? Z.of_nat (length l) then Some x else zlookup l i.
Proof.
  unfold zlookup. destruct (Z.eqb_spec i (Z.of_nat (length l))) as [->|Hne].
  - destruct (Z.ltb_spec (Z.of_nat (length l)) 0); [lia|]. by rewrite Nat2Z.id, lookup_app_r, Nat.sub_diag.
  - destruct (Z.ltb_spec i 0); [done|]. destruct (Z.lt_ge_cases i (Z.of_nat (length l))).
    + rewrite lookup_app_l; [done | lia].
    + rewrite !lookup_ge_None_2; [done | lia | rewrite length_app; simpl; lia].
Qed.

Record new_frames (A : gset Z) (p' : pages) (A' : gset Z) (d : Z) (T' : gmap Z Z) (L : list Z) : Prop := {
  nf_nodup : NoDup L;
  nf_new x : x ∈ L -> (x ∉ A) /\ x ∈ A' /\ (x ∉ foot d T') /\ zero_at (pmem p') x
}.

Lemma same_page_zero m m' a : same_page m m' a -> zero_at m a -> zero_at m' a.
Proof. intros Hs Hz k Hk H4. by rewrite Hs, Hz. Qed.

(** The state after [i] pages have been added from page [b] on. *)
Definition extended (A : gset Z) (p : pages) (d : Z) (T V : gmap Z Z) (b i : Z) (p' : pages) : Prop :=
  exists A' T' V' L, space A' p' d T' V' /\ grows d A p T A' p' T' /\
    Z.of_nat (length L) = i /\ backs L b V V' /\ new_frames A p' A' d T' L /\
    Z.of_nat (size A') <= Z.of_nat (size A) + 2 * i /\ A' = A ∪ foot d T' ∪ list_to_set L.

Lemma new_frames_snoc A p1 p2 A' A2 d T' T2 L x :
  new_frames A p1 A' d T' L -> A ⊆ A' -> x ∉ A' -> x ∉ foot d T' -> zero_at (pmem p1) x ->
  grows d ({[x]} ∪ A') p1 T' A2 p2 T2 -> new_frames A p2 A2 d T2 (L ++ [x]).
Proof.
  intros [Hnd Hnew] HAA HxA HxF Hz Hg.
  assert (Hkeep : forall y, y ∈ {[x]} ∪ A' -> y ∉ foot d T' -> zero_at (pmem p1) y ->
    y ∈ A2 /\ (y ∉ foot d T2) /\ zero_at (pmem p2) y).
  { intros y Hy1 Hy2 Hy3. split; [by apply (gr_mono Hg)|]. split.
    - intros Hy. apply (gr_new Hg y); [by apply elem_of_difference | done].
    - eapply same_page_zero; [by apply (gr_frame Hg) | done]. }
  split.
  - apply list.NoDup_app. split; [done|]. split; [|apply NoDup_singleton].
    intros y Hy ->%list_elem_of_singleton. by destruct (Hnew x Hy) as (_ & H & _).
  - intros y [Hy| ->%list_elem_of_singleton]%elem_of_app.
    + destruct (Hnew y Hy) as (H1 & H2 & H3 & H4). split; [done|]. apply Hkeep; [set_solver | done | done].
    + split; [set_solver|]. apply Hkeep; [set_solver | done | done].
Qed.

Lemma new_frames_keep A p1 p2 A' d T' L : new_frames A p1 A' d T' L ->
  (forall y, y ∈ A' -> same_page (pmem p1) (pmem p2) y) -> new_frames A p2 A' d T' L.
Proof.
  intros [Hnd Hnew] Hs. split; [done|]. intros y Hy. destruct (Hnew y Hy) as (H1 & H2 & H3 & H4).
  repeat (split; [done|]). eapply same_page_zero; [by apply Hs | done].
Qed.

(** One round of the loop. *)
Lemma map_new_page_wp A p d T V b i p' :
  extended A p d T V b i p' -> 0 <= b -> 0 <= i -> b + i < 2 ^ 20 -> room A (2 * i + 2) ->
  wp (page <- alloc_page;
      map_page d (u32 (b * PAGE_SIZE + i * PAGE_SIZE)) page PAGE_USER PAGE_READ_WRITE)
    (fun _ => extended A p d T V b (i + 1)) p'.
Proof.
  intros (A' & T' & V' & L & Hsp' & Hg' & HL & HV' & Hnf & Hsz & HA') Hb Hi Hlt Hr. wp_step.
  eapply wp_mono; [apply alloc_page_wp; [apply Hsp' | unfold room in *; lia]|].
  intros x p1 Hfr. destruct (space_alloc _ _ _ _ _ _ _ Hsp' Hfr) as [Hsp1 Hg1].
  destruct Hfr as (Hx & HxA & Hz & _ & Hs1).
  replace (b * PAGE_SIZE + i * PAGE_SIZE) with ((b + i) * PAGE_SIZE) by lia.
  rewrite u32_small by (unfold PAGE_SIZE; lia).
  assert (Hsize : size ({[x]} ∪ A') = S (size A')).
  { rewrite size_union by set_solver. by rewrite size_singleton. }
  eapply wp_mono; [apply (map_page_wp ({[x]} ∪ A') p1 d T' V' (b + i) x); try done|].
  - unfold pageno. lia.
  - by apply frame_aligned.
  - split; by left.
  - unfold room in *. rewrite Hsize. lia.
  - intros [] p2 (A2 & T2 & Hsp2 & Hg2 & Hsz2 & HA2).
    exists A2, T2, (<[b + i := pte x PAGE_USER PAGE_READ_WRITE]> V'), (L ++ [x]).
    split; [done|]. split; [eapply grows_trans; [done|]; by eapply grows_trans|].
    split; [rewrite length_app; simpl; lia|]. split; [|split; [|split; [lia|]]].
    + intros k. rewrite zlookup_snoc, HL. destruct (Z.eqb_spec (k - b) i).
      { replace k with (b + i) by lia. by rewrite lookup_insert_eq. }
      rewrite lookup_insert_ne by lia. apply HV'.
    + eapply new_frames_snoc; [by eapply new_frames_keep | apply (gr_mono Hg') | done | | done | done].
      intros H. by apply HxA, (sp_foot Hsp').
    + rewrite HA2, HA', list_to_set_app_L. simpl. pose proof (foot_mono d _ _ (gr_tbl Hg2)). set_solver.
Qed.

Lemma map_new_pages_wp A p d T V b n :
  space A p d T V -> 0 <= b -> 0 <= n -> b + n <= 2 ^ 20 -> room A (2 * n) ->
  wp (map_new_pages d (b * PAGE_SIZE) n) (fun _ => extended A p d T V b n) p.
Proof.
  intros Hsp Hb Hn Hbn Hr. unfold map_new_pages. wp_step. wp_step; [b2p; by apply Z.mod_mul|].
  apply (wp_for (extended A p d T V b)).
  - exists A, T, V, []. split; [done|]. split; [apply grows_refl|]. split; [done|].
    split; [|split; [|pose proof (sp_foot Hsp); split; [lia | set_solver]]].
    + intros k. unfold zlookup. by destruct (k - b <? 0).
    + split; [constructor | by intros x ?%elem_of_nil].
  - intros i p' Hi Hext. apply map_new_page_wp; try done; try lia. unfold room in *. lia.
  - intros p'. replace (0 + Z.of_nat (Z.to_nat n)) with n by lia. done.
Qed.

(** ** free_page_dir *)

(** The tables of the directory entries below [i]. *)
Definition tables_below (T : gmap Z Z) (i : Z) : gset Z := map_img (filter (fun kv => kv.1 < i) T).

Lemma elem_of_tables_below T i x : x ∈ tables_below T i <-> exists j, j < i /\ T !! j = Some x.
Proof.
  unfold tables_below. rewrite elem_of_map_img. split.
  - intros [j [Hj Hlt]%map_lookup_filter_Some]. exists j. done.
  - intros (j & Hj & HT). exists j. apply map_lookup_filter_Some. done.
Qed.

Lemma tables_below_step d T V m i t : pagedir m d T V -> T !! i = Some t ->
  (t ∉ tables_below T i) /\ forall x, x ∈ tables_below T (i + 1) <-> x = t \/ x ∈ tables_below T i.
Proof.
  intros Hd Ht. split.
  - intros (j & Hj & HT)%elem_of_tables_below. pose proof (pd_inj Hd HT Ht). lia.
  - intros x. rewrite !elem_of_tables_below. split.
    + intros (j & Hj & HT). destruct (decide (j = i)) as [->|]; [left; congruence|].
      right. exists j. split; [lia | done].
    + intros [->|(j & Hj & HT)]; [exists i | exists j]; (split; [lia | done]).
Qed.
Lemma tables_below_skip T i : T !! i = None -> tables_below T (i + 1) = tables_below T i.
Proof.
  intros Ht. apply leibniz_equiv. intros x. rewrite !elem_of_tables_below.
  split; intros (j & Hj & HT); exists j; (split; [|done]); [|lia].
  destruct (decide (j = i)) as [->|]; [congruence | lia].
Qed.
Lemma tables_below_all d T V m x : pagedir m d T V ->
  (x ∈ tables_below T 1024 <-> exists i, T !! i = Some x) /\ (x ∉ tables_below T 0).
Proof.
  intros Hd. rewrite !elem_of_tables_below. split; [split; [naive_solver|]|].
  - intros [i Hi]. exists i. destruct (pd_tbl Hd Hi). split; [lia | done].
  - intros (j & Hj & HT). destruct (pd_tbl Hd HT). lia.
Qed.

(** One round of the loop: the table of directory entry [i] is freed. *)
Lemma free_table_wp A p p' d T V i :
  space A p d T V -> 0 <= i < 1024 -> pinv (A ∖ tables_below T i) p' ->
  (forall b, b ∈ A -> b ∉ tables_below T 1024 -> same_page (pmem p) (pmem p') b) ->
  wp (e <- pread (d + 4 * i); when_ (is_present e) (free_page (Z.land e PAGE_ADDRESS_MASK)))
    (fun _ p2 => pinv (A ∖ tables_below T (i + 1)) p2 /\
       forall b, b ∈ A -> b ∉ tables_below T 1024 -> same_page (pmem p) (pmem p2) b) p'.
Proof.
  intros [Hinv Hd Hf] Hi Hp' Hs'. assert (Hb := pd_base Hd).
  assert (HdT : d ∉ tables_below T 1024).
  { rewrite (proj1 (tables_below_all d T V _ d Hd)). intros [j Hj].
    by destruct (pd_tbl Hd Hj) as (_ & _ & ? & _). }
  wp_step. apply wp_pread; [by apply word_of_frame|].
  rewrite (Hs' d) by (try apply Hf, elem_of_foot; try (by left); try done; unfold PAGE_SIZE; lia).
  destruct (T !! i) as [t|] eqn:Ht.
  - destruct (pd_tbl Hd Ht) as (_ & Hft & Htd & Hx). rewrite Hx, pte_present. simpl.
    rewrite pte_phys by (auto with kernel; split; by left).
    destruct (tables_below_step d T V _ i t Hd Ht) as [Hnew Hstep].
    assert (HtA : t ∈ A) by (apply Hf, elem_of_foot; eauto).
    eapply wp_mono; [apply free_page_wp; [done | by apply elem_of_difference]|]. intros [] p2 [Hp2 Hs2]. split.
    + replace (A ∖ tables_below T (i + 1)) with (A ∖ tables_below T i ∖ {[t]}); [done|].
      apply leibniz_equiv. intros x. rewrite !elem_of_difference, elem_of_singleton, Hstep. tauto.
    + assert (Hsub : forall x, x ∈ tables_below T (i + 1) -> x ∈ tables_below T 1024).
      { intros x. rewrite !elem_of_tables_below. intros (j & Hj & HT). exists j. split; [lia | done]. }
      intros b Hb1 Hb2. eapply same_page_trans; [by apply Hs'|]. apply Hs2.
      * apply elem_of_difference. split; [done|]. intros H. apply Hb2, Hsub, Hstep. by right.
      * intros ->. apply Hb2, Hsub, Hstep. by left.
  - rewrite (pd_notbl Hd) by done. rewrite tables_below_skip by done. done.
Qed.

Lemma free_page_dir_wp A p d T V : space A p d T V ->
  wp (free_page_dir d) (fun _ p' => pinv (A ∖ foot d T) p' /\
    forall b, b ∈ A -> b ∉ foot d T -> same_page (pmem p) (pmem p') b) p.
Proof.
  intros Hsp. pose proof Hsp as [Hinv Hd Hf]. unfold free_page_dir. wp_step.
  assert (Hall := fun x => tables_below_all d T V _ x Hd).
  apply (wp_for (fun i p' => pinv (A ∖ tables_below T i) p' /\
    forall b, b ∈ A -> b ∉ tables_below T 1024 -> same_page (pmem p) (pmem p') b)).
  - split; [|done]. replace (A ∖ tables_below T 0) with A; [done|]. apply leibniz_equiv. intros x.
    rewrite elem_of_difference. pose proof (Hall x). tauto.
  - intros i p' Hi [Hp' Hs']. by apply (free_table_wp A p p' d T V i).
  - intros p' [Hp' Hs']. change (0 + Z.of_nat 1024) with 1024 in Hp'.
    eapply wp_mono; [apply (free_page_wp (A ∖ tables_below T 1024)); [done|]|].
    + apply elem_of_difference. split; [apply Hf, elem_of_foot; by left|]. rewrite (proj1 (Hall d)).
      intros [i Hi]. by destruct (pd_tbl Hd Hi) as (_ & _ & ? & _).
    + intros [] p2 [Hp2 Hs2]. split.
      * replace (A ∖ foot d T) with (A ∖ tables_below T 1024 ∖ {[d]}); [done|]. apply leibniz_equiv. intros x.
        rewrite !elem_of_difference, elem_of_singleton, (proj1 (Hall x)), elem_of_foot. tauto.
      * intros b Hb1 Hb2. rewrite elem_of_foot in Hb2. pose proof (proj1 (Hall b)) as Hab.
        eapply same_page_trans; [apply Hs'; tauto|]. apply Hs2; [apply elem_of_difference; tauto | tauto].
Qed.

(** A zeroed frame is an empty directory. *)
Lemma new_dir A p d p' : pinv A p -> fresh_frame A (pmem p) d p' ->
  space ({[d]} ∪ A) p' d ∅ ∅.
Proof.
  intros Hp (Hd & HdA & Hz & Hi & Hs). split; [done | |].
  2: { intros x [->|[i Hi']]%elem_of_foot; [set_solver | by rewrite lookup_empty in Hi']. }
  split; try done.
  - intros i Hi' _. rewrite Hz; [done | unfold PAGE_SIZE; lia |]. rewrite Z.mul_comm. by apply Z.mod_mul.
Qed.

(** What the processor makes of a directory. *)
Lemma walk_spec A p d T V n k : space A p d T V -> pageno n -> 0 <= k < PAGE_SIZE ->
  walk (pmem p) d (n * PAGE_SIZE + k) =
  match V !! n, T !! (n / 1024) with
  | Some e, Some t => Some (Z.land e PAGE_ADDRESS_MASK + k, pte t PAGE_USER PAGE_READ_WRITE, e)
  | _, _ => None
  end.
Proof.
  intros [_ Hd _] Hn Hk. destruct (pageno_index n Hn) as [Hdr Htr].
  unfold walk. rewrite dirindex_page, tblindex_page by done.
  replace ((n * PAGE_SIZE + k) mod PAGE_SIZE) with k
    by (unfold PAGE_SIZE in *; rewrite Z.add_comm, Z.mod_add, Z.mod_small; lia).
  destruct (T !! (n / 1024)) as [t|] eqn:Ht.
  - destruct (pd_tbl Hd Ht) as (_ & Hft & _ & Hx). rewrite Hx, pte_present.
    rewrite pte_phys by (auto with kernel; split; by left).
    destruct (V !! n) as [e|] eqn:HV.
    + destruct (pd_ent Hd HV) as [Hpr (t' & Ht' & Hw)]. assert (t' = t) as -> by congruence.
      by rewrite Hw, Hpr.
    + by rewrite (pd_noent Hd HV Ht).
  - rewrite (pd_notbl Hd Hdr Ht). by destruct (V !! n).
Qed.
