(* ===== verification/PageTheorems.v ===== *)
(** * Physical pages: theorems

    The contract of page.c: what the allocator promises, that the routines on
    page directories implement updates of an abstract address space and touch
    nobody else's memory, what the processor makes of the result, and that
    taking an address space down gives back every frame it took. *)

From S2P Require Import Prelude Constants Page PageInv PageSpec.

(** Pages [b], [b+1], ... of the address space [V] are backed by the frames
    [L], which are not part of the directory. *)
Record backed (A : gset Z) (d : Z) (T V : gmap Z Z) (b : Z) (L : list Z) : Prop := {
  bk_nodup : NoDup L;
  bk_entry i a : zlookup L i = Some a -> V !! (b + i) = Some (pte a PAGE_USER PAGE_READ_WRITE);
  bk_owned a : a ∈ L -> a ∈ A /\ a ∉ foot d T
}.

(** The state when the pages from [b] up to [n] have been unmapped. *)
Definition unmapped (A : gset Z) (p : pages) (d : Z) (T V : gmap Z Z) (b : Z) (L : list Z) (n : Z) (p' : pages) : Prop :=
  exists V', space (A ∖ list_to_set (take (Z.to_nat (n - b)) L)) p' d T V' /\
    (forall k, V' !! k = if (b <=? k) && (k <? n) then None else V !! k) /\
    forall x, x ∈ A -> x ∉ foot d T -> x ∉ L -> same_page (pmem p) (pmem p') x.

Lemma zlookup_nth {B} (l : list B) i x : zlookup l i = Some x -> l !! Z.to_nat i = Some x.
Proof. unfold zlookup. by destruct (Z.ltb_spec i 0). Qed.

Lemma unmap_step A p d T V b L n p' :
  pinv A p -> backed A d T V b L -> 0 <= b <= n -> n < b + Z.of_nat (length L) -> pageno n ->
  unmapped A p d T V b L n p' ->
  wp (unmap_and_free_page d (n * PAGE_SIZE)) (fun _ => unmapped A p d T V b L (n + 1)) p'.
Proof.
  intros Hp [Hnd HV HL] Hbn Hlt Hpn (V' & Hsp' & HV' & Hs').
  destruct (zlookup_is_Some L (n - b)) as [a Ha]; [lia|].
  assert (HVn : V' !! n = Some (pte a PAGE_USER PAGE_READ_WRITE)).
  { rewrite HV', Z.ltb_irrefl, andb_false_r, <- (HV _ _ Ha). f_equal. lia. }
  pose proof (zlookup_nth _ _ _ Ha) as Ha'.
  destruct (HL a (list_elem_of_lookup_2 _ _ _ Ha')) as [HaA HaF].
  assert (Hphys : Z.land (pte a PAGE_USER PAGE_READ_WRITE) PAGE_ADDRESS_MASK = a).
  { apply pte_phys; [by apply frame_aligned, (pinv_frame A p) | split; by left]. }
  assert (Hnt : a ∉ take (Z.to_nat (n - b)) L).
  { intros [i Hi]%list_elem_of_lookup. apply lookup_take_Some in Hi as [Hi Hlt'].
    pose proof (NoDup_lookup _ _ _ _ Hnd Hi Ha'). lia. }
  eapply wp_mono; [eapply (unmap_wp _ p' d T V' n _ Hsp' Hpn HVn)|]; rewrite Hphys.
  - apply elem_of_difference. split; [done|]. by rewrite elem_of_list_to_set.
  - done.
  - intros [] p2 [Hsp2 Hs2]. exists (delete n V'). split; [|split].
    + replace (Z.to_nat (n + 1 - b)) with (S (Z.to_nat (n - b))) by lia.
      rewrite (take_S_r _ _ a Ha'), list_to_set_app_L. simpl.
      replace (A ∖ _) with (A ∖ list_to_set (take (Z.to_nat (n - b)) L) ∖ {[a]}) by set_solver. done.
    + intros k. destruct (decide (k = n)) as [->|Hk].
      { rewrite lookup_delete_eq. destruct (Z.leb_spec b n), (Z.ltb_spec n (n + 1)); try done; lia. }
      rewrite lookup_delete_ne, HV' by done. destruct (Z.ltb_spec k n), (Z.ltb_spec k (n + 1)); try done; lia.
    + intros x Hx1 Hx2 Hx3. eapply same_page_trans; [by apply Hs'|]. apply Hs2; [|done|].
      { apply elem_of_difference. split; [done|]. rewrite elem_of_list_to_set. intros Hx.
        apply Hx3. by eapply elem_of_take in Hx as (? & ? & _); eapply list_elem_of_lookup_2. }
      intros ->. apply Hx3. by eapply list_elem_of_lookup_2.
Qed.

Lemma unmap_range_wp A p d T V b L :
  space A p d T V -> backed A d T V b L -> 0 <= b ->
  (b + Z.of_nat (length L)) * PAGE_SIZE <= 2 ^ 32 - PAGE_SIZE ->
  wp (for_pages (b * PAGE_SIZE) ((b + Z.of_nat (length L)) * PAGE_SIZE) (unmap_and_free_page d))
    (fun _ p' => unmapped A p d T V b L (b + Z.of_nat (length L)) p') p.
Proof.
  intros Hsp Hbk Hb Hend. apply (wp_for_pages (unmapped A p d T V b L)); try done.
  - exists V. rewrite Z.sub_diag. change (take (Z.to_nat 0) L) with (@nil Z). split; [|split; [|done]].
    + replace (A ∖ list_to_set []) with A by set_solver. done.
    + intros k. destruct (Z.leb_spec b k), (Z.ltb_spec k b); try done; lia.
  - intros n p' Hbn Hlt Hu. apply unmap_step; try done; try apply Hsp; unfold pageno, PAGE_SIZE in *; lia.
  - intros n p' Hbn Hrange Hu. enough (n = b + Z.of_nat (length L)) as <- by done.
    pose proof (Hrange n) as H1. pose proof (Hrange (b + Z.of_nat (length L))) as H2.
    unfold in_range, PAGE_SIZE in *.
    destruct (Z.lt_trichotomy n (b + Z.of_nat (length L))) as [H|[H|H]]; [|done|].
    + assert (b <= n < n) as ?; [|lia]. apply H1. b2p. split; b2p; lia.
    + destruct H2 as [H2 _]. assert (Hx : b <= b + Z.of_nat (length L) < n) by lia. specialize (H2 Hx). b2p. lia.
Qed.

(** ** Claims *)

(** alloc_page: while fewer than [MAX_FRAMES] frames are handed out, it
    returns a zeroed, page-aligned frame in the page memory that nobody
    holds; the allocator's invariant is kept with that frame added, and no
    frame that was handed out before changes. *)
Theorem alloc_page_fresh A p :
  pinv A p -> room A 1 -> exists a p', alloc_page p = Ok a p' /\ fresh_frame A (pmem p) a p'.
Proof. intros Hp Hr. by apply wp_ok, alloc_page_wp. Qed.

Lemma initial_pinv m : pinv ∅ (initial_pages m).
Proof.
  split; [done | | done]. exists []. split; [done|]. split; [constructor|]. split; [|set_solver].
  intros a. split; [|set_solver]. intros [[H1 _] H2]. simpl in H2. lia.
Qed.

Lemma alloc_page_fresh_witness :
  exists a p', alloc_page (initial_pages ∅) = Ok a p' /\ fresh_frame ∅ ∅ a p'.
Proof. apply (alloc_page_fresh ∅ (initial_pages ∅)); [apply initial_pinv | done]. Defined.

(** C6. map_page implements an update of the address space: on a directory
    that encodes [V], mapping page [n] makes it encode [V] with that one
    entry, whatever was there before; no other frame that was handed out
    changes, so every other process's directory and pages stay as they are. *)
Theorem map_page_refines A p d T V n phys a r :
  space A p d T V -> pageno n -> aligned phys -> perms a r -> room A 1 ->
  exists p' A' T', map_page d (n * PAGE_SIZE) phys a r p = Ok tt p' /\
    space A' p' d T' (<[n := pte phys a r]> V) /\ grows d A p T A' p' T'.
Proof.
  intros Hsp Hn Hph Har Hr. pose proof (map_page_wp A p d T V n phys a r Hsp Hn Hph Har Hr) as H.
  apply wp_ok in H as ([] & p' & He & A' & T' & H1 & H2 & _). eauto 10.
Qed.

(** One frame handed out, an empty directory at the start of the page
    memory. *)
Definition dir0 : pages := mkPages ∅ (PAGE_START + PAGE_SIZE) 0 1.
Lemma dir0_space : space {[PAGE_START]} dir0 PAGE_START ∅ ∅.
Proof.
  split.
  - split; [done | | by rewrite size_singleton]. exists []. split; [done|]. split; [constructor|].
    split; [|set_solver]. intros a. rewrite elem_of_singleton, elem_of_nil. split.
    + intros [[Ha Hm] Hlt]. left. simpl in Hlt. punfold. apply Z.mod_divide in Hm as [x ->]; lia.
    + intros [-> |[]]. done.
  - by split.
  - intros x [-> |[i Hi]]%elem_of_foot; [set_solver | by rewrite lookup_empty in Hi].
Qed.

Lemma map_page_refines_witness :
  exists p' A' T', map_page PAGE_START (3 * PAGE_SIZE) 0 PAGE_USER PAGE_READ_ONLY dir0 = Ok tt p' /\
    space A' p' PAGE_START T' (<[3 := pte 0 PAGE_USER PAGE_READ_ONLY]> ∅) /\
    grows PAGE_START {[PAGE_START]} dir0 ∅ A' p' T'.
Proof.
  apply (map_page_refines {[PAGE_START]} dir0 PAGE_START ∅ ∅ 3 0 PAGE_USER PAGE_READ_ONLY).
  - apply dir0_space.
  - split; done.
  - split; [split|]; done.
  - split; [by left | by right].
  - unfold room. by rewrite size_singleton.
Defined.

(** Round trip of map_page and lookup_page: after page [n] has been
    mapped to [phys], lookup_page finds [phys] for page [n], and for every
    other page the answer it gave before. *)
Theorem map_lookup_roundtrip A p d T V n n' phys a r old :
  space A p d T V -> pageno n -> pageno n' -> aligned phys -> perms a r -> room A 1 ->
  lookup_page d (n' * PAGE_SIZE) p = Ok old p ->
  exists p', (map_page d (n * PAGE_SIZE) phys a r;; lookup_page d (n' * PAGE_SIZE)) p =
    Ok (if decide (n' = n) then Some phys else old) p'.
Proof.
  intros Hsp Hn Hn' Hph Har Hr Hold.
  pose proof (lookup_page_wp A p d T V n' Hsp Hn') as Ho. unfold wp in Ho. rewrite Hold in Ho.
  destruct Ho as [_ ->].
  assert (wp (map_page d (n * PAGE_SIZE) phys a r;; lookup_page d (n' * PAGE_SIZE))
    (fun res _ => res = if decide (n' = n) then Some phys
      else (fun e => Z.land e PAGE_ADDRESS_MASK) <$> V !! n') p) as H.
  { wp_step. eapply wp_mono; [by apply (map_page_wp A p d T V)|].
    intros [] p1 (A1 & T1 & Hsp1 & _). eapply wp_mono; [by eapply lookup_page_wp|].
    intros res p2 [-> ->]. case_decide as Hnn; [subst n'; rewrite lookup_insert_eq | by rewrite lookup_insert_ne].
    simpl. by rewrite pte_phys. }
  apply wp_ok in H as (res & p' & He & ->). by exists p'.
Qed.

Lemma map_lookup_roundtrip_witness : exists p',
  (map_page PAGE_START (7 * PAGE_SIZE) (5 * PAGE_SIZE) PAGE_USER PAGE_READ_WRITE;;
   lookup_page PAGE_START (7 * PAGE_SIZE)) dir0 = Ok (Some (5 * PAGE_SIZE)) p'.
Proof.
  apply (map_lookup_roundtrip {[PAGE_START]} dir0 PAGE_START ∅ ∅ 7 7 (5 * PAGE_SIZE)
           PAGE_USER PAGE_READ_WRITE None).
  - apply dir0_space.
  - split; done.
  - split; done.
  - split; [split|]; done.
  - split; by left.
  - unfold room. by rewrite size_singleton.
  - vm_compute. reflexivity.
Defined.

Lemma pte_low t a r g : aligned t -> perms a r -> 0 <= g < 2 ^ 12 ->
  Z.land (pte t a r) g = Z.land (Z.lor PAGE_PRESENT (Z.lor a r)) g.
Proof.
  intros [_ Ht] Har Hg. destruct (pte_flags t a r Har) as (f & Hf & -> & <-).
  rewrite Z.land_lor_distr_l, (aligned_land t g) by done. by rewrite Z.lor_0_l.
Qed.
Lemma land_small x g : 0 <= x -> 0 <= g < 2 ^ 12 -> 0 <= Z.land x g < 2 ^ 12.
Proof.
  intros Hx Hg. rewrite <- (Z.mod_small g (2 ^ 12)), <- (Z.land_ones g 12), Z.land_assoc, Z.land_ones by lia.
  by apply Z.mod_pos_bound.
Qed.

(** Protection as the processor sees it: on a directory that encodes
    [V], an address of page [n] translates to the frame of its entry plus the
    offset, exactly when the page is mapped, and user mode may read (write)
    there exactly when the entry was made with [PAGE_USER] (and
    [PAGE_READ_WRITE]). *)
Theorem translation_spec A p d T V n k phys a r :
  space A p d T V -> pageno n -> 0 <= k < PAGE_SIZE -> aligned phys -> perms a r ->
  (V !! n = None -> translate (pmem p) d (n * PAGE_SIZE + k) = None) /\
  (V !! n = Some (pte phys a r) ->
     translate (pmem p) d (n * PAGE_SIZE + k) = Some (phys + k) /\
     user_may (pmem p) d (n * PAGE_SIZE + k) false = bool_decide (a = PAGE_USER) /\
     user_may (pmem p) d (n * PAGE_SIZE + k) true =
       bool_decide (a = PAGE_USER /\ r = PAGE_READ_WRITE)).
Proof.
  intros Hsp Hn Hk Hph Har. unfold translate, user_may. rewrite (walk_spec A p d T V n k) by done.
  split; intros HV; rewrite HV; [done|].
  destruct (pd_ent (sp_dir Hsp) HV) as [_ (t & Ht & _)]. rewrite Ht, pte_phys by done. split; [done|].
  assert (frame t) as Htm by (by destruct (pd_tbl (sp_dir Hsp) Ht) as (_ & ? & _)).
  assert (Hdir : perms PAGE_USER PAGE_READ_WRITE) by (split; by left).
  assert (Hm : forall g, 0 <= g < 2 ^ 12 -> 
    Z.land (Z.land (pte t PAGE_USER PAGE_READ_WRITE) (pte phys a r)) g =
    Z.land (Z.lor PAGE_PRESENT (Z.lor PAGE_USER PAGE_READ_WRITE))
      (Z.land (Z.lor PAGE_PRESENT (Z.lor a r)) g)).
  { intros g Hg. rewrite <- Z.land_assoc, (pte_low phys a r g), (pte_low t _ _ (Z.land _ g)); try done.
    - by apply frame_aligned.
    - apply land_small; [|done]. by destruct Har as [[-> | ->] [-> | ->]]. }
  rewrite !Hm by done. destruct Har as [[-> | ->] [-> | ->]]; done.
Qed.

Lemma translation_spec_witness :
  translate (pmem dir0) PAGE_START (5 * PAGE_SIZE + 4) = None.
Proof.
  apply (translation_spec {[PAGE_START]} dir0 PAGE_START ∅ ∅ 5 4 0 PAGE_USER PAGE_READ_ONLY).
  - apply dir0_space.
  - split; done.
  - done.
  - split; [split|]; done.
  - split; [by left | by right].
  - reflexivity.
Defined.

(** The pages an extension added are backed by its frames. *)
Lemma extended_backed A p d T V b n p' : extended A p d T V b n p' ->
  exists A' T' V' L, space A' p' d T' V' /\ grows d A p T A' p' T' /\ Z.of_nat (length L) = n /\
    backed A' d T' V' b L /\ (forall x, x ∈ L -> x ∉ A) /\ A' = A ∪ foot d T' ∪ list_to_set L.
Proof.
  intros (A' & T' & V' & L & Hsp & Hg & HL & HV & [Hnd Hnew] & _ & HA'). exists A', T', V', L.
  repeat (split; [done|]). split; [split|split; [|done]].
  - done.
  - intros i a Hi. rewrite HV. replace (b + i - b) with i by lia. by rewrite Hi.
  - intros a Ha. by destruct (Hnew a Ha) as (_ & ? & ? & _).
  - intros x Hx. by destruct (Hnew x Hx).
Qed.

(** What start_process and kill_process do to the page memory: make a
    directory, identity map the kernel, add [n] pages at page [b], later unmap
    these pages and free the directory. *)
Definition address_space_cycle (end_ a r b n : Z) : M pages unit :=
  d <- alloc_page;
  identity_map d 0 end_ a r;;
  map_new_pages d (b * PAGE_SIZE) n;;
  for_pages (b * PAGE_SIZE) ((b + n) * PAGE_SIZE) (unmap_and_free_page d);;
  free_page_dir d.

(** Going back: what is left after the pages and the directory are freed. *)
Lemma teardown_set (A : gset Z) d p1 A2 p2 T2 A3 p3 T3 (L : list Z) :
  d ∉ A -> grows d ({[d]} ∪ A) p1 ∅ A2 p2 T2 -> A2 = {[d]} ∪ A ∪ foot d T2 ->
  grows d A2 p2 T2 A3 p3 T3 -> A3 = A2 ∪ foot d T3 ∪ list_to_set L -> (forall x, x ∈ L -> x ∉ A2) ->
  (forall x, x ∈ A -> x ∉ foot d T3) /\ A3 ∖ list_to_set L ∖ foot d T3 = A.
Proof.
  intros Hd Hg2 HA2 Hg3 HA3 HL. pose proof (grows_trans _ _ _ _ _ _ _ _ _ _ Hg2 Hg3) as Hg.
  assert (HAF : forall x, x ∈ A -> x ∉ foot d T3).
  { intros x Hx Hf. destruct (decide (x = d)) as [-> |Hxd]; [done|].
    apply (gr_new Hg x); [|set_solver]. apply elem_of_difference. split; [done|].
    intros [-> |[i Hi]]%elem_of_foot; [done | by rewrite lookup_empty in Hi]. }
  split; [done|]. apply leibniz_equiv. intros x.
  pose proof (foot_mono d _ _ (gr_tbl Hg3) x) as Hmono.
  pose proof (proj2 (elem_of_foot d T3 d) (or_introl eq_refl)) as Hdf.
  specialize (HL x). specialize (HAF x).
  rewrite HA3, HA2 in *. rewrite !elem_of_difference, !elem_of_union, elem_of_list_to_set, elem_of_singleton in *.
  split; [intros [[[[[[-> |]|]|]|] ?] ?]; tauto|]. tauto.
Qed.

(** C7. No frame leaks: building an address space and taking it down again
    brings the allocator back to a state where exactly the same frames are
    handed out, with their contents unchanged. *)
Theorem address_space_no_leak A p end_ a r b n :
  pinv A p -> perms a r -> 0 <= end_ <= 2 ^ 32 - PAGE_SIZE ->
  0 <= b -> 0 <= n -> (b + n) * PAGE_SIZE <= 2 ^ 32 - PAGE_SIZE ->
  room A (1 + (end_ + PAGE_SIZE - 1) / PAGE_SIZE + 2 * n) ->
  exists p', address_space_cycle end_ a r b n p = Ok tt p' /\
    pinv A p' /\ forall x, x ∈ A -> same_page (pmem p) (pmem p') x.
Proof.
  intros Hp Har He Hb Hn Hbn Hr.
  assert (Hdiv : 0 <= (end_ + PAGE_SIZE - 1) / PAGE_SIZE) by (apply Z.div_pos; unfold PAGE_SIZE; lia).
  enough (wp (address_space_cycle end_ a r b n)
    (fun _ p' => pinv A p' /\ forall x, x ∈ A -> same_page (pmem p) (pmem p') x) p) as H.
  { apply wp_ok in H as ([] & p' & H1 & H2). eauto. }
  unfold address_space_cycle. wp_step.
  eapply wp_mono; [apply alloc_page_wp; [done | unfold room in *; lia]|]. intros d p1 Hfr.
  pose proof (new_dir A p d p1 Hp Hfr) as Hsp1. destruct Hfr as (Hd & HdA & _ & _ & Hs1).
  assert (Hsz : size ({[d]} ∪ A) = S (size A)).
  { rewrite size_union by set_solver. by rewrite size_singleton. }
  wp_step. replace (identity_map d 0) with (identity_map d (0 * PAGE_SIZE)) by done.
  eapply wp_mono; [apply (identity_map_wp ({[d]} ∪ A) p1 d ∅ ∅ 0); try done; [lia | unfold room in *; rewrite Hsz; lia]|].
  intros [] p2 (A2 & T2 & V2 & Hsp2 & Hg2 & HA2 & Hsz2 & _). wp_step.
  eapply wp_mono; [apply (map_new_pages_wp A2 p2 d T2 V2); try done; unfold PAGE_SIZE, room in *; lia|].
  intros [] p3 Hext. destruct (extended_backed _ _ _ _ _ _ _ _ Hext) as
    (A3 & T3 & V3 & L & Hsp3 & Hg3 & HL & Hbk & HLA & HA3).
  destruct (teardown_set A d p1 A2 p2 T2 A3 p3 T3 L HdA Hg2 HA2 Hg3 HA3 HLA) as [HAF HA].
  assert (HAL : forall x, x ∈ A -> x ∉ L) by (intros x Hx Hl; apply (HLA x Hl), (gr_mono Hg2); set_solver).
  assert (HA3' : forall x, x ∈ A -> x ∈ A3) by (intros x Hx; apply (gr_mono Hg3), (gr_mono Hg2); set_solver).
  wp_step. rewrite <- HL. eapply wp_mono; [apply (unmap_range_wp A3 p3 d T3 V3 b L); try done; lia|].
  intros [] p4 (V4 & Hsp4 & _ & Hs4). replace (Z.to_nat (b + Z.of_nat (length L) - b)) with (length L) in Hsp4 by lia.
  rewrite firstn_all in Hsp4. eapply wp_mono; [by apply (free_page_dir_wp (A3 ∖ list_to_set L) p4 d T3 V4)|].
  intros [] p5 [Hp5 Hs5]. rewrite HA in Hp5. split; [done|]. intros x Hx.
  eapply same_page_trans; [by apply Hs1|].
  eapply same_page_trans; [apply (gr_frame (grows_trans _ _ _ _ _ _ _ _ _ _ Hg2 Hg3)); [set_solver|]|].
  { intros [-> |[i Hi]]%elem_of_foot; [done | by rewrite lookup_empty in Hi]. }
  eapply same_page_trans; [apply Hs4; auto|]. apply Hs5; [|auto].
  apply elem_of_difference. split; [auto|]. rewrite elem_of_list_to_set. auto.
Qed.

Lemma address_space_no_leak_witness :
  exists p', address_space_cycle (6 * MB) PAGE_SUPERVISOR PAGE_READ_ONLY
      (PROCESS_STACK_BASE / PAGE_SIZE - 16) 16 (initial_pages ∅) = Ok tt p' /\
    pinv ∅ p' /\ forall x, x ∈ (∅ : gset Z) -> same_page ∅ (pmem p') x.
Proof.
  apply (address_space_no_leak ∅ (initial_pages ∅)); try done.
  - apply initial_pinv.
  - split; by right.
Defined.
