(* ===== verification/Filesystem.v ===== *)
(** * The filesystem (source/filesystem.c, filesystem.h)

    The RAM disk is a sequence of bytes; a [directory_entry*] or [directory*]
    is an offset into it.  A read outside of the image is an undefined access
    ([None]).  Paths are C strings: the bytes from the pointer on. *)

From Stdlib Require Import Ascii.
From S2P Require Import Prelude Constants Libc.

Definition SLASH : Z := chr "/"%char.

(** ** Layout of the image (filesystem.h) *)

Definition fs_byte (fs : list Z) (off : Z) : option Z := zlookup fs off.
(** A little-endian word. *)
Definition fs_word (fs : list Z) (off : Z) : option Z :=
  b0 ← fs_byte fs off; b1 ← fs_byte fs (off + 1); b2 ← fs_byte fs (off + 2); b3 ← fs_byte fs (off + 3);
  Some (b0 + 2 ^ 8 * b1 + 2 ^ 16 * b2 + 2 ^ 24 * b3).

(** [struct directory_entry]: size, type, location, mode and mtime, then 256
    bytes of name; [struct directory]: a count, then the entries. *)
Definition SIZEOF_DIRECTORY_ENTRY : Z := 20 + MAX_FILENAME_LEN + 1.
Definition de_size (fs : list Z) (e : Z) : option Z := fs_word fs e.
Definition de_type (fs : list Z) (e : Z) : option Z := fs_word fs (e + 4).
Definition de_location (fs : list Z) (e : Z) : option Z := fs_word fs (e + 8).
Definition de_mode (fs : list Z) (e : Z) : option Z := fs_word fs (e + 12).
Definition de_mtime (fs : list Z) (e : Z) : option Z := fs_word fs (e + 16).
Definition de_name (fs : list Z) (e : Z) : list Z := drop (Z.to_nat (e + 20)) fs.
Definition dir_count (fs : list Z) (d : Z) : option Z := fs_word fs d.
Definition dir_entry (d i : Z) : Z := d + 4 + i * SIZEOF_DIRECTORY_ENTRY.

(** ** lookup *)

(** [n] entries are left, from entry [i] on; the result [Some None] is a
    returned NULL. *)
Fixpoint lookup_loop (n : nat) (fs : list Z) (dir i : Z) (name : list Z) (len : Z) : option (option Z) :=
  match n with
  | O => Some None
  | S n' =>
      l ← strlen (de_name fs (dir_entry dir i));
      found ← (if l =? len then
                 v ← strncmp (de_name fs (dir_entry dir i)) name (Z.to_nat len); Some (v =? 0)
               else Some false);
      if found : bool then Some (Some (dir_entry dir i)) else lookup_loop n' fs dir (i + 1) name len
  end.

Definition lookup (fs : list Z) (dir : Z) (name : list Z) (len : Z) : option (option Z) :=
  count ← dir_count fs dir; lookup_loop (Z.to_nat count) fs dir 0 name len.

(** ** get_directory_entry *)

(** [inl e] is a returned error code, [inr entry] a return value of 0 with
    [*entry] set. *)
Fixpoint path_loop (n : nat) (fs path : list Z) (len pos start dir entry : Z) : option (Z + Z) :=
  match n with
  | O => Some (inr entry)
  | S n' =>
      c ← zlookup path pos;
      if (c =? SLASH) || (pos =? len) then
        if start <? pos then
          found ← lookup fs dir (drop (Z.to_nat start) path) (pos - start);
          match found with
          | None => Some (inl (- ENOENT))
          | Some e =>
              ty ← de_type fs e;
              if ty =? TYPE_DIR then
                dir' ← de_location fs e;
                path_loop n' fs path len (pos + 1) (pos + 1) dir' e
              else if pos <? len then Some (inl (- ENOENT))
              else path_loop n' fs path len (pos + 1) (pos + 1) dir e
          end
        else path_loop n' fs path len (pos + 1) (pos + 1) dir entry
      else path_loop n' fs path len (pos + 1) start dir entry
  end.

Definition get_directory_entry (fs path : list Z) : option (Z + Z) :=
  dir ← de_location fs 0;
  len ← strlen path;
  path_loop (Z.to_nat (len + 1)) fs path len 0 0 dir 0.

(** ** relative_to_absolute *)

(** [while ((1 < abs_len) && ('/' != abs[abs_len-1])) abs[--abs_len] = 0]. *)
Fixpoint chop_loop (n : nat) (abs : list Z) (abs_len : Z) : option (list Z * Z) :=
  match n with
  | O => Some (abs, abs_len)
  | S n' =>
      if 1 <? abs_len then
        c ← zlookup abs (abs_len - 1);
        if negb (c =? SLASH) then
          abs' ← store_char abs (abs_len - 1) 0; chop_loop n' abs' (abs_len - 1)
        else Some (abs, abs_len)
      else Some (abs, abs_len)
  end.

(** [while ((abs_len < max-1) && (rpos < pos)) abs[abs_len++] = rel[rpos++]],
    where [component] is [&rel[rpos]] and [n] is [pos-rpos]. *)
Fixpoint append_loop (n : nat) (max : Z) (component abs : list Z) (abs_len : Z) : option (list Z * Z) :=
  match n with
  | O => Some (abs, abs_len)
  | S n' =>
      if abs_len <? max - 1 then
        match component with
        | [] => None
        | c :: component' =>
            abs' ← store_char abs abs_len c; append_loop n' max component' abs' (abs_len + 1)
        end
      else Some (abs, abs_len)
  end.

(** One component of the relative path. *)
Definition apply_component (max : Z) (component : list Z) (namelen : Z) (abs : list Z) (abs_len : Z) :
    option (list Z * Z) :=
  dot ← (if namelen =? 1 then v ← strncmp component (cstr ".") (Z.to_nat namelen); Some (v =? 0) else Some false);
  if dot : bool then Some (abs, abs_len)
  else
    dotdot ← (if namelen =? 2 then v ← strncmp component (cstr "..") (Z.to_nat namelen); Some (v =? 0) else Some false);
    if dotdot : bool then
      '(abs, abs_len) ← chop_loop (Z.to_nat abs_len) abs abs_len;
      if 1 <? abs_len then
        abs' ← store_char abs (abs_len - 1) 0; Some (abs', abs_len - 1)
      else Some (abs, abs_len)
    else
      '(abs, abs_len) ←
        (if abs_len <? max - 1 then
           c ← zlookup abs (abs_len - 1);
           if negb (c =? SLASH) then abs' ← store_char abs abs_len SLASH; Some (abs', abs_len + 1)
           else Some (abs, abs_len)
         else Some (abs, abs_len));
      '(abs, abs_len) ← append_loop (Z.to_nat namelen) max component abs abs_len;
      abs' ← store_char abs abs_len 0;
      Some (abs', abs_len).

Fixpoint components_loop (n : nat) (max : Z) (rel : list Z) (rel_len pos start : Z) (abs : list Z) (abs_len : Z) :
    option (list Z) :=
  match n with
  | O => Some abs
  | S n' =>
      c ← zlookup rel pos;
      if (c =? SLASH) || (pos =? rel_len) then
        '(abs, abs_len) ← (if start <? pos
                           then apply_component max (drop (Z.to_nat start) rel) (pos - start) abs abs_len
                           else Some (abs, abs_len));
        components_loop n' max rel rel_len (pos + 1) (pos + 1) abs abs_len
      else components_loop n' max rel rel_len (pos + 1) start abs abs_len
  end.

(** [abs] is the output array before the call; the result is the array
    after it. *)
Definition relative_to_absolute (abs base rel : list Z) (max : Z) : option (list Z) :=
  c ← zlookup rel 0;
  '(abs, _) ← (if c =? SLASH then snprintf abs max (cstr "/") []
               else snprintf abs max (cstr "%s") [AStr base]);
  rel_len ← strlen rel;
  abs_len ← strlen abs;
  components_loop (Z.to_nat (rel_len + 1)) max rel rel_len 0 0 abs abs_len.
