(* ===== verification/FilesystemProofs.v ===== *)
(** * The filesystem: theorems

    Paths as sequences of names.  get_directory_entry is a walk along the
    names of a path through the directories of the image, and
    relative_to_absolute computes with sequences of names: "." leaves the
    current directory alone, ".." drops its last name, any other name is
    added. *)

From Stdlib Require Import Ascii.
From S2P Require Import Prelude Constants Libc LibcProofs PrintProofs Filesystem.

(** ** Paths *)

(** The parts between the slashes of a path, empty ones included; [cur] is
    the part that has been read so far. *)
Fixpoint parts (cur path : list Z) : list (list Z) :=
  match path with
  | [] => [cur]
  | c :: path' => if c =? SLASH then cur :: parts [] path' else parts (cur ++ [c]) path'
  end.

(** A name: not empty, no slash. *)
Definition name (c : list Z) : Prop := c <> [] /\ no_nul c /\ Forall (fun x => x <> SLASH) c.

(** The canonical absolute path of a sequence of names. *)
Definition join (cs : list (list Z)) : list Z :=
  match cs with [] => [SLASH] | _ => cs ≫= (fun c => SLASH :: c) end.

Lemma parts_props cur path : no_nul cur -> Forall (fun x => x <> SLASH) cur -> no_nul path ->
  Forall (fun c => no_nul c /\ Forall (fun x => x <> SLASH) c) (parts cur path).
Proof.
  revert cur. induction path as [|c path IH]; intros cur H1 H2 H3; simpl; [by repeat constructor|].
  apply no_nul_cons in H3 as [Hc H3]. destruct (Z.eqb_spec c SLASH).
  - constructor; [done|]. apply IH; [constructor | constructor | done].
  - apply IH; [apply Forall_app; split; [done | by apply Forall_singleton] | apply Forall_app; split; [done | by apply Forall_singleton] | done].
Qed.

(** ** Indexing a string by position *)

Lemma zlookup_middle {A} (a : list A) x b : zlookup (a ++ x :: b) (Z.of_nat (length a)) = Some x.
Proof.
  unfold zlookup. destruct (Z.ltb_spec (Z.of_nat (length a)) 0); [lia|].
  by rewrite Nat2Z.id, list_lookup_middle.
Qed.
Lemma drop_pre (a b : list Z) : drop (Z.to_nat (Z.of_nat (length a))) (a ++ b) = b.
Proof. by rewrite Nat2Z.id, drop_app_length. Qed.

(** ** relative_to_absolute *)

Definition dot : list Z := bytes ".".
Definition dotdot : list Z := bytes "..".

(** What one part of the relative path does to the current names. *)
Definition step (cs : list (list Z)) (c : list Z) : list (list Z) :=
  if decide (c = [] \/ c = dot) then cs
  else if decide (c = dotdot) then removelast cs
  else cs ++ [c].

(** The array holds the string [s]. *)
Definition holds (max : Z) (abs s : list Z) : Prop :=
  no_nul s /\ Z.of_nat (length abs) = max /\ exists rest, abs = s ++ 0 :: rest.

Lemma strncmp_eqb (n : nat) s1 s2 t1 t2 : length s1 = n -> length s2 = n -> no_nul s1 -> no_nul s2 ->
  Forall is_byte s1 -> Forall is_byte s2 ->
  exists v, strncmp (s1 ++ t1) (s2 ++ t2) n = Some v /\ (v =? 0) = bool_decide (s1 = s2).
Proof.
  revert s1 s2. induction n as [|n IH]; intros [|a s1] [|b s2] L1 L2 H1 H2 B1 B2; simpl in *; try lia.
  - destruct t1, t2; by exists 0.
  - apply no_nul_cons in H1 as [Ha H1]. apply no_nul_cons in H2 as [Hb H2].
    apply list.Forall_cons in B1 as [Ba B1]. apply list.Forall_cons in B2 as [Bb B2].
    rewrite !truthy_true by done. simpl. destruct (Z.eqb_spec a b) as [-> |Hab]; simpl.
    + destruct (IH s1 s2) as (v & Hv & Hz); [lia | lia | done | done | done | done |]. exists v. split; [done|].
      rewrite Hz. apply bool_decide_ext. split; [by intros -> | by intros [= ?]].
    + eexists. split; [done|]. rewrite bool_decide_eq_false_2 by congruence. b2p.
      intros H. apply Hab, s8_inj; [done | done | lia].
Qed.

Lemma join_snoc cs c : join (cs ++ [c]) = (if decide (cs = []) then [] else join cs) ++ SLASH :: c.
Proof.
  destruct cs as [|x cs]; [simpl; by rewrite app_nil_r|].
  rewrite decide_False by done. unfold join. change ((x :: cs) ++ [c]) with (x :: (cs ++ [c])). cbv iota.
  change (x :: cs ++ [c]) with ((x :: cs) ++ [c]). rewrite bind_app. f_equal. simpl. by rewrite app_nil_r.
Qed.

Lemma join_last cs : join cs <> [] /\ (cs = [] \/ exists a x, join cs = a ++ [x] /\
  (Forall name cs -> x <> SLASH)).
Proof.
  destruct (decide (cs = [])) as [-> |Hne]; [by split; [|left]|].
  destruct (exists_last Hne) as (cs' & c & ->). rewrite join_snoc. split; [by destruct (if decide _ then _ else _)|].
  right. destruct (decide (c = [])) as [-> |Hc].
  - eexists _, _. split; [done|]. intros [_ Hn]%Forall_app. apply list.Forall_cons in Hn as [(? & _) _]. done.
  - destruct (exists_last Hc) as (c' & x & ->). eexists (_ ++ SLASH :: c'), x. split; [by rewrite <- app_assoc|].
    intros [_ Hn]%Forall_app. apply list.Forall_cons in Hn as [(_ & _ & Hs) _].
    apply Forall_app in Hs as [_ Hs]. by apply list.Forall_cons in Hs as [? _].
Qed.

Lemma holds_lookup_last max abs s x : holds max abs (s ++ [x]) ->
  zlookup abs (Z.of_nat (length (s ++ [x])) - 1) = Some x.
Proof.
  intros (_ & _ & rest & ->). rewrite length_app. simpl.
  replace (Z.of_nat (length s + 1) - 1) with (Z.of_nat (length s)) by lia.
  rewrite <- app_assoc. apply zlookup_middle.
Qed.

(** Storing a terminator one position earlier drops the last character. *)
Lemma holds_chop max abs s x : holds max abs (s ++ [x]) ->
  exists abs', store_char abs (Z.of_nat (length (s ++ [x])) - 1) 0 = Some abs' /\ holds max abs' s.
Proof.
  intros (Hn & Hm & rest & ->). rewrite length_app in *. simpl in *.
  replace (Z.of_nat (length s + 1) - 1) with (Z.of_nat (length s)) by lia.
  exists (s ++ 0 :: 0 :: rest). split.
  - rewrite store_char_ok by (rewrite !length_app; simpl; lia). f_equal.
    eapply zinsert_split; [by rewrite <- app_assoc | done].
  - split; [by apply Forall_app in Hn as [? _]|]. split; [rewrite <- Hm, !length_app; simpl; lia|]. eauto.
Qed.

(** Storing a character over the terminator; a new terminator follows. *)
Definition open (max : Z) (abs s : list Z) : Prop :=
  no_nul s /\ Z.of_nat (length abs) = max /\ exists rest, abs = s ++ rest.
Lemma open_add max abs s c : open max abs s -> c <> 0 -> Z.of_nat (length s) < max ->
  exists abs', store_char abs (Z.of_nat (length s)) c = Some abs' /\ open max abs' (s ++ [c]).
Proof.
  intros (Hn & Hm & rest & ->) Hc Hlt. rewrite length_app in Hm. destruct rest as [|r rest]; [simpl in *; lia|].
  exists (s ++ c :: rest). split.
  - rewrite store_char_ok by (rewrite !length_app; simpl; lia). f_equal. by eapply zinsert_split.
  - split; [apply Forall_app; split; [done | by apply Forall_singleton]|].
    split; [rewrite <- Hm, !length_app; done|]. exists rest. by rewrite <- app_assoc.
Qed.
Lemma open_close max abs s : open max abs s -> Z.of_nat (length s) < max ->
  exists abs', store_char abs (Z.of_nat (length s)) 0 = Some abs' /\ holds max abs' s.
Proof.
  intros (Hn & Hm & rest & ->) Hlt. rewrite length_app in Hm. destruct rest as [|r rest]; [simpl in *; lia|].
  exists (s ++ 0 :: rest). split.
  - rewrite store_char_ok by (rewrite !length_app; simpl; lia). f_equal. by eapply zinsert_split.
  - split; [done|]. split; [rewrite <- Hm, !length_app; done|]. eauto.
Qed.

Lemma append_loop_spec max c : forall tail abs s, open max abs s -> no_nul c ->
  Z.of_nat (length s + length c) < max ->
  exists abs', append_loop (length c) max (c ++ tail) abs (Z.of_nat (length s)) =
    Some (abs', Z.of_nat (length (s ++ c))) /\ open max abs' (s ++ c).
Proof.
  induction c as [|x c IH]; intros tail abs s Ho Hn Hlt; simpl in *.
  - exists abs. by rewrite app_nil_r.
  - apply no_nul_cons in Hn as [Hx Hn]. destruct (Z.ltb_spec (Z.of_nat (length s)) (max - 1)); [|lia].
    destruct (open_add max abs s x Ho Hx) as (abs' & -> & Ho'); [lia|]. simpl.
    destruct (IH tail abs' (s ++ [x]) Ho' Hn) as (abs2 & Heq & Ho2); [rewrite length_app; simpl; lia|].
    exists abs2. rewrite length_app in Heq. simpl in Heq.
    replace (Z.of_nat (length s) + 1) with (Z.of_nat (length s + 1)) by lia. rewrite Heq.
    rewrite <- app_assoc in *. done.
Qed.

Lemma chop_loop_spec max c : forall abs s, holds max abs (s ++ c) -> (1 <= length s)%nat ->
  s <> [] -> Forall (fun x => x <> SLASH) c -> (exists s0, s = s0 ++ [SLASH]) -> forall k,
  exists abs', chop_loop (length c + S k) abs (Z.of_nat (length (s ++ c))) = Some (abs', Z.of_nat (length s)) /\
    holds max abs' s.
Proof.
  induction c as [|x c IH] using rev_ind; intros abs s Hh Hl Hs Hc [s0 Hs0] k.
  - rewrite app_nil_r in *. exists abs. simpl. destruct (Z.ltb_spec 1 (Z.of_nat (length s))).
    + subst s. rewrite (holds_lookup_last _ _ _ _ Hh). simpl. done.
    + by replace (Z.of_nat (length s)) with 1 by lia.
  - apply Forall_app in Hc as [Hc Hx]. apply list.Forall_cons in Hx as [Hx _].
    rewrite app_assoc in *. rewrite length_app. simpl.
    replace (length c + 1 + S k)%nat with (S (length c + S k)) by lia. cbn [chop_loop].
    destruct (Z.ltb_spec 1 (Z.of_nat (length ((s ++ c) ++ [x])))); [|rewrite !length_app in *; simpl in *; lia].
    rewrite (holds_lookup_last _ _ _ _ Hh). cbn [mbind option_bind].
    destruct (Z.eqb_spec x SLASH); [done|]. cbn [negb].
    destruct (holds_chop _ _ _ _ Hh) as (abs' & -> & Hh'). cbn [mbind option_bind].
    destruct (IH abs' s Hh' Hl Hs Hc (ex_intro _ s0 Hs0) k) as (abs2 & Heq & H2). exists abs2. split; [|done].
    rewrite <- Heq. f_equal. rewrite (length_app (s ++ c)). simpl. lia.
Qed.

Lemma holds_open max abs s : holds max abs s -> open max abs s.
Proof. intros (H1 & H2 & rest & H3). split; [done|]. split; [done|]. eauto. Qed.

(** The two comparisons with "." and "..". *)
Lemma is_special (n : nat) c tail d : length d = n -> no_nul c -> no_nul d ->
  Forall is_byte c -> Forall is_byte d ->
  (if Z.of_nat (length c) =? Z.of_nat n
   then v ← strncmp (c ++ tail) (d ++ [0]) (Z.to_nat (Z.of_nat (length c))); Some (v =? 0)
   else Some false) = Some (bool_decide (c = d)).
Proof.
  intros Hd Hc1 Hd1 Hc2 Hd2. destruct (Z.eqb_spec (Z.of_nat (length c)) (Z.of_nat n)) as [Heq|Hne].
  - destruct (strncmp_eqb n c d tail [0]) as (v & Hv & Hz); try done; [lia|].
    rewrite Nat2Z.id. replace (length c) with n by lia. rewrite Hv. simpl. by rewrite Hz.
  - rewrite bool_decide_eq_false_2; [done|]. intros ->. lia.
Qed.

Definition good_name (c : list Z) : Prop := name c /\ Forall is_byte c.

Lemma dotdot_spec max abs cs : holds max abs (join cs) -> Forall name cs ->
  exists abs', ('(abs, abs_len) ← chop_loop (length (join cs)) abs (Z.of_nat (length (join cs)));
     if 1 <? abs_len then abs' ← store_char abs (abs_len - 1) 0; Some (abs', abs_len - 1) else Some (abs, abs_len)) =
    Some (abs', Z.of_nat (length (join (removelast cs)))) /\ holds max abs' (join (removelast cs)).
Proof.
  intros Hh Hn. destruct (decide (cs = [])) as [-> |Hne]; [by exists abs|].
  destruct (exists_last Hne) as (cs' & c & ->). rewrite removelast_last.
  apply Forall_app in Hn as [Hn' Hc]. apply list.Forall_cons in Hc as [(Hc0 & Hcn & Hcs) _].
  rewrite join_snoc in *. set (J := if decide (cs' = []) then [] else join cs') in *.
  replace (J ++ SLASH :: c) with ((J ++ [SLASH]) ++ c) in * by (by rewrite <- app_assoc).
  destruct (chop_loop_spec max c abs (J ++ [SLASH]) Hh) with (k := length J) as (abs1 & He & Hh1).
  - rewrite length_app. simpl. lia.
  - by destruct J.
  - done.
  - by exists J.
  - replace (length c + S (length J))%nat with (length ((J ++ [SLASH]) ++ c)) in He by (rewrite !length_app; simpl; lia).
    rewrite He. cbn [mbind option_bind]. unfold J in *. case_decide as Hcs'.
    + subst cs'. exists abs1. done.
    + destruct (join_last cs') as [Hj _].
      destruct (Z.ltb_spec 1 (Z.of_nat (length (join cs' ++ [SLASH])))) as [_|Hle].
      2: { rewrite length_app in Hle. simpl in Hle. destruct (join cs'); [done | simpl in Hle; lia]. }
      destruct (holds_chop _ _ _ _ Hh1) as (abs2 & -> & Hh2). exists abs2. cbn [mbind option_bind].
      split; [|done]. do 2 f_equal. rewrite length_app. simpl. lia.
Qed.

Lemma push_spec max abs cs c tail : holds max abs (join cs) -> Forall name cs -> no_nul c ->
  Z.of_nat (length (join cs)) + 1 + Z.of_nat (length c) < max ->
  exists abs', ('(abs, abs_len) ←
      (if Z.of_nat (length (join cs)) <? max - 1 then
         x ← zlookup abs (Z.of_nat (length (join cs)) - 1);
         if negb (x =? SLASH) then abs' ← store_char abs (Z.of_nat (length (join cs))) SLASH;
           Some (abs', Z.of_nat (length (join cs)) + 1)
         else Some (abs, Z.of_nat (length (join cs)))
       else Some (abs, Z.of_nat (length (join cs))));
     '(abs, abs_len) ← append_loop (length c) max (c ++ tail) abs abs_len;
     abs' ← store_char abs abs_len 0; Some (abs', abs_len)) =
    Some (abs', Z.of_nat (length (join (cs ++ [c])))) /\ holds max abs' (join (cs ++ [c])).
Proof.
  intros Hh Hn Hc Hlt. rewrite join_snoc.
  destruct (Z.ltb_spec (Z.of_nat (length (join cs))) (max - 1)) as [_|]; [|lia].
  set (P := (if decide (cs = []) then [] else join cs) ++ [SLASH]).
  assert (Hstep : exists abs1, (x ← zlookup abs (Z.of_nat (length (join cs)) - 1);
         if negb (x =? SLASH) then abs' ← store_char abs (Z.of_nat (length (join cs))) SLASH;
           Some (abs', Z.of_nat (length (join cs)) + 1)
         else Some (abs, Z.of_nat (length (join cs)))) = Some (abs1, Z.of_nat (length P)) /\ open max abs1 P).
  { unfold P. case_decide as Hcs.
    - subst cs. exists abs. pose proof (holds_lookup_last max abs [] SLASH Hh) as Hl. simpl in Hl |- *.
      rewrite Hl. simpl. split; [done | by apply holds_open].
    - destruct (join_last cs) as [_ [|(a & x & Hj & Hx)]]; [done|]. specialize (Hx Hn). rewrite Hj in *.
      rewrite (holds_lookup_last _ _ _ _ Hh). cbn [mbind option_bind]. destruct (Z.eqb_spec x SLASH); [done|]. cbn [negb].
      destruct (open_add max abs (a ++ [x]) SLASH) as (abs1 & -> & Ho); [by apply holds_open | done | lia |].
      exists abs1. cbn [mbind option_bind]. split; [|done]. do 2 f_equal. rewrite (length_app (a ++ [x])). simpl. lia. }
  destruct Hstep as (abs1 & -> & Ho1). cbn [mbind option_bind].
  assert (HP : Z.of_nat (length P + length c) < max).
  { unfold P. rewrite length_app. simpl. case_decide; simpl; lia. }
  destruct (append_loop_spec max c tail abs1 P Ho1 Hc HP) as (abs2 & -> & Ho2). cbn [mbind option_bind].
  destruct (open_close max abs2 (P ++ c) Ho2) as (abs3 & -> & Hh3); [rewrite length_app; lia|].
  cbn [mbind option_bind]. exists abs3. unfold P in *. rewrite <- app_assoc in *. done.
Qed.

Lemma apply_component_spec max abs cs c tail : holds max abs (join cs) -> Forall name cs -> good_name c ->
  Z.of_nat (length (join cs)) + 1 + Z.of_nat (length c) < max ->
  exists abs', apply_component max (c ++ tail) (Z.of_nat (length c)) abs (Z.of_nat (length (join cs))) =
    Some (abs', Z.of_nat (length (join (step cs c)))) /\ holds max abs' (join (step cs c)).
Proof.
  intros Hh Hn [(Hc0 & Hcn & Hcs) Hcb] Hlt. unfold apply_component, step.
  pose proof (is_special 1 c tail dot eq_refl Hcn) as H1. pose proof (is_special 2 c tail dotdot eq_refl Hcn) as H2.
  change (Z.of_nat 1) with 1 in H1. change (dot ++ [0]) with (cstr ".") in H1.
  change (Z.of_nat 2) with 2 in H2. change (dotdot ++ [0]) with (cstr "..") in H2.
  rewrite H1 by (done || by_bytes). cbn [mbind option_bind]. destruct (decide (c = dot)) as [Hd|Hd].
  { rewrite bool_decide_eq_true_2 by done. rewrite decide_True by (by right). by exists abs. }
  rewrite bool_decide_eq_false_2 by done. rewrite (decide_False (P := _ \/ _)) by (by intros [?|?]).
  rewrite H2 by (done || by_bytes). cbn [mbind option_bind]. destruct (decide (c = dotdot)) as [Hdd|Hdd].
  - rewrite bool_decide_eq_true_2 by done. rewrite Nat2Z.id. by apply dotdot_spec.
  - rewrite bool_decide_eq_false_2 by done. rewrite Nat2Z.id. by apply push_spec.
Qed.

Lemma step_name cs c : Forall name cs -> c = [] \/ name c -> Forall name (step cs c).
Proof.
  intros Hn Hc. unfold step. case_decide; [done|]. case_decide as Hdd.
  - destruct (decide (cs = [])) as [-> |Hne]; [constructor|]. destruct (exists_last Hne) as (cs' & x & ->).
    rewrite removelast_last. by apply Forall_app in Hn as [? _].
  - apply Forall_app. split; [done|]. constructor; [|constructor]. destruct Hc; [tauto | done].
Qed.
Lemma step_length cs c : (length (join (step cs c)) <= length (join cs) + 1 + length c)%nat.
Proof.
  unfold step. case_decide; [lia|]. case_decide as Hdd.
  - destruct (decide (cs = [])) as [-> |Hne]; [simpl; lia|]. destruct (exists_last Hne) as (cs' & x & ->).
    rewrite removelast_last, join_snoc, length_app. destruct (decide (cs' = [])) as [-> |]; simpl; lia.
  - rewrite join_snoc, length_app. destruct (decide (cs = [])); simpl; lia.
Qed.

(** What happens at the end of a part. *)
Lemma part_spec max rel pre cur t abs cs :
  rel = pre ++ cur ++ t -> no_nul cur -> Forall (fun x => x <> SLASH) cur -> Forall is_byte cur ->
  holds max abs (join cs) -> Forall name cs -> Z.of_nat (length (join cs) + 1 + length cur) < max ->
  exists abs', (if Z.of_nat (length pre) <? Z.of_nat (length (pre ++ cur))
    then apply_component max (drop (Z.to_nat (Z.of_nat (length pre))) rel)
           (Z.of_nat (length (pre ++ cur)) - Z.of_nat (length pre)) abs (Z.of_nat (length (join cs)))
    else Some (abs, Z.of_nat (length (join cs)))) = Some (abs', Z.of_nat (length (join (step cs cur)))) /\
    holds max abs' (join (step cs cur)).
Proof.
  intros Hrel Hcn Hcs Hcb Hh Hns Hlt. destruct (decide (cur = [])) as [-> |Hne].
  - rewrite app_nil_r, Z.ltb_irrefl. exists abs. unfold step. by rewrite decide_True by (by left).
  - destruct (Z.ltb_spec (Z.of_nat (length pre)) (Z.of_nat (length (pre ++ cur)))) as [_|Hle].
    2: { rewrite length_app in Hle. destruct cur; [done | simpl in Hle; lia]. }
    rewrite Hrel, drop_pre.
    replace (Z.of_nat (length (pre ++ cur)) - Z.of_nat (length pre)) with (Z.of_nat (length cur)) by (rewrite length_app; lia).
    apply apply_component_spec; try done. lia.
Qed.

(** The whole loop, from the part [cur] that is being read. *)
Lemma components_loop_spec max rel tail path : forall pre cur abs cs,
  rel = pre ++ cur ++ path ++ 0 :: tail ->
  no_nul path -> no_nul cur -> Forall (fun x => x <> SLASH) cur -> Forall is_byte cur -> Forall is_byte path ->
  holds max abs (join cs) -> Forall name cs ->
  Z.of_nat (length (join cs) + 1 + length cur + length path) < max ->
  exists abs', components_loop (S (length path)) max rel (Z.of_nat (length (pre ++ cur ++ path)))
      (Z.of_nat (length (pre ++ cur))) (Z.of_nat (length pre)) abs (Z.of_nat (length (join cs))) = Some abs' /\
    holds max abs' (join (fold_left step (parts cur path) cs)).
Proof.
  induction path as [|c path IH]; intros pre cur abs cs Hrel Hp Hcn Hcs Hcb Hpb Hh Hns Hlt; cbn [components_loop];
    (destruct (part_spec max rel pre cur _ abs cs Hrel) as (abs1 & Hpart & Hh1); try done; [simpl in Hlt; lia|]).
  - assert (Hz : zlookup rel (Z.of_nat (length (pre ++ cur))) = Some 0).
    { rewrite Hrel, app_assoc. apply zlookup_middle. }
    rewrite Hz. cbn [mbind option_bind]. rewrite app_nil_r, Z.eqb_refl, orb_true_r, Hpart. by exists abs1.
  - apply no_nul_cons in Hp as [Hc Hp]. apply list.Forall_cons in Hpb as [Hcb' Hpb].
    assert (Hz : zlookup rel (Z.of_nat (length (pre ++ cur))) = Some c).
    { rewrite Hrel, app_assoc. apply zlookup_middle. }
    rewrite Hz. cbn [mbind option_bind].
    destruct (Z.eqb_spec (Z.of_nat (length (pre ++ cur))) (Z.of_nat (length (pre ++ cur ++ c :: path)))) as [He|_].
    { rewrite !length_app in He. simpl in He. lia. }
    rewrite orb_false_r. cbn [parts]. destruct (Z.eqb_spec c SLASH) as [-> |Hcs'].
    + rewrite Hpart. cbn [mbind option_bind].
      pose proof (step_length cs cur) as Hsl. simpl in Hlt.
      destruct (IH (pre ++ cur ++ [SLASH]) [] abs1 (step cs cur)) as (abs2 & He & Hh2); try done; try (by constructor).
      * rewrite Hrel. simpl. by rewrite <- !app_assoc.
      * apply step_name; [done|]. destruct (decide (cur = [])); [by left | by right].
      * simpl. lia.
      * exists abs2. split; [|done]. rewrite <- He. f_equal; rewrite !length_app; cbn [length]; lia.
    + destruct (IH pre (cur ++ [c]) abs cs) as (abs2 & He & Hh2); try done.
      * rewrite Hrel. by rewrite <- !app_assoc.
      * apply Forall_app; split; [done | by apply Forall_singleton].
      * apply Forall_app; split; [done | by apply Forall_singleton].
      * apply Forall_app; split; [done | by apply Forall_singleton].
      * rewrite length_app. simpl in *. lia.
      * exists abs2. split; [|done]. rewrite <- He. f_equal; rewrite !length_app; cbn [length]; lia.
Qed.

Lemma render_percent_s s o : string_of s = Some o -> Z.of_nat (length o) < 2 ^ 31 ->
  render (S (length (cstr "%s"))) (cstr "%s") [AStr s] = Some o.
Proof.
  intros Hs Hl. change (S (length (cstr "%s"))) with 4%nat. change (cstr "%s") with (chr "%"%char :: chr "s"%char :: [0]).
  rewrite (render_str _ _ _ _ o) by done. change (render 3 [0] []) with (Some (@nil Z)). cbn [mbind option_bind]. by rewrite app_nil_r.
Qed.

(** relative_to_absolute computes with names: from the canonical path of
    the directory [cs] (or from the root, for a path that starts with a
    slash) it applies the parts of [rel] one after the other, and leaves the
    canonical path of the result in the output array, provided that the two
    paths together fit. *)
Theorem relative_to_absolute_correct abs cs rel r1 r2 max :
  Forall good_name cs -> no_nul rel -> Forall is_byte rel -> Z.of_nat (length abs) = max -> max < 2 ^ 31 ->
  Z.of_nat (length (join cs) + 1 + length rel) < max ->
  exists abs', relative_to_absolute abs (join cs ++ 0 :: r1) (rel ++ 0 :: r2) max = Some abs' /\
    holds max abs' (join (fold_left step (parts [] rel) (if decide (head rel = Some SLASH) then [] else cs))).
Proof.
  intros Hcs Hrn Hrb Hm Hmax Hlt.
  assert (Hns : Forall name cs) by (rewrite Forall_forall in Hcs |- *; intros x Hx; by apply Hcs).
  unfold relative_to_absolute.
  assert (H0 : exists c, zlookup (rel ++ 0 :: r2) 0 = Some c /\ (c =? SLASH) = bool_decide (head rel = Some SLASH)).
  { destruct rel as [|c rel]; [by exists 0|]. exists c. split; [done|]. simpl.
    destruct (Z.eqb_spec c SLASH) as [-> |]; by rewrite ?bool_decide_eq_true_2, ?bool_decide_eq_false_2 by congruence. }
  destruct H0 as (c & -> & Hc). cbn [mbind option_bind]. rewrite Hc.
  remember (if decide (head rel = Some SLASH) then [] else cs) as start eqn:Hst.
  assert (Hcase : (head rel = Some SLASH /\ start = []) \/ (head rel <> Some SLASH /\ start = cs)).
  { rewrite Hst. destruct (decide (head rel = Some SLASH)); auto. }
  clear Hst.
  assert (Hjn : no_nul (join cs)).
  { destruct cs as [|x cs]; [by_bytes|]. unfold join. apply Forall_bind, Forall_forall. intros y Hy.
    rewrite Forall_forall in Hcs. destruct (Hcs y Hy) as [(_ & Hyn & _) _]. by constructor. }
  assert (Hstart : Forall name start) by (destruct Hcase as [[_ ->]|[_ ->]]; [constructor | done]).
  assert (Hlen : Z.of_nat (length (join start) + 1 + length rel) < max).
  { destruct Hcase as [[_ ->]|[_ ->]]; [|done]. destruct (join_last cs) as [Hj _]. destruct (join cs); [done|]. simpl in *. lia. }
  assert (Hjs : no_nul (join start)) by (destruct Hcase as [[_ ->]|[_ ->]]; [by_bytes | done]).
  assert (Hinit : (if bool_decide (head rel = Some SLASH) then snprintf abs max (cstr "/") []
     else snprintf abs max (cstr "%s") [AStr (join cs ++ 0 :: r1)]) =
     Some (join start ++ 0 :: drop (S (length (join start))) abs, Z.of_nat (length (join start)))).
  { assert (Hpr : printed max (join start) abs = join start ++ 0 :: drop (S (length (join start))) abs).
    { unfold printed. destruct (Z.ltb_spec 0 max); [|lia].
      replace (length (join start) `min` Z.to_nat (max - 1))%nat with (length (join start)) by lia.
      by rewrite take_ge. }
    rewrite <- Hpr. unfold snprintf. destruct Hcase as [[Hd ->]|[Hd ->]].
    - rewrite bool_decide_eq_true_2 by done. apply vsnprintf_prints; [lia | done | done].
    - rewrite bool_decide_eq_false_2 by done. apply vsnprintf_prints; [lia | | lia].
      apply render_percent_s; [by apply string_of_app | lia]. }
  rewrite Hinit. cbn [mbind option_bind]. rewrite !strlen_spec by done. cbn [mbind option_bind].
  replace (Z.to_nat (Z.of_nat (length rel) + 1)) with (S (length rel)) by lia.
  destruct (components_loop_spec max (rel ++ 0 :: r2) r2 rel [] []
    (join start ++ 0 :: drop (S (length (join start))) abs) start) as (abs' & He & Hh); try done; try (by constructor).
  - split; [done|]. split; [|eauto]. rewrite length_app. simpl. rewrite length_drop. lia.
  - simpl. lia.
  - exists abs'. done.
Qed.

Lemma relative_to_absolute_correct_witness : exists abs',
  relative_to_absolute (replicate 40 7) (join [bytes "home"; bytes "peter"] ++ 0 :: []) (bytes "../cruz" ++ 0 :: []) 40 = Some abs' /\
  holds 40 abs' (join (fold_left step (parts [] (bytes "../cruz")) [bytes "home"; bytes "peter"])).
Proof.
  apply (relative_to_absolute_correct (replicate 40 7) [bytes "home"; bytes "peter"] (bytes "../cruz") [] [] 40).
  - repeat constructor; try done; by_bytes.
  - by_bytes.
  - by_bytes.
  - done.
  - done.
  - done.
Defined.

(** ** get_directory_entry *)

(** A directory as a list of names with the offsets of their entries. *)
Definition listing (fs : list Z) (d : Z) : option (list (list Z * Z)) :=
  count ← dir_count fs d;
  mapM (fun i => n ← string_of (de_name fs (dir_entry d i)); Some (n, dir_entry d i)) (seqZ 0 count).

(** The first entry with a given name. *)
Fixpoint assoc (c : list Z) (l : list (list Z * Z)) : option Z :=
  match l with
  | [] => None
  | (n, e) :: l' => if decide (n = c) then Some e else assoc c l'
  end.

(** The walk from directory [d] (whose entry is [e]) along the parts of a
    path. *)
Fixpoint resolve (fs : list Z) (d e : Z) (ps : list (list Z)) : option (Z + Z) :=
  match ps with
  | [] => Some (inr e)
  | c :: ps' =>
      if decide (c = []) then resolve fs d e ps'
      else
        l ← listing fs d;
        match assoc c l with
        | None => Some (inl (- ENOENT))
        | Some e' =>
            ty ← de_type fs e';
            if ty =? TYPE_DIR then d' ← de_location fs e'; resolve fs d' e' ps'
            else if decide (ps' = []) then Some (inr e') else Some (inl (- ENOENT))
        end
  end.

Lemma string_of_Some s o : string_of s = Some o -> no_nul o /\ exists r, s = o ++ 0 :: r.
Proof.
  revert o. induction s as [|c s IH]; intros o H; simpl in H; [done|]. unfold truthy in H.
  destruct (Z.eqb_spec c 0) as [-> |Hc]; simpl in H.
  - simplify_eq. split; [constructor|]. by exists s.
  - destruct (string_of s) as [o'|]; simpl in H; [|done]. simplify_eq.
    destruct (IH o' eq_refl) as (Hn & r & ->). split; [by constructor|]. by exists r.
Qed.

Lemma lookup_loop_spec fs d c tail n : forall i l,
  Forall is_byte fs -> no_nul c -> Forall is_byte c ->
  mapM (fun i => n ← string_of (de_name fs (dir_entry d i)); Some (n, dir_entry d i)) (seqZ i (Z.of_nat n)) = Some l ->
  lookup_loop n fs d i (c ++ tail) (Z.of_nat (length c)) = Some (assoc c l).
Proof.
  induction n as [|n IH]; intros i l Hfs Hc Hcb Hl; [change (Some [] = Some l) in Hl; by simplify_eq|].
  rewrite seqZ_cons in Hl by lia. replace (Z.pred (Z.of_nat (S n))) with (Z.of_nat n) in Hl by lia.
  cbn [mapM] in Hl. cbn [lookup_loop].
  destruct (string_of (de_name fs (dir_entry d i))) as [nm|] eqn:Hnm; [|done]. simpl in Hl.
  destruct (mapM _ (seqZ (Z.succ i) (Z.of_nat n))) as [l'|] eqn:Hl'; cbn in Hl; [|done].
  injection Hl as <-.
  destruct (string_of_Some _ _ Hnm) as (Hnn & r & Hr).
  assert (Hnb : Forall is_byte nm).
  { assert (Hd : Forall is_byte (de_name fs (dir_entry d i))) by (by apply Forall_drop).
    rewrite Hr in Hd. by apply Forall_app in Hd as [? _]. }
  rewrite Hr, strlen_spec by done. cbn [mbind option_bind assoc].
  specialize (IH (Z.succ i) l' Hfs Hc Hcb Hl'). rewrite <- Z.add_1_r in IH.
  destruct (Z.eqb_spec (Z.of_nat (length nm)) (Z.of_nat (length c))) as [Hlen|Hlen]; cbn [mbind option_bind].
  - destruct (strncmp_eqb (length c) nm c (0 :: r) tail) as (v & Hv & Hz); try done; [lia|].
    rewrite Nat2Z.id, Hv. cbn [mbind option_bind]. rewrite Hz. destruct (decide (nm = c)) as [Hd|Hd].
    + by rewrite bool_decide_eq_true_2 by done.
    + by rewrite bool_decide_eq_false_2 by done.
  - rewrite decide_False by (intros ->; lia). done.
Qed.

Lemma lookup_spec fs d c tail l : Forall is_byte fs -> no_nul c -> Forall is_byte c ->
  listing fs d = Some l -> lookup fs d (c ++ tail) (Z.of_nat (length c)) = Some (assoc c l).
Proof.
  intros Hfs Hc Hcb Hl. unfold listing in Hl. unfold lookup.
  destruct (dir_count fs d) as [count|]; [|done]. cbn [mbind option_bind] in *.
  apply lookup_loop_spec; [done | done | done |]. destruct (Z.lt_ge_cases count 0) as [Hneg|].
  - replace (Z.of_nat (Z.to_nat count)) with 0 by lia.
    unfold seqZ in Hl |- *. by replace (Z.to_nat count) with (Z.to_nat 0) in Hl by lia.
  - by rewrite Z2Nat.id by lia.
Qed.

Lemma parts_nonempty cur path : parts cur path <> [].
Proof. revert cur. induction path as [|c path IH]; intros cur; simpl; [done|]. by destruct (c =? SLASH). Qed.

(** What happens at the end of a part; [k] is the rest of the loop. *)
Lemma path_part fs path pre cur t len d e ps v (k : Z -> Z -> option (Z + Z)) :
  path = pre ++ cur ++ t -> Forall is_byte fs -> no_nul cur -> Forall is_byte cur ->
  (Z.of_nat (length (pre ++ cur)) <? len) = bool_decide (ps <> []) ->
  (forall d' e', resolve fs d' e' ps = Some v -> k d' e' = Some v) ->
  resolve fs d e (cur :: ps) = Some v ->
  (if Z.of_nat (length pre) <? Z.of_nat (length (pre ++ cur)) then
     found ← lookup fs d (drop (Z.to_nat (Z.of_nat (length pre))) path)
               (Z.of_nat (length (pre ++ cur)) - Z.of_nat (length pre));
     match found with
     | None => Some (inl (- ENOENT))
     | Some e0 =>
         ty ← de_type fs e0;
         if ty =? TYPE_DIR then dir' ← de_location fs e0; k dir' e0
         else if Z.of_nat (length (pre ++ cur)) <? len then Some (inl (- ENOENT)) else k d e0
     end
   else k d e) = Some v.
Proof.
  intros Hpath Hfs Hcn Hcb Hlen Hk Hres. cbn [resolve] in Hres. destruct (decide (cur = [])) as [-> |Hne].
  { rewrite app_nil_r, Z.ltb_irrefl. by apply Hk. }
  destruct (Z.ltb_spec (Z.of_nat (length pre)) (Z.of_nat (length (pre ++ cur)))) as [_|Hle].
  2: { rewrite length_app in Hle. destruct cur; [done | simpl in Hle; lia]. }
  rewrite Hpath, drop_pre.
  replace (Z.of_nat (length (pre ++ cur)) - Z.of_nat (length pre)) with (Z.of_nat (length cur)) by (rewrite length_app; lia).
  destruct (listing fs d) as [l|] eqn:Hl; [|done]. cbn [mbind option_bind] in Hres.
  rewrite (lookup_spec fs d cur _ l) by done. cbn [mbind option_bind].
  destruct (assoc cur l) as [e'|]; [|done]. destruct (de_type fs e') as [ty|]; [|done]. cbn [mbind option_bind] in *.
  destruct (ty =? TYPE_DIR).
  - destruct (de_location fs e') as [d'|]; [|done]. cbn [mbind option_bind] in *. by apply Hk.
  - rewrite Hlen. destruct (decide (ps = [])) as [-> |Hps].
    + by apply Hk.
    + by rewrite bool_decide_eq_true_2.
Qed.

Lemma path_loop_spec fs path tail rest : forall pre cur d e v,
  path = pre ++ cur ++ rest ++ 0 :: tail ->
  Forall is_byte fs -> no_nul rest -> no_nul cur -> Forall is_byte cur -> Forall is_byte rest ->
  resolve fs d e (parts cur rest) = Some v ->
  path_loop (S (length rest)) fs path (Z.of_nat (length (pre ++ cur ++ rest))) (Z.of_nat (length (pre ++ cur)))
    (Z.of_nat (length pre)) d e = Some v.
Proof.
  induction rest as [|c rest IH]; intros pre cur d e v Hpath Hfs Hr Hcn Hcb Hrb Hres.
  - assert (Hz : zlookup path (Z.of_nat (length (pre ++ cur))) = Some 0).
    { rewrite Hpath, app_assoc. apply zlookup_middle. }
    cbn [path_loop length]. rewrite Hz. cbn [mbind option_bind]. rewrite app_nil_r, Z.eqb_refl, orb_true_r.
    eapply (path_part fs path pre cur _ _ d e []); try done. by rewrite Z.ltb_irrefl.
  - apply no_nul_cons in Hr as [Hc Hr]. apply list.Forall_cons in Hrb as [Hcb' Hrb].
    assert (Hz : zlookup path (Z.of_nat (length (pre ++ cur))) = Some c).
    { rewrite Hpath, app_assoc. apply zlookup_middle. }
    assert (Hlt : Z.of_nat (length (pre ++ cur)) < Z.of_nat (length (pre ++ cur ++ c :: rest))).
    { rewrite !length_app. simpl. lia. }
    change (path_loop (S (length (c :: rest)))) with (path_loop (S (S (length rest)))).
    remember (S (length rest)) as n eqn:Hn. cbn [path_loop]. rewrite Hz. cbn [mbind option_bind].
    destruct (Z.eqb_spec (Z.of_nat (length (pre ++ cur))) (Z.of_nat (length (pre ++ cur ++ c :: rest)))); [lia|].
    rewrite orb_false_r. cbn [parts] in Hres. destruct (Z.eqb_spec c SLASH) as [-> |Hcs'].
    + eapply (path_part fs path pre cur _ _ d e (parts [] rest)); try done.
      * rewrite bool_decide_eq_true_2 by apply parts_nonempty. by apply Z.ltb_lt.
      * intros d' e' Hres'. pose proof (IH (pre ++ cur ++ [SLASH]) [] d' e' v) as H.
        rewrite <- H; try done; try (by constructor).
        { f_equal; rewrite !length_app; cbn [length]; lia. }
        rewrite Hpath. by rewrite <- !app_assoc.
    + pose proof (IH pre (cur ++ [c]) d e v) as H. rewrite <- H; try done.
      * f_equal; rewrite !length_app; cbn [length]; lia.
      * rewrite Hpath. by rewrite <- !app_assoc.
      * apply Forall_app; split; [done | by apply Forall_singleton].
      * apply Forall_app; split; [done | by apply Forall_singleton].
Qed.

(** get_directory_entry is the walk: on an image whose directories along
    the path can be read, it returns the entry that the parts of the path
    lead to, or ENOENT when a name is missing or a file is followed by more
    of the path. *)
Theorem get_directory_entry_correct fs path r d v :
  Forall is_byte fs -> no_nul path -> Forall is_byte path -> de_location fs 0 = Some d ->
  resolve fs d 0 (parts [] path) = Some v ->
  get_directory_entry fs (path ++ 0 :: r) = Some v.
Proof.
  intros Hfs Hn Hb Hd Hv. unfold get_directory_entry. rewrite Hd, strlen_spec by done. cbn [mbind option_bind].
  replace (Z.to_nat (Z.of_nat (length path) + 1)) with (S (length path)) by lia.
  apply (path_loop_spec fs (path ++ 0 :: r) r path [] []); try done; by constructor.
Qed.

(** An image with a root directory that holds one file, "sh". *)
Definition le32 (x : Z) : list Z := [x mod 256; (x / 256) mod 256; (x / 65536) mod 256; (x / 16777216) mod 256].
Definition small_image : list Z :=
  le32 280 ++ le32 TYPE_DIR ++ le32 276 ++ le32 0 ++ le32 0 ++ replicate 256 0 ++
  le32 1 ++
  le32 3 ++ le32 TYPE_FILE ++ le32 556 ++ le32 0 ++ le32 0 ++ bytes "sh" ++ replicate 254 0 ++
  [1; 2; 3].

Lemma get_directory_entry_correct_witness :
  get_directory_entry small_image (bytes "//sh" ++ 0 :: []) = Some (inr 280) /\
  get_directory_entry small_image (bytes "/sh/x" ++ 0 :: []) = Some (inl (- ENOENT)).
Proof.
  split; (eapply get_directory_entry_correct; [by_bytes | by_bytes | by_bytes | vm_compute; reflexivity | vm_compute; reflexivity]).
Defined.
