(* ===== verification/Kernel.v ===== *)
(** * The kernel's state (source/kernel.h and the globals of the .c files)

    One record holds every global variable of the kernel together with the
    memory they point to.  Pointers to processes are indices into the process
    table, pointers to structures from [kmalloc] are their addresses; NULL is
    [None] for the former and 0 for the latter. *)

From S2P Require Import Prelude Constants Buddy Libc Screen Tables Page Filesystem.

(** ** Record updates

    [r <| f := v |>] changes one field; it is found from the eta-expansion of
    the record. *)
Class Eta (R : Type) := eta_record : R -> R.
Class Setter {R T : Type} (proj : R -> T) := set_field : (T -> T) -> R -> R.
Ltac build_setter proj :=
  match type of proj with ?R -> _ =>
    let e := constr:(_ : Eta R) in
    let e := eval unfold eta_record in e in
    let e := eval hnf in e in
    match eval pattern proj in e with ?F _ => exact (fun f => F (fun r => f (proj r))) end
  end.
#[export] Hint Extern 1 (Setter ?proj) => build_setter proj : typeclass_instances.
Notation "r <| f ::= g |>" := (set_field (proj := f) g r) (at level 1, left associativity).
Notation "r <| f := v |>" := (set_field (proj := f) (fun _ => v) r) (at level 1, left associativity).

(** ** Registers *)

(** [regs]: what an interrupt saves of the CPU. *)
Record regs := mkRegs {
  r_fstate : list Z;
  r_gs : Z; r_fs : Z; r_es : Z; r_ds : Z;
  r_edi : Z; r_esi : Z; r_ebp : Z; r_esp : Z; r_ebx : Z; r_edx : Z; r_ecx : Z; r_eax : Z;
  r_int_no : Z; r_err_code : Z;
  r_eip : Z; r_cs : Z; r_eflags : Z; r_useresp : Z; r_ss : Z
}.
#[export] Instance regs_eta : Eta regs := fun r =>
  mkRegs (r_fstate r) (r_gs r) (r_fs r) (r_es r) (r_ds r) (r_edi r) (r_esi r) (r_ebp r) (r_esp r)
    (r_ebx r) (r_edx r) (r_ecx r) (r_eax r) (r_int_no r) (r_err_code r) (r_eip r) (r_cs r)
    (r_eflags r) (r_useresp r) (r_ss r).
Definition regs_zero : regs := mkRegs (replicate 27 0) 0 0 0 0 0 0 0 0 0 0 0 0 0 0 0 0 0 0 0.

(** ** Processes *)

Record process := mkProcess {
  p_pid : Z;
  p_exists : Z;
  p_saved_regs : regs;
  p_ready : Z;
  p_prev : option Z;
  p_next : option Z;
  p_pdir : Z;
  p_in_syscall : Z;
  p_last_errno : Z;
  p_filedesc : list Z;
  p_cwd : list Z;
  p_stack_start : Z; p_stack_end : Z;
  p_data_start : Z; p_data_end : Z;
  p_text_start : Z; p_text_end : Z;
  p_parent_pid : Z;
  p_exit_status : Z;
  p_exited : Z;
  p_waiting_on : Z;
  p_mailbox : Z;
  p_mailbox_size : Z; p_mailbox_alloc : Z;
  p_receive_blocked : Z
}.
#[export] Instance process_eta : Eta process := fun p =>
  mkProcess (p_pid p) (p_exists p) (p_saved_regs p) (p_ready p) (p_prev p) (p_next p) (p_pdir p)
    (p_in_syscall p) (p_last_errno p) (p_filedesc p) (p_cwd p) (p_stack_start p) (p_stack_end p)
    (p_data_start p) (p_data_end p) (p_text_start p) (p_text_end p) (p_parent_pid p)
    (p_exit_status p) (p_exited p) (p_waiting_on p) (p_mailbox p) (p_mailbox_size p)
    (p_mailbox_alloc p) (p_receive_blocked p).
(** [memset(proc,0,sizeof(process))]. *)
Definition process_zero : process :=
  mkProcess 0 0 regs_zero 0 None None 0 0 0 (replicate (Z.to_nat MAX_FDS) 0)
    (replicate (Z.to_nat PATH_MAX) 0) 0 0 0 0 0 0 0 0 0 0 0 0 0 0.

(** [processlist]. *)
Record processlist := mkList { pl_first : option Z; pl_last : option Z }.
#[export] Instance processlist_eta : Eta processlist := fun l => mkList (pl_first l) (pl_last l).

(** ** Objects in the kernel heap *)

(** The functions a file handle can point to. *)
Inductive write_fun := screen_write_f | pipe_writer_write_f | pipe_reader_write_f | file_write_f.
Inductive read_fun := screen_read_f | pipe_writer_read_f | pipe_reader_read_f | file_read_f.
Inductive destroy_fun := screen_destroy_f | pipe_writer_destroy_f | pipe_reader_destroy_f | file_destroy_f.

(** [kmalloc] does not clear memory: a field is [None] until it is set, and
    reading it before that is an undefined access. *)
Record filehandle := mkFh {
  fh_type : option Z;
  fh_refcount : option Z;
  fh_write : option write_fun;
  fh_read : option read_fun;
  fh_destroy : option destroy_fun;
  fh_p : option Z;
  fh_entry : option Z;
  fh_pos : option Z;
  fh_entryno : option Z
}.
#[export] Instance filehandle_eta : Eta filehandle := fun f =>
  mkFh (fh_type f) (fh_refcount f) (fh_write f) (fh_read f) (fh_destroy f) (fh_p f) (fh_entry f)
    (fh_pos f) (fh_entryno f).
Definition fh_undef : filehandle := mkFh None None None None None None None None None.
Definition SIZEOF_FILEHANDLE : Z := 36.

Record pipe_buffer := mkPipe {
  b_reading : option Z;
  b_writing : option Z;
  b_alloc : option Z;
  b_len : option Z;
  b_readpid : option Z;
  b_data : option Z
}.
#[export] Instance pipe_buffer_eta : Eta pipe_buffer := fun b =>
  mkPipe (b_reading b) (b_writing b) (b_alloc b) (b_len b) (b_readpid b) (b_data b).
Definition pipe_undef : pipe_buffer := mkPipe None None None None None None.
Definition SIZEOF_PIPE_BUFFER : Z := 24.

(** [struct message]: three words and the data. *)
Definition SIZEOF_MESSAGE : Z := 12 + MAX_MESSAGE_SIZE.
Definition MESSAGE_FROM : Z := 0.
Definition MESSAGE_TAG : Z := 4.
Definition MESSAGE_SIZE : Z := 8.
Definition MESSAGE_DATA : Z := 12.

Inductive obj :=
  | OFh (f : filehandle)
  | OPipe (b : pipe_buffer)
  | OBytes (l : list Z).

(** ** The state *)

(** What the linker, the boot loader and the memory at power-on fix: the
    filesystem image, the addresses of the kernel's code, of the idle loop,
    of the end of its stack and of [launch_shell], and the bytes found in the
    [n]-th block that [kmalloc] hands out. *)
Record env := mkEnv {
  e_filesystem : list Z;
  e_code_start : Z; e_code_end : Z;
  e_idle : Z; e_idle_stack_end : Z;
  e_launch_shell : Z;
  e_stale : Z -> Z -> Z
}.

Record kstate := mkKernel {
  k_processes : list process;
  k_current : option Z;
  k_ready : processlist;
  k_suspended : processlist;
  k_heap : memarea;
  k_objs : gmap Z obj;
  k_nallocs : Z;
  k_pages : pages;
  k_paging : option Z;      (* the page directory, when paging is enabled *)
  k_screen : screen;
  k_tables : tables;
  k_timer_ticks : Z;
  k_shift_pressed : Z;
  k_input_pipe : Z;
  k_fpustate : list Z;
  k_env : env
}.
#[export] Instance kstate_eta : Eta kstate := fun k =>
  mkKernel (k_processes k) (k_current k) (k_ready k) (k_suspended k) (k_heap k) (k_objs k)
    (k_nallocs k) (k_pages k) (k_paging k) (k_screen k) (k_tables k) (k_timer_ticks k)
    (k_shift_pressed k) (k_input_pipe k) (k_fpustate k) (k_env k).

Abbreviation K := (M kstate).

(** ** Processes by index *)

Definition get_proc (pid : Z) : K process :=
  k <- get; of_opt (zlookup (k_processes k) pid) "processes[]".
Definition upd_proc (pid : Z) (f : process -> process) : K unit :=
  k <- get;
  p <- of_opt (zlookup (k_processes k) pid) "processes[]";
  put (k <| k_processes := zinsert pid (f p) (k_processes k) |>).
(** [current_process->...]; a NULL pointer is an undefined access. *)
Definition current : K Z := k <- get; of_opt (k_current k) "current_process is NULL".
Definition cur : K process := pid <- current; get_proc pid.
Definition upd_cur (f : process -> process) : K unit := pid <- current; upd_proc pid f.

(** ** The kernel heap *)

Definition stale_bytes (k : kstate) (n : Z) : list Z :=
  (fun i => u8 (e_stale (k_env k) (k_nallocs k) (Z.of_nat i))) <$> seq 0 (Z.to_nat n).

(** [kmalloc(size)] for an object of a known type. *)
Definition kmalloc (size : Z) (o : obj) : K Z :=
  a <- zoom k_heap (fun h k => k <| k_heap := h |>) (kmalloc_ma size);
  modify (fun k => k <| k_objs ::= insert a o |> <| k_nallocs ::= Z.add 1 |>);;
  ret a.
(** ... for a character array, with the contents found there. *)
Definition kmalloc_bytes (size : Z) : K Z := k <- get; kmalloc size (OBytes (stale_bytes k size)).
Definition kfree (a : Z) : K unit :=
  zoom k_heap (fun h k => k <| k_heap := h |>) (kfree_ma a);;
  modify (fun k => k <| k_objs ::= delete a |>).

Definition get_fh (a : Z) : K filehandle :=
  k <- get; match k_objs k !! a with Some (OFh f) => ret f | _ => fault "not a file handle" end.
Definition upd_fh (a : Z) (f : filehandle -> filehandle) : K unit :=
  x <- get_fh a; modify (fun k => k <| k_objs ::= insert a (OFh (f x)) |>).
Definition get_pipe (a : Z) : K pipe_buffer :=
  k <- get; match k_objs k !! a with Some (OPipe b) => ret b | _ => fault "not a pipe" end.
Definition upd_pipe (a : Z) (f : pipe_buffer -> pipe_buffer) : K unit :=
  x <- get_pipe a; modify (fun k => k <| k_objs ::= insert a (OPipe (f x)) |>).
Definition get_bytes (a : Z) : K (list Z) :=
  k <- get; match k_objs k !! a with Some (OBytes l) => ret l | _ => fault "not a character array" end.
(** The value of a field that has been set. *)
Definition fld {A} (o : option A) : K A := of_opt o "uninitialised field".

(** ** Pages and paging *)

Definition enable_paging (pdir : Z) : K unit := modify (fun k => k <| k_paging := Some pdir |>).
Definition disable_paging : K unit := modify (fun k => k <| k_paging := None |>).

(** The routines of page.c use physical addresses above 6 MB, which are not
    mapped in any address space: they need paging to be off. *)
Definition page_op {A} (m : M pages A) : K A :=
  k <- get;
  check_ (bool_decide (k_paging k = None)) "page memory used with paging enabled";;
  zoom k_pages (fun p k => k <| k_pages := p |>) m.

Definition screen_op {A} (m : M screen A) : K A :=
  zoom k_screen (fun s k => k <| k_screen := s |>) m.

(** ** Memory the kernel copies from and to

    A user address goes through the page tables; one that is not mapped
    raises a page fault in the middle of a system call, for which
    [interrupt_handler] stops the machine.  One that maps to the memory below
    [PAGE_START] reaches the kernel's own variables, which have no bytes in this
    model: that is a [Fault], an access of which nothing more is said, although
    the machine, where ring 0 may read and write there, performs it. *)
Inductive ptr :=
  | User (va : Z)             (* an address of the current address space *)
  | Phys (pa : Z)             (* a physical address, with paging disabled *)
  | Obj (base off : Z)        (* inside of a character array from kmalloc *)
  | Image (off : Z)           (* inside of the filesystem image *)
  | Const (l : list Z).       (* kernel data that is only read *)

Definition padd (p : ptr) (i : Z) : ptr :=
  match p with
  | User va => User (u32 (va + i))
  | Phys pa => Phys (u32 (pa + i))
  | Obj base off => Obj base (off + i)
  | Image off => Image (off + i)
  | Const l => Const (drop (Z.to_nat i) l)
  end.

Definition page_fault {A} : K A := halt "Page Fault exception. System halted!".
Definition user_address (va : Z) : K Z :=
  k <- get;
  match k_paging k with
  | None => ret va
  | Some pdir =>
      match translate (pmem (k_pages k)) pdir va with Some pa => ret pa | None => page_fault end
  end.

Definition load (p : ptr) : K Z :=
  match p with
  | User va => pa <- user_address va; zoom k_pages (fun p k => k <| k_pages := p |>) (pread8 pa)
  | Phys pa => page_op (pread8 pa)
  | Obj base off => l <- get_bytes base; of_opt (zlookup l off) "read outside of the array"
  | Image off => k <- get; of_opt (fs_byte (e_filesystem (k_env k)) off) "read outside of the filesystem"
  | Const l => of_opt (zlookup l 0) "read outside of the array"
  end.
Definition store (p : ptr) (v : Z) : K unit :=
  match p with
  | User va => pa <- user_address va; zoom k_pages (fun p k => k <| k_pages := p |>) (pwrite8 pa v)
  | Phys pa => page_op (pwrite8 pa v)
  | Obj base off =>
      l <- get_bytes base;
      _ <- of_opt (zlookup l off) "write outside of the array";
      modify (fun k => k <| k_objs ::= insert base (OBytes (zinsert off (u8 v) l)) |>)
  | Image _ => fault "write to the filesystem image"
  | Const _ => fault "write to constant data"
  end.

(** 32-bit words, little-endian. *)
Definition load32 (p : ptr) : K Z :=
  b0 <- load p; b1 <- load (padd p 1); b2 <- load (padd p 2); b3 <- load (padd p 3);
  ret (b0 + 2 ^ 8 * b1 + 2 ^ 16 * b2 + 2 ^ 24 * b3).
Definition store32 (p : ptr) (v : Z) : K unit :=
  store p v;; store (padd p 1) (Z.shiftr v 8);; store (padd p 2) (Z.shiftr v 16);;
  store (padd p 3) (Z.shiftr v 24).

(** memmove and memset of libc.c on this memory. *)
Definition kmemmove (dst src : ptr) (len : Z) : K unit :=
  memmove (fun i => load (padd src i)) (fun i v => store (padd dst i) v) 0 0 len.

(** [n] bytes at once. *)
Fixpoint read_bytes (n : nat) (p : ptr) : K (list Z) :=
  match n with
  | O => ret []
  | S n' => c <- load p; s <- read_bytes n' (padd p 1); ret (c :: s)
  end.
Fixpoint write_bytes (p : ptr) (l : list Z) : K unit :=
  match l with
  | [] => ret tt
  | c :: l' => store p c;; write_bytes (padd p 1) l'
  end.

(** The C string at an address, with its terminator: at most [fuel] bytes. *)
Fixpoint read_string (fuel : nat) (p : ptr) : K (list Z) :=
  match fuel with
  | O => spin
  | S fuel' =>
      c <- load p;
      if truthy c then s <- read_string fuel' (padd p 1); ret (c :: s) else ret [0]
  end.

(** ** Pointers from user space (source/syscall.c) *)

Definition valid_pointer (ptr size : Z) : K bool :=
  let start_address := ptr in
  let end_address := u32 (start_address + size) in
  if size =? 0 then ret true
  else if end_address <? start_address then ret false
  else
    p <- cur;
    if (p_stack_start p <=? start_address) && (end_address <=? p_stack_end p) then ret true
    else if (p_data_start p <=? start_address) && (end_address <=? p_data_end p) then ret true
    else if (p_text_start p <=? start_address) && (end_address <=? p_text_end p) then ret true
    else ret false.

(** The bytes from [a] to the end of the segments it lies in: no valid
    string is longer ([valid_string_total]). *)
Definition string_fuel (p : process) (a : Z) : nat :=
  let rest (s e : Z) := if (s <=? a) && (a <? e) then Z.to_nat (e - a) else O in
  Nat.max (rest (p_stack_start p) (p_stack_end p))
    (Nat.max (rest (p_data_start p) (p_data_end p)) (rest (p_text_start p) (p_text_end p))).

Fixpoint valid_string_loop (fuel : nat) (str len : Z) : K bool :=
  match fuel with
  | O => spin
  | S fuel' =>
      v <- valid_pointer str (u32 (len + 1));
      if v : bool then
        c <- load (User (u32 (str + len)));
        if c =? 0 then ret true else valid_string_loop fuel' str (u32 (len + 1))
      else ret false
  end.
Definition valid_string (str : Z) : K bool :=
  p <- cur; valid_string_loop (S (string_fuel p str)) str 0.

(** The string behind a pointer that [valid_string] accepted. *)
Definition user_string (str : Z) : K (list Z) :=
  p <- cur; read_string (string_fuel p str) (User str).
