(* ===== verification/Process.v ===== *)
(** * Process lists and registers (source/kernel.h, source/process.c)

    The doubly linked lists of ready and suspended processes, suspend and
    resume, free process ids and initial registers. *)

From S2P Require Import Prelude Constants Kernel.

(** Which of the two lists a macro works on. *)
Inductive which := Ready | Suspended.
Definition get_list (w : which) : K processlist :=
  gets (fun k => match w with Ready => k_ready k | Suspended => k_suspended k end).
Definition put_list (w : which) (l : processlist) : K unit :=
  modify (fun k => match w with Ready => k <| k_ready := l |> | Suspended => k <| k_suspended := l |> end).

(** ** The list macros of kernel.h *)

Definition list_add (w : which) (obj : Z) : K unit :=
  l <- get_list w;
  match pl_first l with
  | Some f =>
      upd_proc obj (fun p => p <| p_next := Some f |>);;
      upd_proc f (fun p => p <| p_prev := Some obj |>);;
      put_list w (l <| pl_first := Some obj |>)
  | None => put_list w (mkList (Some obj) (Some obj))
  end.

Definition list_remove (w : which) (obj : Z) : K unit :=
  l <- get_list w;
  p <- get_proc obj;
  when_ (bool_decide (pl_first l = Some obj)) (put_list w (l <| pl_first := p_next p |>));;
  l <- get_list w;
  when_ (bool_decide (pl_last l = Some obj)) (put_list w (l <| pl_last := p_prev p |>));;
  match p_next p with
  | Some n => upd_proc n (fun q => q <| p_prev := p_prev p |>)
  | None => ret tt
  end;;
  p <- get_proc obj;
  match p_prev p with
  | Some q => upd_proc q (fun r => r <| p_next := p_next p |>)
  | None => ret tt
  end;;
  upd_proc obj (fun p => p <| p_next := None |> <| p_prev := None |>).

(** ** suspend_process, resume_process *)

Definition suspend_process (proc : Z) : K unit :=
  p <- get_proc proc;
  assert_ (truthy (p_exists p)) "proc->exists";;
  assert_ (truthy (p_ready p)) "proc->ready";;
  upd_proc proc (fun p => p <| p_ready := 0 |>);;
  list_remove Ready proc;;
  list_add Suspended proc.

Definition resume_process (proc : Z) : K unit :=
  p <- get_proc proc;
  assert_ (truthy (p_exists p)) "proc->exists";;
  assert_ (negb (truthy (p_ready p))) "!proc->ready";;
  upd_proc proc (fun p => p <| p_ready := 1 |>);;
  list_remove Suspended proc;;
  list_add Ready proc.

(** ** get_free_pid *)

(** [while ((pid < MAX_PROCESSES) && processes[pid].exists) pid++]. *)
Fixpoint free_pid_loop (n : nat) (pid : Z) : K Z :=
  match n with
  | O => ret pid
  | S n' =>
      if pid <? MAX_PROCESSES then
        p <- get_proc pid;
        if truthy (p_exists p) then free_pid_loop n' (pid + 1) else ret pid
      else ret pid
  end.
Definition get_free_pid : K Z :=
  pid <- free_pid_loop (Z.to_nat MAX_PROCESSES) 1;
  ret (if MAX_PROCESSES <=? pid then -1 else pid).

(** ** init_regs *)

Definition init_regs (stack_max start_addr : Z) : regs :=
  regs_zero
    <| r_gs := Z.lor USER_DATA_SEGMENT RING_3 |>
    <| r_fs := Z.lor USER_DATA_SEGMENT RING_3 |>
    <| r_es := Z.lor USER_DATA_SEGMENT RING_3 |>
    <| r_ds := Z.lor USER_DATA_SEGMENT RING_3 |>
    <| r_ss := Z.lor USER_DATA_SEGMENT RING_3 |>
    <| r_cs := Z.lor USER_CODE_SEGMENT RING_3 |>
    <| r_eflags := 0x202 |>
    <| r_eip := start_addr |>
    <| r_useresp := stack_max |>.
