(* ===== verification/Pipe.v ===== *)
(** * Pipes (source/pipe.c) *)

From S2P Require Import Prelude Constants Kernel Process.

Definition new_pipe : K Z :=
  b <- kmalloc SIZEOF_PIPE_BUFFER (OPipe pipe_undef);
  upd_pipe b (fun x => x <| b_reading := Some 1 |> <| b_writing := Some 1 |> <| b_readpid := Some (-1) |>
                         <| b_alloc := Some BUFSIZE |> <| b_len := Some 0 |>);;
  data <- kmalloc_bytes BUFSIZE;
  upd_pipe b (fun x => x <| b_data := Some data |>);;
  ret b.

Definition wake_up_reader (p : Z) : K unit :=
  b <- get_pipe p;
  readpid <- fld (b_readpid b);
  when_ (0 <=? readpid)
    (resume_process readpid;;
     upd_pipe p (fun x => x <| b_readpid := Some (-1) |>)).

(** [while (b->len+count > b->alloc) b->alloc *= 2]: the capacity reached.
    33 rounds are enough unless [alloc] wraps to 0, when the loop never ends. *)
Fixpoint grow_loop (fuel : nat) (need alloc : Z) : option Z :=
  match fuel with
  | O => None
  | S fuel' => if alloc <? need then grow_loop fuel' need (u32 (alloc * 2)) else Some alloc
  end.

(** The resize in [write_to_pipe], for [need] bytes in all. *)
Definition grow_pipe (b need : Z) : K unit :=
  p <- get_pipe b;
  len <- fld (b_len p);
  alloc <- fld (b_alloc p);
  match grow_loop 33 need alloc with
  | None => spin
  | Some alloc' =>
      upd_pipe b (fun x => x <| b_alloc := Some alloc' |>);;
      newdata <- kmalloc_bytes alloc';
      data <- fld (b_data p);
      kmemmove (Obj newdata 0) (Obj data 0) len;;
      kfree data;;
      upd_pipe b (fun x => x <| b_data := Some newdata |>)
  end.

Definition write_to_pipe (b : Z) (buf : ptr) (count : Z) : K unit :=
  p <- get_pipe b;
  len <- fld (b_len p);
  alloc <- fld (b_alloc p);
  when_ (alloc <? u32 (len + count)) (grow_pipe b (u32 (len + count)));;
  p <- get_pipe b;
  data <- fld (b_data p);
  kmemmove (Obj data len) buf count;;
  upd_pipe b (fun x => x <| b_len := Some (u32 (len + count)) |>);;
  wake_up_reader b.

Definition check_buffer_free (b : Z) : K unit :=
  p <- get_pipe b;
  reading <- fld (b_reading p);
  writing <- fld (b_writing p);
  when_ (negb (truthy reading) && negb (truthy writing))
    (readpid <- fld (b_readpid p);
     assert_ (readpid =? -1) "-1 == b->readpid";;
     data <- fld (b_data p);
     kfree data;;
     kfree b).

(** ** The writing end *)

Definition pipe_writer_write (fh : Z) (buf : ptr) (count : Z) : K Z :=
  f <- get_fh fh; p <- fld (fh_p f);
  write_to_pipe p buf count;; ret (s32 count).

Definition pipe_writer_read (fh : Z) (buf : ptr) (count : Z) : K Z := ret (- EINVAL).

Definition pipe_writer_destroy (fh : Z) : K unit :=
  f <- get_fh fh; p <- fld (fh_p f);
  b <- get_pipe p; writing <- fld (b_writing b);
  assert_ (truthy writing) "fh->p->writing";;
  upd_pipe p (fun x => x <| b_writing := Some 0 |>);;
  wake_up_reader p;;
  check_buffer_free p;;
  kfree fh.

Definition new_pipe_writer (p : Z) : K Z :=
  fh <- kmalloc SIZEOF_FILEHANDLE (OFh fh_undef);
  upd_fh fh (fun f => f <| fh_type := Some FH_PIPE_WRITER |> <| fh_p := Some p |> <| fh_refcount := Some 1 |>
                        <| fh_write := Some pipe_writer_write_f |> <| fh_read := Some pipe_writer_read_f |>
                        <| fh_destroy := Some pipe_writer_destroy_f |>);;
  ret fh.

(** ** The reading end *)

Definition pipe_reader_write (fh : Z) (buf : ptr) (count : Z) : K Z := ret (- EINVAL).

Definition pipe_reader_read (fh : Z) (buf : ptr) (count : Z) : K Z :=
  f <- get_fh fh; p <- fld (fh_p f);
  b <- get_pipe p;
  readpid <- fld (b_readpid b);
  if negb (readpid =? -1) then ret (- EBADF)
  else
    len <- fld (b_len b);
    writing <- fld (b_writing b);
    if 0 <? len then
      let copy := s32 (if count <? len then count else len) in
      data <- fld (b_data b);
      kmemmove buf (Obj data 0) (u32 copy);;
      when_ (u32 copy <? len) (kmemmove (Obj data 0) (Obj data copy) (u32 (len - u32 copy)));;
      upd_pipe p (fun x => x <| b_len := Some (u32 (len - u32 copy)) |>);;
      ret copy
    else if negb (truthy writing) then ret 0
    else
      c <- cur;
      upd_pipe p (fun x => x <| b_readpid := Some (p_pid c) |>);;
      proc <- current;
      suspend_process proc;;
      ret (- ESUSPEND).

Definition pipe_reader_destroy (fh : Z) : K unit :=
  f <- get_fh fh; p <- fld (fh_p f);
  b <- get_pipe p; reading <- fld (b_reading b);
  assert_ (truthy reading) "fh->p->reading";;
  upd_pipe p (fun x => x <| b_reading := Some 0 |>);;
  check_buffer_free p;;
  kfree fh.

Definition new_pipe_reader (p : Z) : K Z :=
  fh <- kmalloc SIZEOF_FILEHANDLE (OFh fh_undef);
  upd_fh fh (fun f => f <| fh_type := Some FH_PIPE_READER |> <| fh_p := Some p |> <| fh_refcount := Some 1 |>
                        <| fh_write := Some pipe_reader_write_f |> <| fh_read := Some pipe_reader_read_f |>
                        <| fh_destroy := Some pipe_reader_destroy_f |>);;
  ret fh.

(** ** syscall_pipe *)

(** [for (i = 0; (i < MAX_FDS) && (-1 == writefd); i++)]: the first two free
    descriptors, -1 when there is none. *)
Fixpoint find_fds (l : list Z) (i readfd writefd : Z) : Z * Z :=
  match l with
  | [] => (readfd, writefd)
  | fh :: l' =>
      if writefd =? -1 then
        if fh =? 0 then
          if readfd =? -1 then find_fds l' (i + 1) i writefd else find_fds l' (i + 1) readfd i
        else find_fds l' (i + 1) readfd writefd
      else (readfd, writefd)
  end.

Definition set_fd (fd fh : Z) : K unit := upd_cur (fun p => p <| p_filedesc ::= zinsert fd fh |>).

Definition syscall_pipe (filedes : Z) : K Z :=
  v <- valid_pointer filedes 8;
  if negb v then ret (- EFAULT)
  else
    p <- cur;
    let '(readfd, writefd) := find_fds (p_filedesc p) 0 (-1) (-1) in
    if (readfd =? -1) || (writefd =? -1) then ret (- EMFILE)
    else
      b <- new_pipe;
      r <- new_pipe_reader b; set_fd readfd r;;
      w <- new_pipe_writer b; set_fd writefd w;;
      store32 (User filedes) readfd;;
      store32 (User (u32 (filedes + 4))) writefd;;
      ret 0.
