(* ===== verification/Filedesc.v ===== *)
(** * File handles and descriptors (source/filedesc.c, source/fscalls.c)

    Screen handles, files and directories, the dispatch through a handle's
    function pointers, and the system calls on descriptors and paths. *)

From S2P Require Import Prelude Constants Libc Screen Filesystem Kernel Process Pipe.

(** ** Output (source/main.c, source/libc.c) *)

Definition write_to_screen (data : ptr) (count : Z) : K unit :=
  for_ (Z.to_nat count) 0 (fun i => c <- load (padd data i); screen_op (put_char c));;
  s <- gets k_screen;
  screen_op (move_cursor (s32 (xpos s)) (s32 (ypos s))).

(** The buffer holds 4096 bytes; its contents before the call are not
    defined, so bytes past the terminator may not be read. *)
Definition kprintf (format : list Z) (ap : list arg) : K Z :=
  '(buf, len) <- of_opt (vsnprintf (replicate 4096 0) 4096 format ap) "format";
  write_to_screen (Const (take 4096 buf)) (u32 len);;
  ret len.

(** ** Screen handles *)

Definition screen_write (fh : Z) (buf : ptr) (count : Z) : K Z :=
  write_to_screen buf count;; ret (s32 count).
Definition screen_read (fh : Z) (buf : ptr) (count : Z) : K Z := ret (- EINVAL).
Definition screen_destroy (fh : Z) : K unit := kfree fh.

Definition new_screen_handle : K Z :=
  fh <- kmalloc SIZEOF_FILEHANDLE (OFh fh_undef);
  upd_fh fh (fun f => f <| fh_type := Some FH_SCREEN |> <| fh_refcount := Some 1 |>
                        <| fh_write := Some screen_write_f |> <| fh_read := Some screen_read_f |>
                        <| fh_destroy := Some screen_destroy_f |>);;
  ret fh.

(** ** Files (source/fscalls.c) *)

Definition filesystem : K (list Z) := gets (fun k => e_filesystem (k_env k)).
(** A field of a directory entry. *)
Definition entry_field (get : list Z -> Z -> option Z) (e : Z) : K Z :=
  fs <- filesystem; of_opt (get fs e) "read outside of the filesystem".

Definition file_write (fh : Z) (buf : ptr) (count : Z) : K Z := ret (- EBADF).

Definition file_read (fh : Z) (buf : ptr) (count : Z) : K Z :=
  f <- get_fh fh;
  type <- fld (fh_type f);
  if type =? FH_DIR then ret (- EISDIR)
  else
    pos <- fld (fh_pos f);
    entry <- fld (fh_entry f);
    size <- entry_field de_size entry;
    if size <=? pos then ret 0
    else
      let count := if size <? u32 (pos + count) then u32 (size - pos) else count in
      location <- entry_field de_location entry;
      kmemmove buf (Image (location + pos)) count;;
      upd_fh fh (fun f => f <| fh_pos := Some (u32 (pos + count)) |>);;
      ret (s32 count).

Definition file_destroy (fh : Z) : K unit := kfree fh.

Definition new_file (type : Z) : K Z :=
  fh <- kmalloc SIZEOF_FILEHANDLE (OFh fh_undef);
  upd_fh fh (fun f => f <| fh_type := Some type |> <| fh_refcount := Some 1 |>
                        <| fh_write := Some file_write_f |> <| fh_read := Some file_read_f |>
                        <| fh_destroy := Some file_destroy_f |>);;
  ret fh.

(** ** Calls through the function pointers of a handle *)

Definition call_write (fh : Z) (buf : ptr) (count : Z) : K Z :=
  f <- get_fh fh; w <- fld (fh_write f);
  match w with
  | screen_write_f => screen_write fh buf count
  | pipe_writer_write_f => pipe_writer_write fh buf count
  | pipe_reader_write_f => pipe_reader_write fh buf count
  | file_write_f => file_write fh buf count
  end.
Definition call_read (fh : Z) (buf : ptr) (count : Z) : K Z :=
  f <- get_fh fh; r <- fld (fh_read f);
  match r with
  | screen_read_f => screen_read fh buf count
  | pipe_writer_read_f => pipe_writer_read fh buf count
  | pipe_reader_read_f => pipe_reader_read fh buf count
  | file_read_f => file_read fh buf count
  end.
Definition call_destroy (fh : Z) : K unit :=
  f <- get_fh fh; d <- fld (fh_destroy f);
  match d with
  | screen_destroy_f => screen_destroy fh
  | pipe_writer_destroy_f => pipe_writer_destroy fh
  | pipe_reader_destroy_f => pipe_reader_destroy fh
  | file_destroy_f => file_destroy fh
  end.

(** ** close_filehandle, syscall_close, syscall_dup2 *)

Definition close_filehandle (fh : Z) : K unit :=
  f <- get_fh fh;
  refcount <- fld (fh_refcount f);
  assert_ (1 <=? refcount) "1 <= fh->refcount";;
  upd_fh fh (fun f => f <| fh_refcount := Some (refcount - 1) |>);;
  when_ (refcount - 1 =? 0) (call_destroy fh).

(** The handle behind a descriptor of the current process; [None] when the
    descriptor is out of range or not open. *)
Definition fd_handle (fd : Z) : K (option Z) :=
  if (fd <? 0) || (MAX_FDS <=? fd) then ret None
  else
    p <- cur;
    fh <- of_opt (zlookup (p_filedesc p) fd) "filedesc[]";
    ret (if fh =? 0 then None else Some fh).

Definition syscall_close (fd : Z) : K Z :=
  h <- fd_handle fd;
  match h with
  | None => ret (- EBADF)
  | Some fh => close_filehandle fh;; set_fd fd 0;; ret 0
  end.

Definition syscall_dup2 (oldfd newfd : Z) : K Z :=
  if (oldfd <? 0) || (MAX_FDS <=? oldfd) then ret (- EBADF)
  else if (newfd <? 0) || (MAX_FDS <=? newfd) then ret (- EBADF)
  else
    h <- fd_handle oldfd;
    match h with
    | None => ret (- EBADF)
    | Some fh =>
        if oldfd =? newfd then ret newfd
        else
          old <- fd_handle newfd;
          match old with Some o => close_filehandle o | None => ret tt end;;
          set_fd newfd fh;;
          f <- get_fh fh; refcount <- fld (fh_refcount f);
          upd_fh fh (fun f => f <| fh_refcount := Some (refcount + 1) |>);;
          ret newfd
    end.

(** ** Paths (source/fscalls.c)

    The path is read from user memory once; nothing writes to it meanwhile. *)

(** [char abs[PATH_MAX]; relative_to_absolute(abs,cwd,path,PATH_MAX)]. *)
Definition absolute_path (path : list Z) : K (list Z) :=
  p <- cur;
  of_opt (relative_to_absolute (replicate (Z.to_nat PATH_MAX) 0) (p_cwd p) path PATH_MAX) "path".
Definition path_entry (path : list Z) : K (Z + Z) :=
  fs <- filesystem; of_opt (get_directory_entry fs path) "read outside of the filesystem".

Definition SIZEOF_STAT : Z := 20.

Definition syscall_stat (path buf : Z) : K Z :=
  v <- valid_string path;
  if negb v then ret (- EFAULT)
  else
    v <- valid_pointer buf SIZEOF_STAT;
    if negb v then ret (- EFAULT)
    else
      s <- user_string path;
      abs <- absolute_path s;
      r <- path_entry abs;
      match r with
      | inl e => ret e
      | inr entry =>
          mode <- entry_field de_mode entry; store32 (User buf) mode;;
          store32 (User (u32 (buf + 4))) 0;;
          store32 (User (u32 (buf + 8))) 0;;
          size <- entry_field de_size entry; store32 (User (u32 (buf + 12))) size;;
          mtime <- entry_field de_mtime entry; store32 (User (u32 (buf + 16))) mtime;;
          ret 0
      end.

(** [for (fd = 0; fd < MAX_FDS; fd++) if (NULL == filedesc[fd]) break]. *)
Fixpoint first_free (l : list Z) (fd : Z) : Z :=
  match l with [] => fd | fh :: l' => if fh =? 0 then fd else first_free l' (fd + 1) end.

Definition syscall_open (pathname flags : Z) : K Z :=
  v <- valid_string pathname;
  if negb v then ret (- EFAULT)
  else
    p <- cur;
    let fd := first_free (p_filedesc p) 0 in
    if fd =? MAX_FDS then ret (- EMFILE)
    else
      s <- user_string pathname;
      abspath <- absolute_path s;
      r <- path_entry abspath;
      match r with
      | inl e => ret e
      | inr entry =>
          type <- entry_field de_type entry;
          if (flags =? OPEN_DIRECTORY) && negb (type =? TYPE_DIR) then ret (- ENOTDIR)
          else if negb (flags =? OPEN_DIRECTORY) && (type =? TYPE_DIR) then ret (- EISDIR)
          else
            fh <- (if type =? TYPE_DIR then new_file FH_DIR else new_file FH_FILE);
            upd_fh fh (fun f => f <| fh_entry := Some entry |> <| fh_pos := Some 0 |> <| fh_entryno := Some 0 |>);;
            set_fd fd fh;;
            ret fd
      end.

(** [struct dirent]: [d_ino] and 1025 bytes of name, padded to a word. *)
Definition SIZEOF_DIRENT : Z := 1032.

(** [snprintf] into user memory. *)
Definition user_snprintf (buf size : Z) (format : list Z) (ap : list arg) : K unit :=
  old <- read_bytes (Z.to_nat size) (User buf);
  '(new, _) <- of_opt (snprintf old size format ap) "format";
  write_bytes (User buf) new.

Definition syscall_getdent (fd entry : Z) : K Z :=
  v <- valid_pointer entry SIZEOF_DIRENT;
  if negb v then ret (- EFAULT)
  else
    h <- fd_handle fd;
    match h with
    | None => ret (- EBADF)
    | Some fh =>
        f <- get_fh fh;
        type <- fld (fh_type f);
        if type =? FH_DIR then
          e <- fld (fh_entry f);
          dir <- entry_field de_location e;
          entryno <- fld (fh_entryno f);
          count <- entry_field dir_count dir;
          if count <=? entryno then ret 0
          else
            store32 (User entry) 0;;
            fs <- filesystem;
            user_snprintf (u32 (entry + 4)) (NAME_MAX + 1) (de_name fs (dir_entry dir entryno)) [];;
            upd_fh fh (fun f => f <| fh_entryno := Some (u32 (entryno + 1)) |>);;
            ret 1
        else ret (- ENOTDIR)
    end.

Definition syscall_chdir (path : Z) : K Z :=
  v <- valid_string path;
  if negb v then ret (- EFAULT)
  else
    s <- user_string path;
    newcwd <- absolute_path s;
    r <- path_entry newcwd;
    match r with
    | inl e => ret e
    | inr entry =>
        type <- entry_field de_type entry;
        if negb (type =? TYPE_DIR) then ret (- ENOTDIR)
        else upd_cur (fun p => p <| p_cwd := newcwd |>);; ret 0
    end.

(** The result is the pointer, 0 for NULL. *)
Definition syscall_getcwd (buf size : Z) : K Z :=
  v <- valid_pointer buf size;
  if negb v then ret 0
  else
    p <- cur;
    user_snprintf buf size (cstr "%s") [AStr (p_cwd p)];;
    ret (s32 buf).
