(* ===== verification/Lifecycle.v ===== *)
(** * The life of a process (source/process.c, source/unixproc.c)

    Creation, duplication, loading of programs, termination and waiting. *)

From S2P Require Import Prelude Constants Libc Page Filesystem Kernel Process Pipe Filedesc.

(** ** start_process *)

(** [proc->filedesc[fd] = fh]. *)
Definition set_filedesc (proc fd fh : Z) : K unit :=
  upd_proc proc (fun p => p <| p_filedesc ::= zinsert fd fh |>).

Definition start_process (start_address : Z) : K Z :=
  pid <- get_free_pid;
  if pid <? 0 then ret (-1)
  else
    upd_proc pid (fun _ => process_zero <| p_pid := pid |> <| p_exists := 1 |>
      <| p_stack_start := PROCESS_STACK_BASE - PROCESS_STACK_SIZE |>
      <| p_stack_end := PROCESS_STACK_BASE |>);;
    pdir <- page_op alloc_page;
    upd_proc pid (fun p => p <| p_pdir := pdir |>);;
    page_op (identity_map pdir (0 * MB) (6 * MB) PAGE_SUPERVISOR PAGE_READ_ONLY);;
    e <- gets k_env;
    page_op (identity_map pdir (e_code_start e) (e_code_end e) PAGE_USER PAGE_READ_ONLY);;
    page_op (map_new_pages pdir (PROCESS_STACK_BASE - PROCESS_STACK_SIZE) (PROCESS_STACK_SIZE / PAGE_SIZE));;
    upd_proc pid (fun p => p <| p_data_start := PROCESS_DATA_BASE |> <| p_data_end := PROCESS_DATA_BASE |>
      <| p_text_start := PROCESS_TEXT_BASE |> <| p_text_end := PROCESS_TEXT_BASE |>
      <| p_parent_pid := -1 |> <| p_waiting_on := -1 |> <| p_exit_status := 255 |>);;
    b <- new_pipe;
    fh <- new_pipe_reader b; set_filedesc pid STDIN_FILENO fh;;
    fh <- new_screen_handle; set_filedesc pid STDOUT_FILENO fh;;
    fh <- new_screen_handle; set_filedesc pid STDERR_FILENO fh;;
    p <- get_proc pid;
    '(cwd, _) <- of_opt (snprintf (p_cwd p) PATH_MAX (cstr "/") []) "format";
    upd_proc pid (fun p => p <| p_cwd := cwd |>);;
    upd_proc pid (fun p => p <| p_saved_regs := init_regs (p_stack_end p) start_address |>);;
    upd_proc pid (fun p => p <| p_ready := 1 |>);;
    list_add Ready pid;;
    ret pid.

(** ** kill_process *)

(** [for (addr = start; addr < end; addr += PAGE_SIZE) unmap_and_free_page(pdir,addr)]. *)
Definition unmap_segment (pdir start end_ : Z) : K unit :=
  page_op (for_pages start end_ (unmap_and_free_page pdir)).

Definition close_all (proc : Z) : K unit :=
  for_ (Z.to_nat MAX_FDS) 0 (fun i =>
    p <- get_proc proc;
    fh <- of_opt (zlookup (p_filedesc p) i) "filedesc[]";
    when_ (truthy fh) (close_filehandle fh)).

(** Children of a dead process have no parent any more. *)
Definition orphan_children (pid : Z) : K unit :=
  for_ (Z.to_nat MAX_PROCESSES) 0 (fun child_pid =>
    c <- get_proc child_pid;
    when_ (pid =? p_parent_pid c) (upd_proc child_pid (fun c => c <| p_parent_pid := -1 |>))).

Definition kill_process (proc : Z) : K unit :=
  k <- get;
  let current := bool_decide (k_current k = Some proc) in
  disable_paging;;
  when_ current (modify (fun k => k <| k_current := None |>));;
  p <- get_proc proc;
  (if truthy (p_ready p) then list_remove Ready proc else list_remove Suspended proc);;
  close_all proc;;
  p <- get_proc proc;
  unmap_segment (p_pdir p) (p_stack_start p) (p_stack_end p);;
  unmap_segment (p_pdir p) (p_data_start p) (p_data_end p);;
  unmap_segment (p_pdir p) (p_text_start p) (p_text_end p);;
  page_op (free_page_dir (p_pdir p));;
  when_ (truthy (p_mailbox p)) (kfree (p_mailbox p));;
  orphan_children (p_pid p);;
  p <- get_proc proc;
  (if p_parent_pid p =? -1 then upd_proc proc (fun p => p <| p_exists := 0 |>)
   else
     parent <- get_proc (p_parent_pid p);
     when_ ((SYSCALL_WAITPID =? p_in_syscall parent) && (p_pid p =? p_waiting_on parent))
       (upd_proc (p_parent_pid p) (fun q => q <| p_waiting_on := -1 |>);;
        resume_process (p_parent_pid p)));;
  upd_proc proc (fun p => p <| p_exited := 1 |>);;
  when_ (negb current) (c <- cur; enable_paging (p_pdir c)).

(** ** map_and_copy, syscall_fork *)

Definition map_and_copy (src_dir dest_dir start end_ : Z) : K unit :=
  assert_ (start mod PAGE_SIZE =? 0) "0 == start%PAGE_SIZE";;
  assert_ (end_ mod PAGE_SIZE =? 0) "0 == end%PAGE_SIZE";;
  for_pages start end_ (fun addr =>
    page <- page_op alloc_page;
    page_op (map_page dest_dir addr page PAGE_USER PAGE_READ_WRITE);;
    sl <- page_op (lookup_page src_dir addr);
    match sl with
    | None => halt "sl"
    | Some src_phys => kmemmove (Phys page) (Phys src_phys) PAGE_SIZE
    end).

(** The child shares the handles of its parent. *)
Definition copy_filedesc (parent child : Z) : K unit :=
  for_ (Z.to_nat MAX_FDS) 0 (fun i =>
    p <- get_proc parent;
    fh <- of_opt (zlookup (p_filedesc p) i) "filedesc[]";
    when_ (truthy fh)
      (set_filedesc child i fh;;
       f <- get_fh fh; refcount <- fld (fh_refcount f);
       upd_fh fh (fun f => f <| fh_refcount := Some (refcount + 1) |>))).

Definition syscall_fork (r : regs) : K Z :=
  child <- get_free_pid;
  if child <? 0 then ret (- EAGAIN)
  else
    parent <- current;
    p <- get_proc parent;
    upd_proc child (fun _ => process_zero <| p_pid := child |> <| p_parent_pid := p_pid p |> <| p_exists := 1 |>);;
    disable_paging;;
    pdir <- page_op alloc_page;
    p <- get_proc parent;
    upd_proc child (fun c => c <| p_pdir := pdir |>
      <| p_text_start := p_text_start p |> <| p_text_end := p_text_end p |>
      <| p_data_start := p_data_start p |> <| p_data_end := p_data_end p |>
      <| p_stack_start := p_stack_start p |> <| p_stack_end := p_stack_end p |>);;
    page_op (for_pages (0 * MB) (6 * MB) (fun addr => map_page pdir addr addr PAGE_USER PAGE_READ_ONLY));;
    map_and_copy (p_pdir p) pdir (p_text_start p) (p_text_end p);;
    map_and_copy (p_pdir p) pdir (p_data_start p) (p_data_end p);;
    map_and_copy (p_pdir p) pdir (p_stack_start p) (p_stack_end p);;
    enable_paging (p_pdir p);;
    copy_filedesc parent child;;
    upd_proc child (fun c => c <| p_saved_regs := r <| r_eax := 0 |> |>);;
    upd_proc child (fun c => c <| p_cwd := p_cwd p |>);;
    upd_proc child (fun c => c <| p_ready := 1 |>);;
    list_add Ready child;;
    ret child.

(** ** syscall_execve *)

(** [argv[i]]. *)
Definition user_argv (argv i : Z) : K Z := load32 (User (u32 (argv + 4 * i))).

(** The loop that checks the pointers of [argv]; no valid array has more
    words than its segment has bytes. *)
Fixpoint valid_argv_loop (fuel : nat) (argv argno : Z) : K bool :=
  match fuel with
  | O => spin
  | S fuel' =>
      v <- valid_pointer argv (u32 ((argno + 1) * 4));
      if negb v then ret false
      else
        a <- user_argv argv argno;
        if a =? 0 then ret true
        else
          v <- valid_string a;
          if negb v then ret false else valid_argv_loop fuel' argv (u32 (argno + 1))
  end.
Definition valid_argv (argv : Z) : K bool :=
  p <- cur;
  if argv =? 0 then ret true else valid_argv_loop (S (string_fuel p argv)) argv 0.

(** [for (argc = 0; argv && argv[argc]; argc++) argslen += strlen(argv[argc])+1]. *)
Fixpoint count_args (fuel : nat) (argv argc argslen : Z) : K (Z * Z) :=
  match fuel with
  | O => spin
  | S fuel' =>
      if argv =? 0 then ret (argc, argslen)
      else
        a <- user_argv argv argc;
        if a =? 0 then ret (argc, argslen)
        else
          s <- user_string a;
          count_args fuel' argv (argc + 1) (u32 (argslen + Z.of_nat (length s)))
  end.

(** The loop that copies the strings, from the end of the buffer down. *)
Fixpoint copy_args (n : nat) (argv argdata argdata_size argno pos : Z) : K unit :=
  match n with
  | O => ret tt
  | S n' =>
      a <- user_argv argv argno;
      s <- user_string a;
      let nbytes := Z.of_nat (length s) in
      let pos := u32 (pos - nbytes) in
      kmemmove (Obj argdata pos) (User a) nbytes;;
      store32 (Obj argdata (8 + 4 * argno)) (u32 (PROCESS_STACK_BASE - argdata_size + pos));;
      copy_args n' argv argdata argdata_size (argno + 1) pos
  end.

(** One page of the executable: [pos] is its offset in the file. *)
Definition load_page (proc data size pos : Z) : K unit :=
  upd_proc proc (fun p => p <| p_text_end := u32 (p_text_start p + pos) |>);;
  page <- page_op alloc_page;
  kmemmove (Phys page) (Image (data + pos)) (if PAGE_SIZE <=? size - pos then PAGE_SIZE else size - pos);;
  p <- get_proc proc;
  page_op (map_page (p_pdir p) (p_text_end p) page PAGE_USER PAGE_READ_WRITE).

(** The segments of the program that runs are given back and the executable is
    loaded. *)
Definition replace_program (proc : Z) (p : process) (entry : Z) : K unit :=
  unmap_segment (p_pdir p) (p_text_start p) (p_text_end p);;
  unmap_segment (p_pdir p) (p_data_start p) (p_data_end p);;
  upd_proc proc (fun p => p <| p_text_start := PROCESS_TEXT_BASE |> <| p_text_end := PROCESS_TEXT_BASE |>
                            <| p_data_start := PROCESS_DATA_BASE |> <| p_data_end := PROCESS_DATA_BASE |>);;
  data <- entry_field de_location entry;
  size <- entry_field de_size entry;
  for_pages 0 size (load_page proc data size);;
  upd_proc proc (fun p => p <| p_text_end :=
    u32 (p_text_start p + (size + PAGE_SIZE - 1) / PAGE_SIZE * PAGE_SIZE) |>).

(** What execve does once the file has been found.  The registers [r] are
    written only when the call succeeds. *)
Definition execve_entry (proc entry argv : Z) (r : regs) : K (Z * regs) :=
  type <- entry_field de_type entry;
  if type =? TYPE_DIR then ret (- EISDIR, r)
  else
    p <- get_proc proc;
    '(argc, argslen) <- count_args (S (string_fuel p argv)) argv 0 0;
    let argdata_size := u32 (argslen + argc * 4 + 8) in
    argdata <- kmalloc_bytes argdata_size;
    copy_args (Z.to_nat argc) argv argdata argdata_size 0 argdata_size;;
    store32 (Obj argdata 0) argc;;
    store32 (Obj argdata 4) (u32 (PROCESS_STACK_BASE - argdata_size + 8));;
    disable_paging;;
    replace_program proc p entry;;
    c <- cur; enable_paging (p_pdir c);;
    kmemmove (User (u32 (PROCESS_STACK_BASE - argdata_size))) (Obj argdata 0) argdata_size;;
    kfree argdata;;
    c <- cur;
    ret (0, init_regs (u32 (PROCESS_STACK_BASE - argdata_size)) (p_text_start c)).

Definition syscall_execve (filename argv : Z) (r : regs) : K (Z * regs) :=
  proc <- current;
  v <- valid_string filename;
  if negb v then ret (- EFAULT, r)
  else
    v <- valid_argv argv;
    if negb v then ret (- EFAULT, r)
    else
      s <- user_string filename;
      res <- path_entry s;
      match res with
      | inl e => ret (e, r)
      | inr entry => execve_entry proc entry argv r
      end.

(** ** syscall_waitpid *)

Definition syscall_waitpid (pid status options : Z) : K Z :=
  if (pid <? 0) || (MAX_PROCESSES <=? pid) then ret (- ECHILD)
  else
    upd_cur (fun p => p <| p_waiting_on := -1 |>);;
    child <- get_proc pid;
    c <- cur;
    if negb (truthy (p_exists child)) || negb (p_parent_pid child =? p_pid c) then ret (- ECHILD)
    else if truthy (p_exited child) then
      when_ (truthy status) (store32 (User status) (p_exit_status child));;
      upd_proc pid (fun p => p <| p_exists := 0 |>);;
      ret pid
    else
      upd_cur (fun p => p <| p_waiting_on := pid |>);;
      proc <- current;
      suspend_process proc;;
      ret (- ESUSPEND).
