(* ===== verification/Syscall.v ===== *)
(** * System calls and context switches (source/syscall.c, source/process.c)

    The calls of syscall.c, the dispatcher and the scheduler, which call each
    other.  The registers [r] of the interrupted process are passed and
    returned. *)

From S2P Require Import Prelude Constants Libc Page Filesystem Kernel Process Pipe Filedesc Lifecycle.

(** ** The calls of syscall.c *)

Definition syscall_getpid : K Z := p <- cur; ret (p_pid p).

Definition syscall_exit (status : Z) : K Z :=
  disable_paging;;
  upd_cur (fun p => p <| p_exit_status := status |>);;
  proc <- current;
  kill_process proc;;
  ret (- ESUSPEND).

Definition syscall_write (fd buf count : Z) : K Z :=
  v <- valid_pointer buf count;
  if negb v then ret (- EFAULT)
  else
    h <- fd_handle fd;
    match h with None => ret (- EBADF) | Some fh => call_write fh (User buf) count end.

Definition syscall_read (fd buf count : Z) : K Z :=
  v <- valid_pointer buf count;
  if negb v then ret (- EFAULT)
  else
    h <- fd_handle fd;
    match h with None => ret (- EBADF) | Some fh => call_read fh (User buf) count end.

Definition syscall_geterrno : K Z := p <- cur; ret (p_last_errno p).

Definition syscall_brk (end_data_segment : Z) : K Z :=
  p <- cur;
  let oldend := p_data_end p in
  let newend := end_data_segment in
  if newend <=? oldend then ret 0
  else
    let newend := if negb (newend mod PAGE_SIZE =? 0) then u32 ((newend / PAGE_SIZE + 1) * PAGE_SIZE)
                  else newend in
    disable_paging;;
    page_op (map_new_pages (p_pdir p) oldend (u32 (newend - oldend) / PAGE_SIZE));;
    enable_paging (p_pdir p);;
    upd_cur (fun p => p <| p_data_end := newend |>);;
    ret 0.

(** [processes[pid].exists] after the range check of kill and send. *)
Definition process_exists (pid : Z) : K bool :=
  if (pid <? 0) || (MAX_PROCESSES <=? pid) then ret false
  else p <- get_proc pid; ret (truthy (p_exists p)).

Definition syscall_kill (pid : Z) : K Z :=
  e <- process_exists pid;
  if negb e then ret (- ESRCH)
  else
    c <- cur;
    let r := if pid =? p_pid c then - ESUSPEND else 0 in
    kill_process pid;;
    ret r.

(** ** Messages *)

(** A slot for one more message of [to]; the first message makes the mailbox.
    [false] when it is full. *)
Definition mailbox_slot (to : Z) : K bool :=
  dest <- get_proc to;
  if p_mailbox dest =? 0 then
    mailbox <- kmalloc_bytes (8 * SIZEOF_MESSAGE);
    upd_proc to (fun p => p <| p_mailbox_alloc := 8 |> <| p_mailbox_size := 1 |> <| p_mailbox := mailbox |>);;
    ret true
  else if p_mailbox_size dest <? p_mailbox_alloc dest then
    upd_proc to (fun p => p <| p_mailbox_size := p_mailbox_size p + 1 |>);; ret true
  else ret false.

(** The stores to [*msg], at the offset [msg] of the mailbox. *)
Definition put_message (mailbox msg from tag data size : Z) : K unit :=
  store32 (Obj mailbox (msg + MESSAGE_FROM)) from;;
  store32 (Obj mailbox (msg + MESSAGE_TAG)) tag;;
  store32 (Obj mailbox (msg + MESSAGE_SIZE)) size;;
  kmemmove (Obj mailbox (msg + MESSAGE_DATA)) (User data) size.

Definition syscall_send (to tag data size : Z) : K Z :=
  v <- valid_pointer data size;
  if negb v then ret (- EFAULT)
  else
    e <- process_exists to;
    if negb e then ret (- ESRCH)
    else if MAX_MESSAGE_SIZE <? size then ret (- EINVAL)
    else
      room <- mailbox_slot to;
      if negb room then ret (- ENOMEM)
      else
        dest <- get_proc to;
        c <- cur;
        put_message (p_mailbox dest) ((p_mailbox_size dest - 1) * SIZEOF_MESSAGE) (p_pid c) tag data size;;
        when_ (truthy (p_receive_blocked dest))
          (resume_process to;; upd_proc to (fun p => p <| p_receive_blocked := 0 |>));;
        ret 0.

Definition syscall_receive (msg block : Z) : K Z :=
  v <- valid_pointer msg SIZEOF_MESSAGE;
  if negb v then ret (- EFAULT)
  else
    p <- cur;
    if 0 <? p_mailbox_size p then
      kmemmove (User msg) (Obj (p_mailbox p) 0) SIZEOF_MESSAGE;;
      kmemmove (Obj (p_mailbox p) 0) (Obj (p_mailbox p) SIZEOF_MESSAGE) ((p_mailbox_size p - 1) * SIZEOF_MESSAGE);;
      upd_cur (fun p => p <| p_mailbox_size := p_mailbox_size p - 1 |>);;
      ret 0
    else if truthy block then
      upd_cur (fun p => p <| p_receive_blocked := 1 |>);;
      proc <- current;
      suspend_process proc;;
      ret (- ESUSPEND)
    else ret (- EAGAIN).

(** ** The dispatcher *)

(** [args[i]], as an int and as an unsigned int or pointer. *)
Definition sarg (r : regs) (i : Z) : K Z :=
  x <- load32 (User (u32 (r_useresp r + 4 + 4 * i))); ret (s32 x).
Definition uarg (r : regs) (i : Z) : K Z := load32 (User (u32 (r_useresp r + 4 + 4 * i))).

(** The switch of [syscall]; the result, and the registers as execve leaves
    them. *)
Definition dispatch (call_no : Z) (r : regs) : K (Z * regs) :=
  let plain (m : K Z) := res <- m; ret (res, r) in
  if call_no =? SYSCALL_GETPID then plain syscall_getpid
  else if call_no =? SYSCALL_EXIT then plain (a <- sarg r 0; syscall_exit a)
  else if call_no =? SYSCALL_WRITE then
    plain (a <- sarg r 0; b <- uarg r 1; c <- uarg r 2; syscall_write a b c)
  else if call_no =? SYSCALL_READ then
    plain (a <- sarg r 0; b <- uarg r 1; c <- uarg r 2; syscall_read a b c)
  else if call_no =? SYSCALL_GETERRNO then plain syscall_geterrno
  else if call_no =? SYSCALL_BRK then plain (a <- uarg r 0; syscall_brk a)
  else if call_no =? SYSCALL_SEND then
    plain (a <- sarg r 0; b <- uarg r 1; c <- uarg r 2; d <- uarg r 3; syscall_send a b c d)
  else if call_no =? SYSCALL_RECEIVE then plain (a <- uarg r 0; b <- sarg r 1; syscall_receive a b)
  else if call_no =? SYSCALL_CLOSE then plain (a <- sarg r 0; syscall_close a)
  else if call_no =? SYSCALL_PIPE then plain (a <- uarg r 0; syscall_pipe a)
  else if call_no =? SYSCALL_DUP2 then plain (a <- sarg r 0; b <- sarg r 1; syscall_dup2 a b)
  else if call_no =? SYSCALL_FORK then plain (syscall_fork r)
  else if call_no =? SYSCALL_EXECVE then
    a <- uarg r 0; b <- uarg r 1; _ <- uarg r 2; syscall_execve a b r
  else if call_no =? SYSCALL_WAITPID then
    plain (a <- sarg r 0; b <- uarg r 1; c <- sarg r 2; syscall_waitpid a b c)
  else if call_no =? SYSCALL_STAT then plain (a <- uarg r 0; b <- uarg r 1; syscall_stat a b)
  else if call_no =? SYSCALL_OPEN then plain (a <- uarg r 0; b <- sarg r 1; syscall_open a b)
  else if call_no =? SYSCALL_GETDENT then plain (a <- sarg r 0; b <- uarg r 1; syscall_getdent a b)
  else if call_no =? SYSCALL_CHDIR then plain (a <- uarg r 0; syscall_chdir a)
  else if call_no =? SYSCALL_GETCWD then plain (a <- uarg r 0; b <- uarg r 1; syscall_getcwd a b)
  else if call_no =? SYSCALL_KILL then plain (a <- sarg r 0; syscall_kill a)
  else
    _ <- kprintf (bytes "Warning: Call to unimplemented system call %d" ++ [10; 0]) [AInt call_no];
    ret (- ENOSYS, r).

(** The errno of a call that has not suspended the process; [geterrno]
    itself leaves it alone. *)
Definition store_errno (call_no res : Z) : K Z :=
  k <- get;
  if negb (call_no =? SYSCALL_GETERRNO) && negb (res =? - ESUSPEND) && bool_decide (is_Some (k_current k)) then
    if res <? 0 then upd_cur (fun p => p <| p_last_errno := - res |>);; ret (-1)
    else upd_cur (fun p => p <| p_last_errno := 0 |>);; ret res
  else ret res.

Definition syscall_body (context_switch : regs -> K regs) (r : regs) : K regs :=
  let call_no := r_eax r in
  k <- get;
  assert_ (bool_decide (is_Some (k_current k))) "current_process";;
  old_current <- current;
  upd_cur (fun p => p <| p_in_syscall := call_no |>);;
  '(res, r) <- dispatch call_no r;
  res <- store_errno call_no res;
  if res =? - ESUSPEND then context_switch r
  else
    upd_proc old_current (fun p => p <| p_in_syscall := 0 |>);;
    let r := r <| r_eax := u32 res |> in
    k <- get;
    if bool_decide (k_current k = Some old_current) then ret r else context_switch r.

(** ** context_switch (source/process.c)

    With no current process the source reads [current_process->ready]
    through a NULL pointer.  Page 0 is mapped for the kernel, so the read
    succeeds, and whatever it yields [current_process] stays NULL. *)
Definition schedule : K (option Z) :=
  k <- get;
  c <- match k_current k with
       | None => ret None
       | Some c => p <- get_proc c; ret (if truthy (p_ready p) then p_next p else None)
       end;
  ret (match c with Some n => Some n | None => pl_first (k_ready k) end).

Definition context_switch_body (syscall : regs -> K regs) (r : regs) : K regs :=
  k <- get;
  match k_current k with
  | Some c => upd_proc c (fun p => p <| p_saved_regs := r |>)
  | None => ret tt
  end;;
  next <- schedule;
  modify (fun k => k <| k_current := next |>);;
  match next with
  | Some c =>
      p <- get_proc c;
      enable_paging (p_pdir p);;
      if truthy (p_in_syscall p) then syscall (p_saved_regs p) else ret (p_saved_regs p)
  | None =>
      e <- gets k_env;
      ret (init_regs (e_idle_stack_end e) (e_idle e))
  end.

(** A nested call is a system call that was suspended and is run again, and
    it nests further only when it suspends its process again: one level for
    each process, and the outermost call. *)
Definition switch_fuel : nat := Z.to_nat (MAX_PROCESSES + 1).

Fixpoint syscall_loop (fuel : nat) (r : regs) : K regs :=
  match fuel with
  | O => spin
  | S fuel' => syscall_body (context_switch_body (syscall_loop fuel')) r
  end.
Definition syscall (r : regs) : K regs := syscall_loop switch_fuel r.
Definition context_switch (r : regs) : K regs := context_switch_body syscall r.
