(* ===== verification/Main.v ===== *)
(** * Interrupts and start-up (source/interrupts.c, source/main.c)

    The scan code of the keyboard, the faulting address in CR2 and what the
    boot loader and the linker provide are arguments. *)

From Stdlib Require Import Ascii.
From S2P Require Import Prelude Constants Buddy Libc Screen Tables Page Kernel Process Pipe Filedesc Lifecycle Syscall.

Definition line (s : string) : list Z := bytes s ++ [10; 0].

(** ** Handlers (source/main.c) *)

Definition timer_handler (r : regs) : K regs :=
  modify (fun k => k <| k_timer_ticks := u32 (k_timer_ticks k + 1) |>);;
  context_switch r.

Definition keyboard_handler (r : regs) (scancode : Z) : K regs :=
  let key := Z.land scancode 0x7F in
  (if truthy (Z.land scancode 0x80) then
     when_ (key =? KEY_SHIFT) (modify (fun k => k <| k_shift_pressed := 0 |>))
   else if key =? KEY_SHIFT then modify (fun k => k <| k_shift_pressed := 1 |>)
   else
     k <- get;
     c <- of_opt (zlookup (if truthy (k_shift_pressed k) then kbdmap_shift else kbdmap) key) "kbdmap[]";
     when_ (truthy (k_input_pipe k)) (write_to_pipe (k_input_pipe k) (Const [c]) 1));;
  context_switch r.

(** ** interrupt_handler (source/interrupts.c) *)

Definition print_regs (r : regs) (cr2 : Z) : K unit :=
  let two (s : string) (a b : Z) : K unit := _ <- kprintf (line s) [AInt a; AInt b]; ret tt in
  two "edi %10p        gs      %10p" (r_edi r) (r_gs r);;
  two "esi %10p        fs      %10p" (r_esi r) (r_fs r);;
  two "ebp %10p        es      %10p" (r_ebp r) (r_es r);;
  two "esp %10p        ds      %10p" (r_esp r) (r_ds r);;
  two "ebx %10p        eip     %10p" (r_ebx r) (r_eip r);;
  two "edx %10p        cs      %10p" (r_edx r) (r_cs r);;
  two "ecx %10p        eflags  %10p" (r_ecx r) (r_eflags r);;
  two "eax %10p        useresp %10p" (r_eax r) (r_useresp r);;
  _ <- kprintf (line "                      ss      %10p") [AInt (r_ss r)];
  _ <- kprintf (line "cr2 = %p") [AInt cr2];
  ret tt.

(** The exception's name on the screen, and the end. *)
Definition system_halted (r : regs) (cr2 : Z) : K unit :=
  print_regs r cr2;;
  name <- of_opt (zlookup exception_messages (r_int_no r)) "exception_messages[]";
  x <- screen_op (addstr 0 (cstr name));
  _ <- screen_op (addstr x (cstr " exception. System halted!"));
  halt "System halted!".

(** A page fault of a process that runs its own code. *)
Definition user_page_fault (int_no : Z) : K bool :=
  k <- get;
  match k_current k with
  | Some c => p <- get_proc c; ret ((int_no =? 14) && negb (truthy (p_in_syscall p)))
  | None => ret false
  end.

Definition interrupt_handler (r : regs) (scancode cr2 : Z) : K regs :=
  let int_no := r_int_no r in
  k <- get;
  let r := r <| r_fstate := k_fpustate k |> in
  r <-
    (if int_no =? INTERRUPT_TIMER then timer_handler r
     else if int_no =? INTERRUPT_KEYBOARD then keyboard_handler r scancode
     else if int_no =? INTERRUPT_SYSCALL then syscall r
     else
       user <- user_page_fault int_no;
       if user : bool then
         c <- current; p <- cur;
         _ <- kprintf (line "Process %d: page fault exception at address %p") [AInt (p_pid p); AInt cr2];
         kill_process c;;
         context_switch r
       else if int_no <=? MAX_EXCEPTION then system_halted r cr2;; ret r
       else ret r);
  when_ ((32 <=? int_no) && (int_no <? 48))
    (when_ (40 <=? int_no) (screen_op (outb 0xA0 0x20));; screen_op (outb 0x20 0x20));;
  modify (fun k => k <| k_fpustate := r_fstate r |>);;
  ret r.

(** ** kernel_main (source/main.c) *)

(** The multiboot structure: the count of modules and the first module. *)
Record multiboot := mkMultiboot { mods_count : Z; mod_start : Z; mod_end : Z }.
(** Addresses of kernel symbols and the memory found at power-on. *)
Record boot := mkBoot {
  bt_gdt : Z; bt_tss : Z; bt_ih_stack : Z; bt_idt : Z;
  bt_interrupt_handlers : list Z;
  bt_heap : gmap Z Z
}.

Definition table_op {A} (m : M tables A) : K A := zoom k_tables (fun t k => k <| k_tables := t |>) m.

Definition setup_interrupts (bt : boot) : K unit :=
  table_op (setup_idt (bt_idt bt) (bt_interrupt_handlers bt));;
  screen_op setup_pic;;
  screen_op setup_timer.

(** Up to the loop that waits for the first context switch. *)
Definition kernel_main (bt : boot) (mb : multiboot) : K unit :=
  table_op (setup_segmentation (bt_gdt bt) (bt_tss bt) (bt_ih_stack bt));;
  setup_interrupts bt;;
  modify (fun k => k <| k_heap := kmalloc_init (bt_heap bt) |>);;
  screen_op clear_screen;;
  s <- gets k_screen;
  screen_op (move_cursor (s32 (xpos s)) (s32 (ypos s)));;
  _ <- kprintf (line "Welcome to AdelaideOS") [];
  assert_ (mods_count mb =? 1) "1 == mb->mods_count";;
  assert_ (mod_end mb <? 2 * MB) "mb->mods_addr[0].mod_end < 2*MB";;
  e <- gets k_env;
  pid <- start_process (e_launch_shell e);
  p <- get_proc pid;
  fh <- of_opt (zlookup (p_filedesc p) STDIN_FILENO) "filedesc[]";
  f <- get_fh fh;
  ip <- fld (fh_p f);
  modify (fun k => k <| k_input_pipe := ip |>).

(** Every global of the kernel is zero before. *)
Definition kernel_zero (e : env) (cells0 : list screenchar) (m : gmap Z Z) : kstate :=
  mkKernel (replicate (Z.to_nat MAX_PROCESSES) process_zero) None (mkList None None) (mkList None None)
    (kmalloc_init ∅) ∅ 0 (initial_pages m) None (mkScreen cells0 0 0 [])
    (mkTables (replicate 6 gdt_zero) (0, 0) (replicate 26 0) (replicate 256 (0, 0, 0, 0, 0)) (0, 0))
    0 0 0 (replicate 27 0) e.
