(* ===== verification/ProcessInv.v ===== *)
(** * Process lists: invariant and lemmas

    [dlist procs l L]: the pointers in the process table and the list header
    [l] represent the sequence [L] of processes.  [sched R S]: the two lists
    of the scheduler represent [R] and [S], and agree with the flags of the
    processes. *)

From S2P Require Import Prelude Constants Kernel Process.

(** ** Process table access *)

Lemma wp_get_proc x p (Q : process -> kstate -> Prop) k :
  zlookup (k_processes k) x = Some p -> Q p k -> wp (get_proc x) Q k.
Proof. intros Hp HQ. unfold get_proc. wp_step. wp_step. by eapply wp_of_opt. Qed.
Lemma wp_upd_proc x p f (Q : unit -> kstate -> Prop) k :
  zlookup (k_processes k) x = Some p ->
  Q tt (k <| k_processes := zinsert x (f p) (k_processes k) |>) -> wp (upd_proc x f) Q k.
Proof. intros Hp HQ. unfold upd_proc. wp_step. wp_step. wp_step. eapply wp_of_opt; [done|]. by wp_step. Qed.

Definition the_list (w : which) (k : kstate) : processlist :=
  match w with Ready => k_ready k | Suspended => k_suspended k end.
Definition with_list (w : which) (l : processlist) (k : kstate) : kstate :=
  match w with Ready => k <| k_ready := l |> | Suspended => k <| k_suspended := l |> end.
Lemma with_the_list w k : with_list w (the_list w k) k = k.
Proof. by destruct w, k. Qed.
Lemma wp_get_list w (Q : processlist -> kstate -> Prop) k : Q (the_list w k) k -> wp (get_list w) Q k.
Proof. done. Qed.
Lemma wp_put_list w l (Q : unit -> kstate -> Prop) k : Q tt (with_list w l k) -> wp (put_list w l) Q k.
Proof. done. Qed.
Lemma wp_when_put (b : bool) w l (Q : unit -> kstate -> Prop) k :
  Q tt (with_list w (if b then l else the_list w k) k) -> wp (when_ b (put_list w l)) Q k.
Proof. destruct b; [done|]. by rewrite with_the_list. Qed.

(** A process without its list pointers. *)
Definition unlinked (p : process) : process := p <| p_prev := None |> <| p_next := None |>.

(** The tables agree except for list pointers of the processes in [X]. *)
Record relinked (X : Z -> Prop) (ps ps' : list process) : Prop := {
  rl_length : length ps' = length ps;
  rl_other x p : ~ X x -> zlookup ps x = Some p -> zlookup ps' x = Some p;
  rl_fields x p : zlookup ps x = Some p -> exists p', zlookup ps' x = Some p' /\ unlinked p' = unlinked p
}.
Arguments rl_length {X ps ps'} _.
Arguments rl_other {X ps ps'} _ {x p} _ _.
Arguments rl_fields {X ps ps'} _ {x p} _.

Lemma relinked_refl (X : Z -> Prop) ps : relinked X ps ps.
Proof. split; eauto. Qed.
Lemma relinked_trans (X : Z -> Prop) ps1 ps2 ps3 : relinked X ps1 ps2 -> relinked X ps2 ps3 -> relinked X ps1 ps3.
Proof.
  intros [L1 O1 F1] [L2 O2 F2]. split; [congruence | eauto |].
  intros x p Hp. destruct (F1 x p Hp) as (p' & Hp' & E1). destruct (F2 x p' Hp') as (p'' & Hp'' & E2).
  exists p''. split; [done | congruence].
Qed.
Lemma relinked_insert (X : Z -> Prop) ps x p p' : zlookup ps x = Some p -> X x -> unlinked p' = unlinked p ->
  relinked X ps (zinsert x p' ps).
Proof.
  intros Hp HX Hu. pose proof (zlookup_range _ _ _ Hp) as Hr. split.
  - apply zinsert_length.
  - intros y q Hy Hq. rewrite zlookup_zinsert_ne; [done|]. by intros ->.
  - intros y q Hq. destruct (decide (y = x)) as [-> |Hne].
    + exists p'. rewrite zlookup_zinsert_eq by done. split; [done | congruence].
    + exists q. by rewrite zlookup_zinsert_ne.
Qed.

(** Fields other than the links carry over. *)
Lemma unlinked_field {A} (f : process -> A) p p' :
  (forall q, f (unlinked q) = f q) -> unlinked p' = unlinked p -> f p' = f p.
Proof. intros Hf He. by rewrite <- Hf, He, Hf. Qed.

(** ** Doubly linked lists *)

Definition before (L : list Z) (i : nat) : option Z := match i with O => None | S j => L !! j end.

Record dlist (ps : list process) (l : processlist) (L : list Z) : Prop := {
  dl_first : pl_first l = head L;
  dl_last : pl_last l = list.last L;
  dl_nodup : NoDup L;
  dl_links i x : L !! i = Some x -> exists p, zlookup ps x = Some p /\ p_prev p = before L i /\ p_next p = L !! S i
}.
Arguments dl_first {ps l L} _.
Arguments dl_last {ps l L} _.
Arguments dl_nodup {ps l L} _.
Arguments dl_links {ps l L} _ {i x} _.

Lemma dlist_elem ps l L x : dlist ps l L -> x ∈ L -> exists p, zlookup ps x = Some p.
Proof. intros Hd [i Hi]%list_elem_of_lookup. destruct (dl_links Hd Hi) as (p & Hp & _). eauto. Qed.

(** A list only depends on its own processes. *)
Lemma dlist_relinked (X : Z -> Prop) ps ps' l L :
  dlist ps l L -> relinked X ps ps' -> (forall x, x ∈ L -> ~ X x) -> dlist ps' l L.
Proof.
  intros Hd Hr HX. split; try apply Hd. intros i x Hi. destruct (dl_links Hd Hi) as (p & Hp & Hl).
  exists p. split; [|done]. apply (rl_other Hr); [|done]. apply HX. by eapply list_elem_of_lookup_2.
Qed.

(** ** list_add *)

Lemma list_add_wp w k L obj p :
  dlist (k_processes k) (the_list w k) L -> obj ∉ L -> zlookup (k_processes k) obj = Some p ->
  p_prev p = None -> p_next p = None ->
  wp (list_add w obj) (fun _ k' => exists ps' l', k' = with_list w l' (k <| k_processes := ps' |>) /\
    dlist ps' l' (obj :: L) /\ relinked (fun x => x = obj \/ x ∈ L) (k_processes k) ps') k.
Proof.
  intros Hd Hobj Hp Hprev Hnext. pose proof (zlookup_range _ _ _ Hp) as Hor. unfold list_add. wp_step.
  apply wp_get_list. rewrite (dl_first Hd).
  assert (Hnd : NoDup (obj :: L)) by (apply list.NoDup_cons; split; [done | apply Hd]).
  destruct L as [|f L]; cbn [head].
  - apply wp_put_list. exists (k_processes k), (mkList (Some obj) (Some obj)).
    split; [by destruct k, w|]. split; [|apply relinked_refl]. split; try done.
    intros [|i] x Hi; [|done]. injection Hi as <-. exists p. done.
  - assert (Hfo : f <> obj) by set_solver.
    destruct (dl_links Hd (i := 0%nat) (x := f) eq_refl) as (pf & Hpf & Hpf1 & Hpf2).
    pose proof (zlookup_range _ _ _ Hpf) as Hfr.
    wp_step. eapply wp_upd_proc; [done|]. wp_step. eapply wp_upd_proc.
    { cbn. by rewrite zlookup_zinsert_ne by congruence. }
    apply wp_put_list. cbn.
    set (po := p <| p_next := Some f |>). set (pf' := pf <| p_prev := Some obj |>).
    exists (zinsert f pf' (zinsert obj po (k_processes k))), ((the_list w k) <| pl_first := Some obj |>).
    split; [by destruct k, w|]. split.
    + split; [done | cbn; rewrite (dl_last Hd); done | done |].
      intros [|[|i]] x Hi; cbn in Hi.
      * injection Hi as <-. exists po. rewrite zlookup_zinsert_ne, zlookup_zinsert_eq by done. done.
      * injection Hi as <-. exists pf'. rewrite zlookup_zinsert_eq by (rewrite zinsert_length; done). done.
      * destruct (dl_links Hd (i := S i) Hi) as (q & Hq & Hq1 & Hq2). exists q.
        assert (x <> f /\ x <> obj) as [Hxf Hxo].
        { split; intros ->.
          - pose proof (dl_nodup Hd) as Hn. apply list.NoDup_cons in Hn as [Hn _]. apply Hn.
            by eapply list_elem_of_lookup_2.
          - apply Hobj. right. by eapply list_elem_of_lookup_2. }
        rewrite !zlookup_zinsert_ne by congruence. done.
    + eapply relinked_trans; [by apply (relinked_insert _ _ obj p po); [|left|]|].
      apply (relinked_insert _ _ f pf pf'); [by rewrite zlookup_zinsert_ne by congruence | right; by left | done].
Qed.

(** ** list_remove *)

(** Update the process behind a pointer that may be NULL. *)
Definition upd_opt (o : option Z) (f : process -> process) (ps : list process) : list process :=
  match o with
  | Some n => match zlookup ps n with Some p => zinsert n (f p) ps | None => ps end
  | None => ps
  end.
Lemma upd_opt_lookup o f ps y :
  zlookup (upd_opt o f ps) y = (if decide (o = Some y) then f else id) <$> zlookup ps y.
Proof.
  unfold upd_opt. destruct o as [n|].
  2: { rewrite decide_False by done. by destruct (zlookup ps y). }
  destruct (zlookup ps n) as [p|] eqn:Hn.
  - destruct (decide (n = y)) as [-> |Hne].
    + rewrite decide_True, Hn by done. rewrite zlookup_zinsert_eq by (by eapply zlookup_range). done.
    + rewrite decide_False by congruence. rewrite zlookup_zinsert_ne by done. by destruct (zlookup ps y).
  - case_decide as Hy; [simplify_eq; by rewrite Hn | by destruct (zlookup ps y)].
Qed.
Lemma wp_upd_opt o f (Q : unit -> kstate -> Prop) k :
  (forall n, o = Some n -> exists p, zlookup (k_processes k) n = Some p) ->
  Q tt (k <| k_processes := upd_opt o f (k_processes k) |>) ->
  wp (match o with Some n => upd_proc n f | None => ret tt end) Q k.
Proof.
  intros Hn HQ. destruct o as [n|].
  - destruct (Hn n eq_refl) as [p Hp]. eapply wp_upd_proc; [done|]. cbn in HQ. by rewrite Hp in HQ.
  - apply wp_ret. cbn in HQ. by destruct k.
Qed.
Lemma relinked_upd_opt (X : Z -> Prop) o f ps :
  (forall n, o = Some n -> X n) -> (forall p, unlinked (f p) = unlinked p) -> relinked X ps (upd_opt o f ps).
Proof.
  intros Ho Hf. destruct o as [n|]; cbn; [|apply relinked_refl].
  destruct (zlookup ps n) as [p|] eqn:Hp; [|apply relinked_refl].
  eapply relinked_insert; [done | by apply Ho | apply Hf].
Qed.

(** The process table after a removal. *)
Definition cut (ps : list process) (obj : Z) (p : process) : list process :=
  let ps := upd_opt (p_next p) (fun q => q <| p_prev := p_prev p |>) ps in
  let ps := upd_opt (p_prev p) (fun q => q <| p_next := p_next p |>) ps in
  zinsert obj (unlinked p) ps.

Lemma before_last (L1 L2 : list Z) x : before (L1 ++ x :: L2) (length L1) = list.last L1.
Proof.
  destruct L1 as [|y L1 _] using rev_ind; [done|]. rewrite length_app, Nat.add_comm. cbn.
  rewrite last_snoc, <- app_assoc. by apply list_lookup_middle.
Qed.

(** The links of the elements in front of the one that is taken out ... *)
Lemma cut_front ps l L1 obj L2 p i x : dlist ps l (L1 ++ obj :: L2) -> p_prev p = list.last L1 -> p_next p = head L2 ->
  L1 !! i = Some x -> exists q, zlookup (cut ps obj p) x = Some q /\ p_prev q = before (L1 ++ L2) i /\ p_next q = (L1 ++ L2) !! S i.
Proof.
  intros Hd Hprev Hnext Hi. pose proof (dl_nodup Hd) as Hnd. apply list.NoDup_app in Hnd as (Hn1 & Hn12 & _).
  assert (Hx1 : x ∈ L1) by (by eapply list_elem_of_lookup_2).
  assert (Hne : x <> obj) by (intros ->; apply (Hn12 obj Hx1); by left).
  unfold cut. rewrite zlookup_zinsert_ne by congruence. rewrite !upd_opt_lookup, Hprev, Hnext. pose proof (lookup_lt_Some _ _ _ Hi) as Hlt.
  destruct (dl_links Hd (i := i) (x := x)) as (q & Hq & Hq1 & Hq2); [by rewrite lookup_app_l|].
  rewrite Hq. assert (head L2 <> Some x) as Hh.
  { intros Hh. destruct L2 as [|y L2]; [done|]. injection Hh as ->. apply (Hn12 x Hx1). right. by left. }
  rewrite (decide_False (P := head L2 = Some x)) by done. eexists. split; [reflexivity|].
  assert (Hbefore : p_prev q = before (L1 ++ L2) i).
  { rewrite Hq1. destruct i; [done|]. cbn. rewrite !lookup_app_l by lia. done. }
  destruct (decide (S i = length L1)) as [Hlast|Hlast].
  - assert (Hl : list.last L1 = Some x) by (rewrite last_lookup, <- Hlast; done).
    rewrite decide_True by done. cbn. split; [done|].
    rewrite lookup_app_r, Hlast, Nat.sub_diag by lia. by destruct L2.
  - rewrite decide_False.
    + cbn. split; [done|]. rewrite Hq2, !lookup_app_l by lia. done.
    + intros Hl. rewrite last_lookup in Hl.
      pose proof (NoDup_lookup _ _ _ _ Hn1 Hi Hl). destruct L1; cbn in *; lia.
Qed.
(** ... and behind it. *)
Lemma cut_back ps l L1 obj L2 p i x : dlist ps l (L1 ++ obj :: L2) -> p_prev p = list.last L1 -> p_next p = head L2 ->
  (length L1 <= i)%nat -> L2 !! (i - length L1)%nat = Some x ->
  exists q, zlookup (cut ps obj p) x = Some q /\ p_prev q = before (L1 ++ L2) i /\ p_next q = (L1 ++ L2) !! S i.
Proof.
  intros Hd Hprev Hnext Hge Hi. pose proof (dl_nodup Hd) as Hnd. apply list.NoDup_app in Hnd as (_ & Hn12 & Hn2).
  apply list.NoDup_cons in Hn2 as [Hn2o Hn2]. assert (Hx2 : x ∈ L2) by (by eapply list_elem_of_lookup_2).
  assert (Hne : x <> obj) by (by intros ->).
  unfold cut. rewrite zlookup_zinsert_ne by congruence. rewrite !upd_opt_lookup, Hprev, Hnext.
  destruct (dl_links Hd (i := S i) (x := x)) as (q & Hq & Hq1 & Hq2).
  { rewrite lookup_app_r by lia. by replace (S i - length L1)%nat with (S (i - length L1)) by lia. }
  rewrite Hq. assert (list.last L1 <> Some x) as Hl.
  { intros Hl. apply (Hn12 x); [|by right]. rewrite last_lookup in Hl. by eapply list_elem_of_lookup_2. }
  rewrite (decide_False (P := list.last L1 = Some x)) by done. eexists. split; [reflexivity|].
  assert (Hafter : p_next q = (L1 ++ L2) !! S i).
  { rewrite Hq2, !lookup_app_r by lia. by replace (S (S i) - length L1)%nat with (S (S i - length L1)) by lia. }
  destruct (decide (i = length L1)) as [-> |Hi0].
  - rewrite Nat.sub_diag in Hi. rewrite decide_True by (by destruct L2). cbn. split; [|done].
    destruct L2 as [|y L2]; [done|]. by rewrite before_last.
  - rewrite decide_False.
    + cbn. split; [|done]. rewrite Hq1. cbn. destruct i as [|i]; [lia|]. cbn. rewrite !lookup_app_r by lia.
      by replace (S i - length L1)%nat with (S (i - length L1)) by lia.
    + intros Hh. destruct L2 as [|y L2]; [done|]. injection Hh as ->.
      pose proof (NoDup_lookup (x :: L2) 0 (i - length L1) x Hn2 eq_refl Hi). lia.
Qed.
Lemma dlist_cut ps l L1 obj L2 p : dlist ps l (L1 ++ obj :: L2) -> zlookup ps obj = Some p ->
  p_prev p = list.last L1 /\ p_next p = head L2 /\
  dlist (cut ps obj p) (mkList (head (L1 ++ L2)) (list.last (L1 ++ L2))) (L1 ++ L2).
Proof.
  intros Hd Hp. pose proof (dl_nodup Hd) as Hnd.
  assert (Hobj : (L1 ++ obj :: L2) !! length L1 = Some obj) by (by apply list_lookup_middle).
  destruct (dl_links Hd Hobj) as (p' & Hp' & Hprev & Hnext). assert (p' = p) as -> by congruence.
  rewrite before_last in Hprev.
  assert (Hnext' : p_next p = head L2).
  { rewrite Hnext, lookup_app_r by lia. replace (S (length L1) - length L1)%nat with 1%nat by lia. by destruct L2. }
  split; [done|]. split; [done|]. apply list.NoDup_app in Hnd as (Hn1 & Hn12 & Hn2). apply list.NoDup_cons in Hn2 as [Hn2o Hn2].
  split; [done | done | |].
  { apply list.NoDup_app. split; [done|]. split; [|done]. intros x H1 H2. apply (Hn12 x H1). by right. }
  intros i x [Hi|[Hge Hi]]%lookup_app_Some; [by eapply cut_front | by eapply cut_back].
Qed.

Lemma cut_relinked (X : Z -> Prop) ps obj p : zlookup ps obj = Some p -> X obj ->
  (forall n, p_prev p = Some n -> X n) -> (forall n, p_next p = Some n -> X n) ->
  p_prev p <> Some obj -> p_next p <> Some obj -> relinked X ps (cut ps obj p).
Proof.
  intros Hp Ho H1 H2 N1 N2. unfold cut.
  eapply relinked_trans; [by apply (relinked_upd_opt X (p_next p) (fun q => q <| p_prev := p_prev p |>))|].
  eapply relinked_trans; [by apply (relinked_upd_opt X (p_prev p) (fun q => q <| p_next := p_next p |>))|].
  apply (relinked_insert X _ obj p (unlinked p)); [|done | reflexivity].
  rewrite !upd_opt_lookup, Hp, !decide_False by done. done.
Qed.

Lemma last_middle (L1 L2 : list Z) x : list.last (L1 ++ x :: L2) = Some x -> NoDup (L1 ++ x :: L2) -> L2 = [].
Proof.
  intros Hl Hn. destruct L2 as [|y L2 _] using rev_ind; [done|].
  rewrite app_comm_cons, app_assoc, last_snoc in Hl. injection Hl as ->.
  apply list.NoDup_app in Hn as (_ & _ & Hn). apply list.NoDup_cons in Hn as [Hn _]. exfalso. apply Hn.
  apply elem_of_app. right. by left.
Qed.

(** The list header after a removal. *)
Lemma header_cut ps l L1 obj L2 p : dlist ps l (L1 ++ obj :: L2) -> p_prev p = list.last L1 -> p_next p = head L2 ->
  let l1 := if bool_decide (pl_first l = Some obj) then l <| pl_first := p_next p |> else l in
  (if bool_decide (pl_last l1 = Some obj) then l1 <| pl_last := p_prev p |> else l1) =
  mkList (head (L1 ++ L2)) (list.last (L1 ++ L2)).
Proof.
  intros Hd Hprev Hnext l1. pose proof (dl_nodup Hd) as Hnd.
  assert (Hl1 : l1 = mkList (head (L1 ++ L2)) (list.last (L1 ++ obj :: L2))).
  { unfold l1. rewrite (dl_first Hd), <- (dl_last Hd). destruct L1 as [|y L1]; cbn.
    - rewrite bool_decide_eq_true_2 by done. by rewrite Hnext.
    - rewrite bool_decide_eq_false_2; [pose proof (dl_first Hd) as Hff; destruct l; cbn in *; by rewrite Hff|].
      intros H. injection H as ->. apply list.NoDup_cons in Hnd as [H _]. apply H. set_solver. }
  rewrite Hl1. cbn. destruct (decide (list.last (L1 ++ obj :: L2) = Some obj)) as [Hl|Hl].
  - rewrite bool_decide_eq_true_2 by done. pose proof (last_middle _ _ _ Hl Hnd) as ->.
    by rewrite app_nil_r, Hprev.
  - rewrite bool_decide_eq_false_2 by done. destruct L2 as [|y L2 _] using rev_ind; [by rewrite last_snoc in Hl|].
    by rewrite app_comm_cons, !app_assoc, !last_snoc.
Qed.

(** The neighbours of a process are in its list. *)
Lemma dlist_neighbours ps l L1 obj L2 p : dlist ps l (L1 ++ obj :: L2) ->
  p_prev p = list.last L1 -> p_next p = head L2 ->
  (forall n, p_prev p = Some n \/ p_next p = Some n -> n ∈ L1 ++ obj :: L2) /\
  p_prev p <> Some obj /\ p_next p <> Some obj.
Proof.
  intros Hd Hprev Hnext. pose proof (dl_nodup Hd) as Hnd. rewrite Hprev, Hnext.
  assert (H1 : forall n, list.last L1 = Some n -> n ∈ L1).
  { intros n Hn. rewrite last_lookup in Hn. by eapply list_elem_of_lookup_2. }
  assert (H2 : forall n, head L2 = Some n -> n ∈ L2).
  { intros n Hn. destruct L2; [done|]. injection Hn as ->. by left. }
  apply list.NoDup_app in Hnd as (_ & H12 & Hn2). apply list.NoDup_cons in Hn2 as [Hn2 _]. split; [|split].
  - intros n [Hn|Hn]; rewrite elem_of_app, elem_of_cons; auto.
  - intros H. apply (H12 obj); [auto | by left].
  - intros H. auto.
Qed.

Lemma list_remove_wp w k L1 obj L2 p :
  dlist (k_processes k) (the_list w k) (L1 ++ obj :: L2) -> zlookup (k_processes k) obj = Some p ->
  wp (list_remove w obj) (fun _ k' => exists ps' l', k' = with_list w l' (k <| k_processes := ps' |>) /\
    dlist ps' l' (L1 ++ L2) /\ zlookup ps' obj = Some (unlinked p) /\
    relinked (fun x => x ∈ L1 ++ obj :: L2) (k_processes k) ps') k.
Proof.
  intros Hd Hp. destruct (dlist_cut _ _ _ _ _ _ Hd Hp) as (Hprev & Hnext & Hcut).
  destruct (dlist_neighbours _ _ _ _ _ p Hd Hprev Hnext) as (Hin & HN1 & HN2).
  pose proof (header_cut _ _ _ _ _ p Hd Hprev Hnext) as Hhead. cbv zeta in Hhead.
  unfold list_remove. wp_step. apply wp_get_list. wp_step. eapply wp_get_proc; [done|].
  wp_step. apply wp_when_put. wp_step. apply wp_get_list. wp_step. apply wp_when_put.
  set (k2 := with_list w _ (with_list w _ k)).
  assert (Hk2 : k2 = with_list w (mkList (head (L1 ++ L2)) (list.last (L1 ++ L2))) k).
  { unfold k2. rewrite <- Hhead. by destruct w. }
  assert (Hps2 : k_processes k2 = k_processes k) by (rewrite Hk2; by destruct w).
  clearbody k2. wp_step. apply wp_upd_opt.
  { intros n Hn. rewrite Hps2. eapply dlist_elem; [done|]. apply Hin. by right. }
  wp_step. eapply wp_get_proc.
  { cbn. rewrite Hps2, upd_opt_lookup, Hp, decide_False by done. reflexivity. }
  wp_step. apply wp_upd_opt.
  { intros n Hn. cbn. rewrite Hps2, upd_opt_lookup. destruct (dlist_elem _ _ _ n Hd) as [q ->]; [|by eexists].
    apply Hin. by left. }
  eapply wp_upd_proc.
  { cbn. rewrite Hps2, !upd_opt_lookup, Hp, !decide_False by done. reflexivity. }
  exists (cut (k_processes k) obj p), (mkList (head (L1 ++ L2)) (list.last (L1 ++ L2))). split; [|split; [|split]].
  - cbn. rewrite Hps2, Hk2. by destruct k, w.
  - done.
  - unfold cut. apply zlookup_zinsert_eq.
    assert (Hlen : forall o f ps, length (upd_opt o f ps) = length ps).
    { intros [n|] f ps; cbn; [|done]. destruct (zlookup ps n); [apply zinsert_length | done]. }
    rewrite !Hlen. by eapply zlookup_range.
  - apply cut_relinked; try done.
    + apply elem_of_app. right. by left.
    + intros n Hn. apply Hin. by left.
    + intros n Hn. apply Hin. by right.
Qed.

(** ** The scheduler's two lists *)

Record sched (R S : list Z) (k : kstate) : Prop := {
  sc_table : length (k_processes k) = Z.to_nat MAX_PROCESSES;
  sc_ready : dlist (k_processes k) (k_ready k) R;
  sc_suspended : dlist (k_processes k) (k_suspended k) S;
  sc_disjoint x : x ∈ R -> x ∉ S;
  sc_runnable x p : x ∈ R -> zlookup (k_processes k) x = Some p -> p_exists p <> 0 /\ p_ready p <> 0;
  sc_blocked x p : x ∈ S -> zlookup (k_processes k) x = Some p -> p_exists p <> 0 /\ p_ready p = 0;
  sc_off x p : zlookup (k_processes k) x = Some p -> x ∉ R -> x ∉ S -> p_prev p = None /\ p_next p = None
}.
Arguments sc_table {R S k} _.
Arguments sc_ready {R S k} _.
Arguments sc_suspended {R S k} _.
Arguments sc_disjoint {R S k} _ {x} _ _.
Arguments sc_runnable {R S k} _ {x p} _ _.
Arguments sc_blocked {R S k} _ {x p} _ _.
Arguments sc_off {R S k} _ {x p} _ _ _.

(** Only the lists, the links and the ready flag of [x] have changed. *)
Definition moved (x v : Z) (k k' : kstate) : Prop :=
  exists ps' lr ls, k' = k <| k_processes := ps' |> <| k_ready := lr |> <| k_suspended := ls |> /\
    length ps' = length (k_processes k) /\
    forall y p, zlookup (k_processes k) y = Some p -> exists p', zlookup ps' y = Some p' /\
      unlinked p' = unlinked (if decide (y = x) then p <| p_ready := v |> else p).

Lemma dlist_links_eq ps ps' l L : dlist ps l L ->
  (forall x p, x ∈ L -> zlookup ps x = Some p -> exists p', zlookup ps' x = Some p' /\
     p_prev p' = p_prev p /\ p_next p' = p_next p) -> dlist ps' l L.
Proof.
  intros Hd He. split; try apply Hd. intros i x Hi. destruct (dl_links Hd Hi) as (p & Hp & H1 & H2).
  destruct (He x p) as (p' & Hp' & E1 & E2); [by eapply list_elem_of_lookup_2 | done |].
  exists p'. split; [done|]. by rewrite E1, E2.
Qed.
Lemma dlist_set_flag ps l L x p (f : process -> process) : dlist ps l L -> zlookup ps x = Some p ->
  p_prev (f p) = p_prev p -> p_next (f p) = p_next p -> dlist (zinsert x (f p) ps) l L.
Proof.
  intros Hd Hp H1 H2. apply (dlist_links_eq ps); [done|]. intros y q Hy Hq.
  destruct (decide (y = x)) as [-> |Hne].
  - exists (f p). rewrite zlookup_zinsert_eq by (by eapply zlookup_range). split; [done|]. by simplify_eq.
  - exists q. by rewrite zlookup_zinsert_ne.
Qed.

(** Moving [x] from the list [w1] to the list [w2], with its flag. *)
Lemma move_wp w1 w2 v x k p L1 L2 L' :
  w1 <> w2 -> zlookup (k_processes k) x = Some p ->
  dlist (k_processes k) (the_list w1 k) (L1 ++ x :: L2) -> dlist (k_processes k) (the_list w2 k) L' ->
  (forall y, y ∈ L1 ++ x :: L2 -> y ∉ L') ->
  wp (upd_proc x (fun p => p <| p_ready := v |>);; list_remove w1 x;; list_add w2 x) (fun _ k' =>
    moved x v k k' /\ dlist (k_processes k') (the_list w1 k') (L1 ++ L2) /\
    dlist (k_processes k') (the_list w2 k') (x :: L') /\
    forall y q, zlookup (k_processes k) y = Some q -> y ∉ L1 ++ x :: L2 -> y ∉ L' ->
      zlookup (k_processes k') y = Some q) k.
Proof.
  intros Hw Hp Hd1 Hd2 Hdis. pose proof (zlookup_range _ _ _ Hp) as Hr.
  assert (Hx : x ∈ L1 ++ x :: L2) by (apply elem_of_app; right; by left).
  wp_step. eapply wp_upd_proc; [done|]. set (p1 := p <| p_ready := v |>).
  set (ps1 := zinsert x p1 (k_processes k)).
  assert (Hp1 : zlookup ps1 x = Some p1) by (by apply zlookup_zinsert_eq).
  wp_step. eapply wp_mono; [apply (list_remove_wp w1 _ L1 x L2 p1); [|exact Hp1]|].
  { destruct w1; cbn; by apply dlist_set_flag. }
  intros [] k2 (ps2 & l2 & -> & Hl2 & Hx2 & Hrel2).
  assert (Hd2' : dlist ps2 (the_list w2 k) L').
  { eapply dlist_relinked; [apply (dlist_set_flag _ _ _ x p (fun p => p <| p_ready := v |>) Hd2 Hp); done | exact Hrel2 |].
    intros y Hy Hy'. by apply (Hdis y). }
  eapply wp_mono; [apply (list_add_wp w2 _ L' x (unlinked p1))|].
  - destruct w1, w2; try done; cbn; done.
  - by apply Hdis.
  - by destruct w1.
  - done.
  - done.
  - intros [] k3 (ps3 & l3 & Hk3 & Hl3 & Hrel3).
    replace (k_processes (with_list w1 l2 _)) with ps2 in Hrel3 by (by destruct w1).
    assert (Hps3 : k_processes k3 = ps3) by (rewrite Hk3; by destruct w1, w2).
    assert (Hlist1 : the_list w1 k3 = l2) by (rewrite Hk3; by destruct w1, w2).
    assert (Hlist2 : the_list w2 k3 = l3) by (rewrite Hk3; by destruct w1, w2).
    rewrite Hps3, Hlist1, Hlist2. split; [|split; [|split]].
    + exists ps3, (the_list Ready k3), (the_list Suspended k3). split; [|split].
      * rewrite Hk3. by destruct k, w1, w2.
      * rewrite (rl_length Hrel3), (rl_length Hrel2). apply zinsert_length.
      * intros y q Hq. assert (Hq1 : zlookup ps1 y = Some (if decide (y = x) then q <| p_ready := v |> else q)).
        { case_decide as Hyx; [subst y; assert (q = p) as -> by congruence; done|].
          unfold ps1. by rewrite zlookup_zinsert_ne. }
        destruct (rl_fields Hrel2 Hq1) as (q2 & Hq2 & E2). destruct (rl_fields Hrel3 Hq2) as (q3 & Hq3 & E3).
        exists q3. split; [done | congruence].
    + eapply dlist_relinked; [done | exact Hrel3 |]. intros y Hy [-> |Hy'].
      * pose proof (dl_nodup Hd1) as Hn. apply list.NoDup_app in Hn as (_ & H12 & Hn2). apply list.NoDup_cons in Hn2 as [Hn2 _].
        apply elem_of_app in Hy as [Hy|Hy]; [apply (H12 x Hy); by left | done].
      * apply (Hdis y); [|done]. rewrite elem_of_app in Hy |- *. rewrite elem_of_cons. tauto.
    + done.
    + intros y q Hq H1 H2. apply (rl_other Hrel3).
      * intros [-> |?]; done.
      * apply (rl_other Hrel2); [done|]. change (zlookup ps1 y = Some q). unfold ps1.
        rewrite zlookup_zinsert_ne; [done|]. by intros ->.
Qed.

Lemma unlinked_ready p q : unlinked p = unlinked q -> p_exists p = p_exists q /\ p_ready p = p_ready q.
Proof. intros H. split; [apply (f_equal p_exists) in H | apply (f_equal p_ready) in H]; exact H. Qed.

(** The invariant after [x] has changed lists. *)
Lemma sched_move R S R' S' x v p k k' : sched R S k -> zlookup (k_processes k) x = Some p -> p_exists p <> 0 ->
  moved x v k k' ->
  dlist (k_processes k') (k_ready k') R' -> dlist (k_processes k') (k_suspended k') S' ->
  (forall y q, zlookup (k_processes k) y = Some q -> y ∉ R -> y ∉ S -> zlookup (k_processes k') y = Some q) ->
  (forall y, y ∈ R' <-> if decide (y = x) then v <> 0 else y ∈ R) ->
  (forall y, y ∈ S' <-> if decide (y = x) then v = 0 else y ∈ S) ->
  sched R' S' k'.
Proof.
  intros Hs Hp He (ps' & lr & ls & Hk' & Hlen & Hf) Hd1 Hd2 Hoff HR HS.
  assert (Hps : k_processes k' = ps') by (by rewrite Hk').
  assert (Hflag : forall y q, zlookup (k_processes k') y = Some q -> exists q0, zlookup (k_processes k) y = Some q0 /\
    p_exists q = p_exists q0 /\ p_ready q = if decide (y = x) then v else p_ready q0).
  { intros y q Hq. rewrite Hps in Hq. destruct (zlookup_is_Some (k_processes k) y) as [q0 Hq0].
    { rewrite <- Hlen. by eapply zlookup_range. }
    destruct (Hf y q0 Hq0) as (q' & Hq' & E). assert (q' = q) as -> by congruence.
    apply unlinked_ready in E as [E1 E2]. exists q0. split; [done|]. rewrite E1, E2. by case_decide. }
  split; [rewrite Hps, Hlen; apply Hs | done | done | | | |].
  - intros y H1%HR H2%HS. case_decide; [done|]. by apply (sc_disjoint Hs H1).
  - intros y q Hy%HR Hq. destruct (Hflag y q Hq) as (q0 & Hq0 & -> & ->).
    case_decide; [subst y; by assert (q0 = p) as -> by congruence | by apply (sc_runnable Hs Hy)].
  - intros y q Hy%HS Hq. destruct (Hflag y q Hq) as (q0 & Hq0 & -> & ->).
    case_decide; [subst y; by assert (q0 = p) as -> by congruence | by apply (sc_blocked Hs Hy)].
  - intros y q Hq H1 H2. destruct (Hflag y q Hq) as (q0 & Hq0 & _). rewrite HR in H1. rewrite HS in H2.
    case_decide; [destruct (decide (v = 0)); tauto|].
    pose proof (Hoff y q0 Hq0 H1 H2) as Hq'. assert (q0 = q) as -> by congruence. by apply (sc_off Hs Hq0).
Qed.

Lemma elem_of_without (L1 L2 : list Z) x y : NoDup (L1 ++ x :: L2) ->
  y ∈ L1 ++ L2 <-> if decide (y = x) then False else y ∈ L1 ++ x :: L2.
Proof.
  intros Hn. apply list.NoDup_app in Hn as (_ & H12 & Hn2). apply list.NoDup_cons in Hn2 as [Hn2 _].
  case_decide as Hy; rewrite !elem_of_app; [subst y|rewrite elem_of_cons; tauto]. split; [|done].
  intros [H|H]; [apply (H12 x H); by left | done].
Qed.

Lemma suspend_process_wp R1 R2 S x k : sched (R1 ++ x :: R2) S k ->
  wp (suspend_process x) (fun _ k' => sched (R1 ++ R2) (x :: S) k' /\ moved x 0 k k') k.
Proof.
  intros Hs. assert (Hx : x ∈ R1 ++ x :: R2) by (apply elem_of_app; right; by left).
  destruct (dlist_elem _ _ _ x (sc_ready Hs) Hx) as [p Hp]. destruct (sc_runnable Hs Hx Hp) as [He Hr].
  unfold suspend_process. wp_step. eapply wp_get_proc; [done|]. unfold truthy.
  wp_step. wp_step; [by b2p|]. wp_step. wp_step; [by b2p|].
  eapply wp_mono; [apply (move_wp Ready Suspended 0 x k p R1 R2 S); try done; [apply Hs | apply Hs | intros y; apply (sc_disjoint Hs)]|].
  intros [] k' (Hm & Hd1 & Hd2 & Hoff). split; [|done].
  apply (sched_move (R1 ++ x :: R2) S _ _ x 0 p k k'); try done.
  - intros y. rewrite elem_of_without by apply (sc_ready Hs). case_decide; [|done]. split; [done | lia].
  - intros y. rewrite elem_of_cons. case_decide; [by split; [|left]|]. split; [by intros [?|?] | by right].
Qed.

Lemma resume_process_wp R S1 S2 x k : sched R (S1 ++ x :: S2) k ->
  wp (resume_process x) (fun _ k' => sched (x :: R) (S1 ++ S2) k' /\ moved x 1 k k') k.
Proof.
  intros Hs. assert (Hx : x ∈ S1 ++ x :: S2) by (apply elem_of_app; right; by left).
  destruct (dlist_elem _ _ _ x (sc_suspended Hs) Hx) as [p Hp]. destruct (sc_blocked Hs Hx Hp) as [He Hr].
  unfold resume_process. wp_step. eapply wp_get_proc; [done|]. unfold truthy.
  wp_step. wp_step; [by b2p|]. wp_step. wp_step; [rewrite Hr; done|].
  eapply wp_mono; [apply (move_wp Suspended Ready 1 x k p S1 S2 R); try done; [apply Hs | apply Hs | intros y H1 H2; by apply (sc_disjoint Hs H2)]|].
  intros [] k' (Hm & Hd1 & Hd2 & Hoff). split; [|done].
  apply (sched_move R (S1 ++ x :: S2) _ _ x 1 p k k'); try done.
  - intros y q Hq H1 H2. by apply Hoff.
  - intros y. rewrite elem_of_cons. case_decide; [by split; [|left]|]. split; [by intros [?|?] | by right].
  - intros y. rewrite elem_of_without by apply (sc_suspended Hs). case_decide; [|done]. split; [done | lia].
Qed.
