(* ===== verification/ProcessTheorems.v ===== *)
(** * The scheduler: theorems (source/process.c)

    Suspending and resuming processes, free process ids, and context
    switches. *)

From S2P Require Import Prelude Constants Kernel Process ProcessInv Lifecycle Syscall.

(** ** Lemmas *)

(** The invariant depends on the lists, the links and two flags only. *)
Lemma sched_frame R S k k' : sched R S k -> k_processes k' = k_processes k -> k_ready k' = k_ready k ->
  k_suspended k' = k_suspended k -> sched R S k'.
Proof. intros [] Hp Hr Hs. split; rewrite ?Hp, ?Hr, ?Hs; done. Qed.

Definition same_sched (p p' : process) : Prop :=
  p_prev p' = p_prev p /\ p_next p' = p_next p /\ p_exists p' = p_exists p /\ p_ready p' = p_ready p.

(** Only [x] has changed, up to the links of the lists. *)
Definition others_same (x : Z) (k k' : kstate) : Prop :=
  forall y q, y <> x -> zlookup (k_processes k) y = Some q ->
    exists q', zlookup (k_processes k') y = Some q' /\ unlinked q' = unlinked q.

Lemma sched_upd R S k x p p' : sched R S k -> zlookup (k_processes k) x = Some p -> same_sched p p' ->
  sched R S (k <| k_processes := zinsert x p' (k_processes k) |>).
Proof.
  intros Hs Hp (E1 & E2 & E3 & E4).
  assert (Hq : forall y q, zlookup (zinsert x p' (k_processes k)) y = Some q ->
    exists q0, zlookup (k_processes k) y = Some q0 /\ same_sched q0 q).
  { intros y q Hq. destruct (decide (x = y)) as [<- |Hne].
    - rewrite zlookup_zinsert_eq in Hq by (by eapply zlookup_range). injection Hq as <-. by exists p.
    - rewrite zlookup_zinsert_ne in Hq by done. by exists q. }
  assert (Hd : forall l L, dlist (k_processes k) l L -> dlist (zinsert x p' (k_processes k)) l L).
  { intros l L Hd. apply (dlist_set_flag _ _ _ x p (fun _ => p') Hd Hp); done. }
  split; cbn; [rewrite zinsert_length; apply Hs | apply Hd, Hs | apply Hd, Hs | apply Hs | | |].
  - intros y q Hy (q0 & Hq0 & _ & _ & -> & ->)%Hq. by apply (sc_runnable Hs Hy).
  - intros y q Hy (q0 & Hq0 & _ & _ & -> & ->)%Hq. by apply (sc_blocked Hs Hy).
  - intros y q (q0 & Hq0 & -> & -> & _)%Hq H1 H2. by apply (sc_off Hs Hq0).
Qed.

Lemma sched_proc R S k x : sched R S k -> 0 <= x < MAX_PROCESSES -> exists p, zlookup (k_processes k) x = Some p.
Proof. intros Hs Hx. apply zlookup_is_Some. rewrite (sc_table Hs). unfold MAX_PROCESSES in *. lia. Qed.

(** ** Free process ids *)

Definition pid_used (k : kstate) (x : Z) : Prop :=
  exists p, zlookup (k_processes k) x = Some p /\ p_exists p <> 0.

Lemma free_pid_loop_spec n pid k : length (k_processes k) = Z.to_nat MAX_PROCESSES -> 1 <= pid <= MAX_PROCESSES ->
  pid + Z.of_nat n = MAX_PROCESSES + 1 ->
  wp (free_pid_loop n pid) (fun r k' => k' = k /\ pid <= r <= MAX_PROCESSES /\
    (forall x, pid <= x < r -> pid_used k x) /\ (r < MAX_PROCESSES -> ~ pid_used k r)) k.
Proof.
  intros Hlen. revert pid. induction n as [|n IH]; intros pid H1 Hn.
  { unfold MAX_PROCESSES in *. lia. }
  cbn. apply wp_if; intros Ht; b2p.
  2: { apply wp_ret. split; [done|]. split; [lia|]. split; [intros; lia | lia]. }
  destruct (zlookup_is_Some (k_processes k) pid) as [p Hp].
  { rewrite Hlen. unfold MAX_PROCESSES in *. lia. }
  wp_step. eapply wp_get_proc; [done|]. unfold truthy. apply wp_if; intros He; b2p.
  - eapply wp_mono; [apply IH; lia|]. intros r k' (-> & Hr & Hu & Hf). split; [done|]. split; [lia|].
    split; [|done]. intros x Hx. destruct (decide (x = pid)) as [-> |Hne]; [by exists p | apply Hu; lia].
  - apply wp_ret. split; [done|]. split; [lia|]. split; [intros; lia|]. intros _ (q & Hq & Hq0). by simplify_eq.
Qed.

(** [get_free_pid] returns the lowest process id from 1 on whose slot is
    free, and -1 exactly when the slots 1 to [MAX_PROCESSES - 1] are all in
    use; it never returns 0, which [fork] reserves, and changes nothing. *)
Theorem get_free_pid_correct k : length (k_processes k) = Z.to_nat MAX_PROCESSES ->
  wp get_free_pid (fun r k' => k' = k /\
    ((r = -1 /\ forall x, 1 <= x < MAX_PROCESSES -> pid_used k x) \/
     (1 <= r < MAX_PROCESSES /\ ~ pid_used k r /\ forall x, 1 <= x < r -> pid_used k x))) k.
Proof.
  intros Hlen. unfold get_free_pid. wp_step.
  eapply wp_mono; [apply (free_pid_loop_spec _ 1); [done | done | done]|].
  intros r k' (-> & Hr & Hu & Hf). apply wp_ret. split; [done|]. case_test.
  - left. split; [done|]. intros x Hx. apply Hu. lia.
  - right. split; [lia|]. split; [apply Hf; lia | done].
Qed.

(** ** A small system for the witnesses *)

(** [n] processes with ids from 1 on the ready list, in order, the first of
    them running; every other slot is free. *)
Definition demo_process (n x : Z) : process :=
  if (1 <=? x) && (x <=? n) then
    process_zero <| p_pid := x |> <| p_exists := 1 |> <| p_ready := 1 |> <| p_pdir := x * PAGE_SIZE + PAGE_START |>
      <| p_saved_regs := regs_zero <| r_eip := x |> |>
      <| p_prev := if x =? 1 then None else Some (x - 1) |> <| p_next := if x =? n then None else Some (x + 1) |>
  else process_zero.
Definition demo_env : env := mkEnv [] 0x100000 0x110000 0x100100 0x112000 0x100200 (fun _ _ => 0).
Definition demo (n : Z) : kstate :=
  mkKernel (demo_process n <$> seqZ 0 MAX_PROCESSES) (Some 1) (mkList (Some 1) (Some n)) (mkList None None)
    (Buddy.Build_memarea 8 8 0 [] [] ∅) ∅ 0 (Page.initial_pages ∅) None (Screen.mkScreen [] 0 0 [])
    (Tables.mkTables [] (0, 0) [] [] (0, 0)) 0 0 0 (replicate 27 0) demo_env.

Lemma demo_lookup n x p : zlookup (k_processes (demo n)) x = Some p -> p = demo_process n x.
Proof.
  cbn [demo k_processes]. unfold zlookup. case_test; [done|].
  rewrite list_lookup_fmap. intros (y & Hy & ->)%fmap_Some. apply lookup_seqZ in Hy as [-> _]. f_equal. lia.
Qed.

Lemma demo_at n x : 0 <= x < MAX_PROCESSES -> zlookup (k_processes (demo n)) x = Some (demo_process n x).
Proof.
  intros Hx. destruct (zlookup_is_Some (k_processes (demo n)) x) as [p Hp]; [|by rewrite Hp, (demo_lookup n x p Hp)].
  cbn [demo k_processes]. rewrite length_fmap, length_seqZ. lia.
Qed.

(** Case analysis over the processes of a [demo]. *)
Ltac demo_cases H := set_unfold in H; repeat destruct H as [-> |H]; [..|destruct H].

Lemma demo_sched : sched [1; 2; 3] [] (demo 3).
Proof.
  split.
  - by vm_compute.
  - split; [done | done | by apply (bool_decide_unpack _) |].
    intros i x Hi. assert (i < 3)%nat by (by apply lookup_lt_Some in Hi).
    do 3 (destruct i as [|i]; [injection Hi as <-; eexists; split; [reflexivity | done]|]). lia.
  - split; [done | done | apply NoDup_nil_2 |]. by intros i x Hi.
  - intros x _ H. by apply not_elem_of_nil in H.
  - intros x p Hx ->%demo_lookup. by demo_cases Hx.
  - intros x p H. by apply not_elem_of_nil in H.
  - intros x p ->%demo_lookup Hx _. unfold demo_process. case_test; [|done]. exfalso. apply Hx. set_unfold. lia.
Qed.
Lemma demo_sched1 : sched [1] [] (demo 1).
Proof.
  split.
  - by vm_compute.
  - split; [done | done | by apply (bool_decide_unpack _) |].
    intros [|i] x Hi; [|done]. injection Hi as <-. eexists. split; [reflexivity | done].
  - split; [done | done | apply NoDup_nil_2 |]. by intros i x Hi.
  - intros x _ H. by apply not_elem_of_nil in H.
  - intros x p Hx ->%demo_lookup. by demo_cases Hx.
  - intros x p H. by apply not_elem_of_nil in H.
  - intros x p ->%demo_lookup Hx _. unfold demo_process. case_test; [|done]. exfalso. apply Hx. set_unfold. lia.
Qed.

Lemma get_free_pid_correct_witness :
  wp get_free_pid (fun r k' => k' = demo 3 /\
    ((r = -1 /\ forall x, 1 <= x < MAX_PROCESSES -> pid_used (demo 3) x) \/
     (1 <= r < MAX_PROCESSES /\ ~ pid_used (demo 3) r /\ forall x, 1 <= x < r -> pid_used (demo 3) x))) (demo 3) /\
  get_free_pid (demo 3) = Ok 4 (demo 3).
Proof. split; [apply (get_free_pid_correct (demo 3) (sc_table demo_sched)) | vm_compute; reflexivity]. Defined.

(** ** Suspend and resume *)

(** C40. A ready process that is suspended leaves the ready list and becomes
    the head of the suspended list; a suspended process that is resumed does
    the opposite.  Both keep the well-formedness of the two doubly linked
    lists and change nothing else in the kernel but the process's ready flag
    and list pointers.  A process that does not exist, or is in the wrong state,
    stops the machine in the assertion for it with nothing changed. *)
Theorem suspend_resume_correct k R S x : sched R S k ->
  (forall R1 R2, R = R1 ++ x :: R2 ->
    wp (suspend_process x) (fun _ k' => sched (R1 ++ R2) (x :: S) k' /\ moved x 0 k k') k) /\
  (forall S1 S2, S = S1 ++ x :: S2 ->
    wp (resume_process x) (fun _ k' => sched (x :: R) (S1 ++ S2) k' /\ moved x 1 k k') k) /\
  (forall p, zlookup (k_processes k) x = Some p ->
    (p_exists p = 0 -> suspend_process x k = Halt "proc->exists" k /\ resume_process x k = Halt "proc->exists" k) /\
    (p_exists p <> 0 -> p_ready p = 0 -> suspend_process x k = Halt "proc->ready" k) /\
    (p_exists p <> 0 -> p_ready p <> 0 -> resume_process x k = Halt "!proc->ready" k)).
Proof.
  intros Hs. split; [|split].
  - intros R1 R2 ->. by apply suspend_process_wp.
  - intros S1 S2 ->. by apply resume_process_wp.
  - intros p Hp. unfold suspend_process, resume_process, get_proc, bind, get, of_opt, assert_, truthy.
    rewrite Hp. unfold ret, halt. by destruct (Z.eqb_spec (p_exists p) 0), (Z.eqb_spec (p_ready p) 0).
Qed.
Lemma suspend_resume_correct_witness :
  wp (suspend_process 2) (fun _ k' => sched [1; 3] [2] k' /\ moved 2 0 (demo 3) k') (demo 3) /\
  resume_process 2 (demo 3) = Halt "!proc->ready" (demo 3).
Proof.
  destruct (suspend_resume_correct (demo 3) [1; 2; 3] [] 2 demo_sched) as (H1 & _ & H3). split.
  - apply (H1 [1] [3]). reflexivity.
  - apply (H3 (demo_process 3 2)); [by apply demo_at | discriminate | discriminate].
Defined.

(** ** Context switches *)

(** Round robin over the ready list: the process after the current one,
    cyclically, or the first one when the current process is not ready. *)
Definition next_of (R : list Z) (c : option Z) : option Z :=
  match c with
  | None => head R
  | Some c => match list_find (eq c) R with Some (i, _) => R !! ((i + 1) mod length R)%nat | None => head R end
  end.

Lemma next_of_lookup R i c : NoDup R -> R !! i = Some c -> next_of R (Some c) = R !! ((i + 1) mod length R)%nat.
Proof.
  intros Hn Hi. unfold next_of. destruct (list_find (eq c) R) as [[j y]|] eqn:Hf.
  - apply list_find_Some in Hf as (Hj & <- & _). by rewrite (NoDup_lookup _ _ _ _ Hn Hi Hj).
  - apply list_find_None in Hf. rewrite list.Forall_forall in Hf. exfalso. eapply Hf; [|done]. by eapply list_elem_of_lookup_2.
Qed.
Lemma next_of_notin R c : c ∉ R -> next_of R (Some c) = head R.
Proof.
  intros Hn. unfold next_of. destruct (list_find (eq c) R) as [[j y]|] eqn:Hf; [|done].
  apply list_find_Some in Hf as (Hj & <- & _). exfalso. apply Hn. by eapply list_elem_of_lookup_2.
Qed.

(** The current process is on one of the two lists. *)
Definition current_listed (R S : list Z) (k : kstate) : Prop := forall c, k_current k = Some c -> c ∈ R \/ c ∈ S.

Lemma schedule_spec R S k : sched R S k -> current_listed R S k ->
  wp schedule (fun n k' => n = next_of R (k_current k) /\ k' = k) k.
Proof.
  intros Hs Hc. unfold schedule. wp_step. apply wp_get. wp_step. destruct (k_current k) as [c|] eqn:Hcur.
  2: { wp_step. wp_step. by rewrite (dl_first (sc_ready Hs)). }
  destruct (decide (c ∈ R)) as [Hin|Hnot].
  - apply list_elem_of_lookup in Hin as [i Hi]. destruct (dl_links (sc_ready Hs) Hi) as (p & Hp & _ & Hnext).
    destruct (sc_runnable Hs (list_elem_of_lookup_2 _ _ _ Hi) Hp) as [_ Hr].
    wp_step. eapply wp_get_proc; [done|]. wp_step. wp_step. split; [|done].
    rewrite (next_of_lookup R i c (dl_nodup (sc_ready Hs)) Hi), (dl_first (sc_ready Hs)), Hnext.
    unfold truthy. destruct (Z.eqb_spec (p_ready p) 0); [lia|]. cbn. pose proof (lookup_lt_Some _ _ _ Hi) as Hlt.
    destruct (decide (length R = i + 1)%nat) as [He|Hne].
    + rewrite <- He, Nat.Div0.mod_same. rewrite (lookup_ge_None_2 R (Datatypes.S i)) by lia. by destruct R.
    + rewrite Nat.mod_small by lia. replace (Datatypes.S i) with (i + 1)%nat by lia.
      destruct (lookup_lt_is_Some_2 R (i + 1)%nat) as [y ->]; [lia | done].
  - destruct (Hc c Hcur) as [|HS]; [done|]. destruct (dlist_elem _ _ _ c (sc_suspended Hs) HS) as [p Hp].
    destruct (sc_blocked Hs HS Hp) as [_ Hr]. wp_step. eapply wp_get_proc; [done|]. wp_step. wp_step.
    rewrite Hr. by rewrite (next_of_notin R c Hnot), (dl_first (sc_ready Hs)).
Qed.

(** Saving the registers of the current process. *)
Definition saved (r : regs) (k : kstate) : list process :=
  upd_opt (k_current k) (fun p => p <| p_saved_regs := r |>) (k_processes k).

Lemma saved_sched R S r k : sched R S k -> sched R S (k <| k_processes := saved r k |>).
Proof.
  intros Hs. assert (Hk : sched R S (k <| k_processes := k_processes k |>)) by (by apply (sched_frame R S k)).
  unfold saved, upd_opt. destruct (k_current k) as [c|]; [|done].
  destruct (zlookup (k_processes k) c) as [p|] eqn:Hp; [|done]. by apply (sched_upd _ _ _ _ p); [..|repeat split].
Qed.
Lemma listed_proc R S k c : sched R S k -> c ∈ R \/ c ∈ S -> exists p, zlookup (k_processes k) c = Some p.
Proof. intros Hs [Hc|Hc]; eapply dlist_elem; [apply (sc_ready Hs) | done | apply (sc_suspended Hs) | done]. Qed.

(** The ready processes run their own code. *)
Definition calm (R : list Z) (k : kstate) : Prop :=
  forall x p, x ∈ R -> zlookup (k_processes k) x = Some p -> p_in_syscall p = 0.

(** What a context switch does to the kernel, and the registers it loads. *)
Definition switched (R : list Z) (r : regs) (k : kstate) (r' : regs) (k' : kstate) : Prop :=
  match next_of R (k_current k) with
  | Some x => exists p, zlookup (saved r k) x = Some p /\ r' = p_saved_regs p /\
      k' = k <| k_processes := saved r k |> <| k_current := Some x |> <| k_paging := Some (p_pdir p) |>
  | None => R = [] /\ r' = init_regs (e_idle_stack_end (k_env k)) (e_idle (k_env k)) /\
      k' = k <| k_processes := saved r k |> <| k_current := None |>
  end.

Lemma next_of_elem R c x : next_of R c = Some x -> x ∈ R.
Proof.
  assert (Hh : head R = Some x -> x ∈ R) by (destruct R; [done|]; intros [= ->]; by left).
  unfold next_of. destruct c as [c|]; [|done]. destruct (list_find (eq c) R) as [[i y]|]; [|done].
  apply list_elem_of_lookup_2.
Qed.
Lemma next_of_None R c : next_of R c = None -> R = [].
Proof.
  assert (Hh : head R = None -> R = []) by (by destruct R).
  unfold next_of. destruct c as [c|]; [|done]. destruct (list_find (eq c) R) as [[i y]|]; [|done].
  intros He%lookup_ge_None_1. destruct R as [|z R]; [done|].
  pose proof (Nat.mod_upper_bound (i + 1) (length (z :: R))). cbn [length] in *. lia.
Qed.

Lemma context_switch_spec R S r k : sched R S k -> current_listed R S k -> calm R k ->
  wp (context_switch r) (fun r' k' => switched R r k r' k' /\ sched R S k') k.
Proof.
  intros Hs Hc Hcalm. pose proof (saved_sched R S r k Hs) as Hs1. unfold context_switch, context_switch_body.
  wp_step. apply wp_get. wp_step.
  apply (wp_upd_opt (k_current k) (fun p => p <| p_saved_regs := r |>)).
  { intros c Hcur. eapply listed_proc; [done | by apply Hc]. }
  wp_step. fold (saved r k). eapply wp_mono; [apply (schedule_spec R S); [done|]|].
  { intros c Hcur. by apply Hc. }
  intros n k' [Hn ->]. wp_step. wp_step. unfold switched. cbn [k_current] in Hn.
  change (n = next_of R (k_current k)) in Hn. rewrite <- Hn. destruct n as [x|].
  - symmetry in Hn. apply next_of_elem in Hn. destruct (dlist_elem _ _ _ x (sc_ready Hs1) Hn) as [p Hp].
    change (zlookup (saved r k) x = Some p) in Hp.
    assert (Hsys : p_in_syscall p = 0).
    { unfold saved in Hp. rewrite upd_opt_lookup in Hp. apply fmap_Some in Hp as (q & Hq & ->).
      pose proof (Hcalm x q Hn Hq). by case_decide. }
    wp_step. eapply wp_get_proc; [exact Hp|]. wp_step. unfold enable_paging. apply wp_modify. unfold truthy. rewrite Hsys. cbn.
    apply wp_ret. split; [by exists p|]. by eapply sched_frame; [exact Hs1 | ..].
  - wp_step. wp_step. apply wp_ret. split; [by rewrite (next_of_None R (k_current k))|].
    by eapply sched_frame; [exact Hs1 | ..].
Qed.

(** C26. A context switch between processes that run their own code saves the
    interrupted registers in the current process, makes the successor of the
    current process in the ready list (cyclically; the head when the current
    process was suspended or killed) the current one, loads the registers it
    was interrupted with and its page directory, and changes nothing else.
    With an empty ready list the machine enters the idle loop. *)
Theorem context_switch_correct R S r k : sched R S k -> current_listed R S k -> calm R k ->
  wp (context_switch r) (fun r' k' => switched R r k r' k' /\ sched R S k') k.
Proof. apply context_switch_spec. Qed.
Lemma context_switch_correct_witness :
  wp (context_switch regs_zero) (fun r' k' => switched [1; 2; 3] regs_zero (demo 3) r' k' /\ sched [1; 2; 3] [] k') (demo 3).
Proof.
  apply (context_switch_correct [1; 2; 3] [] regs_zero (demo 3) demo_sched).
  - intros c [= <-]. left. by left.
  - intros x p Hx Hp. set_unfold. destruct Hx as [-> |[-> |[-> |[]]]]; by injection Hp as <-.
Defined.

(** ** Fairness *)

(** One context switch for each of the register states [rs] that the running
    processes are interrupted with: the process that runs next and the
    registers it gets. *)
Fixpoint slices (rs : list regs) : K (list (option Z * regs)) :=
  match rs with
  | [] => ret []
  | r :: rs' =>
      r' <- context_switch r;
      c <- gets k_current;
      l <- slices rs';
      ret ((c, r') :: l)
  end.

Lemma saved_lookup r k c y : k_current k = Some c ->
  zlookup (saved r k) y = (if decide (y = c) then fun p => p <| p_saved_regs := r |> else id) <$> zlookup (k_processes k) y.
Proof.
  intros Hc. unfold saved. rewrite Hc, upd_opt_lookup. destruct (decide (y = c)) as [-> |Hne].
  - by rewrite decide_True.
  - by rewrite decide_False by congruence.
Qed.

(** The register state that slice [j] of a run from [k] starts with. *)
Definition slice_regs (R : list Z) (rs : list regs) (k : kstate) (j : nat) (x : Z) : option regs :=
  if decide (length R <= j + 1)%nat then rs !! (j + 1 - length R)%nat
  else p_saved_regs <$> zlookup (k_processes k) x.

Lemma slice_regs_step R r rs k k1 i j c x : NoDup R -> R !! i = Some c -> k_current k = Some c ->
  k_processes k1 = saved r k -> R !! ((i + 1 + S j) mod length R)%nat = Some x ->
  is_Some (zlookup (k_processes k) c) ->
  slice_regs R rs k1 j x = slice_regs R (r :: rs) k (S j) x.
Proof.
  intros Hn Hi Hc Hk1 Hx [p Hp]. unfold slice_regs. rewrite Hk1, (saved_lookup r k c x Hc).
  pose proof (lookup_lt_Some _ _ _ Hi) as Hlt. destruct (decide (x = c)) as [-> |Hne].
  - pose proof (NoDup_lookup _ _ _ _ Hn Hx Hi) as Hm. assert (Hj : (length R <= S j + 1)%nat).
    { destruct (decide (length R <= S j + 1)%nat) as [|Hs]; [done|].
      destruct (decide (i + 1 + S j < length R)%nat); [rewrite Nat.mod_small in Hm; lia|].
      replace (i + 1 + S j)%nat with ((i + 1 + S j - length R) + 1 * length R)%nat in Hm by lia.
      rewrite Nat.Div0.mod_add, Nat.mod_small in Hm; lia. }
    rewrite (decide_True (P := (length R <= S j + 1)%nat)) by done. destruct (decide (length R <= j + 1)%nat).
    + by replace (S j + 1 - length R)%nat with (S (j + 1 - length R)) by lia.
    + replace (S j + 1 - length R)%nat with 0%nat by lia. by rewrite Hp.
  - destruct (decide (length R <= j + 1)%nat) as [Hj|Hj].
    + rewrite decide_True by lia. by replace (S j + 1 - length R)%nat with (S (j + 1 - length R)) by lia.
    + rewrite decide_False; [by destruct (zlookup (k_processes k) x)|]. intros Hj'.
      assert (S j + 1 = length R)%nat as He by lia. apply Hne.
      replace (i + 1 + S j)%nat with (i + 1 * length R)%nat in Hx by lia.
      rewrite Nat.Div0.mod_add, Nat.mod_small in Hx by lia. congruence.
Qed.

Lemma slices_spec R S rs k i c : sched R S k -> calm R k -> R !! i = Some c -> k_current k = Some c ->
  wp (slices rs) (fun l _ => length l = length rs /\ forall j, (j < length rs)%nat ->
    exists x r', R !! ((i + 1 + j) mod length R)%nat = Some x /\ l !! j = Some (Some x, r') /\
      slice_regs R rs k j x = Some r') k.
Proof.
  revert k i c. induction rs as [|r rs IH]; intros k i c Hs Hcalm Hi Hc.
  { apply wp_ret. split; [done|]. cbn. lia. }
  pose proof (list_elem_of_lookup_2 _ _ _ Hi) as HcR. pose proof (dl_nodup (sc_ready Hs)) as Hnd.
  destruct (dlist_elem _ _ _ c (sc_ready Hs) HcR) as [pc Hpc].
  cbn [slices]. wp_step. eapply wp_mono; [apply (context_switch_spec R S); [done | | done]|].
  { intros c' Hc'. assert (c' = c) as -> by congruence. by left. }
  intros r' k1 [Hsw Hs1]. unfold switched in Hsw. rewrite Hc, (next_of_lookup R i c Hnd Hi) in Hsw.
  assert (Hlt : ((i + 1) mod length R < length R)%nat).
  { apply Nat.mod_upper_bound. pose proof (lookup_lt_Some _ _ _ Hi). lia. }
  destruct (lookup_lt_is_Some_2 R _ Hlt) as [x Hx]. rewrite Hx in Hsw.
  destruct Hsw as (p & Hp & -> & Hk1). wp_step. wp_step. wp_step.
  assert (Hcur1 : k_current k1 = Some x) by (by rewrite Hk1).
  assert (Hps1 : k_processes k1 = saved r k) by (by rewrite Hk1).
  assert (Hcalm1 : calm R k1).
  { intros y q Hy Hq. rewrite Hps1, (saved_lookup r k c y Hc) in Hq. apply fmap_Some in Hq as (q0 & Hq0 & ->).
    pose proof (Hcalm y q0 Hy Hq0). by case_decide. }
  eapply wp_mono; [apply (IH k1 _ x Hs1 Hcalm1 Hx Hcur1)|]. intros l k2 [Hlen Hl]. apply wp_ret.
  split; [cbn; lia|]. intros [|j] Hj.
  - exists x, (p_saved_regs p). rewrite Hcur1, Nat.add_0_r. split; [done|]. split; [done|].
    rewrite (saved_lookup r k c x Hc) in Hp. unfold slice_regs. destruct (decide (length R <= 0 + 1)%nat) as [HR|HR].
    + assert (length R = 1)%nat as H1 by (pose proof (lookup_lt_Some _ _ _ Hi); lia). rewrite H1, Nat.mod_1_r in Hx. rewrite H1.
      assert (i = 0)%nat as -> by (pose proof (lookup_lt_Some _ _ _ Hi); lia). assert (x = c) as -> by congruence.
      rewrite decide_True in Hp by done. rewrite Hpc in Hp. by injection Hp as <-.
    + rewrite decide_False in Hp.
      * destruct (zlookup (k_processes k) x); [by injection Hp as <- | done].
      * intros ->. pose proof (NoDup_lookup _ _ _ _ Hnd Hx Hi) as Hm. pose proof (lookup_lt_Some _ _ _ Hi).
        destruct (decide (i + 1 < length R)%nat); [rewrite Nat.mod_small in Hm; lia|].
        replace (i + 1)%nat with (length R) in Hm by lia. rewrite Nat.Div0.mod_same in Hm. lia.
  - cbn in Hj. destruct (Hl j) as (y & ry & Hy & Hly & Hry); [lia|].
    rewrite <- Nat.add_assoc, Nat.Div0.add_mod_idemp_l in Hy.
    replace (i + 1 + (1 + j))%nat with (i + 1 + Datatypes.S j)%nat in Hy by lia.
    exists y, ry. split; [done|]. split; [done|]. rewrite <- Hry. symmetry.
    by apply (slice_regs_step R r rs k k1 i j c y).
Qed.

(** C25. Fairness: while no process is suspended, resumed or created, [n]
    timer interrupts give the processes of the ready list one time slice
    each in turn, in list order from the current one on, so every ready
    process runs once in each window of as many slices as there are ready
    processes; and it continues with exactly the registers it was
    interrupted with. *)
Theorem round_robin_fair R S rs k i c : sched R S k -> calm R k -> R !! i = Some c -> k_current k = Some c ->
  wp (slices rs) (fun l _ =>
    (forall j, (j < length rs)%nat -> exists x r', R !! ((i + 1 + j) mod length R)%nat = Some x /\
       l !! j = Some (Some x, r') /\ slice_regs R rs k j x = Some r') /\
    (forall x j0, x ∈ R -> (j0 + length R <= length rs)%nat ->
       exists j r', (j0 <= j < j0 + length R)%nat /\ l !! j = Some (Some x, r'))) k.
Proof.
  intros Hs Hcalm Hi Hc. eapply wp_mono; [by apply (slices_spec R S rs k i c)|]. intros l k' [Hlen Hl].
  split; [done|]. intros x j0 [m Hm]%list_elem_of_lookup Hj0.
  pose proof (lookup_lt_Some _ _ _ Hm) as Hlt. pose proof (dl_nodup (sc_ready Hs)) as Hnd.
  set (n := length R) in *. set (o := ((m + n * Datatypes.S (i + 1 + j0) - (i + 1 + j0)) mod n)%nat).
  assert (Ho : (o < n)%nat) by (apply Nat.mod_upper_bound; lia).
  destruct (Hl (j0 + o)%nat) as (y & r' & Hy & Hly & _); [lia|]. exists (j0 + o)%nat, r'. split; [lia|].
  assert (Hmod : ((i + 1 + (j0 + o)) mod n = m)%nat).
  { unfold o. rewrite Nat.add_assoc, Nat.Div0.add_mod_idemp_r.
    replace (i + 1 + j0 + (m + n * Datatypes.S (i + 1 + j0) - (i + 1 + j0)))%nat with (m + Datatypes.S (i + 1 + j0) * n)%nat by nia.
    rewrite Nat.Div0.mod_add, Nat.mod_small by lia. done. }
  fold n in Hy. rewrite Hmod in Hy. rewrite Hly. congruence.
Qed.
Lemma round_robin_fair_witness :
  wp (slices (replicate 7 regs_zero)) (fun l _ =>
    (forall j, (j < 7)%nat -> exists x r', [1; 2; 3] !! ((0 + 1 + j) mod 3)%nat = Some x /\
       l !! j = Some (Some x, r') /\ slice_regs [1; 2; 3] (replicate 7 regs_zero) (demo 3) j x = Some r') /\
    (forall x j0, x ∈ [1; 2; 3] -> (j0 + 3 <= 7)%nat ->
       exists j r', (j0 <= j < j0 + 3)%nat /\ l !! j = Some (Some x, r'))) (demo 3).
Proof.
  apply (round_robin_fair [1; 2; 3] [] (replicate 7 regs_zero) (demo 3) 0 1 demo_sched); [|reflexivity..].
  intros x p Hx Hp. set_unfold. destruct Hx as [-> |[-> |[-> |[]]]]; by injection Hp as <-.
Defined.
