(* ===== verification/UserMemory.v ===== *)
(** * Pointers from user space: theorems (source/syscall.c)

    [valid_pointer] and [valid_string] against the segments of the current
    process, and the memory behind them. *)

From S2P Require Import Prelude Constants Page Kernel ProcessInv ProcessTheorems.

(** ** Segments *)

(** The stack, data and text segments of a process. *)
Definition segments (p : process) : list (Z * Z) :=
  [(p_stack_start p, p_stack_end p); (p_data_start p, p_data_end p); (p_text_start p, p_text_end p)].

(** [a .. b) lies inside of one segment. *)
Definition in_segment (p : process) (a b : Z) : Prop :=
  exists s e, (s, e) ∈ segments p /\ s <= a /\ b <= e.

Definition segments_ok (p : process) : Prop := forall s e, (s, e) ∈ segments p -> 0 < s /\ e < 2 ^ 32.

Lemma in_segment_cases p a b : in_segment p a b <->
  p_stack_start p <= a /\ b <= p_stack_end p \/ p_data_start p <= a /\ b <= p_data_end p \/
  p_text_start p <= a /\ b <= p_text_end p.
Proof.
  unfold in_segment, segments. split.
  - intros (s & e & Hin & H). rewrite !elem_of_cons, elem_of_nil in Hin.
    destruct Hin as [Hin|[Hin|[Hin|[]]]]; injection Hin as -> ->; tauto.
  - intros [H|[H|H]]; eexists _, _; (split; [|exact H]); rewrite !elem_of_cons; tauto.
Qed.
Lemma in_segment_below p a b : segments_ok p -> in_segment p a b -> 0 < a /\ b < 2 ^ 32.
Proof. intros Hok (s & e & Hin & H1 & H2). destruct (Hok s e Hin). lia. Qed.
Lemma in_segment_mono p a b a' b' : in_segment p a b -> a <= a' -> b' <= b -> in_segment p a' b'.
Proof. intros (s & e & Hin & H1 & H2) Ha Hb. exists s, e. split; [done|]. lia. Qed.

(** ** Memory behind a user address *)

(** The physical address of a user address, when the processor finds it and
    it is page memory. *)
Definition user_pa (k : kstate) (a : Z) : option Z :=
  match k_paging k with
  | Some pdir =>
      match translate (pmem (k_pages k)) pdir a with
      | Some pa => if page_word (pa - pa mod 4) then Some pa else None
      | None => None
      end
  | None => None
  end.
Definition user_byte (k : kstate) (a : Z) : option Z :=
  pa ← user_pa k a; Some (byte_of (pword (pmem (k_pages k)) (pa - pa mod 4)) (pa mod 4)).

Lemma wp_pages_id {A} k (m : M pages A) (Q : A -> kstate -> Prop) :
  wp m (fun a ps => ps = k_pages k /\ Q a k) (k_pages k) ->
  wp (zoom k_pages (fun p k => k <| k_pages := p |>) m) Q k.
Proof.
  intros H. apply wp_zoom. eapply wp_mono; [exact H|]. cbn. intros a ps [-> HQ].
  replace (k <| k_pages := k_pages k |>) with k by (by destruct k). done.
Qed.

Lemma user_address_spec k a pa (Q : Z -> kstate -> Prop) : user_pa k a = Some pa -> Q pa k -> wp (user_address a) Q k.
Proof.
  unfold user_pa, user_address. intros Hpa HQ. wp_step. wp_step. destruct (k_paging k) as [pdir|]; [|done].
  destruct (translate (pmem (k_pages k)) pdir a) as [pa'|]; [|done].
  destruct (page_word (pa' - pa' mod 4)); [|done]. injection Hpa as ->. by apply wp_ret.
Qed.
Lemma load_user k a v (Q : Z -> kstate -> Prop) : user_byte k a = Some v -> Q v k -> wp (load (User a)) Q k.
Proof.
  unfold user_byte. intros Hv HQ. destruct (user_pa k a) as [pa|] eqn:Hpa; [|done].
  cbn in Hv. injection Hv as <-. cbn [load]. wp_step. eapply user_address_spec; [exact Hpa|].
  apply wp_pages_id. unfold pread8, pread. repeat wp_step; [|done].
  unfold user_pa in Hpa. destruct (k_paging k) as [pdir|]; [|done].
  destruct (translate (pmem (k_pages k)) pdir a) as [pa'|]; [|done].
  destruct (page_word (pa' - pa' mod 4)) eqn:Hw; [|done]. by injection Hpa as ->.
Qed.

(** ** valid_pointer *)

Section current.
  Context (k : kstate) (c : Z) (p : process).
  Hypothesis Hc : k_current k = Some c.
  Hypothesis Hp : zlookup (k_processes k) c = Some p.

Lemma wp_cur (Q : process -> kstate -> Prop) : Q p k -> wp cur Q k.
Proof.
  intros HQ. unfold cur, current. wp_step. wp_step. wp_step. eapply wp_of_opt; [done|]. by eapply wp_get_proc.
Qed.

Lemma wp_current (Q : Z -> kstate -> Prop) : Q c k -> wp current Q k.
Proof using Hc. intros HQ. unfold current. wp_step. wp_step. by eapply wp_of_opt. Qed.
Lemma wp_upd_cur f (Q : unit -> kstate -> Prop) : Q tt (k <| k_processes := zinsert c (f p) (k_processes k) |>) -> wp (upd_cur f) Q k.
Proof using Hc Hp. intros HQ. unfold upd_cur. wp_step. apply wp_current. by eapply wp_upd_proc. Qed.

Lemma valid_pointer_spec ptr size : segments_ok p -> is_u32 ptr -> is_u32 size ->
  wp (valid_pointer ptr size) (fun b k' => k' = k /\ (b = true <-> size = 0 \/ in_segment p ptr (ptr + size))) k.
Proof.
  intros Hok Hptr Hsize. unfold is_u32 in *. pose proof (in_segment_cases p ptr (ptr + size)) as Hcases.
  generalize dependent (in_segment p ptr (ptr + size)). intros I Hcases. unfold valid_pointer.
  apply wp_if; intros H0; b2p; [apply wp_ret; tauto|].
  assert (Hseg : forall s e, (s, e) ∈ segments p -> 0 < s /\ e < 2 ^ 32) by done.
  assert (Hbound : p_stack_end p < 2 ^ 32 /\ p_data_end p < 2 ^ 32 /\ p_text_end p < 2 ^ 32).
  { repeat split; eapply Hseg; unfold segments; rewrite !elem_of_cons; eauto. }
  destruct (Z.lt_ge_cases (ptr + size) (2 ^ 32)) as [Hlt|Hge].
  2: { assert (He : u32 (ptr + size) = ptr + size - 2 ^ 32).
       { unfold u32. symmetry. apply (Z.mod_unique_pos _ _ 1); lia. }
       rewrite He. destruct (Z.ltb_spec (ptr + size - 2 ^ 32) ptr); [|lia].
       apply wp_ret. split; [done|]. split; [done | intros [?|?%Hcases]; lia]. }
  rewrite (u32_small (ptr + size)) by lia. destruct (Z.ltb_spec (ptr + size) ptr); [lia|].
  wp_step. apply wp_cur.
  destruct (Z.leb_spec (p_stack_start p) ptr), (Z.leb_spec (ptr + size) (p_stack_end p)),
    (Z.leb_spec (p_data_start p) ptr), (Z.leb_spec (ptr + size) (p_data_end p)),
    (Z.leb_spec (p_text_start p) ptr), (Z.leb_spec (ptr + size) (p_text_end p)); cbn [andb];
    apply wp_ret; (split; [done|]); (split; [try done; intros _ | try done; intros [?|?%Hcases]; lia]; right; apply Hcases; lia).
Qed.

(** ** valid_string *)

(** Every address of the segments is mapped to page memory. *)
Definition segments_mapped : Prop := forall a, in_segment p a (a + 1) -> exists v, user_byte k a = Some v.

(** The bytes of a C string of length [n] at [str]. *)
Definition user_cstring (str : Z) (s : list Z) : Prop :=
  (forall i x, s !! i = Some x -> x <> 0 /\ user_byte k (str + Z.of_nat i) = Some x) /\
  user_byte k (str + Z.of_nat (length s)) = Some 0.

Lemma string_fuel_enough str len : in_segment p str (str + len + 1) -> 0 <= len ->
  (Z.to_nat len < string_fuel p str)%nat.
Proof.
  intros Hin Hlen. unfold string_fuel. apply in_segment_cases in Hin.
  assert (Hr : forall s e, s <= str /\ str + len + 1 <= e ->
    (Z.to_nat len < (if (s <=? str)%Z && (str <? e)%Z then Z.to_nat (e - str) else 0))%nat).
  { intros s e H. destruct (Z.leb_spec s str); [|lia]. destruct (Z.ltb_spec str e); cbn; lia. }
  destruct Hin as [H|[H|H]]; apply Hr in H; lia.
Qed.

Lemma valid_string_loop_spec fuel str s : segments_ok p -> segments_mapped -> is_u32 str ->
  (length s + fuel = S (string_fuel p str))%nat ->
  (s = [] \/ in_segment p str (str + Z.of_nat (length s))) ->
  (forall i x, s !! i = Some x -> x <> 0 /\ user_byte k (str + Z.of_nat i) = Some x) ->
  wp (valid_string_loop fuel str (Z.of_nat (length s))) (fun b k' => k' = k /\
    (b = true <-> exists s, user_cstring str s /\ in_segment p str (str + Z.of_nat (length s) + 1))) k.
Proof.
  intros Hok Hm Hstr. revert s. induction fuel as [|fuel IH]; intros s Hfuel Hseg Hs.
  { exfalso. destruct Hseg as [-> |Hseg]; [cbn in Hfuel; lia|]. destruct s as [|x s]; [cbn in Hfuel; lia|].
    pose proof (string_fuel_enough str (Z.of_nat (length s))) as Hf. cbn [length] in *.
    replace (str + Z.of_nat (S (length s))) with (str + Z.of_nat (length s) + 1) in Hseg by lia.
    specialize (Hf Hseg). lia. }
  cbn [valid_string_loop]. set (len := Z.of_nat (length s)) in *. unfold is_u32 in Hstr.
  assert (Hlen : 0 <= len < 2 ^ 32 - 1).
  { destruct Hseg as [-> |Hseg]; [done|]. apply in_segment_below in Hseg; [|done]. lia. }
  rewrite (u32_small (len + 1)) by lia. wp_step.
  eapply wp_mono; [apply valid_pointer_spec; [done..|]; unfold is_u32; lia|].
  intros b k' [-> Hb]. rewrite Z.add_assoc in Hb. destruct b.
  2: { apply wp_ret. split; [done|]. split; [done|]. intros (s' & [Hs1 Hs2] & Hseg'). exfalso.
       destruct (decide (length s <= length s')%nat) as [Hle|Hgt].
       - assert (false = true); [|done]. apply Hb. right. eapply in_segment_mono; [exact Hseg' | lia | lia].
       - destruct (lookup_lt_is_Some_2 s (length s')) as [x Hx]; [lia|]. destruct (Hs _ _ Hx) as [Hx0 Hx1].
         congruence. }
  destruct (proj1 Hb eq_refl) as [?|Hin]; [lia|]. pose proof (in_segment_below _ _ _ Hok Hin).
  rewrite (u32_small (str + len)) by lia.
  destruct (Hm (str + len)) as [v Hv]. { eapply in_segment_mono; [exact Hin | lia | lia]. }
  wp_step. eapply load_user; [exact Hv|]. apply wp_if; intros Hv0; b2p.
  - apply wp_ret. split; [done|]. split; [|done]. intros _. exists s. subst v. split; [by split | done].
  - specialize (IH (s ++ [v])). rewrite length_app in IH. cbn [length] in IH.
    replace (Z.of_nat (length s + 1)) with (len + 1) in IH by lia. apply IH; [lia | right; by rewrite Z.add_assoc |].
    intros i x [Hi|[Hi1 Hi2]]%lookup_app_Some; [by apply Hs|].
    apply list_lookup_singleton_Some in Hi2 as [Hi2 <-]. split; [done|].
    by replace (Z.of_nat i) with len by lia.
Qed.

(** ** The string itself *)

Lemma user_string_loop fuel str s : user_cstring str s -> in_segment p str (str + Z.of_nat (length s) + 1) ->
  segments_ok p -> (length s < fuel)%nat ->
  wp (read_string fuel (User str)) (fun r k' => k' = k /\ r = s ++ [0]) k.
Proof.
  revert str s. induction fuel as [|fuel IH]; intros str s [Hs1 Hs2] Hseg Hok Hf; [lia|]. cbn [read_string].
  pose proof (in_segment_below _ _ _ Hok Hseg). wp_step. destruct s as [|x s].
  - rewrite Z.add_0_r in Hs2. eapply load_user; [exact Hs2|]. by apply wp_ret.
  - destruct (Hs1 0%nat x eq_refl) as [Hx0 Hx1]. rewrite Z.add_0_r in Hx1. eapply load_user; [exact Hx1|].
    unfold truthy. destruct (Z.eqb_spec x 0); [done|]. cbn [negb]. wp_step. cbn [padd length] in *.
    rewrite u32_small by lia. eapply wp_mono; [apply (IH (str + 1) s)|].
    + split; [|by replace (str + 1 + Z.of_nat (length s)) with (str + Z.of_nat (S (length s))) by lia].
      intros i y Hi. specialize (Hs1 (S i) y Hi). by replace (str + 1 + Z.of_nat i) with (str + Z.of_nat (S i)) by lia.
    + eapply in_segment_mono; [exact Hseg | lia | lia].
    + done.
    + lia.
    + intros r k' [-> ->]. by apply wp_ret.
Qed.
End current.

(** A process whose stack is the eight bytes of a page, with the string "AB"
    at its start; the other segments are empty. *)
Definition user_demo_process : process :=
  (demo_process 1 1) <| p_pdir := PAGE_START |>
    <| p_stack_start := 0x1000 |> <| p_stack_end := 0x1008 |> <| p_data_start := 0x2000 |> <| p_data_end := 0x2000 |>
    <| p_text_start := 0x3000 |> <| p_text_end := 0x3000 |>.
Definition user_demo : kstate :=
  (demo 1)
    <| k_processes := zinsert 1 user_demo_process (k_processes (demo 1)) |>
    <| k_pages := mkPages (list_to_map [(PAGE_START, PAGE_START + 4096 + 7);
         (PAGE_START + 4096 + 4, PAGE_START + 8192 + 7); (PAGE_START + 8192, 0x4241)])
         (PAGE_START + 12288) 0 3 |>
    <| k_paging := Some PAGE_START |>.
Lemma user_demo_lookup : zlookup (k_processes user_demo) 1 = Some user_demo_process.
Proof. apply zlookup_zinsert_eq. by vm_compute. Qed.

Lemma user_demo_segments_ok : segments_ok user_demo_process.
Proof.
  intros s e Hin. unfold segments in Hin. rewrite !elem_of_cons, elem_of_nil in Hin.
  by destruct Hin as [Hin|[Hin|[Hin|[]]]]; vm_compute in Hin; injection Hin as -> ->.
Qed.
Lemma user_demo_mapped : segments_mapped user_demo user_demo_process.
Proof.
  intros a Hin. apply in_segment_cases in Hin. vm_compute p_stack_start in Hin. vm_compute p_stack_end in Hin.
  vm_compute p_data_start in Hin. vm_compute p_data_end in Hin. vm_compute p_text_start in Hin. vm_compute p_text_end in Hin.
  assert (Ha : a = 0x1000 \/ a = 0x1001 \/ a = 0x1002 \/ a = 0x1003 \/ a = 0x1004 \/ a = 0x1005 \/ a = 0x1006 \/ a = 0x1007) by lia.
  repeat destruct Ha as [-> |Ha]; [..|subst a]; eexists; vm_compute; reflexivity.
Qed.

(** C31. [valid_pointer] accepts a range exactly when it is empty or lies
    wholly inside of the stack, data or text segment of the current process,
    for all addresses and sizes, including those whose sum overflows; it
    changes nothing. *)
Theorem valid_pointer_correct k c p ptr size :
  k_current k = Some c -> zlookup (k_processes k) c = Some p -> segments_ok p -> is_u32 ptr -> is_u32 size ->
  wp (valid_pointer ptr size) (fun b k' => k' = k /\
    (b = true <-> size = 0 \/ exists s e, (s, e) ∈ segments p /\ forall a, ptr <= a < ptr + size -> s <= a < e)) k.
Proof.
  intros Hc Hp Hok Hptr Hsize. eapply wp_mono; [by eapply valid_pointer_spec|]. intros b k' [-> Hb].
  split; [done|]. rewrite Hb. unfold is_u32 in *. split.
  - intros [H|(s & e & Hin & H1 & H2)]; [by left | right]. exists s, e. split; [done|]. intros a Ha. lia.
  - intros [H|(s & e & Hin & H)]; [by left|]. destruct (decide (size = 0)) as [|Hne]; [by left | right].
    exists s, e. split; [done|]. pose proof (H ptr). pose proof (H (ptr + size - 1)). lia.
Qed.
Lemma valid_pointer_correct_witness :
  wp (valid_pointer 0x1004 4) (fun b k' => k' = user_demo /\
    (b = true <-> 4 = 0 \/ exists s e, (s, e) ∈ segments user_demo_process /\ forall a, 0x1004 <= a < 0x1004 + 4 -> s <= a < e))
    user_demo.
Proof.
  apply (valid_pointer_correct user_demo 1 user_demo_process);
    [reflexivity | apply user_demo_lookup | apply user_demo_segments_ok | done | done].
Defined.

Lemma valid_string_spec k c p str :
  k_current k = Some c -> zlookup (k_processes k) c = Some p -> segments_ok p -> segments_mapped k p -> is_u32 str ->
  wp (valid_string str) (fun b k' => k' = k /\
    (b = true <-> exists s, user_cstring k str s /\ in_segment p str (str + Z.of_nat (length s) + 1))) k.
Proof.
  intros Hc Hp Hok Hm Hstr. unfold valid_string. wp_step. eapply wp_cur; [done..|].
  apply (valid_string_loop_spec k c p Hc Hp _ str []); try done. by left.
Qed.
Lemma user_string_spec k c p str s :
  k_current k = Some c -> zlookup (k_processes k) c = Some p -> segments_ok p ->
  user_cstring k str s -> in_segment p str (str + Z.of_nat (length s) + 1) ->
  wp (user_string str) (fun r k' => k' = k /\ r = s ++ [0]) k.
Proof.
  intros Hc Hp Hok Hs Hseg. unfold user_string. wp_step. eapply wp_cur; [done..|].
  eapply user_string_loop; try done. pose proof (string_fuel_enough p str (Z.of_nat (length s)) Hseg). lia.
Qed.

(** C32. [valid_string] ends for every address when the segments of the
    process are mapped, accepts exactly the addresses of the zero-terminated
    strings that lie, terminator included, in one segment, and never touches
    memory outside of the segments; an accepted string is then read in
    full. *)
Theorem valid_string_correct k c p str :
  k_current k = Some c -> zlookup (k_processes k) c = Some p -> segments_ok p -> segments_mapped k p -> is_u32 str ->
  wp (valid_string str) (fun b k' => k' = k /\
    (b = true <-> exists s, user_cstring k str s /\ in_segment p str (str + Z.of_nat (length s) + 1))) k /\
  (forall s, user_cstring k str s -> in_segment p str (str + Z.of_nat (length s) + 1) ->
    wp (user_string str) (fun r k' => k' = k /\ r = s ++ [0]) k).
Proof.
  intros Hc Hp Hok Hm Hstr. split; [by eapply valid_string_spec|]. intros s Hs Hseg. by eapply user_string_spec.
Qed.
Lemma valid_string_correct_witness :
  wp (valid_string 0x1000) (fun b k' => k' = user_demo /\
    (b = true <-> exists s, user_cstring user_demo 0x1000 s /\
       in_segment user_demo_process 0x1000 (0x1000 + Z.of_nat (length s) + 1))) user_demo /\
  (forall s, user_cstring user_demo 0x1000 s ->
    in_segment user_demo_process 0x1000 (0x1000 + Z.of_nat (length s) + 1) ->
    wp (user_string 0x1000) (fun r k' => k' = user_demo /\ r = s ++ [0]) user_demo).
Proof.
  apply (valid_string_correct user_demo 1 user_demo_process 0x1000);
    [reflexivity | apply user_demo_lookup | apply user_demo_segments_ok | apply user_demo_mapped | done].
Defined.
