(* ===== verification/Allocator.v ===== *)
(** * The interface between the kernel heap and its clients

    What [kmalloc] and [kfree] promise to the code that holds their blocks,
    and that the buddy allocator keeps the promise.  The clients (pipes, file
    handles, mailboxes, execve) are verified against the interface. *)

From S2P Require Import Prelude Constants Buddy BuddyLayout BuddyInv BuddyProofs BuddyTheorems Kernel.

(** ** Runs that may exhaust the heap

    [wpx m Q s]: [m] returns with [Q], or stops because no block is left. *)
Definition exhausted : string := "Memory exhausted".
Definition wpx {S A} (m : M S A) (Q : A -> S -> Prop) (s : S) : Prop :=
  match m s with Ok a s' => Q a s' | Halt msg _ => msg = exhausted | _ => False end.
Arguments wpx {S A} _ _ _ : simpl never.

Section wpx.
  Context {S : Type}.

Lemma wpx_wp {A} (m : M S A) Q s : wp m Q s -> wpx m Q s.
Proof. unfold wp, wpx. by destruct (m s). Qed.
Lemma wpx_run {A} (m : M S A) Q s a s' : wpx m Q s -> m s = Ok a s' -> Q a s'.
Proof. unfold wpx. intros H E. by rewrite E in H. Qed.
Lemma wpx_mono {A} (m : M S A) (P Q : A -> S -> Prop) s : wpx m P s -> (forall a s', P a s' -> Q a s') -> wpx m Q s.
Proof. unfold wpx. destruct (m s); naive_solver. Qed.
Lemma wpx_bind {A B} (m : M S A) (f : A -> M S B) Q s : wpx m (fun a s' => wpx (f a) Q s') s -> wpx (bind m f) Q s.
Proof. unfold wpx, bind. by destruct (m s). Qed.
Lemma wpx_zoom {T A} (proj : S -> T) upd (m : M T A) (Q : A -> S -> Prop) s :
  wpx m (fun a t => Q a (upd t s)) (proj s) -> wpx (zoom proj upd m) Q s.
Proof. unfold wpx, zoom. by destruct (m (proj s)). Qed.
Lemma wpx_wp_bind {A B} (m : M S A) (f : A -> M S B) Q s : wp m (fun a s' => wpx (f a) Q s') s -> wpx (bind m f) Q s.
Proof. intros H. by apply wpx_bind, wpx_wp. Qed.
End wpx.

(** ** The interface *)

(** [Inv L h]: the heap [h] has handed out exactly the blocks of [L], a map
    from their addresses to the sizes asked for. *)
Class Allocator {H : Type} (alloc : Z -> M H Z) (release : Z -> M H unit) (Inv : gmap Z Z -> H -> Prop) := {
  alloc_fresh L h n : Inv L h -> 0 <= n < 2 ^ 31 ->
    wpx (alloc n) (fun p h' => L !! p = None /\ is_u32 p /\ p <> 0 /\ Inv (<[p := n]> L) h') h;
  release_held L h p n : Inv L h -> L !! p = Some n -> wp (release p) (fun _ h' => Inv (delete p L) h') h;
  held_disjoint L h p n q m : Inv L h -> L !! p = Some n -> L !! q = Some m -> p <> q -> p + n <= q \/ q + m <= p
}.

(** ** The buddy allocator implements it *)

Definition buddy_holds (L : gmap Z Z) (ma : memarea) : Prop := exists live, buddy_inv live ma /\ holds L live ma.

Lemma buddy_alloc_fresh L ma n : buddy_holds L ma -> 0 <= n < 2 ^ 31 ->
  wpx (kmalloc_ma n) (fun p ma' => L !! p = None /\ is_u32 p /\ p <> 0 /\ buddy_holds (<[p := n]> L) ma') ma.
Proof.
  intros (live & I & HR & HL) Hn. unfold kmalloc_ma. apply wpx_bind.
  destruct (has_room_dec live ma n I Hn) as [Hr|Hno].
  2: { unfold wpx. by rewrite (buddy_alloc_full false live ma n I Hn Hno). }
  apply wpx_wp. eapply wp_mono; [by apply buddy_alloc_wp|].
  intros p ma' (o & m & -> & Hnone & Hsz & I' & (El & Eu & Em) & _). cbv beta.
  destruct (live_block _ _ o m I') as (_ & _ & Hpos & Hup); [apply lookup_insert_eq|].
  destruct (geo_mem _ (wf_geo (proj1 I))) as [Hmem Htop].
  assert (0 < 2 ^ m) by (apply Z.pow_pos_nonneg; destruct Hsz; pose proof (geo_bounds _ (wf_geo (proj1 I))); lia).
  assert (Hp : L !! (mem ma + o) = None).
  { destruct (L !! (mem ma + o)) as [x|] eqn:E; [|done]. destruct (HR _ _ E) as (m' & Ho & _).
    replace (mem ma + o - mem ma) with o in Ho by lia. congruence. }
  apply wpx_wp. wp_step. wp_step; [unfold truthy; b2p; lia|]. wp_step. unfold is_u32.
  rewrite Eu in Hup. split; [done|]. split; [lia|]. split; [lia|].
  exists (<[o := m]> live). split; [done|]. split.
  - intros q x. rewrite Em. destruct (decide (q = mem ma + o)) as [-> |Hne].
    + rewrite lookup_insert_eq. intros [= <-]. exists m.
      replace (mem ma + o - mem ma) with o by lia. rewrite lookup_insert_eq. split; [done | apply Hsz].
    + rewrite lookup_insert_ne by done. intros Hq. destruct (HR _ _ Hq) as (m' & Hm' & Hk).
      exists m'. rewrite lookup_insert_ne by lia. done.
  - intros o' m'. rewrite Em. destruct (decide (o' = o)) as [-> |Hne].
    + intros _. exists n. apply lookup_insert_eq.
    + rewrite !lookup_insert_ne by lia. apply HL.
Qed.

Lemma buddy_release_held L ma p n : buddy_holds L ma -> L !! p = Some n ->
  wp (kfree_ma p) (fun _ ma' => buddy_holds (delete p L) ma') ma.
Proof.
  intros (live & I & HR & HL) Hp. destruct (HR _ _ Hp) as (m & Ho & _). unfold kfree_ma.
  replace p with (mem ma + (p - mem ma)) at 1 by lia.
  eapply wp_mono; [by eapply buddy_free_wp|]. intros [] ma' (I' & (_ & _ & Em) & _).
  exists (delete (p - mem ma) live). split; [done|]. split.
  - intros q x. rewrite Em. destruct (decide (q = p)) as [-> |Hne]; [by rewrite lookup_delete_eq|].
    rewrite lookup_delete_ne by done. intros Hq. destruct (HR _ _ Hq) as (m' & Hm' & Hk).
    exists m'. rewrite lookup_delete_ne by lia. done.
  - intros o' m'. rewrite Em. destruct (decide (o' = p - mem ma)) as [-> |Hne]; [by rewrite lookup_delete_eq|].
    rewrite !lookup_delete_ne by lia. apply HL.
Qed.

#[export] Instance buddy_allocator : Allocator kmalloc_ma kfree_ma buddy_holds.
Proof.
  split; [apply buddy_alloc_fresh | apply buddy_release_held |].
  intros L ma p n q m (live & I & HR & HL) Hp Hq Hne.
  destruct (HR _ _ Hp) as (m1 & Ho1 & Hn), (HR _ _ Hq) as (m2 & Ho2 & Hm).
  destruct (live_disjoint _ _ _ _ _ _ I Ho1 Ho2 ltac:(lia)); lia.
Qed.

(** ** The kernel's objects *)

Definition obj_size (o : obj) : Z :=
  match o with OFh _ => SIZEOF_FILEHANDLE | OPipe _ => SIZEOF_PIPE_BUFFER | OBytes l => Z.of_nat (length l) end.

Section heap.
  Context {Inv : gmap Z Z -> memarea -> Prop} `{!Allocator kmalloc_ma kfree_ma Inv}.

(** Every object lies in a block of the heap of its size. *)
Definition heap_inv (k : kstate) : Prop := Inv (obj_size <$> k_objs k) (k_heap k).

(** The heap after an allocation, up to its own data structures. *)
Definition allocated (a : Z) (o : obj) (k k' : kstate) : Prop :=
  exists h, k' = k <| k_heap := h |> <| k_objs ::= insert a o |> <| k_nallocs ::= Z.add 1 |>.
Definition released (a : Z) (k k' : kstate) : Prop :=
  exists h, k' = k <| k_heap := h |> <| k_objs ::= delete a |>.

Lemma kmalloc_spec size o k : heap_inv k -> obj_size o = size -> 0 <= size < 2 ^ 31 ->
  wpx (kmalloc size o) (fun a k' => k_objs k !! a = None /\ is_u32 a /\ a <> 0 /\ allocated a o k k' /\ heap_inv k') k.
Proof using Allocator0.
  intros Hi <- Hs. unfold kmalloc. apply wpx_bind, wpx_zoom. eapply wpx_mono; [by apply alloc_fresh|].
  intros a h (Hn & Ha & Ha0 & Hi'). apply wpx_wp. wp_step. wp_step. wp_step.
  rewrite lookup_fmap in Hn. apply fmap_None in Hn. split; [done|]. split; [done|]. split; [done|].
  split; [by exists h|]. unfold heap_inv. cbn. by rewrite fmap_insert.
Qed.
Lemma stale_bytes_length k n : 0 <= n -> Z.of_nat (length (stale_bytes k n)) = n.
Proof. intros Hn. unfold stale_bytes. rewrite length_fmap, length_seq. lia. Qed.
Lemma kmalloc_bytes_spec size k : heap_inv k -> 0 <= size < 2 ^ 31 ->
  wpx (kmalloc_bytes size) (fun a k' => k_objs k !! a = None /\ is_u32 a /\ a <> 0 /\
    allocated a (OBytes (stale_bytes k size)) k k' /\ heap_inv k') k.
Proof using Allocator0.
  intros Hi Hs. unfold kmalloc_bytes. apply wpx_wp_bind. wp_step. apply kmalloc_spec; [done | | done].
  apply stale_bytes_length. lia.
Qed.
Lemma kfree_spec a o k : heap_inv k -> k_objs k !! a = Some o ->
  wp (kfree a) (fun _ k' => released a k k' /\ heap_inv k') k.
Proof using Allocator0.
  intros Hi Ha. unfold kfree. wp_step. wp_step. eapply wp_mono; [eapply release_held; [exact Hi|]|].
  { by rewrite lookup_fmap, Ha. }
  intros [] h Hi'. wp_step. split; [by exists h|]. unfold heap_inv. cbn. by rewrite fmap_delete.
Qed.

(** Writing to an object keeps the heap. *)
Lemma heap_inv_insert k a o o' : heap_inv k -> k_objs k !! a = Some o -> obj_size o' = obj_size o ->
  heap_inv (k <| k_objs ::= insert a o' |>).
Proof using.
  intros Hi Ha Hs. unfold heap_inv in *. cbn. rewrite fmap_insert, Hs, insert_id; [done|]. by rewrite lookup_fmap, Ha.
Qed.
End heap.
Arguments heap_inv : clear implicits.
