(* ===== verification/KernelMem.v ===== *)
(** * Copies between kernel buffers and user memory: lemmas *)

From S2P Require Import Prelude Constants Libc Page PageInv Kernel ProcessInv UserMemory.

(** ** Splices *)

(** [bytes] with [src] written at [off]. *)
Definition splice (off : nat) (src bytes : list Z) : list Z := take off bytes ++ src ++ drop (off + length src) bytes.

Lemma splice_nil off bytes : splice off [] bytes = bytes.
Proof. unfold splice. cbn. by rewrite Nat.add_0_r, take_drop. Qed.
Lemma splice_length off src bytes : (off + length src <= length bytes)%nat -> length (splice off src bytes) = length bytes.
Proof. intros H. unfold splice. rewrite !length_app, length_take, length_drop. lia. Qed.
Lemma splice_lookup off src bytes i : (off + length src <= length bytes)%nat ->
  splice off src bytes !! i =
    if decide (off <= i < off + length src)%nat then src !! (i - off)%nat else bytes !! i.
Proof.
  intros H. unfold splice. destruct (decide (i < off)%nat) as [Hi|Hi].
  - rewrite lookup_app_l by (rewrite length_take; lia). rewrite lookup_take_lt by lia.
    by rewrite decide_False by lia.
  - rewrite lookup_app_r by (rewrite length_take; lia). rewrite length_take, Nat.min_l by lia.
    case_decide as Hd.
    + by rewrite lookup_app_l by lia.
    + rewrite lookup_app_r by lia. rewrite lookup_drop. f_equal. lia.
Qed.
Lemma splice_take off src bytes : (off + length src <= length bytes)%nat ->
  take (off + length src) (splice off src bytes) = take off bytes ++ src.
Proof.
  intros H. unfold splice. rewrite app_assoc. apply take_app_length'. rewrite length_app, length_take. lia.
Qed.
(** One more byte. *)
Lemma splice_step off src bytes j x : src !! j = Some x -> (off + length src <= length bytes)%nat ->
  zinsert (Z.of_nat off + Z.of_nat j) x (splice off (take j src) bytes) = splice off (take (S j) src) bytes.
Proof.
  intros Hj Hlen. pose proof (lookup_lt_Some _ _ _ Hj) as Hlt. unfold zinsert.
  destruct (Z.ltb_spec (Z.of_nat off + Z.of_nat j) 0); [lia|].
  replace (Z.to_nat (Z.of_nat off + Z.of_nat j)) with (off + j)%nat by lia. apply list_eq. intros i.
  assert (L1 : (off + length (take j src) <= length bytes)%nat) by (rewrite length_take; lia).
  assert (L2 : (off + length (take (S j) src) <= length bytes)%nat) by (rewrite length_take; lia).
  destruct (decide (i = off + j)%nat) as [-> |Hne].
  - rewrite list_lookup_insert_eq by (rewrite splice_length by done; lia).
    rewrite splice_lookup by done. rewrite decide_True by (rewrite length_take; lia).
    replace (off + j - off)%nat with j by lia. rewrite lookup_take_lt by lia. done.
  - rewrite list_lookup_insert_ne by done. rewrite !splice_lookup by done. rewrite !length_take.
    destruct (decide (off <= i < off + j)%nat).
    + rewrite !decide_True by lia. rewrite !lookup_take_lt by lia. done.
    + rewrite !decide_False by lia. done.
Qed.

(** ** Copies into a kernel buffer *)

(** The kernel with the bytes [l] in the buffer [d]. *)
Definition with_buf (d : Z) (l : list Z) (k : kstate) : kstate := k <| k_objs ::= insert d (OBytes l) |>.

Lemma with_buf_id d l k : k_objs k !! d = Some (OBytes l) -> with_buf d l k = k.
Proof.
  intros H. transitivity (k <| k_objs := k_objs k |>); [|by destruct k].
  unfold with_buf, set_field. f_equal. by apply insert_id.
Qed.
Lemma with_buf_twice d l l' k : with_buf d l (with_buf d l' k) = with_buf d l k.
Proof. unfold with_buf, set_field. cbn. f_equal. apply insert_insert_eq. Qed.

Lemma store_obj d off v l k (Q : unit -> kstate -> Prop) : k_objs k !! d = Some (OBytes l) ->
  0 <= off < Z.of_nat (length l) -> Q tt (with_buf d (zinsert off (u8 v) l) k) -> wp (store (Obj d off) v) Q k.
Proof.
  intros Hd Hoff HQ. cbn [store]. unfold get_bytes. wp_step. wp_step. wp_step. rewrite Hd. wp_step.
  destruct (zlookup_is_Some l off) as [x Hx]; [done|]. wp_step. eapply wp_of_opt; [exact Hx|]. by wp_step.
Qed.
Lemma load_obj d off x l k (Q : Z -> kstate -> Prop) : k_objs k !! d = Some (OBytes l) ->
  zlookup l off = Some x -> Q x k -> wp (load (Obj d off)) Q k.
Proof.
  intros Hd Hx HQ. cbn [load]. unfold get_bytes. wp_step. wp_step. wp_step. rewrite Hd. wp_step.
  by eapply wp_of_opt.
Qed.

(** A copy of [src] into a buffer: byte [j] is read when the bytes before it
    have been written. *)
Lemma kmemmove_obj d off buf src l k : k_objs k !! d = Some (OBytes l) -> (off + length src <= length l)%nat ->
  Forall is_byte src ->
  (forall j x, src !! j = Some x -> wp (load (padd buf (Z.of_nat j)))
     (fun y k' => y = x /\ k' = with_buf d (splice off (take j src) l) k) (with_buf d (splice off (take j src) l) k)) ->
  wp (kmemmove (Obj d (Z.of_nat off)) buf (Z.of_nat (length src)))
    (fun _ k' => k' = with_buf d (splice off src l) k) k.
Proof.
  intros Hd Hlen Hb Hload. unfold kmemmove, memmove. rewrite Nat2Z.id.
  apply (wp_for (fun j k' => k' = with_buf d (splice off (take (Z.to_nat j) src) l) k)).
  - by rewrite splice_nil, with_buf_id.
  - intros j k' Hj ->. cbn [padd]. rewrite Z.add_0_l.
    destruct (lookup_lt_is_Some_2 src (Z.to_nat j)) as [x Hx]; [lia|].
    specialize (Hload _ _ Hx). rewrite Z2Nat.id in Hload by lia.
    wp_step. eapply wp_mono; [exact Hload|]. intros y k'' [-> ->].
    eapply store_obj; [apply lookup_insert_eq | |].
    + rewrite splice_length by (rewrite length_take; lia). lia.
    + rewrite with_buf_twice. replace (Z.to_nat (j + 1)) with (S (Z.to_nat j)) by lia.
      rewrite <- (splice_step off src l (Z.to_nat j) x Hx Hlen), Z2Nat.id by lia.
      f_equal. unfold u8. rewrite Z.mod_small; [done|]. by apply (Forall_lookup_1 _ _ _ _ Hb Hx).
  - intros k' ->. by rewrite Z.add_0_l, Nat2Z.id, take_ge by lia.
Qed.

(** ** Bytes of a word *)

Lemma byte_of_set_byte w i j v : 0 <= i < 4 -> 0 <= j < 4 ->
  byte_of (set_byte w i v) j = if decide (j = i) then u8 v else byte_of w j.
Proof.
  intros Hi Hj. unfold byte_of, set_byte. apply Z.bits_inj'. intros n Hn.
  rewrite Z.land_spec, Z.shiftr_spec, Z.lor_spec, Z.ldiff_spec by lia.
  rewrite (Z.shiftl_spec (u8 v)), (Z.shiftl_spec 255) by lia.
  assert (H255 : forall m, Z.testbit 255 m = (0 <=? m) && (m <? 8)).
  { intros m. change 255 with (Z.ones 8). destruct (Z.leb_spec 0 m); [|by apply Z.testbit_neg_r].
    destruct (Z.ltb_spec m 8); [by rewrite Z.ones_spec_low by lia | by rewrite Z.ones_spec_high by lia]. }
  assert (Hu8 : forall m, Z.testbit (u8 v) m = (m <? 8) && Z.testbit v m).
  { intros m. unfold u8. destruct (Z.ltb_spec m 8); [|rewrite Z.mod_pow2_bits_high by lia; done].
    destruct (Z.lt_ge_cases m 0); [by rewrite !Z.testbit_neg_r by lia | by rewrite Z.mod_pow2_bits_low by lia]. }
  rewrite !H255, !Hu8. case_decide as Hji.
  - subst j. replace (n + 8 * i - 8 * i) with n by lia. rewrite Hu8.
    destruct (Z.ltb_spec n 8), (Z.leb_spec 0 n); try lia; cbn; by rewrite ?andb_false_r, ?andb_true_r.
  - rewrite Z.land_spec, Z.shiftr_spec, H255 by lia.
    destruct (Z.leb_spec 0 n); [|lia]. destruct (Z.ltb_spec n 8); cbn; [|by rewrite !andb_false_r].
    rewrite !andb_true_r. destruct (Z.lt_ge_cases j i).
    + rewrite (Z.testbit_neg_r v) by lia. destruct (Z.leb_spec 0 (n + 8 * j - 8 * i)); [lia|]. cbn.
      by rewrite andb_false_r, orb_false_r, andb_true_r.
    + destruct (Z.ltb_spec (n + 8 * j - 8 * i) 8); [lia|]. cbn. by rewrite andb_false_r, orb_false_r, andb_true_r.
Qed.

(** ** Stores to user memory *)

(** The addresses [a .. a+n) are mapped to distinct bytes of page memory,
    none of which belongs to the tables that map them. *)
Record user_region (k : kstate) (pdir a n : Z) : Prop := {
  ur_paging : k_paging k = Some pdir;
  ur_range : 0 <= a /\ a + n <= 2 ^ 32;
  ur_mapped i : a <= i < a + n -> exists pa, user_pa k i = Some pa;
  ur_inj i j pa : a <= i < a + n -> a <= j < a + n -> user_pa k i = Some pa -> user_pa k j = Some pa -> i = j;
  ur_tables i j pa : a <= i < a + n -> a <= j < a + n -> user_pa k i = Some pa ->
    let m := pmem (k_pages k) in
    pa - pa mod 4 <> pdir + 4 * dirindex j /\
    pa - pa mod 4 <> Z.land (pword m (pdir + 4 * dirindex j)) PAGE_ADDRESS_MASK + 4 * tblindex j
}.
Arguments ur_paging {k pdir a n} _.
Arguments ur_range {k pdir a n} _.
Arguments ur_mapped {k pdir a n} _ {i} _.
Arguments ur_inj {k pdir a n} _ {i j pa} _ _ _ _.
Arguments ur_tables {k pdir a n} _ {i j pa} _ _ _.

(** The kernel after a store of the byte [v] at the physical address [pa]. *)
Definition poke (pa v : Z) (k : kstate) : kstate :=
  k <| k_pages ::= with_pmem (fun m => <[pa - pa mod 4 := set_byte (pword m (pa - pa mod 4)) (pa mod 4) v]> m) |>.

Lemma user_pa_word k i pa : user_pa k i = Some pa -> page_word (pa - pa mod 4) = true.
Proof.
  unfold user_pa. destruct (k_paging k) as [d|]; [|done]. destruct (translate _ d i) as [q|]; [|done].
  destruct (page_word (q - q mod 4)) eqn:E; [|done]. by intros [= ->].
Qed.

Lemma store_user k i pa v (Q : unit -> kstate -> Prop) : user_pa k i = Some pa -> Q tt (poke pa v k) ->
  wp (store (User i) v) Q k.
Proof.
  intros Hpa HQ. cbn [store]. wp_step. eapply user_address_spec; [exact Hpa|]. wp_step.
  pose proof (user_pa_word _ _ _ Hpa) as Hw. unfold pwrite8, pread, pwrite. repeat (wp_step; try done).
Qed.

Section region.
  Context (k : kstate) (pdir a n : Z) (R : user_region k pdir a n).
  Context (i pa v : Z) (Hi : a <= i < a + n) (Hpa : user_pa k i = Some pa).

Lemma poke_word w : w <> pa - pa mod 4 -> pword (pmem (k_pages (poke pa v k))) w = pword (pmem (k_pages k)) w.
Proof using. intros Hw. cbn. by apply pword_insert_ne. Qed.

Lemma poke_pa j : a <= j < a + n -> user_pa (poke pa v k) j = user_pa k j.
Proof using R Hi Hpa.
  intros Hj. destruct (ur_tables R Hi Hj Hpa) as [H1 H2]. unfold user_pa, translate.
  change (k_paging (poke pa v k)) with (k_paging k). rewrite (ur_paging R). unfold walk.
  rewrite (poke_word (pdir + 4 * dirindex j)) by congruence. rewrite poke_word by congruence. done.
Qed.

Lemma poke_byte j : a <= j < a + n ->
  user_byte (poke pa v k) j = if decide (j = i) then Some (u8 v) else user_byte k j.
Proof using R Hi Hpa.
  intros Hj. unfold user_byte. rewrite (poke_pa j Hj). destruct (ur_mapped R Hj) as [pj Hpj]. rewrite Hpj. cbn [mbind option_bind].
  assert (Hm : forall x, 0 <= x mod 4 < 4) by (intros; by apply Z.mod_pos_bound).
  destruct (decide (j = i)) as [-> |Hne].
  - assert (pj = pa) as -> by congruence. cbn. rewrite pword_insert_eq, byte_of_set_byte by done. by rewrite decide_True.
  - assert (pj <> pa) as Hpp. { intros ->. apply Hne. by eapply (ur_inj R). }
    destruct (decide (pj - pj mod 4 = pa - pa mod 4)) as [He|Hw]; [|by rewrite poke_word].
    cbn. rewrite He, pword_insert_eq, byte_of_set_byte by done. rewrite decide_False; [done|]. lia.
Qed.

Lemma poke_region : user_region (poke pa v k) pdir a n.
Proof using R Hi Hpa.
  split.
  - apply R.
  - apply R.
  - intros j Hj. rewrite (poke_pa j Hj). by apply R.
  - intros j l q Hj Hl. rewrite (poke_pa j Hj), (poke_pa l Hl). by apply R.
  - intros j l q Hj Hl. rewrite (poke_pa j Hj). intros Hq. cbv zeta.
    destruct (ur_tables R Hi Hl Hpa) as [H1 H2]. rewrite poke_word by congruence. by apply (ur_tables R Hj Hl).
Qed.
End region.

(** [k'] is [k] with the bytes [src] at the user address [a]; nothing else
    has changed, in user memory, page memory or the rest of the kernel. *)
Record user_written (k : kstate) (pdir a n : Z) (src : list Z) (k' : kstate) : Prop := {
  uw_rest : exists pg, k' = k <| k_pages := pg |>;
  uw_frames : exists m, k_pages k' = with_pmem (fun _ => m) (k_pages k);
  uw_region : user_region k' pdir a n;
  uw_pa j : a <= j < a + n -> user_pa k' j = user_pa k j;
  uw_bytes j : a <= j < a + n -> user_byte k' j =
    if decide (j < a + Z.of_nat (length src)) then src !! Z.to_nat (j - a) else user_byte k j;
  uw_words w : (forall j pa, a <= j < a + Z.of_nat (length src) -> user_pa k j = Some pa -> w <> pa - pa mod 4) ->
    pword (pmem (k_pages k')) w = pword (pmem (k_pages k)) w
}.
Arguments uw_rest {k pdir a n src k'} _.
Arguments uw_frames {k pdir a n src k'} _.
Arguments uw_region {k pdir a n src k'} _.
Arguments uw_pa {k pdir a n src k'} _ {j} _.
Arguments uw_bytes {k pdir a n src k'} _ {j} _.
Arguments uw_words {k pdir a n src k'} _ {w} _.

Lemma user_written_nil k pdir a n : user_region k pdir a n -> user_written k pdir a n [] k.
Proof.
  intros R. split; try done.
  - exists (k_pages k). by destruct k.
  - exists (pmem (k_pages k)). by destruct (k_pages k).
  - intros j Hj. cbn. by rewrite decide_False by lia.
Qed.

Lemma user_written_step k pdir a n src x k' pa : user_written k pdir a n src k' -> is_byte x ->
  Z.of_nat (length src) < n -> user_pa k (a + Z.of_nat (length src)) = Some pa ->
  user_written k pdir a n (src ++ [x]) (poke pa x k').
Proof.
  intros W Hx Hlt Hpa. set (i := a + Z.of_nat (length src)) in *. assert (Hi : a <= i < a + n) by lia.
  pose proof (uw_region W) as R. assert (Hpa' : user_pa k' i = Some pa) by (by rewrite (uw_pa W)).
  assert (Hlen : Z.of_nat (length (src ++ [x])) = Z.of_nat (length src) + 1) by (rewrite length_app; cbn; lia).
  split.
  - destruct (uw_rest W) as [pg ->]. by eexists.
  - destruct (uw_frames W) as [m Hm]. cbn. rewrite Hm. by eexists.
  - by apply (poke_region k' pdir a n R i).
  - intros j Hj. rewrite (poke_pa k' pdir a n R i pa x Hi Hpa' j Hj). by apply W.
  - intros j Hj. rewrite (poke_byte k' pdir a n R i pa x Hi Hpa' j Hj), (uw_bytes W Hj), Hlen.
    destruct (decide (j = i)) as [-> |Hne].
    + rewrite decide_True by lia. replace (Z.to_nat (i - a)) with (length src) by lia.
      rewrite lookup_app_r, Nat.sub_diag by lia. cbn. f_equal. unfold u8. by rewrite Z.mod_small.
    + destruct (decide (j < i)).
      * rewrite !decide_True by lia. by rewrite lookup_app_l by lia.
      * by rewrite !decide_False by lia.
  - rewrite Hlen. intros w Hw. rewrite poke_word; [|apply (Hw i); [lia | exact Hpa]]. apply W. intros j q Hj. apply Hw. lia.
Qed.

Lemma kmemmove_user k pdir a n buf src : user_region k pdir a n -> Z.of_nat (length src) <= n -> Forall is_byte src ->
  (forall j x pg, src !! j = Some x -> wp (load (padd buf (Z.of_nat j)))
     (fun y k' => y = x /\ k' = k <| k_pages := pg |>) (k <| k_pages := pg |>)) ->
  wp (kmemmove (User a) buf (Z.of_nat (length src))) (fun _ k' => user_written k pdir a n src k') k.
Proof.
  intros R Hn Hb Hload. unfold kmemmove, memmove. rewrite Nat2Z.id.
  apply (wp_for (fun j k' => user_written k pdir a n (take (Z.to_nat j) src) k')).
  - by apply user_written_nil.
  - intros j k' Hj W. rewrite Z.add_0_l. destruct (lookup_lt_is_Some_2 src (Z.to_nat j)) as [x Hx]; [lia|].
    destruct (uw_rest W) as [pg Hk']. specialize (Hload _ _ pg Hx). rewrite Z2Nat.id in Hload by lia.
    wp_step. rewrite Hk'. eapply wp_mono; [exact Hload|]. intros y k2 [-> ->]. rewrite <- Hk'. cbn [padd].
    pose proof (ur_range R). destruct (ur_mapped R (i := a + j)) as [pa Hpa]; [lia|].
    rewrite u32_small by lia. assert (Hpa' : user_pa k' (a + j) = Some pa) by (rewrite (uw_pa W) by lia; done).
    eapply store_user; [exact Hpa'|].
    replace (Z.to_nat (j + 1)) with (S (Z.to_nat j)) by lia. rewrite (take_S_r _ _ _ Hx).
    assert (Hlt : length (take (Z.to_nat j) src) = Z.to_nat j) by (rewrite length_take; lia).
    apply user_written_step; [done | by apply (Forall_lookup_1 _ _ _ _ Hb Hx) | lia |].
    rewrite Hlt, Z2Nat.id by lia. done.
  - intros k' W. by rewrite Z.add_0_l, Nat2Z.id, take_ge in W by lia.
Qed.

(** ** Words in a kernel buffer *)

Definition le32 (v : Z) : list Z := [u8 v; u8 (Z.shiftr v 8); u8 (Z.shiftr v 16); u8 (Z.shiftr v 24)].
Lemma le32_bytes v : Forall is_byte (le32 v).
Proof. repeat constructor; by apply Z.mod_pos_bound. Qed.

Lemma splice_app off a b l : (off + length a + length b <= length l)%nat ->
  splice (off + length a) b (splice off a l) = splice off (a ++ b) l.
Proof.
  intros H. apply list_eq. intros i. rewrite !splice_lookup; rewrite ?splice_length, ?length_app; try lia.
  destruct (decide (off + length a <= i < off + length a + length b)%nat).
  - rewrite decide_True by lia. rewrite lookup_app_r by lia. f_equal. lia.
  - destruct (decide (off <= i < off + length a)%nat).
    + rewrite decide_True by lia. by rewrite lookup_app_l by lia.
    + by rewrite decide_False by lia.
Qed.

Lemma store32_obj d off v l k (Q : unit -> kstate -> Prop) : k_objs k !! d = Some (OBytes l) ->
  (off + 4 <= length l)%nat -> Q tt (with_buf d (splice off (le32 v) l) k) -> wp (store32 (Obj d (Z.of_nat off)) v) Q k.
Proof.
  intros Hd Hlen HQ.
  assert (Hstep : forall j x k', le32 v !! j = Some (u8 x) -> k' = with_buf d (splice off (take j (le32 v)) l) k ->
    wp (store (Obj d (Z.of_nat off + Z.of_nat j)) x) (fun _ k'' => k'' = with_buf d (splice off (take (S j) (le32 v)) l) k) k').
  { intros j x k' Hj ->. pose proof (lookup_lt_Some _ _ _ Hj) as Hlt. change (length (le32 v)) with 4%nat in Hlt.
    eapply store_obj; [apply lookup_insert_eq | |].
    - rewrite splice_length by (rewrite length_take; change (length (le32 v)) with 4%nat; lia). lia.
    - rewrite with_buf_twice. f_equal. by apply splice_step. }
  unfold store32. cbn [padd]. wp_step. pose proof (Hstep 0%nat v k eq_refl) as H0. rewrite Z.add_0_r in H0.
  eapply wp_mono; [apply H0; by rewrite splice_nil, with_buf_id|]. intros [] k1 H1.
  wp_step. eapply wp_mono; [apply (Hstep 1%nat (Z.shiftr v 8) k1 eq_refl H1)|]. intros [] k2 H2.
  wp_step. eapply wp_mono; [apply (Hstep 2%nat (Z.shiftr v 16) k2 eq_refl H2)|]. intros [] k3 H3.
  eapply wp_mono; [apply (Hstep 3%nat (Z.shiftr v 24) k3 eq_refl H3)|]. intros [] k4 ->. exact HQ.
Qed.

(** ** User memory in other states *)

Lemma user_pa_frame k k' a : k_pages k' = k_pages k -> k_paging k' = k_paging k -> user_pa k' a = user_pa k a.
Proof. intros H1 H2. unfold user_pa. by rewrite H1, H2. Qed.
Lemma user_byte_frame k k' a : k_pages k' = k_pages k -> k_paging k' = k_paging k -> user_byte k' a = user_byte k a.
Proof. intros H1 H2. unfold user_byte. by rewrite (user_pa_frame k k' a H1 H2), H1. Qed.
Lemma user_region_frame k k' pdir a n : k_pages k' = k_pages k -> k_paging k' = k_paging k ->
  user_region k pdir a n -> user_region k' pdir a n.
Proof.
  intros H1 H2 R. assert (Hpa : forall i, user_pa k' i = user_pa k i) by (intros; by apply user_pa_frame).
  split.
  - rewrite H2. apply R.
  - apply R.
  - intros i. rewrite Hpa. apply R.
  - intros i j pa. rewrite !Hpa. apply R.
  - intros i j pa. rewrite Hpa, H1. apply R.
Qed.

(** The bytes [src] lie at the user address [a]. *)
Definition user_bytes (k : kstate) (a : Z) (src : list Z) : Prop :=
  0 <= a /\ a + Z.of_nat (length src) <= 2 ^ 32 /\
  forall j x, src !! j = Some x -> user_byte k (a + Z.of_nat j) = Some x.
