(* ===== verification/PipeProofs.v ===== *)
(** * Pipes: theorems (source/pipe.c)

    A pipe is a queue of bytes: [pipe_rep] relates the buffer in the kernel
    heap to the queue, and the routines of pipe.c are the operations of the
    queue, for every allocator that keeps the interface of [Allocator]. *)

From S2P Require Import Prelude Constants Libc Page Kernel Process ProcessInv ProcessTheorems UserMemory KernelMem Pipe Allocator.

(** ** Representation *)

(** The pipe at [b] holds the bytes [l]; [r] and [w] are its open ends and
    [pid] the process blocked on it. *)
Record pipe_at (k : kstate) (b r w pid : Z) (l : list Z) (data : Z) (bytes : list Z) : Prop := {
  pa_pipe : k_objs k !! b = Some (OPipe (mkPipe (Some r) (Some w) (Some (Z.of_nat (length bytes)))
              (Some (Z.of_nat (length l))) (Some pid) (Some data)));
  pa_data : k_objs k !! data = Some (OBytes bytes);
  pa_fits : (length l <= length bytes)%nat;
  pa_bytes : take (length l) bytes = l;
  pa_byte : Forall is_byte l;
  pa_alloc : 0 < Z.of_nat (length bytes) < 2 ^ 31
}.
Arguments pa_pipe {k b r w pid l data bytes} _.
Arguments pa_data {k b r w pid l data bytes} _.
Arguments pa_fits {k b r w pid l data bytes} _.
Arguments pa_bytes {k b r w pid l data bytes} _.
Arguments pa_byte {k b r w pid l data bytes} _.
Arguments pa_alloc {k b r w pid l data bytes} _.

Definition pipe_rep (k : kstate) (b r w pid : Z) (l : list Z) : Prop :=
  exists data bytes, pipe_at k b r w pid l data bytes.

Lemma pipe_at_ne k b r w pid l data bytes : pipe_at k b r w pid l data bytes -> b <> data.
Proof. intros P ->. pose proof (pa_pipe P). pose proof (pa_data P). congruence. Qed.

Lemma wp_get_pipe k b p (Q : pipe_buffer -> kstate -> Prop) : k_objs k !! b = Some (OPipe p) -> Q p k -> wp (get_pipe b) Q k.
Proof. intros Hb HQ. unfold get_pipe. wp_step. wp_step. by rewrite Hb. Qed.
Lemma wp_upd_pipe k b p f (Q : unit -> kstate -> Prop) : k_objs k !! b = Some (OPipe p) ->
  Q tt (k <| k_objs ::= insert b (OPipe (f p)) |>) -> wp (upd_pipe b f) Q k.
Proof. intros Hb HQ. unfold upd_pipe. wp_step. eapply wp_get_pipe; [done|]. by wp_step. Qed.
Lemma wp_fld {A} (x : A) k (Q : A -> kstate -> Prop) : Q x k -> wp (fld (Some x)) Q k.
Proof. done. Qed.

(** ** The capacity *)

Lemma grow_loop_spec fuel need alloc : 0 < alloc -> need < 2 ^ 30 -> alloc < 2 ^ 31 ->
  need <= alloc * 2 ^ (Z.of_nat fuel - 1) -> (0 < fuel)%nat ->
  exists alloc', grow_loop fuel need alloc = Some alloc' /\ need <= alloc' < 2 ^ 31 /\ alloc <= alloc'.
Proof.
  revert alloc. induction fuel as [|fuel IH]; intros alloc Ha Hneed Hmax Hf Hpos; [lia|]. cbn [grow_loop].
  destruct (Z.ltb_spec alloc need) as [Hlt|Hge]; [|by exists alloc].
  destruct fuel as [|fuel]; [cbn in Hf; lia|]. rewrite u32_small by lia.
  destruct (IH (alloc * 2)) as (a' & Ha' & H1 & H2); [lia | done | lia | | lia |].
  - replace (Z.of_nat (S (S fuel)) - 1) with (1 + (Z.of_nat (S fuel) - 1)) in Hf by lia.
    rewrite Z.pow_add_r in Hf by lia. lia.
  - exists a'. split; [done|]. lia.
Qed.
Lemma grow_enough need alloc : 0 < alloc < 2 ^ 31 -> need < 2 ^ 30 ->
  exists alloc', grow_loop 33 need alloc = Some alloc' /\ need <= alloc' < 2 ^ 31 /\ alloc <= alloc'.
Proof.
  intros Ha Hn. apply grow_loop_spec; [lia | lia | lia | | lia].
  assert (2 ^ (Z.of_nat 33 - 1) = 2 ^ 32) as -> by done. nia.
Qed.

(** ** Sources of a write *)

(** The bytes [src] can be read from [buf] whatever the heap holds. *)
Definition heap_state (k : kstate) (h : Buddy.memarea) (objs : gmap Z obj) (na : Z) : kstate :=
  k <| k_heap := h |> <| k_objs := objs |> <| k_nallocs := na |>.
Definition readable (k : kstate) (buf : ptr) (src : list Z) : Prop :=
  forall j x h objs na, src !! j = Some x ->
    wp (load (padd buf (Z.of_nat j))) (fun y k' => y = x /\ k' = heap_state k h objs na) (heap_state k h objs na).

Lemma readable_const k l : Forall is_byte l -> readable k (Const l) l.
Proof.
  intros Hb j x h objs na Hj. cbn [load padd]. rewrite Nat2Z.id. apply (wp_of_opt _ x); [|by split].
  unfold zlookup. cbn. by rewrite lookup_drop, Nat.add_0_r.
Qed.
Lemma readable_user k a src : 0 <= a -> a + Z.of_nat (length src) <= 2 ^ 32 ->
  (forall j x, src !! j = Some x -> user_byte k (a + Z.of_nat j) = Some x) -> readable k (User a) src.
Proof.
  intros Ha Hn Hs j x h objs na Hj. cbn [padd]. pose proof (lookup_lt_Some _ _ _ Hj).
  rewrite u32_small by lia. eapply load_user; [|by split]. by apply (Hs j x Hj).
Qed.

(** ** Changes to the heap *)

(** Only the heap has changed, and of the objects of [k] only those in [X]. *)
Definition heap_changed (X : Z -> Prop) (k k' : kstate) : Prop :=
  exists h objs na, k' = heap_state k h objs na /\ forall a o, ~ X a -> k_objs k !! a = Some o -> objs !! a = Some o.

Lemma heap_changed_insert (X : Z -> Prop) k a o : X a -> heap_changed X k (k <| k_objs ::= insert a o |>).
Proof.
  intros Ha. exists (k_heap k), (<[a := o]> (k_objs k)), (k_nallocs k). split; [by destruct k|].
  intros x o' Hx Ho. rewrite lookup_insert_ne; [done|]. by intros ->.
Qed.
Lemma heap_changed_trans (X Y : Z -> Prop) k k1 k2 : heap_changed X k k1 -> heap_changed Y k1 k2 ->
  (forall a, Y a -> X a \/ k_objs k !! a = None) -> heap_changed X k k2.
Proof.
  intros (h1 & o1 & n1 & -> & H1) (h2 & o2 & n2 & -> & H2) HXY. exists h2, o2, n2. split; [done|].
  intros a o Ha Ho. apply H2; [|by apply H1]. intros [?|?]%HXY; [done | congruence].
Qed.
Lemma heap_changed_allocated (X : Z -> Prop) k k' a o : allocated a o k k' -> k_objs k !! a = None -> heap_changed X k k'.
Proof.
  intros [h ->] Ha. exists h, (<[a := o]> (k_objs k)), (1 + k_nallocs k). split; [by destruct k|].
  intros x o' _ Ho. rewrite lookup_insert_ne; [done|]. congruence.
Qed.
Lemma heap_changed_released (X : Z -> Prop) k k' a : released a k k' -> X a -> heap_changed X k k'.
Proof.
  intros [h ->] Ha. exists h, (delete a (k_objs k)), (k_nallocs k). split; [by destruct k|].
  intros x o' Hx Ho. rewrite lookup_delete_ne; [done|]. by intros ->.
Qed.
Lemma heap_changed_refl (X : Z -> Prop) k : heap_changed X k k.
Proof. exists (k_heap k), (k_objs k), (k_nallocs k). split; [by destruct k | done]. Qed.
Lemma heap_changed_readable (X : Z -> Prop) k k' buf src : heap_changed X k k' -> readable k buf src -> readable k' buf src.
Proof. intros (h & o & n & -> & _) Hr. exact Hr. Qed.
Lemma heap_changed_sched (X : Z -> Prop) R S k k' : heap_changed X k k' -> sched R S k -> sched R S k'.
Proof. intros (h & o & n & -> & _) Hs. by eapply sched_frame. Qed.

Lemma splice_all off src bytes : (off + length src <= length bytes)%nat -> take off bytes = take off (splice off src bytes).
Proof.
  intros H. apply list_eq. intros i. destruct (decide (i < off)%nat) as [Hi|Hi].
  - rewrite !lookup_take_lt, splice_lookup by lia. by rewrite decide_False by lia.
  - rewrite !lookup_take_ge by lia. done.
Qed.

(** ** Waking up the reader *)

(** The process [pid], blocked on a read, is ready again; -1 is no process. *)
Definition woken (pid : Z) (R S : list Z) (k k' : kstate) : Prop :=
  (pid = -1 /\ k' = k /\ sched R S k') \/
  (exists S1 S2, S = S1 ++ pid :: S2 /\ moved pid 1 k k' /\ sched (pid :: R) (S1 ++ S2) k').

Lemma moved_objs x v k k' f : moved x v k k' -> moved x v (k <| k_objs ::= f |>) (k' <| k_objs ::= f |>).
Proof. intros (ps & lr & ls & -> & H). by exists ps, lr, ls. Qed.
Lemma moved_heap x v k k' : moved x v k k' -> k_objs k' = k_objs k /\ k_heap k' = k_heap k.
Proof. by intros (ps & lr & ls & -> & _). Qed.

Lemma wake_up_reader_spec k b r w pid l data bytes R S : pipe_at k b r w pid l data bytes -> sched R S k ->
  pid = -1 \/ pid ∈ S ->
  wp (wake_up_reader b) (fun _ k' => pipe_at k' b r w (-1) l data bytes /\ exists k1,
    heap_changed (fun a => a = b) k k1 /\ woken pid R S k1 k' /\
    (obj_size <$> k_objs k') = obj_size <$> k_objs k /\ k_heap k' = k_heap k) k.
Proof.
  intros P Hs Hpid. unfold wake_up_reader. wp_step. eapply wp_get_pipe; [apply P|]. wp_step. apply wp_fld.
  destruct Hpid as [-> |Hin].
  { cbn. apply wp_ret. split; [done|]. exists k. split; [apply heap_changed_refl|]. split; [by left | done]. }
  pose proof (dlist_elem _ _ _ pid (sc_suspended Hs) Hin) as [q Hq%zlookup_range].
  apply list_elem_of_split in Hin as (S1 & S2 & ->). pose proof (pipe_at_ne _ _ _ _ _ _ _ _ P) as Hbd.
  apply wp_when; intros Hp; b2p; [|lia]. wp_step. eapply wp_mono; [by apply resume_process_wp|].
  intros [] k1 [Hs1 Hm]. destruct (moved_heap _ _ _ _ Hm) as [Ho Hh].
  eapply wp_upd_pipe; [rewrite Ho; apply P|].
  set (p' := set_field (fun _ => Some (-1)) _). split.
  - split; cbn; [by rewrite lookup_insert_eq | rewrite lookup_insert_ne by done; rewrite Ho; apply P | apply P..].
  - exists (k <| k_objs ::= insert b (OPipe p') |>). split; [by apply heap_changed_insert|]. split; [|split; [|done]].
    + right. exists S1, S2. split; [done|]. split; [by apply moved_objs|]. by eapply sched_frame.
    + cbn. rewrite Ho, fmap_insert. apply insert_id. by rewrite lookup_fmap, (pa_pipe P).
Qed.

Section write.
  Context {Inv : gmap Z Z -> Buddy.memarea -> Prop} `{!Allocator Buddy.kmalloc_ma Buddy.kfree_ma Inv}.

(** The objects a resize touches. *)
Lemma grow_changed k k1 k2 k3 k4 b data nd o1 o2 o3 o4 : k1 = k <| k_objs ::= insert b o1 |> -> allocated nd o2 k1 k2 -> k_objs k1 !! nd = None ->
  k3 = k2 <| k_objs ::= insert nd o3 |> -> released data k3 k4 -> k_objs k !! nd = None ->
  heap_changed (fun a => a = b \/ a = data) k (k4 <| k_objs ::= insert b o4 |>).
Proof using.
  intros E1 Hal Hn1 E3 Hrel Hn. set (X := fun a => a = b \/ a = data).
  eapply (heap_changed_trans X X); [|apply heap_changed_insert; by left | by left].
  eapply (heap_changed_trans X X); [|apply (heap_changed_released X k3 k4 data); [done | by right] | by left].
  eapply (heap_changed_trans X (fun a => a = nd)); [|rewrite E3; by apply heap_changed_insert|].
  2: { intros a ->. by right. }
  rewrite E1 in Hal, Hn1. eapply (heap_changed_trans X X); [apply (heap_changed_insert X k b o1); by left | |by left].
  by eapply heap_changed_allocated.
Qed.
Lemma grow_pipe_spec k b r w pid l data bytes need : heap_inv Inv k -> pipe_at k b r w pid l data bytes ->
  need < 2 ^ 30 -> wpx (grow_pipe b need) (fun _ k' => exists data' bytes',
    pipe_at k' b r w pid l data' bytes' /\ need <= Z.of_nat (length bytes') /\ heap_inv Inv k' /\
    (data' = data \/ k_objs k !! data' = None) /\ heap_changed (fun a => a = b \/ a = data) k k') k.
Proof using Allocator0.
  intros Hi P Hneed. pose proof (pipe_at_ne _ _ _ _ _ _ _ _ P) as Hbd. unfold grow_pipe.
  apply wpx_wp_bind. eapply wp_get_pipe; [apply P|]. apply wpx_wp_bind, wp_fld, wpx_wp_bind, wp_fld.
  destruct (grow_enough need (Z.of_nat (length bytes)) (pa_alloc P) Hneed) as (alloc' & -> & Ha & Hle).
  apply wpx_wp_bind. eapply wp_upd_pipe; [apply P|]. cbn [b_reading b_writing b_len b_readpid b_data b_alloc set_field].
  set (k1 := k <| k_objs ::= insert b _ |>).
  assert (Hi1 : heap_inv Inv k1) by (by eapply heap_inv_insert; [exact Hi | apply P | done]).
  apply wpx_bind. eapply wpx_mono; [apply kmalloc_bytes_spec; [done | pose proof (pa_alloc P); lia]|].
  intros nd k2 (Hnone & Hnd & Hnd0 & Hal & Hi2). set (stale := stale_bytes k1 alloc') in *.
  assert (Hst : Z.of_nat (length stale) = alloc') by (apply stale_bytes_length; pose proof (pa_alloc P); lia).
  assert (Hbnd : nd <> b) by (intros ->; unfold k1 in Hnone; cbn in Hnone; by rewrite lookup_insert_eq in Hnone).
  assert (Hknd : k_objs k !! nd = None) by (unfold k1 in Hnone; cbn in Hnone; by rewrite lookup_insert_ne in Hnone).
  assert (Hdnd : nd <> data) by (intros ->; pose proof (pa_data P); congruence).
  destruct Hal as [h Hk2].
  assert (Ho2 : k_objs k2 !! nd = Some (OBytes stale)) by (rewrite Hk2; apply lookup_insert_eq).
  assert (Hd2 : k_objs k2 !! data = Some (OBytes bytes)).
  { rewrite Hk2. cbn. rewrite !lookup_insert_ne by congruence. apply P. }
  apply wpx_wp_bind, wp_fld, wpx_wp_bind. pose proof (pa_fits P) as Hfit.
  eapply wp_mono; [apply (kmemmove_obj nd 0 (Obj data 0) l stale k2 Ho2); [lia | apply P |]|].
  { intros j x Hj. cbn [padd]. eapply load_obj; [| |by split].
    - cbn. rewrite lookup_insert_ne by congruence. exact Hd2.
    - unfold zlookup. destruct (Z.ltb_spec (0 + Z.of_nat j) 0); [lia|].
      replace (Z.to_nat (0 + Z.of_nat j)) with j by lia.
      rewrite <- (pa_bytes P) in Hj. apply lookup_take_Some in Hj. apply Hj. }
  intros [] k3 Hk3. set (nb := splice 0 l stale) in *.
  assert (Hlen : length nb = length stale) by (apply splice_length; lia).
  assert (Hi3 : heap_inv Inv k3).
  { rewrite Hk3. eapply heap_inv_insert; [exact Hi2 | exact Ho2 |]. cbn. by rewrite Hlen. }
  assert (Hd3 : k_objs k3 !! data = Some (OBytes bytes)) by (rewrite Hk3; cbn; by rewrite lookup_insert_ne by congruence).
  apply wpx_wp_bind. eapply wp_mono; [by eapply kfree_spec|]. intros [] k4 [[h4 Hk4] Hi4].
  eassert (Hb4 : k_objs k4 !! b = Some (OPipe _)).
  { rewrite Hk4, Hk3, Hk2. cbn. rewrite lookup_delete_ne, !lookup_insert_ne, lookup_insert_eq by congruence. reflexivity. }
  eapply wpx_wp, wp_upd_pipe; [exact Hb4|].
  exists nd, nb. split; [|split; [lia|split; [|split; [by right|]]]].
  - split; cbn.
    + rewrite lookup_insert_eq, Hlen, Hst. done.
    + rewrite lookup_insert_ne by congruence. rewrite Hk4, Hk3. cbn. rewrite lookup_delete_ne, lookup_insert_eq by congruence. done.
    + lia.
    + pose proof (splice_take 0 l stale ltac:(lia)) as Ht. by rewrite take_0 in Ht.
    + apply P.
    + pose proof (pa_alloc P). lia.
  - by eapply heap_inv_insert; [exact Hi4 | exact Hb4 |].
  - eapply (grow_changed k k1 k2 k3 k4 b data nd); [reflexivity | by exists h | done | exact Hk3 | by exists h4 | done].
Qed.

(** Room for [need] bytes, by a resize when the buffer is too small. *)
Lemma make_room_spec k b r w pid l data bytes need : heap_inv Inv k -> pipe_at k b r w pid l data bytes ->
  need < 2 ^ 30 -> wpx (when_ (Z.of_nat (length bytes) <? need) (grow_pipe b need)) (fun _ k' => exists data' bytes',
    pipe_at k' b r w pid l data' bytes' /\ need <= Z.of_nat (length bytes') /\ heap_inv Inv k' /\
    (data' = data \/ k_objs k !! data' = None) /\ heap_changed (fun a => a = b \/ a = data) k k') k.
Proof using Allocator0.
  intros Hi P Hneed. destruct (Z.ltb_spec (Z.of_nat (length bytes)) need); [by apply (grow_pipe_spec k b r w pid l data bytes)|].
  apply wpx_wp, wp_ret. exists data, bytes. split; [done|]. split; [lia|]. split; [done|]. split; [by left|].
  apply heap_changed_refl.
Qed.

Lemma write_to_pipe_spec k b r w pid l data bytes buf src R S :
  heap_inv Inv k -> pipe_at k b r w pid l data bytes -> readable k buf src -> Forall is_byte src ->
  Z.of_nat (length l) + Z.of_nat (length src) < 2 ^ 30 -> sched R S k -> pid = -1 \/ pid ∈ S ->
  wpx (write_to_pipe b buf (Z.of_nat (length src))) (fun _ k' => pipe_rep k' b r w (-1) (l ++ src) /\
    heap_inv Inv k' /\ exists k1, heap_changed (fun a => a = b \/ a = data) k k1 /\ woken pid R S k1 k') k.
Proof using Allocator0.
  intros Hi P Hr Hb Hlen Hs Hpid. unfold write_to_pipe. apply wpx_wp_bind. eapply wp_get_pipe; [apply P|].
  apply wpx_wp_bind, wp_fld, wpx_wp_bind, wp_fld. rewrite u32_small by lia.
  apply wpx_bind. eapply wpx_mono; [by apply (make_room_spec k b r w pid l data bytes)|].
  intros [] k1 (d1 & b1 & P1 & Hroom & Hi1 & Hd1 & HC1). pose proof (pipe_at_ne _ _ _ _ _ _ _ _ P1) as Hbd.
  apply wpx_wp_bind. eapply wp_get_pipe; [apply P1|]. apply wpx_wp_bind, wp_fld, wpx_wp_bind.
  pose proof (heap_changed_readable _ _ _ _ _ HC1 Hr) as Hr1.
  eapply wp_mono; [apply (kmemmove_obj d1 (length l) buf src b1 k1 (pa_data P1)); [lia | done |]|].
  { intros j x Hj. specialize (Hr1 j x (k_heap k1) (<[d1 := OBytes (splice (length l) (take j src) b1)]> (k_objs k1)) (k_nallocs k1) Hj).
    replace (heap_state k1 _ _ _) with (with_buf d1 (splice (length l) (take j src) b1) k1) in Hr1; [done|]. by destruct k1. }
  intros [] k2 ->. set (b2 := splice (length l) src b1).
  assert (Hl2 : length b2 = length b1) by (apply splice_length; lia).
  assert (Hb2 : k_objs (with_buf d1 b2 k1) !! b = k_objs k1 !! b) by (cbn; by rewrite lookup_insert_ne by congruence).
  apply wpx_wp_bind. eapply wp_upd_pipe; [rewrite Hb2; apply P1|]. cbn.
  set (k3 := (with_buf d1 b2 k1) <| k_objs ::= insert b _ |>).
  assert (P3 : pipe_at k3 b r w pid (l ++ src) d1 b2).
  { split; cbn.
    - rewrite lookup_insert_eq, length_app, Hl2, Nat2Z.inj_add. done.
    - rewrite lookup_insert_ne by done. by rewrite lookup_insert_eq.
    - rewrite length_app. lia.
    - rewrite length_app. unfold b2. rewrite splice_take by lia. by rewrite (pa_bytes P1).
    - apply Forall_app. split; [apply P | done].
    - rewrite Hl2. apply P1. }
  assert (HC3 : heap_changed (fun a => a = b \/ a = data) k k3).
  { set (X := fun a => a = b \/ a = data).
    apply (heap_changed_trans X (fun a => a = b) k (with_buf d1 b2 k1));
      [|by apply (heap_changed_insert (fun a => a = b)) | by left; left].
    apply (heap_changed_trans X (fun a => a = d1) k k1); [done | by apply (heap_changed_insert (fun a => a = d1)) |].
    intros a ->. destruct Hd1 as [-> |?]; [left; by right | by right]. }
  assert (Hi3 : heap_inv Inv k3).
  { apply (heap_inv_insert _ b (OPipe (mkPipe (Some r) (Some w) (Some (Z.of_nat (length b1))) (Some (Z.of_nat (length l))) (Some pid) (Some d1))));
      [|rewrite Hb2; apply P1 | done].
    eapply heap_inv_insert; [exact Hi1 | apply P1 |]. cbn. by rewrite Hl2. }
  apply wpx_wp. eapply wp_mono; [apply (wake_up_reader_spec k3 b r w pid (l ++ src) d1 b2 R S P3); [|done]|].
  { by eapply heap_changed_sched. }
  intros [] k4 (P4 & k5 & HC5 & HW & Hsz & Hhp). split; [by exists d1, b2|]. split.
  - unfold heap_inv in *. by rewrite Hsz, Hhp.
  - exists k5. split; [|done]. eapply heap_changed_trans; [exact HC3 | exact HC5 |]. intros a ->. left. by left.
Qed.
End write.

(** ** Reading *)

Lemma wp_get_fh k fh f (Q : filehandle -> kstate -> Prop) : k_objs k !! fh = Some (OFh f) -> Q f k -> wp (get_fh fh) Q k.
Proof. intros Hf HQ. unfold get_fh. wp_step. wp_step. by rewrite Hf. Qed.

Lemma pipe_at_pages k b r w pid l data bytes pg : pipe_at k b r w pid l data bytes ->
  pipe_at (k <| k_pages := pg |>) b r w pid l data bytes.
Proof. by intros []. Qed.

(** The bytes that stay move to the front of the buffer. *)
Lemma shift_down_spec k b r w pid l data bytes n : pipe_at k b r w pid l data bytes -> (n <= length l)%nat ->
  wp (when_ (Z.of_nat n <? Z.of_nat (length l))
        (kmemmove (Obj data 0) (Obj data (Z.of_nat n)) (Z.of_nat (length l) - Z.of_nat n)))
    (fun _ k' => exists bytes', k' = with_buf data bytes' k /\ length bytes' = length bytes /\
       take (length l - n) bytes' = drop n l) k.
Proof.
  intros P Hn. pose proof (pa_fits P) as Hfit. apply wp_when; intros Hlt; b2p.
  2: { exists bytes. split; [by rewrite with_buf_id by apply P|]. split; [done|].
       replace (length l - n)%nat with 0%nat by lia. symmetry. apply drop_ge. lia. }
  replace (Z.of_nat (length l) - Z.of_nat n) with (Z.of_nat (length (drop n l))) by (rewrite length_drop; lia).
  assert (Hd : length (drop n l) = (length l - n)%nat) by apply length_drop.
  eapply wp_mono; [apply (kmemmove_obj data 0 (Obj data (Z.of_nat n)) (drop n l) bytes k (pa_data P));
    [lia | apply Forall_drop, P |]|].
  - intros j x Hj. cbn [padd]. pose proof (lookup_lt_Some _ _ _ Hj).
    eapply load_obj; [apply lookup_insert_eq | |by split].
    unfold zlookup. destruct (Z.ltb_spec (Z.of_nat n + Z.of_nat j) 0); [lia|].
    replace (Z.to_nat (Z.of_nat n + Z.of_nat j)) with (n + j)%nat by lia.
    rewrite splice_lookup by (rewrite length_take; lia). rewrite decide_False by (rewrite length_take; lia).
    rewrite lookup_drop in Hj. rewrite <- (pa_bytes P) in Hj. by apply lookup_take_Some in Hj as [Hj _].
  - intros [] k' ->. exists (splice 0 (drop n l) bytes). split; [done|].
    split; [apply splice_length; lia|]. rewrite <- Hd.
    pose proof (splice_take 0 (drop n l) bytes ltac:(lia)) as Ht. by rewrite take_0 in Ht.
Qed.

Section read.
  Context {Inv : gmap Z Z -> Buddy.memarea -> Prop}.
  Context (k : kstate) (fh b r w : Z) (f : filehandle) (l : list Z).
  Context (Hf : k_objs k !! fh = Some (OFh f)) (Hfp : fh_p f = Some b).

Lemma reader_busy pid buf count : pipe_rep k b r w pid l -> pid <> -1 -> pipe_reader_read fh buf count k = Ok (- EBADF) k.
Proof using Hf Hfp.
  intros (data & bytes & P) Hpid. unfold pipe_reader_read, get_fh, get_pipe, bind, get, fld, of_opt, ret.
  rewrite Hf, Hfp, (pa_pipe P). cbn. destruct (Z.eqb_spec pid (-1)); [done|]. done.
Qed.
Lemma reader_eof buf count : pipe_rep k b r 0 (-1) [] -> pipe_reader_read fh buf count k = Ok 0 k.
Proof using Hf Hfp.
  intros (data & bytes & P). unfold pipe_reader_read, get_fh, get_pipe, bind, get, fld, of_opt, ret.
  by rewrite Hf, Hfp, (pa_pipe P).
Qed.

Lemma reader_data pdir a count data bytes : heap_inv Inv k -> pipe_at k b r w (-1) l data bytes -> l <> [] ->
  0 <= count < 2 ^ 32 ->
  let n := Nat.min (Z.to_nat count) (length l) in
  user_region k pdir a (Z.of_nat n) ->
  wp (pipe_reader_read fh (User a) count) (fun res k' => res = Z.of_nat n /\ pipe_rep k' b r w (-1) (drop n l) /\
    heap_inv Inv k' /\ exists k1, user_written k pdir a (Z.of_nat n) (take n l) k1 /\
      heap_changed (fun x => x = b \/ x = data) k1 k') k.
Proof using Hf Hfp.
  intros Hi P Hl Hcount n Hreg. pose proof (pa_alloc P) as Hal. pose proof (pa_fits P) as Hfit.
  pose proof (pipe_at_ne _ _ _ _ _ _ _ _ P) as Hbd. assert (0 < length l)%nat by (destruct l; [done | cbn; lia]).
  unfold pipe_reader_read. wp_step. eapply wp_get_fh; [done|]. rewrite Hfp. wp_step. apply wp_fld.
  wp_step. eapply wp_get_pipe; [apply P|]. wp_step. apply wp_fld. cbn [negb Z.eqb].
  change (-1 =? -1) with true. cbn [negb]. wp_step. apply wp_fld. wp_step. apply wp_fld.
  destruct (Z.ltb_spec 0 (Z.of_nat (length l))); [|lia]. cbv zeta.
  assert (Hcopy : s32 (if count <? Z.of_nat (length l) then count else Z.of_nat (length l)) = Z.of_nat n).
  { destruct (Z.ltb_spec count (Z.of_nat (length l))); rewrite s32_small by lia; unfold n; lia. }
  rewrite Hcopy. rewrite (u32_small (Z.of_nat n)) by lia. wp_step. apply wp_fld. wp_step.
  assert (Hlt : length (take n l) = n) by (rewrite length_take; lia). rewrite <- Hlt at 1.
  eapply wp_mono; [apply (kmemmove_user k pdir a (Z.of_nat n)); [done | lia | apply Forall_take, P |]|].
  { intros j x pg Hj. cbn [padd]. eapply load_obj; [apply P | |by split].
    apply lookup_take_Some in Hj as [Hj _]. rewrite <- (pa_bytes P) in Hj. apply lookup_take_Some in Hj as [Hj _].
    unfold zlookup. destruct (Z.ltb_spec (0 + Z.of_nat j) 0); [lia|]. by replace (Z.to_nat (0 + Z.of_nat j)) with j by lia. }
  intros [] k1 W. destruct (uw_rest W) as [pg Hk1]. assert (P1 : pipe_at k1 b r w (-1) l data bytes) by (rewrite Hk1; by apply pipe_at_pages).
  rewrite (u32_small (Z.of_nat (length l) - Z.of_nat n)) by lia.
  wp_step. eapply wp_mono; [apply (shift_down_spec k1 b r w (-1) l data bytes n P1); lia|].
  intros [] k2 (b2 & -> & Hl2 & Ht2).
  assert (Hb2 : k_objs (with_buf data b2 k1) !! b = k_objs k1 !! b) by (cbn; by rewrite lookup_insert_ne by congruence).
  wp_step. eapply wp_upd_pipe; [rewrite Hb2; apply P1|]. apply wp_ret. split; [done|]. split; [|split].
  - exists data, b2. split; cbn.
    + rewrite lookup_insert_eq, Hl2, length_drop. by replace (Z.of_nat (length l) - Z.of_nat n) with (Z.of_nat (length l - n)) by lia.
    + rewrite lookup_insert_ne by done. by rewrite lookup_insert_eq.
    + rewrite length_drop. lia.
    + by rewrite length_drop.
    + apply Forall_drop, P.
    + by rewrite Hl2.
  - apply (heap_inv_insert _ b (OPipe (mkPipe (Some r) (Some w) (Some (Z.of_nat (length bytes))) (Some (Z.of_nat (length l))) (Some (-1)) (Some data))));
      [|rewrite Hb2; apply P1 | done].
    eapply heap_inv_insert; [|apply P1 | cbn; by rewrite Hl2]. by rewrite Hk1.
  - exists k1. split; [done|].
    eapply heap_changed_trans; [apply (heap_changed_insert (fun x => x = b \/ x = data)); by right |
      apply (heap_changed_insert (fun x => x = b \/ x = data)); by left | by left].
Qed.
End read.

(** ** Blocking *)

Lemma reader_blocks k fh f b r w data bytes buf count R1 R2 S c p : k_objs k !! fh = Some (OFh f) -> fh_p f = Some b ->
  pipe_at k b r w (-1) [] data bytes -> w <> 0 ->
  sched (R1 ++ c :: R2) S k -> k_current k = Some c -> zlookup (k_processes k) c = Some p -> p_pid p = c ->
  wp (pipe_reader_read fh buf count) (fun res k' => res = - ESUSPEND /\ pipe_at k' b r w c [] data bytes /\
    sched (R1 ++ R2) (c :: S) k' /\ exists k1, heap_changed (fun x => x = b) k k1 /\ moved c 0 k1 k') k.
Proof.
  intros Hf Hfp P Hw Hs Hc Hp Hpid. pose proof (pipe_at_ne _ _ _ _ _ _ _ _ P) as Hbd.
  unfold pipe_reader_read. wp_step. eapply wp_get_fh; [done|]. rewrite Hfp. wp_step. apply wp_fld.
  wp_step. eapply wp_get_pipe; [apply P|]. wp_step. apply wp_fld. change (-1 =? -1) with true. cbn [negb].
  wp_step. apply wp_fld. wp_step. apply wp_fld. change (0 <? Z.of_nat (length (@nil Z))) with false. cbv iota.
  unfold truthy. destruct (Z.eqb_spec w 0); [done|]. cbn [negb]. wp_step. eapply wp_cur; [done..|].
  wp_step. eapply wp_upd_pipe; [apply P|]. set (k1 := k <| k_objs ::= insert b _ |>).
  wp_step. unfold current. wp_step. wp_step. eapply wp_of_opt; [done|]. wp_step.
  eapply wp_mono; [apply (suspend_process_wp R1 R2 S c k1); by eapply sched_frame|].
  intros [] k2 [Hs2 Hm]. apply wp_ret. split; [done|]. destruct (moved_heap _ _ _ _ Hm) as [Ho _].
  split; [|split; [done|]].
  - split; try rewrite Ho; cbn.
    + by rewrite lookup_insert_eq, Hpid.
    + rewrite lookup_insert_ne by done. apply P.
    + apply P.
    + done.
    + done.
    + apply P.
  - exists k1. split; [by apply heap_changed_insert | done].
Qed.

(** ** New pipes *)

Section new.
  Context {Inv : gmap Z Z -> Buddy.memarea -> Prop} `{!Allocator Buddy.kmalloc_ma Buddy.kfree_ma Inv}.

Lemma new_pipe_spec k : heap_inv Inv k ->
  wpx new_pipe (fun b k' => k_objs k !! b = None /\ b <> 0 /\ pipe_rep k' b 1 1 (-1) [] /\ heap_inv Inv k' /\
    heap_changed (fun _ => False) k k') k.
Proof using Allocator0.
  intros Hi. unfold new_pipe. apply wpx_bind.
  eapply wpx_mono; [apply (kmalloc_spec SIZEOF_PIPE_BUFFER (OPipe pipe_undef) k Hi); done|].
  intros b k1 (Hb & _ & Hb0 & Hal & Hi1). assert (Hk1 : k_objs k1 !! b = Some (OPipe pipe_undef)).
  { destruct Hal as [h ->]. cbn. apply lookup_insert_eq. }
  apply wpx_wp_bind. eapply wp_upd_pipe; [exact Hk1|]. set (k2 := k1 <| k_objs ::= insert b _ |>).
  assert (Hi2 : heap_inv Inv k2) by (by eapply heap_inv_insert; [exact Hi1 | exact Hk1 |]).
  apply wpx_bind. eapply wpx_mono; [apply (kmalloc_bytes_spec BUFSIZE k2 Hi2); done|].
  intros d k3 (Hd & _ & Hd0 & Hal3 & Hi3). set (st := stale_bytes k2 BUFSIZE) in *.
  assert (Hst : length st = Z.to_nat BUFSIZE).
  { pose proof (stale_bytes_length k2 BUFSIZE ltac:(done)) as Hl. unfold st. lia. }
  assert (Hbd : b <> d) by (intros ->; unfold k2 in Hd; cbn in Hd; by rewrite lookup_insert_eq in Hd).
  eassert (Hk3 : k_objs k3 !! b = Some (OPipe _)).
  { destruct Hal3 as [h ->]. cbn. rewrite lookup_insert_ne, lookup_insert_eq by congruence. reflexivity. }
  apply wpx_wp. wp_step. eapply wp_upd_pipe; [exact Hk3|]. apply wp_ret.
  split; [done|]. split; [done|]. split; [|split].
  - exists d, st. split; cbn [k_objs length].
    + cbn. rewrite lookup_insert_eq, Hst. done.
    + destruct Hal3 as [h ->]. cbn. rewrite lookup_insert_ne, lookup_insert_eq by congruence. done.
    + lia.
    + done.
    + done.
    + rewrite Hst. done.
  - by eapply heap_inv_insert; [exact Hi3 | exact Hk3 |].
  - set (X := fun a => a = b). apply (heap_changed_trans (fun _ => False) X k k3); [|by apply heap_changed_insert|].
    2: { intros a ->. by right. }
    assert (HC2 : heap_changed (fun _ => False) k k2).
    { apply (heap_changed_trans (fun _ => False) X k k1); [by eapply heap_changed_allocated | by apply heap_changed_insert |].
      intros a ->. by right. }
    apply (heap_changed_trans (fun _ => False) (fun _ => False) k k2); [done | by eapply heap_changed_allocated | done].
Qed.
End new.

(** ** New file handles *)

Lemma wp_upd_fh k fh f g (Q : unit -> kstate -> Prop) : k_objs k !! fh = Some (OFh f) ->
  Q tt (k <| k_objs ::= insert fh (OFh (g f)) |>) -> wp (upd_fh fh g) Q k.
Proof. intros Hf HQ. unfold upd_fh. wp_step. eapply wp_get_fh; [done|]. by wp_step. Qed.

Section handle.
  Context {Inv : gmap Z Z -> Buddy.memarea -> Prop} `{!Allocator Buddy.kmalloc_ma Buddy.kfree_ma Inv}.

(** Every constructor of handles allocates one and fills in fields. *)
Lemma new_handle_spec k g : heap_inv Inv k ->
  wpx (fh <- kmalloc SIZEOF_FILEHANDLE (OFh fh_undef); upd_fh fh g;; ret fh) (fun fh k' =>
    k_objs k !! fh = None /\ fh <> 0 /\ k_objs k' !! fh = Some (OFh (g fh_undef)) /\ heap_inv Inv k' /\
    heap_changed (fun _ => False) k k') k.
Proof using Allocator0.
  intros Hi. apply wpx_bind. eapply wpx_mono; [apply (kmalloc_spec SIZEOF_FILEHANDLE (OFh fh_undef) k Hi); done|].
  intros fh k1 (Hn & _ & H0 & Hal & Hi1). assert (Hk1 : k_objs k1 !! fh = Some (OFh fh_undef)).
  { destruct Hal as [h ->]. cbn. apply lookup_insert_eq. }
  apply wpx_wp. wp_step. eapply wp_upd_fh; [exact Hk1|]. apply wp_ret. split; [done|]. split; [done|].
  split; [cbn; apply lookup_insert_eq|]. split; [by eapply heap_inv_insert; [exact Hi1 | exact Hk1 |]|].
  apply (heap_changed_trans (fun _ => False) (fun a => a = fh) k k1);
    [by eapply heap_changed_allocated | by apply heap_changed_insert | intros a ->; by right].
Qed.
Lemma new_pipe_reader_spec k b : heap_inv Inv k ->
  wpx (new_pipe_reader b) (fun fh k' => exists f, k_objs k' !! fh = Some (OFh f) /\ fh_p f = Some b /\
    heap_inv Inv k' /\ heap_changed (fun _ => False) k k') k.
Proof using Allocator0.
  intros Hi. eapply wpx_mono; [by apply new_handle_spec|]. intros fh k' (_ & _ & Hf & Hi' & HC). by eexists.
Qed.
End handle.

Lemma pipe_at_changed (X : Z -> Prop) k k' b r w pid l data bytes : heap_changed X k k' -> ~ X b -> ~ X data ->
  pipe_at k b r w pid l data bytes -> pipe_at k' b r w pid l data bytes.
Proof.
  intros (h & o & n & -> & H) Hb Hd P. split; try apply P; cbn.
  - apply H; [done | apply P].
  - apply H; [done | apply P].
Qed.
