(* ===== verification/PipeTheorems.v ===== *)
(** * Pipes are queues of bytes: the claims (source/pipe.c) *)

From S2P Require Import Prelude Constants Libc Page Kernel Process ProcessInv ProcessTheorems UserMemory KernelMem Pipe BuddyInv BuddyTheorems Allocator PipeProofs.

(** The buffer of the pipe at [b]. *)
Definition pipe_data (k : kstate) (b : Z) : option Z :=
  match k_objs k !! b with Some (OPipe p) => b_data p | _ => None end.
(** The two objects a pipe consists of. *)
Definition pipe_objs (k : kstate) (b a : Z) : Prop := a = b \/ pipe_data k b = Some a.

Lemma pipe_objs_at k b r w pid l data bytes a : pipe_at k b r w pid l data bytes ->
  pipe_objs k b a <-> a = b \/ a = data.
Proof.
  intros P. unfold pipe_objs, pipe_data. rewrite (pa_pipe P). cbn. split; intros [->|H]; auto.
  - injection H as ->. by right.
  - right. by rewrite H.
Qed.
Lemma heap_changed_iff (X Y : Z -> Prop) k k' : (forall a, X a <-> Y a) -> heap_changed X k k' -> heap_changed Y k k'.
Proof. intros HXY (h & o & n & -> & H). exists h, o, n. split; [done|]. intros a x Ha. apply H. by rewrite HXY. Qed.

(** ** A pipe for the witnesses *)

(** [user_demo] with a kernel heap of 16 KB. *)
Definition heap_demo : kstate := user_demo <| k_heap := Buddy.buddy_init 14 4096 ∅ |>.
Lemma heap_demo_inv : heap_inv buddy_holds heap_demo.
Proof.
  exists ∅. split; [split; [apply init_wf | apply init_coalesced]; vm_compute; by split || done|].
  split; intros ? ?; by rewrite ?fmap_empty, lookup_empty.
Qed.
Lemma heap_demo_sched : sched [1] [] heap_demo.
Proof.
  eapply (sched_frame [1] [] ((demo 1) <| k_processes := zinsert 1 user_demo_process (k_processes (demo 1)) |>));
    [|reflexivity..].
  apply (sched_upd [1] [] (demo 1) 1 (demo_process 1 1)); [apply demo_sched1 | by apply demo_at | vm_compute; by repeat split].
Qed.

(** ... in which a pipe has been made. *)
Definition PIPE : Z := 4096.
Definition pipe_demo : kstate := final new_pipe heap_demo.
Lemma pipe_demo_eq : new_pipe heap_demo = Ok PIPE pipe_demo.
Proof.
  assert (H : result new_pipe heap_demo = Some PIPE) by (vm_compute; reflexivity).
  exact (run_eq new_pipe heap_demo PIPE H).
Qed.
#[local] Opaque pipe_demo.
Lemma pipe_demo_ok : pipe_rep pipe_demo PIPE 1 1 (-1) [] /\ heap_inv buddy_holds pipe_demo /\
  heap_changed (fun _ => False) heap_demo pipe_demo.
Proof.
  destruct (wpx_run _ _ _ _ _ (new_pipe_spec heap_demo heap_demo_inv) pipe_demo_eq) as (_ & _ & H). exact H.
Qed.
Lemma pipe_demo_sched : sched [1] [] pipe_demo.
Proof. eapply heap_changed_sched; [apply pipe_demo_ok | apply heap_demo_sched]. Qed.

(** ** Writing *)

(** C8. A write to a pipe appends: whatever the pipe held and however full
    its buffer was, after a write of [src] (from user memory or from the
    kernel) it holds its old bytes followed by [src], in order, and no
    process is blocked on it any more: one that was is ready again.  Of the
    other objects in the kernel heap none changes.  The only other outcome is
    that the kernel heap is exhausted. *)
Theorem write_to_pipe_appends k b r w pid l buf src R S :
  heap_inv buddy_holds k -> pipe_rep k b r w pid l -> readable k buf src -> Forall is_byte src ->
  Z.of_nat (length l) + Z.of_nat (length src) < 2 ^ 30 -> sched R S k -> pid = -1 \/ pid ∈ S ->
  wpx (write_to_pipe b buf (Z.of_nat (length src))) (fun _ k' => pipe_rep k' b r w (-1) (l ++ src) /\
    heap_inv buddy_holds k' /\ exists k1, heap_changed (pipe_objs k b) k k1 /\ woken pid R S k1 k') k.
Proof.
  intros Hi (data & bytes & P) Hr Hb Hlen Hs Hpid.
  eapply wpx_mono; [by apply (write_to_pipe_spec k b r w pid l data bytes buf src R S)|].
  intros [] k' (P' & Hi' & k1 & HC & HW). split; [done|]. split; [done|]. exists k1. split; [|done].
  eapply heap_changed_iff; [|exact HC]. intros a. symmetry. by eapply pipe_objs_at.
Qed.
Lemma write_to_pipe_appends_witness :
  wpx (write_to_pipe PIPE (Const [104; 105]) 2) (fun _ k' => pipe_rep k' PIPE 1 1 (-1) ([] ++ [104; 105]) /\
    heap_inv buddy_holds k' /\ exists k1, heap_changed (pipe_objs pipe_demo PIPE) pipe_demo k1 /\ woken (-1) [1] [] k1 k') pipe_demo.
Proof.
  apply (write_to_pipe_appends pipe_demo PIPE 1 1 (-1) [] (Const [104; 105]) [104; 105] [1] []).
  - apply pipe_demo_ok.
  - apply pipe_demo_ok.
  - apply readable_const. by repeat constructor.
  - by repeat constructor.
  - done.
  - apply pipe_demo_sched.
  - by left.
Defined.

(** ** Reading *)

(** A reading end [fh] of the pipe [b]. *)
Definition reading_end (k : kstate) (fh b : Z) : Prop :=
  exists f, k_objs k !! fh = Some (OFh f) /\ fh_p f = Some b.

(** C9. A read from a pipe, in each of its cases.  When the pipe holds bytes
    the caller gets the first [count] of them, or all when there are fewer,
    in order, at its buffer and nowhere else, and the rest stays in the pipe.
    An empty pipe whose writers are gone reads as end of file; one that can
    still be written to suspends the caller and remembers it, to be woken up
    by the next write.  A second reader is turned away. *)
Theorem pipe_read_correct k fh b r w pid l a count : reading_end k fh b -> pipe_rep k b r w pid l ->
  heap_inv buddy_holds k -> 0 <= count < 2 ^ 32 ->
  (pid <> -1 -> pipe_reader_read fh (User a) count k = Ok (- EBADF) k) /\
  (pid = -1 -> l = [] -> w = 0 -> pipe_reader_read fh (User a) count k = Ok 0 k) /\
  (forall R1 R2 S c p, pid = -1 -> l = [] -> w <> 0 -> sched (R1 ++ c :: R2) S k -> k_current k = Some c ->
    zlookup (k_processes k) c = Some p -> p_pid p = c ->
    wp (pipe_reader_read fh (User a) count) (fun res k' => res = - ESUSPEND /\ pipe_rep k' b r w c [] /\
      sched (R1 ++ R2) (c :: S) k') k) /\
  (forall pdir, pid = -1 -> l <> [] -> let n := Nat.min (Z.to_nat count) (length l) in
    user_region k pdir a (Z.of_nat n) ->
    wp (pipe_reader_read fh (User a) count) (fun res k' => res = Z.of_nat n /\
      pipe_rep k' b r w (-1) (drop n l) /\ heap_inv buddy_holds k' /\
      exists k1, user_written k pdir a (Z.of_nat n) (take n l) k1 /\ heap_changed (pipe_objs k b) k1 k') k).
Proof.
  intros (f & Hf & Hfp) (data & bytes & P) Hi Hcount. split; [|split; [|split]].
  - intros Hpid. eapply reader_busy; [done | done | by exists data, bytes | done].
  - intros -> -> ->. eapply reader_eof; [done | done | by exists data, bytes].
  - intros R1 R2 S c p -> -> Hw Hs Hc Hp Hpid.
    eapply wp_mono; [by apply (reader_blocks k fh f b r w data bytes (User a) count R1 R2 S c p)|].
    intros res k' (-> & P' & Hs' & _). split; [done|]. split; [by exists data, bytes | done].
  - intros pdir -> Hl n Hreg.
    eapply wp_mono; [by apply (reader_data (Inv := buddy_holds) k fh b r w f l Hf Hfp pdir a count data bytes)|].
    intros res k' (-> & Hrep & Hi' & k1 & W & HC). split; [done|]. split; [done|]. split; [done|].
    exists k1. split; [done|]. eapply heap_changed_iff; [|exact HC]. intros x. symmetry. by eapply pipe_objs_at.
Qed.

(** The stack of [user_demo] can be written to. *)
Lemma user_demo_region n : 0 <= n <= 8 -> user_region user_demo PAGE_START 0x1000 n.
Proof.
  intros Hn.
  assert (Hpa : forall i, 0x1000 <= i < 0x1008 -> user_pa user_demo i = Some (PAGE_START + 8192 + (i - 0x1000))).
  { intros i Hi.
    assert (Ha : i = 0x1000 \/ i = 0x1001 \/ i = 0x1002 \/ i = 0x1003 \/ i = 0x1004 \/ i = 0x1005 \/ i = 0x1006 \/ i = 0x1007) by lia.
    repeat destruct Ha as [-> |Ha]; [..|subst i]; vm_compute; reflexivity. }
  split.
  - done.
  - lia.
  - intros i Hi. eexists. apply Hpa. lia.
  - intros i j pa Hi Hj. rewrite !Hpa by lia. intros [= <-] H. injection H as H. lia.
  - intros i j pa Hi Hj. rewrite Hpa by lia. intros [= <-]. cbv zeta.
    assert (Hidx : dirindex j = 0 /\ tblindex j = 1).
    { unfold dirindex, tblindex, PAGE_SIZE. assert (Hq : j / 4096 = 1) by (symmetry; apply (Z.div_unique_pos j 4096 1 (j - 4096)); lia).
      by rewrite Hq. }
    destruct Hidx as [-> ->].
    replace (Z.land (pword (pmem (k_pages user_demo)) (PAGE_START + 4 * 0)) PAGE_ADDRESS_MASK) with (PAGE_START + 4096) by (vm_compute; reflexivity).
    pose proof (Z.mod_pos_bound (PAGE_START + 8192 + (i - 4096)) 4 ltac:(done)). unfold PAGE_START, MB in *. lia.
Qed.

(** [pipe_demo] with a reading end. *)
Definition READER : Z := 4352.
Definition reader_demo : kstate := final (new_pipe_reader PIPE) pipe_demo.
Lemma reader_demo_eq : new_pipe_reader PIPE pipe_demo = Ok READER reader_demo.
Proof.
  assert (H : result (new_pipe_reader PIPE) pipe_demo = Some READER) by (vm_compute; reflexivity).
  exact (run_eq (new_pipe_reader PIPE) pipe_demo READER H).
Qed.
#[local] Opaque reader_demo.
Lemma reader_demo_ok : reading_end reader_demo READER PIPE /\ heap_inv buddy_holds reader_demo /\
  pipe_rep reader_demo PIPE 1 1 (-1) [] /\ heap_changed (fun _ => False) pipe_demo reader_demo.
Proof.
  destruct pipe_demo_ok as (Hp & Hi & _).
  destruct (wpx_run _ _ _ _ _ (new_pipe_reader_spec pipe_demo PIPE Hi) reader_demo_eq) as (f & Hf & Hfp & Hi' & HC).
  split; [exact (ex_intro _ f (conj Hf Hfp))|]. split; [exact Hi'|]. split; [|exact HC]. destruct Hp as (data & bytes & P).
  exists data, bytes. eapply pipe_at_changed; [exact HC | tauto | tauto | exact P].
Qed.
Lemma reader_demo_sched : sched [1] [] reader_demo.
Proof. eapply heap_changed_sched; [apply reader_demo_ok | apply pipe_demo_sched]. Qed.
Lemma reader_demo_frame : k_pages reader_demo = k_pages user_demo /\ k_paging reader_demo = k_paging user_demo /\
  k_current reader_demo = Some 1 /\ k_processes reader_demo = k_processes user_demo.
Proof.
  destruct reader_demo_ok as (_ & _ & _ & h & o & n & -> & _), pipe_demo_ok as (_ & _ & h' & o' & n' & -> & _). by repeat split.
Qed.

(** ... with the bytes "hi" in the pipe. *)
Definition filled_demo : kstate := final (write_to_pipe PIPE (Const [104; 105]) 2) reader_demo.
Lemma filled_demo_eq : write_to_pipe PIPE (Const [104; 105]) 2 reader_demo = Ok tt filled_demo.
Proof.
  assert (H : result (write_to_pipe PIPE (Const [104; 105]) 2) reader_demo = Some tt) by (vm_compute; reflexivity).
  exact (run_eq (write_to_pipe PIPE (Const [104; 105]) 2) reader_demo tt H).
Qed.
#[local] Opaque filled_demo.
Lemma filled_demo_ok : reading_end filled_demo READER PIPE /\ heap_inv buddy_holds filled_demo /\
  pipe_rep filled_demo PIPE 1 1 (-1) [104; 105] /\ k_pages filled_demo = k_pages user_demo /\ k_paging filled_demo = k_paging user_demo.
Proof.
  destruct reader_demo_ok as ((f & Hf & Hfp) & Hi & (data & bytes & P) & _).
  assert (Hr : readable reader_demo (Const [104; 105]) [104; 105]) by (apply readable_const; by repeat constructor).
  assert (Hb : Forall is_byte [104; 105]) by (by repeat constructor).
  pose proof (write_to_pipe_spec reader_demo PIPE 1 1 (-1) [] data bytes (Const [104; 105]) [104; 105] [1] [] Hi P Hr Hb
    ltac:(done) reader_demo_sched (or_introl eq_refl)) as W.
  destruct (wpx_run _ _ _ _ _ W filled_demo_eq) as (P' & Hi' & k1 & HC & [(_ & E & _)|(S1 & S2 & E & _)]); [|by destruct S1].
  destruct reader_demo_frame as (E1 & E2 & _). split; [|split; [exact Hi'|]; split; [exact P'|]].
  - exists f. split; [|exact Hfp]. rewrite E. destruct HC as (h & o & n & -> & HC). apply HC; [|exact Hf].
    intros [E0|E0]; rewrite E0 in Hf; [rewrite (pa_pipe P) in Hf | rewrite (pa_data P) in Hf]; discriminate Hf.
  - rewrite E. destruct HC as (h & o & n & -> & _). exact (conj E1 E2).
Qed.

(** ... whose process is blocked on the empty pipe, and whose writers are
    gone. *)
Definition blocked_demo : kstate := final (pipe_reader_read READER (User 0x1000) 8) reader_demo.
Definition closed_demo : kstate := final (upd_pipe PIPE (fun x => x <| b_writing := Some 0 |>)) reader_demo.
Lemma reader_demo_lookup : zlookup (k_processes reader_demo) 1 = Some user_demo_process.
Proof. destruct reader_demo_frame as (_ & _ & _ & ->). exact user_demo_lookup. Qed.
Lemma blocked_demo_ok : reading_end blocked_demo READER PIPE /\ heap_inv buddy_holds blocked_demo /\ pipe_rep blocked_demo PIPE 1 1 1 [].
Proof.
  destruct reader_demo_ok as ((f & Hf & Hfp) & Hi & (data & bytes & P) & _), reader_demo_frame as (_ & _ & Hc & _).
  pose proof (reader_blocks reader_demo READER f PIPE 1 1 data bytes (User 0x1000) 8 [] [] [] 1 user_demo_process) as W.
  assert (H : result (pipe_reader_read READER (User 0x1000) 8) reader_demo = Some (- ESUSPEND)) by (vm_compute; reflexivity).
  pose proof (wp_result _ _ _ _ _ (W Hf Hfp P ltac:(done) reader_demo_sched Hc reader_demo_lookup eq_refl)
    (run_eq (pipe_reader_read READER (User 0x1000) 8) reader_demo (- ESUSPEND) H)) as (_ & P' & _ & HR).
  change (final (pipe_reader_read READER (User 0x1000) 8) reader_demo) with blocked_demo in P', HR.
  destruct HR as (k1 & (h & o & n & -> & HC) & HM). destruct (moved_heap _ _ _ _ HM) as [Eo Eh].
  split; [|split; [|by exists data, bytes]].
  - exists f. split; [|exact Hfp]. rewrite Eo. apply HC; [|exact Hf]. intros E0. rewrite E0, (pa_pipe P) in Hf. discriminate Hf.
  - assert (Ez : obj_size <$> k_objs blocked_demo = obj_size <$> k_objs reader_demo) by (vm_compute; reflexivity).
    assert (Ek : k_heap blocked_demo = k_heap reader_demo) by (vm_compute; reflexivity).
    unfold heap_inv. rewrite Ez, Ek. exact Hi.
Qed.
Lemma closed_demo_ok : reading_end closed_demo READER PIPE /\ heap_inv buddy_holds closed_demo /\ pipe_rep closed_demo PIPE 1 0 (-1) [].
Proof.
  destruct reader_demo_ok as ((f & Hf & Hfp) & Hi & (data & bytes & P) & _). pose proof (pipe_at_ne _ _ _ _ _ _ _ _ P) as Hbd.
  set (q := mkPipe (Some 1) (Some 0) (Some (Z.of_nat (length bytes))) (Some 0) (Some (-1)) (Some data)).
  assert (E : closed_demo = reader_demo <| k_objs ::= insert PIPE (OPipe q) |>).
  { unfold closed_demo, final, upd_pipe, get_pipe, bind, get, ret, modify. by rewrite (pa_pipe P). }
  rewrite E. split; [|split].
  - exists f. split; [|exact Hfp]. cbn. rewrite lookup_insert_ne; [exact Hf|]. intros E0. rewrite <- E0, (pa_pipe P) in Hf. discriminate Hf.
  - eapply heap_inv_insert; [exact Hi | apply P | done].
  - exists data, bytes. split; cbn; [by rewrite lookup_insert_eq | rewrite lookup_insert_ne by done; apply P | apply P..].
Qed.

#[local] Opaque blocked_demo closed_demo.

(** A read in each of the four cases. *)
Lemma pipe_read_correct_witness :
  pipe_reader_read READER (User 0x1000) 8 blocked_demo = Ok (- EBADF) blocked_demo /\
  pipe_reader_read READER (User 0x1000) 8 closed_demo = Ok 0 closed_demo /\
  wp (pipe_reader_read READER (User 0x1000) 8) (fun res k' => res = - ESUSPEND /\ pipe_rep k' PIPE 1 1 1 [] /\ sched [] [1] k') reader_demo /\
  wp (pipe_reader_read READER (User 0x1000) 8) (fun res k' => res = 2 /\ pipe_rep k' PIPE 1 1 (-1) [] /\ heap_inv buddy_holds k' /\
    exists k1, user_written filled_demo PAGE_START 0x1000 2 [104; 105] k1 /\ heap_changed (pipe_objs filled_demo PIPE) k1 k') filled_demo.
Proof.
  assert (H8 : 0 <= 8 < 2 ^ 32) by (split; [discriminate | reflexivity]). assert (N1 : 1 <> -1) by discriminate. assert (N0 : 1 <> 0) by discriminate.
  assert (NL : [104; 105] <> []) by discriminate. assert (L2 : 0 <= 2 <= 8) by (split; discriminate).
  destruct blocked_demo_ok as (B1 & B2 & B3), closed_demo_ok as (C1 & C2 & C3), reader_demo_ok as (R1 & R2 & R3 & _),
    filled_demo_ok as (F1 & F2 & F3 & F4 & F5), reader_demo_frame as (_ & _ & Hc & _). split; [|split; [|split]].
  - destruct (pipe_read_correct blocked_demo READER PIPE 1 1 1 [] 0x1000 8 B1 B3 B2 H8) as (H & _). exact (H N1).
  - destruct (pipe_read_correct closed_demo READER PIPE 1 0 (-1) [] 0x1000 8 C1 C3 C2 H8) as (_ & H & _). exact (H eq_refl eq_refl eq_refl).
  - destruct (pipe_read_correct reader_demo READER PIPE 1 1 (-1) [] 0x1000 8 R1 R3 R2 H8) as (_ & _ & H & _).
    exact (H [] [] [] 1 user_demo_process eq_refl eq_refl N0 reader_demo_sched Hc reader_demo_lookup eq_refl).
  - destruct (pipe_read_correct filled_demo READER PIPE 1 1 (-1) [104; 105] 0x1000 8 F1 F3 F2 H8) as (_ & _ & _ & H).
    exact (H PAGE_START eq_refl NL (user_region_frame user_demo filled_demo _ _ _ F4 F5 (user_demo_region 2 L2))).
Defined.
