(* ===== verification/MessageProofs.v ===== *)
(** * Messages: mailboxes are bounded queues (source/syscall.c)

    A mailbox holds up to eight messages in slots of fixed size.  [mail]
    relates it to the list of its slots; send appends one, receive takes the
    first. *)

From S2P Require Import Prelude Constants Libc BuddyInv BuddyTheorems Page Kernel Process ProcessInv ProcessTheorems UserMemory KernelMem Pipe Allocator PipeProofs PipeTheorems Syscall.

Definition SLOT : nat := Z.to_nat SIZEOF_MESSAGE.
Definition CAPACITY : nat := 8.

(** The memory of a message, the bytes after the data being whatever was
    there. *)
Definition slot_of (from tag : Z) (data slot : list Z) : Prop :=
  exists junk, slot = le32 from ++ le32 tag ++ le32 (Z.of_nat (length data)) ++ data ++ junk /\ length slot = SLOT.

(** The mailbox [mb] holds [slots]. *)
Record mailbox_at (k : kstate) (mb : Z) (slots : list (list Z)) (l : list Z) : Prop := {
  mb_data : k_objs k !! mb = Some (OBytes l);
  mb_length : length l = (CAPACITY * SLOT)%nat;
  mb_bytes : Forall is_byte l;
  mb_slots : Forall (fun s => length s = SLOT) slots;
  mb_fits : (length slots <= CAPACITY)%nat;
  mb_contents : take (length slots * SLOT) l = concat slots
}.
Arguments mb_data {k mb slots l} _.
Arguments mb_length {k mb slots l} _.
Arguments mb_bytes {k mb slots l} _.
Arguments mb_slots {k mb slots l} _.
Arguments mb_fits {k mb slots l} _.
Arguments mb_contents {k mb slots l} _.

(** The messages of a process; the first send makes the mailbox. *)
Definition mail (k : kstate) (p : process) (slots : list (list Z)) : Prop :=
  p_mailbox_size p = Z.of_nat (length slots) /\
  ((p_mailbox p = 0 /\ slots = []) \/
   (p_mailbox p <> 0 /\ p_mailbox_alloc p = Z.of_nat CAPACITY /\ exists l, mailbox_at k (p_mailbox p) slots l)).

Lemma concat_slots (slots : list (list Z)) : Forall (fun s => length s = SLOT) slots ->
  length (concat slots) = (length slots * SLOT)%nat.
Proof. induction 1 as [|s slots Hs _ IH]; [done|]. cbn [concat length]. rewrite length_app, IH, Hs. lia. Qed.

Lemma SLOT_eq : SLOT = 1036%nat.
Proof. by vm_compute. Qed.

(** A message written to the next free slot. *)
Lemma mailbox_append k mb slots l msg : mailbox_at k mb slots l -> (length slots < CAPACITY)%nat ->
  (length msg <= SLOT)%nat -> Forall is_byte msg ->
  let l' := splice (length slots * SLOT) msg l in
  exists slot junk, slot = msg ++ junk /\ length slot = SLOT /\ mailbox_at (with_buf mb l' k) mb (slots ++ [slot]) l'.
Proof.
  intros M Hlt Hmsg Hb l'. set (off := (length slots * SLOT)%nat) in *.
  assert (Hoff : (off + SLOT <= length l)%nat).
  { rewrite (mb_length M). unfold off. pose proof SLOT_eq. nia. }
  assert (Hl' : length l' = length l) by (apply splice_length; lia).
  exists (take SLOT (drop off l')), (drop (length msg) (take SLOT (drop off l'))).
  assert (Hslot : length (take SLOT (drop off l')) = SLOT) by (rewrite length_take, length_drop; lia).
  assert (Hpre : drop off l' = msg ++ drop (off + length msg) l).
  { unfold l', splice. rewrite drop_app_length'; [done|]. rewrite length_take. lia. }
  assert (Ht : take off l' = take off l).
  { unfold l', splice. apply take_app_length'. rewrite length_take. lia. }
  split; [|split; [done|]].
  - rewrite Hpre, take_app_ge by done. by rewrite drop_app_length.
  - split.
    + apply lookup_insert_eq.
    + by rewrite Hl', (mb_length M).
    + unfold l', splice. rewrite !Forall_app. split; [apply Forall_take, M|]. split; [done | apply Forall_drop, M].
    + apply Forall_app. split; [apply M | by repeat constructor].
    + rewrite length_app. cbn. lia.
    + rewrite length_app, concat_app. cbn. rewrite app_nil_r, Nat.mul_add_distr_r, Nat.mul_1_l. fold off.
      rewrite <- (mb_contents M). fold off. rewrite <- Ht. symmetry. apply take_take_drop.
Qed.

(** The bytes of a message. *)
Definition message_bytes (from tag : Z) (data : list Z) : list Z :=
  le32 from ++ le32 tag ++ le32 (Z.of_nat (length data)) ++ data.
Lemma message_bytes_ok from tag data : Forall is_byte data -> (length data <= Z.to_nat MAX_MESSAGE_SIZE)%nat ->
  Forall is_byte (message_bytes from tag data) /\ (length (message_bytes from tag data) <= SLOT)%nat.
Proof.
  intros Hb Hl. split.
  - unfold message_bytes. rewrite !Forall_app. by repeat split; try apply le32_bytes.
  - unfold message_bytes. rewrite !length_app. cbn [le32 length]. rewrite SLOT_eq. unfold MAX_MESSAGE_SIZE in Hl. lia.
Qed.

Lemma put_message_spec k mb slots l from tag a data : mailbox_at k mb slots l -> (length slots < CAPACITY)%nat ->
  user_bytes k a data -> Forall is_byte data -> (length data <= Z.to_nat MAX_MESSAGE_SIZE)%nat ->
  wp (put_message mb (Z.of_nat (length slots) * SIZEOF_MESSAGE) from tag a (Z.of_nat (length data)))
    (fun _ k' => exists slot l', k' = with_buf mb l' k /\ length l' = length l /\ slot_of from tag data slot /\
       mailbox_at k' mb (slots ++ [slot]) l') k.
Proof.
  intros M Hlt (Ha & Hmax & Hsrc) Hb Hlen. set (off := (length slots * SLOT)%nat).
  assert (Hoff : (off + SLOT <= length l)%nat).
  { rewrite (mb_length M). unfold off. pose proof SLOT_eq. nia. }
  rewrite SLOT_eq in Hoff. unfold MAX_MESSAGE_SIZE in Hlen.
  assert (Hz : forall c : Z, 0 <= c -> Z.of_nat (length slots) * SIZEOF_MESSAGE + c = Z.of_nat (off + Z.to_nat c)).
  { intros c Hc. unfold off. rewrite Nat2Z.inj_add, Nat2Z.inj_mul. unfold SLOT. rewrite !Z2Nat.id; done. }
  set (h1 := le32 from). set (h2 := h1 ++ le32 tag). set (h3 := h2 ++ le32 (Z.of_nat (length data))).
  unfold put_message. rewrite !Hz by done. fold h1.
  change (Z.to_nat MESSAGE_FROM) with 0%nat. change (Z.to_nat MESSAGE_TAG) with (length h1).
  change (Z.to_nat MESSAGE_SIZE) with (length h2). change (Z.to_nat MESSAGE_DATA) with (length h3). rewrite Nat.add_0_r.
  assert (L : length h1 = 4%nat /\ length h2 = 8%nat /\ length h3 = 12%nat) by done. destruct L as (L1 & L2 & L3).
  wp_step. eapply store32_obj; [apply M | lia |]. fold h1.
  wp_step. eapply store32_obj; [apply lookup_insert_eq | rewrite splice_length; lia |].
  rewrite splice_app by (cbn; lia). fold h2. rewrite with_buf_twice.
  wp_step. eapply store32_obj; [apply lookup_insert_eq | rewrite splice_length; lia |].
  rewrite splice_app by (cbn; lia). fold h3. rewrite with_buf_twice.
  eapply wp_mono; [apply (kmemmove_obj mb (off + length h3) (User a) data (splice off h3 l));
    [apply lookup_insert_eq | rewrite splice_length; lia | done |]|].
  { intros j x Hj. pose proof (lookup_lt_Some _ _ _ Hj). cbn [padd]. rewrite u32_small by lia.
    eapply load_user; [|by split]. rewrite (user_byte_frame k) by done. by apply Hsrc. }
  intros [] k' ->. rewrite splice_app by lia. rewrite with_buf_twice.
  destruct (message_bytes_ok from tag data) as [Hmb Hml]; [done | unfold MAX_MESSAGE_SIZE; lia |].
  destruct (mailbox_append k mb slots l (message_bytes from tag data) M Hlt Hml Hmb) as (slot & junk & -> & Hs & M').
  replace (h3 ++ data) with (message_bytes from tag data) by (unfold message_bytes, h3, h2, h1; by rewrite <- !app_assoc).
  eexists _, _. split; [reflexivity|]. split; [apply splice_length; rewrite SLOT_eq in Hml; lia|]. split; [|exact M'].
  exists junk. unfold message_bytes. rewrite <- !app_assoc. split; [done|].
  unfold message_bytes in Hs. by rewrite <- !app_assoc in Hs.
Qed.

Section mailbox.
  Context {Inv : gmap Z Z -> Buddy.memarea -> Prop} `{!Allocator Buddy.kmalloc_ma Buddy.kfree_ma Inv}.

(** The record of a process whose mailbox [mb] has [n] messages. *)
Definition with_mail (mb : Z) (n : nat) (p : process) : process :=
  p <| p_mailbox_alloc := Z.of_nat CAPACITY |> <| p_mailbox_size := Z.of_nat n |> <| p_mailbox := mb |>.

Lemma mailbox_at_heap (X : Z -> Prop) k k' mb slots l : heap_changed X k k' -> ~ X mb -> mailbox_at k mb slots l -> mailbox_at k' mb slots l.
Proof using. intros (h & o & n & -> & H) HX M. split; try apply M. apply H; [done | apply M]. Qed.

Lemma mailbox_slot_spec k to p slots : heap_inv Inv k -> zlookup (k_processes k) to = Some p -> mail k p slots ->
  (length slots < CAPACITY)%nat ->
  wpx (mailbox_slot to) (fun b k' => b = true /\ exists k1 mb l, heap_changed (fun _ => False) k k1 /\ heap_inv Inv k1 /\
    mailbox_at k1 mb slots l /\ mb <> 0 /\
    k' = k1 <| k_processes := zinsert to (with_mail mb (S (length slots)) p) (k_processes k) |>) k.
Proof using Allocator0.
  intros Hi Hp (Hsize & [[H0 ->]|(H0 & Halloc & l & M)]) Hlt; unfold mailbox_slot; apply wpx_wp_bind;
    (eapply wp_get_proc; [exact Hp|]).
  - rewrite H0. change (0 =? 0) with true. cbv iota. apply wpx_bind.
    eapply wpx_mono; [apply (kmalloc_bytes_spec (8 * SIZEOF_MESSAGE) k Hi); done|].
    intros mb k1 (Hn & _ & Hmb & Hal & Hi1). assert (HC : heap_changed (fun _ => False) k k1) by (by eapply heap_changed_allocated).
    assert (Hps : k_processes k1 = k_processes k) by (by destruct HC as (? & ? & ? & -> & _)).
    apply wpx_wp. wp_step. eapply wp_upd_proc; [by rewrite Hps|]. apply wp_ret. split; [done|].
    exists k1, mb, (stale_bytes k (8 * SIZEOF_MESSAGE)). split; [done|]. split; [done|]. split; [|split; [done|by rewrite Hps]].
    split; [destruct Hal as [h ->]; apply lookup_insert_eq | | | constructor | cbn; lia | done].
    + unfold stale_bytes. rewrite length_fmap, length_seq. done.
    + unfold stale_bytes. apply Forall_fmap, list.Forall_true. intros i. by apply Z.mod_pos_bound.
  - destruct (Z.eqb_spec (p_mailbox p) 0); [done|]. rewrite Hsize, Halloc.
    destruct (Z.ltb_spec (Z.of_nat (length slots)) (Z.of_nat CAPACITY)); [|lia].
    apply wpx_wp. wp_step. eapply wp_upd_proc; [done|]. apply wp_ret. split; [done|].
    exists k, (p_mailbox p), l. split; [apply heap_changed_refl|]. split; [done|]. split; [done|]. split; [done|].
    replace (with_mail (p_mailbox p) (S (length slots)) p) with (p <| p_mailbox_size := p_mailbox_size p + 1 |>); [done|].
    destruct p. cbn in *. unfold with_mail, set_field. cbn. f_equal; [lia | done].
Qed.

Lemma mailbox_full k to p slots : zlookup (k_processes k) to = Some p -> mail k p slots -> length slots = CAPACITY ->
  mailbox_slot to k = Ok false k.
Proof using.
  intros Hp (Hsize & Hm) Hfull. unfold mailbox_slot, get_proc, bind, get, of_opt, ret. rewrite Hp.
  destruct Hm as [[_ ->]|(H0 & Halloc & _)]; [done|]. destruct (Z.eqb_spec (p_mailbox p) 0); [done|].
  rewrite Hsize, Halloc, Hfull. done.
Qed.

(** The receiver after a message has been put in its mailbox: one that waits
    for it is ready again. *)
Definition notified (blocked to : Z) (R S : list Z) (k' : kstate) : Prop :=
  (blocked = 0 /\ sched R S k') \/
  (blocked <> 0 /\ exists S1 S2, S = S1 ++ to :: S2 /\ sched (to :: R) (S1 ++ S2) k').

(** A process but for its place on the lists. *)
Definition settled (p : process) : process := (unlinked p) <| p_ready := 0 |>.
Lemma settled_moved p q v : unlinked p = unlinked (q <| p_ready := v |>) ->
  settled (p <| p_receive_blocked := 0 |>) = settled (q <| p_receive_blocked := 0 |>).
Proof using.
  intros E. change (settled (p <| p_receive_blocked := 0 |>)) with ((unlinked p) <| p_receive_blocked := 0 |> <| p_ready := 0 |>).
  by rewrite E.
Qed.

Lemma notify_spec k to dest R S : zlookup (k_processes k) to = Some dest -> sched R S k ->
  p_receive_blocked dest = 0 \/ to ∈ S ->
  wp (when_ (truthy (p_receive_blocked dest)) (resume_process to;; upd_proc to (fun p => p <| p_receive_blocked := 0 |>)))
    (fun _ k' => (exists ps lr ls, k' = k <| k_processes := ps |> <| k_ready := lr |> <| k_suspended := ls |>) /\
       others_same to k k' /\ notified (p_receive_blocked dest) to R S k' /\ exists dest',
       zlookup (k_processes k') to = Some dest' /\ settled dest' = settled (dest <| p_receive_blocked := 0 |>)) k.
Proof using.
  intros Hd Hs Hb. apply wp_when; intros Ht; unfold truthy in Ht; b2p.
  2: { split; [exists (k_processes k), (k_ready k), (k_suspended k); by destruct k|].
       split; [intros y q _ Hq; by exists q|]. split; [by left|]. exists dest. split; [done|]. f_equal. destruct dest. cbn in *. by subst. }
  destruct Hb as [?|Hin]; [done|]. apply list_elem_of_split in Hin as (S1 & S2 & ->).
  wp_step. eapply wp_mono; [by apply resume_process_wp|]. intros [] k1 (Hs1 & ps & lr & ls & -> & Hlen & Hm).
  destruct (Hm to dest Hd) as (d1 & Hd1 & Hu). rewrite decide_True in Hu by done.
  assert (Hto : 0 <= to < Z.of_nat (length ps)) by (by eapply zlookup_range).
  eapply wp_upd_proc; [exact Hd1|]. split; [by eexists _, _, _|]. split; [|split].
  - intros y q Hne Hq. cbn. rewrite zlookup_zinsert_ne by done. destruct (Hm y q Hq) as (q' & Hq' & E).
    rewrite decide_False in E by done. by exists q'.
  - right. split; [done|]. exists S1, S2. split; [done|]. eapply sched_upd; [exact Hs1 | exact Hd1 | done].
  - exists (d1 <| p_receive_blocked := 0 |>). split; [by apply zlookup_zinsert_eq|].
    by eapply settled_moved.
Qed.

(** What [send] leaves behind: [slot] is the last message of [to]. *)
Record sent (k : kstate) (to : Z) (slots : list (list Z)) (slot : list Z) (blocked : Z) (R S : list Z) (k' : kstate) : Prop := {
  st_heap : heap_inv Inv k';
  st_memory : k_pages k' = k_pages k /\ k_paging k' = k_paging k /\ k_current k' = k_current k;
  st_others : others_same to k k';
  st_sched : notified blocked to R S k';
  st_mail : exists dest', zlookup (k_processes k') to = Some dest' /\ p_receive_blocked dest' = 0 /\ mail k' dest' (slots ++ [slot]);
  st_record : exists dest dest' mb, zlookup (k_processes k) to = Some dest /\ zlookup (k_processes k') to = Some dest' /\
    settled dest' = settled ((with_mail mb (Datatypes.S (length slots)) dest) <| p_receive_blocked := 0 |>)
}.

Lemma send_spec k c p to dest slots tag a data R S :
  heap_inv Inv k -> k_current k = Some c -> zlookup (k_processes k) c = Some p -> segments_ok p -> is_u32 a ->
  zlookup (k_processes k) to = Some dest -> p_exists dest <> 0 -> mail k dest slots -> (length slots < CAPACITY)%nat ->
  data = [] \/ in_segment p a (a + Z.of_nat (length data)) ->
  user_bytes k a data -> Forall is_byte data -> (length data <= Z.to_nat MAX_MESSAGE_SIZE)%nat ->
  sched R S k -> p_receive_blocked dest = 0 \/ to ∈ S ->
  wpx (syscall_send to tag a (Z.of_nat (length data))) (fun res k' => res = 0 /\ exists slot,
    slot_of (p_pid p) tag data slot /\ sent k to slots slot (p_receive_blocked dest) R S k') k.
Proof using Allocator0.
  intros Hi Hc Hp Hok Ha Hd Hex Hm Hlt Hseg Hub Hb Hlen Hs Hbl. unfold MAX_MESSAGE_SIZE in Hlen. unfold is_u32 in Ha.
  pose proof (zlookup_range _ _ _ Hd) as Hto. pose proof (sc_table Hs) as Htbl.
  assert (Hmax : Z.of_nat (length (k_processes k)) = MAX_PROCESSES) by (rewrite Htbl; done).
  unfold syscall_send. apply wpx_wp_bind. eapply wp_mono; [eapply valid_pointer_spec; [exact Hc | exact Hp | done | done |]|].
  { unfold is_u32. lia. }
  intros v k' [-> Hv]. assert (v = true) as ->. { apply Hv. destruct Hseg as [-> |?]; [by left | by right]. }
  cbn [negb]. apply wpx_wp_bind. unfold process_exists.
  destruct (Z.ltb_spec to 0); [lia|]. destruct (Z.leb_spec MAX_PROCESSES to); [lia|]. cbn [orb].
  wp_step. eapply wp_get_proc; [exact Hd|]. apply wp_ret. unfold truthy at 1.
  destruct (Z.eqb_spec (p_exists dest) 0); [done|]. cbn [negb].
  destruct (Z.ltb_spec MAX_MESSAGE_SIZE (Z.of_nat (length data))); [unfold MAX_MESSAGE_SIZE in *; lia|].
  apply wpx_bind. eapply wpx_mono; [by apply (mailbox_slot_spec k to dest slots)|].
  intros b k' (-> & k1 & mb & l & HC & Hi1 & M & Hmb & ->). cbn [negb].
  set (d1 := with_mail mb _ dest). set (k2 := k1 <| k_processes := _ |>).
  assert (HR : exists h o na, k1 = heap_state k h o na) by (destruct HC as (h & o & na & -> & _); by exists h, o, na).
  assert (Hd2 : zlookup (k_processes k2) to = Some d1) by (by apply zlookup_zinsert_eq).
  assert (Hp2 : exists q, zlookup (k_processes k2) c = Some q /\ p_pid q = p_pid p).
  { destruct (decide (to = c)) as [<- |Hne]; [exists d1; split; [done|] | exists p; cbn; by rewrite zlookup_zinsert_ne].
    rewrite Hd in Hp. by injection Hp as ->. }
  destruct Hp2 as (q & Hq & <-). assert (Hc2 : k_current k2 = Some c) by (by destruct HR as (h & o & na & ->)).
  assert (Hs2 : sched R S k2).
  { apply (sched_frame R S (k <| k_processes := zinsert to d1 (k_processes k) |>)); [|by destruct HR as (h & o & na & ->)..].
    by apply (sched_upd R S k to dest d1). }
  apply wpx_wp_bind. eapply wp_get_proc; [exact Hd2|]. apply wpx_wp_bind. eapply wp_cur; [exact Hc2 | exact Hq|].
  change (p_mailbox d1) with mb. change (p_mailbox_size d1) with (Z.of_nat (Datatypes.S (length slots))).
  replace (Z.of_nat (Datatypes.S (length slots)) - 1) with (Z.of_nat (length slots)) by lia.
  apply wpx_wp_bind. eapply wp_mono; [apply (put_message_spec k2 mb slots l (p_pid q) tag a data)|].
  { by split; try apply M. }
  { done. }
  { destruct HR as (h & o & na & ->). exact Hub. }
  { done. }
  { done. }
  intros [] k3 (slot & l' & -> & Hl' & Hslot & M3).
  apply wpx_wp. wp_step. change (p_receive_blocked dest) with (p_receive_blocked d1).
  eapply wp_mono; [apply (notify_spec (with_buf mb l' k2) to d1 R S); [exact Hd2 | by eapply sched_frame | done]|].
  intros [] k4 ((ps & lr & ls & ->) & Hoth & Hnot & d4 & Hd4 & Eset). apply wp_ret. split; [done|].
  pose proof (f_equal p_receive_blocked Eset) as Hb4. pose proof (f_equal p_mailbox Eset) as E1.
  pose proof (f_equal p_mailbox_size Eset) as E2. pose proof (f_equal p_mailbox_alloc Eset) as E3. cbn in Hb4, E1, E2, E3.
  exists slot. split; [done|]. split.
  - apply (heap_inv_insert (Inv := Inv) k1 mb (OBytes l) (OBytes l') Hi1 (mb_data M)). cbn. by rewrite Hl'.
  - by destruct HR as (h & o & na & ->).
  - intros y x Hne Hy. apply Hoth; [done|]. cbn. by rewrite zlookup_zinsert_ne.
  - done.
  - exists d4. split; [done|]. split; [done|]. split.
    + rewrite E2, length_app. cbn [length]. lia.
    + right. rewrite E1, E3. split; [done|]. split; [done|]. exists l'. by split; try apply M3.
  - by exists dest, d4, mb.
Qed.
End mailbox.

(** ** Taking the first message *)

(** The mailbox without its first slot: the others are moved down. *)
Lemma mailbox_shift k mb slot rest l : mailbox_at k mb (slot :: rest) l ->
  let l' := splice 0 (concat rest) l in
  length l' = length l /\ mailbox_at (with_buf mb l' k) mb rest l'.
Proof.
  intros M l'. pose proof (mb_slots M) as Hs. inversion Hs as [|? ? H1 H2]; subst.
  pose proof (concat_slots rest H2) as Hc. pose proof (mb_fits M) as Hf. cbn [length] in Hf.
  assert (Hfit : (0 + length (concat rest) <= length l)%nat) by (rewrite (mb_length M), Hc; pose proof SLOT_eq; nia).
  assert (Hl' : length l' = length l) by (by apply splice_length). split; [done|]. split.
  - apply lookup_insert_eq.
  - rewrite Hl'. apply M.
  - unfold l', splice. rewrite !Forall_app. split; [apply Forall_take, M|]. split; [|apply Forall_drop, M].
    pose proof (mb_contents M) as Ht. cbn in Ht.
    assert (Hall : Forall is_byte (slot ++ concat rest)) by (rewrite <- Ht; apply Forall_take, M).
    apply Forall_app in Hall. apply Hall.
  - done.
  - lia.
  - rewrite <- Hc. pose proof (splice_take 0 (concat rest) l Hfit) as Ht. by rewrite take_0 in Ht.
Qed.

Lemma mailbox_at_pages k mb slots l pg : mailbox_at k mb slots l -> mailbox_at (k <| k_pages := pg |>) mb slots l.
Proof. by intros []. Qed.

Lemma mailbox_take k mb slot rest l : mailbox_at k mb (slot :: rest) l ->
  length slot = SLOT /\ Forall is_byte slot /\ forall j x, (slot ++ concat rest) !! j = Some x -> l !! j = Some x.
Proof.
  intros M. pose proof (mb_slots M) as Hs. inversion Hs as [|? ? H1 H2]; subst. split; [done|].
  pose proof (mb_contents M) as Ht. cbn [concat length] in Ht.
  assert (Hall : Forall is_byte (slot ++ concat rest)) by (rewrite <- Ht; apply Forall_take, M).
  split; [by apply Forall_app in Hall as [? _]|]. intros j x. rewrite <- Ht. intros Hj. by apply lookup_take_Some in Hj as [Hj _].
Qed.

(** The two copies of [receive]. *)
Lemma take_message_spec k pdir msg mb slot rest l : mailbox_at k mb (slot :: rest) l -> user_region k pdir msg SIZEOF_MESSAGE ->
  wp (kmemmove (User msg) (Obj mb 0) SIZEOF_MESSAGE;;
      kmemmove (Obj mb 0) (Obj mb SIZEOF_MESSAGE) ((Z.of_nat (length (slot :: rest)) - 1) * SIZEOF_MESSAGE))
    (fun _ k' => exists k1 l', user_written k pdir msg SIZEOF_MESSAGE slot k1 /\ k' = with_buf mb l' k1 /\
       length l' = length l /\ mailbox_at k' mb rest l') k.
Proof.
  intros M Hr. destruct (mailbox_take _ _ _ _ _ M) as (Hsl & Hsb & Hlook).
  assert (Hrest : Forall (fun s => length s = SLOT) rest) by (pose proof (mb_slots M) as H; by inversion H).
  assert (HS : SIZEOF_MESSAGE = Z.of_nat (length slot)) by (rewrite Hsl; done).
  assert (HZ : forall j x, (slot ++ concat rest) !! j = Some x -> zlookup l (Z.of_nat j) = Some x).
  { intros j x Hj. unfold zlookup. destruct (Z.ltb_spec (Z.of_nat j) 0); [lia|]. rewrite Nat2Z.id. by apply Hlook. }
  wp_step. rewrite HS at 1. eapply wp_mono; [apply (kmemmove_user k pdir msg SIZEOF_MESSAGE (Obj mb 0) slot Hr)|].
  { lia. }
  { done. }
  { intros j x pg Hj. cbn [padd]. rewrite Z.add_0_l. eapply load_obj; [apply M | |by split]. apply HZ. by apply lookup_app_l_Some. }
  intros [] k1 W. destruct (uw_rest W) as [pg Hk1].
  assert (M1 : mailbox_at k1 mb (slot :: rest) l) by (rewrite Hk1; by apply mailbox_at_pages).
  pose proof (mailbox_shift _ _ _ _ _ M1) as [Hl' M'].
  replace ((Z.of_nat (length (slot :: rest)) - 1) * SIZEOF_MESSAGE) with (Z.of_nat (length (concat rest))).
  2: { rewrite concat_slots, Nat2Z.inj_mul by done. unfold SLOT. rewrite Z2Nat.id by done. cbn [length]. lia. }
  change (Obj mb 0) with (Obj mb (Z.of_nat 0)).
  eapply wp_mono; [apply (kmemmove_obj mb 0 (Obj mb SIZEOF_MESSAGE) (concat rest) l k1 (mb_data M1))|].
  - rewrite concat_slots, (mb_length M) by done. pose proof (mb_fits M) as Hf. cbn [length] in Hf. pose proof SLOT_eq. nia.
  - pose proof (mb_contents M) as Ht. cbn [concat length] in Ht.
    assert (Hall : Forall is_byte (slot ++ concat rest)) by (rewrite <- Ht; apply Forall_take, M).
    by apply Forall_app in Hall as [_ ?].
  - intros j x Hj. pose proof (lookup_lt_Some _ _ _ Hj) as Hlt. cbn [padd].
    assert (Hfit : (0 + length (concat rest) <= length l)%nat).
    { rewrite concat_slots, (mb_length M) by done. pose proof (mb_fits M) as Hf. cbn [length] in Hf. pose proof SLOT_eq. nia. }
    eapply load_obj; [apply lookup_insert_eq | |by split]. rewrite HS, <- Nat2Z.inj_add. unfold zlookup.
    destruct (Z.ltb_spec (Z.of_nat (length slot + j)) 0); [lia|]. rewrite Nat2Z.id.
    rewrite splice_lookup by (rewrite length_take; lia). rewrite decide_False by (rewrite length_take, Hsl, SLOT_eq; lia).
    apply Hlook. rewrite lookup_app_r by lia. by replace (length slot + j - length slot)%nat with j by lia.
  - intros [] k' ->. exists k1, (splice 0 (concat rest) l). done.
Qed.

(** ** The system calls *)

Section calls.
  Context (k : kstate) (c : Z) (p : process).
  Hypothesis Hc : k_current k = Some c.
  Hypothesis Hp : zlookup (k_processes k) c = Some p.
  Hypothesis Hok : segments_ok p.

Lemma valid_pointer_run a n : is_u32 a -> is_u32 n -> exists b, valid_pointer a n k = Ok b k /\
  (b = true <-> n = 0 \/ in_segment p a (a + n)).
Proof using Hc Hp Hok.
  intros Ha Hn. destruct (proj1 (wp_ok _ _ _) (valid_pointer_spec k c p Hc Hp a n Hok Ha Hn)) as (b & k' & E & -> & H).
  by exists b.
Qed.

(** The process [to], if there is one. *)
Definition exists_in (to : Z) : Prop := exists dest, zlookup (k_processes k) to = Some dest /\ p_exists dest <> 0.
Lemma process_exists_run to : length (k_processes k) = Z.to_nat MAX_PROCESSES ->
  exists b, process_exists to k = Ok b k /\ (b = true <-> exists_in to).
Proof using.
  intros Hlen. assert (Hmax : Z.of_nat (length (k_processes k)) = MAX_PROCESSES) by (rewrite Hlen; done).
  unfold process_exists. destruct (Z.ltb_spec to 0); [|destruct (Z.leb_spec MAX_PROCESSES to)]; cbn [orb].
  1, 2: exists false; split; [done|]; split; [done|]; intros (d & Hd & _); apply zlookup_range in Hd; lia.
  destruct (zlookup_is_Some (k_processes k) to) as [d Hd]; [lia|]. exists (truthy (p_exists d)).
  unfold get_proc, bind, get, gets, of_opt, ret. rewrite Hd. split; [done|]. unfold truthy, exists_in. rewrite Hd. split.
  - intros He. b2p. by exists d.
  - intros (d' & [= <-] & He). by b2p.
Qed.

Lemma send_refused to tag a n dest slots : is_u32 a -> is_u32 n -> length (k_processes k) = Z.to_nat MAX_PROCESSES ->
  (n <> 0 -> ~ in_segment p a (a + n) -> syscall_send to tag a n k = Ok (- EFAULT) k) /\
  (n = 0 \/ in_segment p a (a + n) ->
    (~ exists_in to -> syscall_send to tag a n k = Ok (- ESRCH) k) /\
    (exists_in to -> n > MAX_MESSAGE_SIZE -> syscall_send to tag a n k = Ok (- EINVAL) k) /\
    (exists_in to -> n <= MAX_MESSAGE_SIZE -> zlookup (k_processes k) to = Some dest -> mail k dest slots ->
      length slots = CAPACITY -> syscall_send to tag a n k = Ok (- ENOMEM) k)).
Proof using Hc Hp Hok.
  intros Ha Hn Hlen. destruct (valid_pointer_run a n Ha Hn) as (v & Ev & Hv).
  destruct (process_exists_run to Hlen) as (e & Ee & He). unfold syscall_send. split.
  - intros H0 Hseg. destruct v; [by destruct (proj1 Hv eq_refl)|]. unfold bind. by rewrite Ev.
  - intros Hseg. assert (v = true) as -> by (by apply Hv). split; [|split].
    + intros Hno. destruct e; [by destruct Hno; apply He|]. unfold bind. rewrite Ev. cbn [negb]. by rewrite Ee.
    + intros Hex Hbig. assert (e = true) as -> by (by apply He). unfold bind. rewrite Ev. cbn [negb]. rewrite Ee. cbn [negb].
      destruct (Z.ltb_spec MAX_MESSAGE_SIZE n); [done | lia].
    + intros Hex Hsm Hd Hm Hfull. assert (e = true) as -> by (by apply He). unfold bind. rewrite Ev. cbn [negb]. rewrite Ee. cbn [negb].
      destruct (Z.ltb_spec MAX_MESSAGE_SIZE n); [lia|]. by rewrite (mailbox_full k to dest slots Hd Hm Hfull).
Qed.

Lemma receive_empty msg block : is_u32 msg -> in_segment p msg (msg + SIZEOF_MESSAGE) -> mail k p [] ->
  (block = 0 -> syscall_receive msg block k = Ok (- EAGAIN) k) /\
  (forall R1 R2 S, block <> 0 -> sched (R1 ++ c :: R2) S k ->
    wp (syscall_receive msg block) (fun res k' => res = - ESUSPEND /\ sched (R1 ++ R2) (c :: S) k' /\ exists p',
      zlookup (k_processes k') c = Some p' /\ unlinked p' = unlinked (p <| p_receive_blocked := 1 |> <| p_ready := 0 |>)) k).
Proof using Hc Hp Hok.
  intros Hmsg Hseg [Hsize _]. cbn in Hsize.
  destruct (valid_pointer_run msg SIZEOF_MESSAGE Hmsg) as (v & Ev & Hv); [done|].
  assert (v = true) as -> by (apply Hv; by right). split.
  - intros ->. assert (Hcur : cur k = Ok p k).
    { destruct (proj1 (wp_ok _ _ _) (wp_cur k c p Hc Hp (fun q k0 => q = p /\ k0 = k) (conj eq_refl eq_refl))) as (? & ? & E & -> & ->). exact E. }
    unfold syscall_receive, bind. rewrite Ev. cbn [negb]. by rewrite Hcur, Hsize.
  - intros R1 R2 S Hb Hs. unfold syscall_receive. wp_step. apply wp_ok. exists true, k. split; [done|]. cbn [negb].
    wp_step. eapply wp_cur; [done..|]. rewrite Hsize. change (0 <? Z.of_nat 0) with false. cbv iota. unfold truthy.
    destruct (Z.eqb_spec block 0); [done|]. cbn [negb].
    wp_step. eapply wp_upd_cur; [done..|].
    wp_step. eapply wp_current; [done|]. wp_step.
    eapply wp_mono; [apply (suspend_process_wp R1 R2 S c); by eapply sched_upd|].
    intros [] k' (Hs' & ps & lr & ls & -> & _ & Hm). apply wp_ret. split; [done|]. split; [done|]. cbn.
    destruct (Hm c (p <| p_receive_blocked := 1 |>)) as (p' & Hp' & Hu).
    { cbn. apply zlookup_zinsert_eq. by eapply zlookup_range. }
    rewrite decide_True in Hu by done. by exists p'.
Qed.

Lemma receive_first {Inv : gmap Z Z -> Buddy.memarea -> Prop} pdir msg block slot rest :
  heap_inv Inv k -> is_u32 msg -> in_segment p msg (msg + SIZEOF_MESSAGE) -> user_region k pdir msg SIZEOF_MESSAGE ->
  mail k p (slot :: rest) ->
  wp (syscall_receive msg block) (fun res k' => res = 0 /\ heap_inv Inv k' /\
    exists k1 p' l', user_written k pdir msg SIZEOF_MESSAGE slot k1 /\ p' = p <| p_mailbox_size := Z.of_nat (length rest) |> /\
      k' = (with_buf (p_mailbox p) l' k1) <| k_processes := zinsert c p' (k_processes k) |> /\ mail k' p' rest) k.
Proof using Hc Hp Hok.
  intros Hi Hmsg Hseg Hr (Hsize & [[_ ?]|(H0 & Hal & l & M)]); [done|].
  destruct (valid_pointer_run msg SIZEOF_MESSAGE Hmsg) as (v & Ev & Hv); [done|].
  assert (v = true) as -> by (apply Hv; by right). unfold syscall_receive. wp_step. apply wp_ok. exists true, k. split; [done|].
  cbn [negb]. wp_step. eapply wp_cur; [done..|]. rewrite Hsize. destruct (Z.ltb_spec 0 (Z.of_nat (length (slot :: rest)))); [|cbn in *; lia].
  apply wp_bind_assoc. eapply wp_mono; [by apply take_message_spec|].
  intros [] k2 (k1 & l' & W & -> & Hl' & M'). destruct (uw_rest W) as [pg Hk1].
  assert (Hc2 : k_current (with_buf (p_mailbox p) l' k1) = Some c) by (by rewrite Hk1).
  assert (Hp2 : zlookup (k_processes (with_buf (p_mailbox p) l' k1)) c = Some p) by (by rewrite Hk1).
  wp_step. eapply wp_upd_cur; [exact Hc2 | exact Hp2|].
  apply wp_ret. split; [done|]. split.
  - apply (heap_inv_insert (Inv := Inv) k1 (p_mailbox p) (OBytes l)); [by rewrite Hk1 | rewrite Hk1; apply M | cbn; by rewrite Hl'].
  - exists k1, (p <| p_mailbox_size := p_mailbox_size p - 1 |>), l'. split; [done|].
    rewrite Hsize. cbn [length]. replace (Z.of_nat (Datatypes.S (length rest)) - 1) with (Z.of_nat (length rest)) by lia.
    split; [done|]. split; [by rewrite Hk1|]. split; [done|]. right. split; [done|]. split; [done|]. exists l'. by split; try apply M'.
Qed.
End calls.

(** ** A process that sends to itself, for the witnesses

    [heap_demo] whose process has a stack of 2 KB. *)
Definition mail_demo_process : process := user_demo_process <| p_stack_end := 0x1800 |>.
Definition mail_demo : kstate := heap_demo <| k_processes := zinsert 1 mail_demo_process (k_processes heap_demo) |>.
Lemma mail_demo_lookup : zlookup (k_processes mail_demo) 1 = Some mail_demo_process.
Proof. apply zlookup_zinsert_eq. by vm_compute. Qed.
Lemma heap_inv_processes {Inv} k ps : heap_inv Inv k -> heap_inv Inv (k <| k_processes := ps |>).
Proof. done. Qed.
Lemma mail_demo_inv : heap_inv buddy_holds mail_demo.
Proof. apply heap_inv_processes, heap_demo_inv. Qed.
Lemma mail_demo_sched : sched [1] [] mail_demo.
Proof. apply (sched_upd [1] [] heap_demo 1 user_demo_process); [apply heap_demo_sched | apply user_demo_lookup | vm_compute; by repeat split]. Qed.
Lemma mail_demo_segments_ok : segments_ok mail_demo_process.
Proof.
  intros s e Hin. unfold segments in Hin. rewrite !elem_of_cons, elem_of_nil in Hin.
  by destruct Hin as [Hin|[Hin|[Hin|[]]]]; vm_compute in Hin; injection Hin as -> ->.
Qed.
Lemma mail_demo_segment n : 0 <= n <= 0x800 -> in_segment mail_demo_process 0x1000 (0x1000 + n).
Proof. intros Hn. apply in_segment_cases. left. split; [done|]. change (p_stack_end mail_demo_process) with 0x1800. lia. Qed.
Lemma mail_demo_pa i : 0x1000 <= i < 0x1800 -> user_pa mail_demo i = Some (PAGE_START + 8192 + (i - 0x1000)).
Proof.
  intros Hi.
  assert (H : Forall (fun i => user_pa mail_demo i = Some (PAGE_START + 8192 + (i - 0x1000))) (seqZ 0x1000 0x800)).
  { apply (bool_decide_unpack _). vm_compute. exact I. }
  rewrite list.Forall_forall in H. apply H, elem_of_seqZ. lia.
Qed.
Lemma mail_demo_region : user_region mail_demo PAGE_START 0x1000 SIZEOF_MESSAGE.
Proof.
  change SIZEOF_MESSAGE with 1036. split.
  - done.
  - lia.
  - intros i Hi. eexists. apply mail_demo_pa. lia.
  - intros i j pa Hi Hj. rewrite !mail_demo_pa by lia. intros [= <-] H. injection H as H. lia.
  - intros i j pa Hi Hj. rewrite mail_demo_pa by lia. intros [= <-]. cbv zeta.
    assert (Hidx : dirindex j = 0 /\ tblindex j = 1).
    { unfold dirindex, tblindex, PAGE_SIZE. assert (Hq : j / 4096 = 1) by (symmetry; apply (Z.div_unique_pos j 4096 1 (j - 4096)); lia).
      by rewrite Hq. }
    destruct Hidx as [-> ->].
    replace (Z.land (pword (pmem (k_pages mail_demo)) (PAGE_START + 4 * 0)) PAGE_ADDRESS_MASK) with (PAGE_START + 4096) by (vm_compute; reflexivity).
    pose proof (Z.mod_pos_bound (PAGE_START + 8192 + (i - 4096)) 4 ltac:(done)). unfold PAGE_START, MB in *. lia.
Qed.
Lemma mail_demo_bytes : user_bytes mail_demo 0x1000 [65; 66].
Proof.
  split; [done|]. split; [done|]. intros [|[|j]] x Hj; [injection Hj as <-; vm_compute; reflexivity..|done].
Qed.
Lemma mail_demo_buffer : in_segment mail_demo_process 0x1000 (0x1000 + SIZEOF_MESSAGE).
Proof. by apply mail_demo_segment. Qed.
Lemma u32_1000 : is_u32 0x1000.
Proof. done. Qed.
Lemma bytes_AB : Forall is_byte [65; 66].
Proof. by repeat constructor. Qed.
Lemma short_AB : (length [65; 66] <= Z.to_nat MAX_MESSAGE_SIZE)%nat.
Proof. vm_compute. lia. Qed.
Lemma mail_demo_exists : exists_in mail_demo 1.
Proof. exists mail_demo_process. split; [apply mail_demo_lookup | done]. Qed.
Lemma mail_demo_mail : mail mail_demo mail_demo_process [].
Proof. split; [done|]. by left. Qed.

(** C11. Sending a message, in each of its cases.  A message outside of the
    sender's memory, to no process, longer than 1024 bytes or to a full
    mailbox is refused with the error of that case and nothing changes.  Any
    other is appended to the receiver's mailbox as one slot with the sender's
    pid, the tag, the size and the data, behind the messages that were there;
    a receiver that waits for it is made ready, and no other process and no
    user memory changes.  The only other outcome is that the kernel heap is
    exhausted. *)
Theorem send_correct k c p to tag a n R S :
  heap_inv buddy_holds k -> k_current k = Some c -> zlookup (k_processes k) c = Some p -> segments_ok p ->
  is_u32 a -> is_u32 n -> sched R S k ->
  (n <> 0 -> ~ in_segment p a (a + n) -> syscall_send to tag a n k = Ok (- EFAULT) k) /\
  (n = 0 \/ in_segment p a (a + n) ->
    (~ exists_in k to -> syscall_send to tag a n k = Ok (- ESRCH) k) /\
    (exists_in k to -> n > MAX_MESSAGE_SIZE -> syscall_send to tag a n k = Ok (- EINVAL) k) /\
    (forall dest slots, exists_in k to -> n <= MAX_MESSAGE_SIZE -> zlookup (k_processes k) to = Some dest -> mail k dest slots ->
      (length slots = CAPACITY -> syscall_send to tag a n k = Ok (- ENOMEM) k) /\
      (forall data, (length slots < CAPACITY)%nat -> user_bytes k a data -> Forall is_byte data -> n = Z.of_nat (length data) ->
        p_receive_blocked dest = 0 \/ to ∈ S ->
        wpx (syscall_send to tag a n) (fun res k' => res = 0 /\ exists slot, slot_of (p_pid p) tag data slot /\
          sent (Inv := buddy_holds) k to slots slot (p_receive_blocked dest) R S k') k))).
Proof.
  intros Hi Hc Hp Hok Ha Hn Hs. pose proof (sc_table Hs) as Hlen.
  split; [by apply (send_refused k c p Hc Hp Hok to tag a n p [])|]. intros Hseg. split; [|split].
  - by apply (send_refused k c p Hc Hp Hok to tag a n p []).
  - by apply (send_refused k c p Hc Hp Hok to tag a n p []).
  - intros dest slots Hex Hsm Hd Hm. split.
    + intros Hfull. by apply (send_refused k c p Hc Hp Hok to tag a n dest slots).
    + intros data Hlt Hub Hb -> Hbl. destruct Hex as (d & Hd' & Hex). rewrite Hd in Hd'. injection Hd' as <-.
      apply (send_spec k c p to dest slots tag a data R S); try done.
      * destruct Hseg as [H0|?]; [left; by destruct data | by right].
      * unfold MAX_MESSAGE_SIZE in *. lia.
Qed.

Lemma send_correct_witness :
  wpx (syscall_send 1 7 0x1000 2) (fun res k' => res = 0 /\ exists slot, slot_of 1 7 [65; 66] slot /\
    sent (Inv := buddy_holds) mail_demo 1 [] slot 0 [1] [] k') mail_demo.
Proof.
  pose proof (send_correct mail_demo 1 mail_demo_process 1 7 0x1000 2 [1] [] mail_demo_inv eq_refl mail_demo_lookup
    mail_demo_segments_ok ltac:(done) ltac:(done) mail_demo_sched) as [_ H].
  destruct (H (or_intror (mail_demo_segment 2 ltac:(done)))) as (_ & _ & H2).
  destruct (H2 _ _ mail_demo_exists ltac:(done) mail_demo_lookup mail_demo_mail) as [_ H3].
  apply H3; [apply Nat.lt_0_succ | exact mail_demo_bytes | exact bytes_AB | exact eq_refl | exact (or_introl eq_refl)].
Defined.

(** C12. Receiving a message, in each of its cases.  When the mailbox holds
    messages the caller gets the first, all of its slot, at its buffer and
    nowhere else, and the others stay in order; with an empty mailbox the call
    fails with EAGAIN, or suspends the caller, marked as waiting for a message,
    when it asks to block.  A buffer that is not the caller's is refused. *)
Theorem receive_correct k c p msg block :
  heap_inv buddy_holds k -> k_current k = Some c -> zlookup (k_processes k) c = Some p -> segments_ok p -> is_u32 msg ->
  (~ in_segment p msg (msg + SIZEOF_MESSAGE) -> syscall_receive msg block k = Ok (- EFAULT) k) /\
  (in_segment p msg (msg + SIZEOF_MESSAGE) ->
    (mail k p [] -> block = 0 -> syscall_receive msg block k = Ok (- EAGAIN) k) /\
    (forall R1 R2 S, mail k p [] -> block <> 0 -> sched (R1 ++ c :: R2) S k ->
      wp (syscall_receive msg block) (fun res k' => res = - ESUSPEND /\ sched (R1 ++ R2) (c :: S) k' /\ exists p',
        zlookup (k_processes k') c = Some p' /\ unlinked p' = unlinked (p <| p_receive_blocked := 1 |> <| p_ready := 0 |>)) k) /\
    (forall pdir slot rest, mail k p (slot :: rest) -> user_region k pdir msg SIZEOF_MESSAGE ->
      wp (syscall_receive msg block) (fun res k' => res = 0 /\ heap_inv buddy_holds k' /\
        exists k1 p', user_written k pdir msg SIZEOF_MESSAGE slot k1 /\ k_pages k' = k_pages k1 /\
          k_processes k' = zinsert c p' (k_processes k) /\ p' = p <| p_mailbox_size := Z.of_nat (length rest) |> /\
          mail k' p' rest) k)).
Proof.
  intros Hi Hc Hp Hok Hmsg. split.
  - intros Hseg. destruct (valid_pointer_run k c p Hc Hp Hok msg SIZEOF_MESSAGE Hmsg) as (v & Ev & Hv); [done|].
    destruct v; [by destruct (proj1 Hv eq_refl)|]. unfold syscall_receive, bind. by rewrite Ev.
  - intros Hseg. split; [|split].
    + intros Hm. by apply (receive_empty k c p Hc Hp Hok msg block).
    + intros R1 R2 S Hm. by apply (receive_empty k c p Hc Hp Hok msg block).
    + intros pdir slot rest Hm Hr. eapply wp_mono; [by apply (receive_first k c p Hc Hp Hok (Inv := buddy_holds) pdir msg block slot rest)|].
      intros res k' (-> & Hi' & k1 & p' & l' & W & Ep' & -> & Hm'). split; [done|]. split; [done|]. by exists k1, p'.
Qed.

(** [mail_demo] after the send. *)
Definition sent_demo : kstate := final (syscall_send 1 7 0x1000 2) mail_demo.
Lemma sent_demo_eq : syscall_send 1 7 0x1000 2 mail_demo = Ok 0 sent_demo.
Proof.
  assert (H : result (syscall_send 1 7 0x1000 2) mail_demo = Some 0) by (vm_compute; reflexivity).
  exact (run_eq _ _ _ H).
Qed.
#[local] Opaque sent_demo.
Lemma sent_demo_ok : exists slot, slot_of 1 7 [65; 66] slot /\ sent (Inv := buddy_holds) mail_demo 1 [] slot 0 [1] [] sent_demo.
Proof.
  pose proof (send_spec (Inv := buddy_holds) mail_demo 1 mail_demo_process 1 mail_demo_process [] 7 0x1000 [65; 66] [1] []
    mail_demo_inv eq_refl mail_demo_lookup mail_demo_segments_ok ltac:(done) mail_demo_lookup ltac:(done) mail_demo_mail
    (Nat.lt_0_succ _) (or_intror (mail_demo_segment 2 ltac:(done))) mail_demo_bytes) as H.
  destruct (wpx_run _ _ _ _ _ (H bytes_AB short_AB mail_demo_sched (or_introl eq_refl)) sent_demo_eq) as [_ H'].
  exact H'.
Qed.

Lemma receive_correct_witness :
  exists slot p', slot_of 1 7 [65; 66] slot /\ zlookup (k_processes sent_demo) 1 = Some p' /\
  wp (syscall_receive 0x1000 0) (fun res k' => res = 0 /\ heap_inv buddy_holds k' /\
    exists k1 p'', user_written sent_demo PAGE_START 0x1000 SIZEOF_MESSAGE slot k1 /\ k_pages k' = k_pages k1 /\
      k_processes k' = zinsert 1 p'' (k_processes sent_demo) /\ p'' = p' <| p_mailbox_size := 0 |> /\ mail k' p'' []) sent_demo.
Proof.
  destruct sent_demo_ok as (slot & Hslot & [Hi (Hpg & Hpt & Hcur) _ _ (p' & Hp' & _ & Hm) _]).
  exists slot, p'. split; [exact Hslot|]. split; [exact Hp'|].
  assert (Hsegs : segments p' = segments mail_demo_process).
  { assert (E : segments <$> zlookup (k_processes sent_demo) 1 = Some (segments mail_demo_process)) by (vm_compute; reflexivity).
    rewrite Hp' in E. exact (Some_inj _ _ E). }
  assert (Hseg : in_segment p' 0x1000 (0x1000 + SIZEOF_MESSAGE)).
  { destruct mail_demo_buffer as (a & e & Hin & H). exists a, e. rewrite Hsegs. exact (conj Hin H). }
  assert (Hok : segments_ok p') by (unfold segments_ok; rewrite Hsegs; exact mail_demo_segments_ok).
  pose proof (receive_correct sent_demo 1 p' 0x1000 0 Hi Hcur Hp' Hok u32_1000) as [_ H].
  destruct (H Hseg) as (_ & _ & H3).
  exact (H3 PAGE_START slot [] Hm (user_region_frame mail_demo sent_demo _ _ _ Hpg Hpt mail_demo_region)).
Defined.
