(* ===== verification/Fstool.v ===== *)
(** * The filesystem image tool (source/fstool.c)

    [fstool -build] packs a directory of the host into an image for the
    kernel.  The host's files are a parameter: what opendir and readdir, stat
    and read give for a path, the length limit of paths, and the byte that
    memory from realloc happens to hold.  A call of [exit] is a [Halt]. *)

From S2P Require Import Prelude Constants Libc Filesystem Pipe.

Record hstat := mkStat { st_size : Z; st_mode : Z; st_mtime : Z }.
Record host := mkHost {
  (** the names readdir yields, in order; [None] when opendir fails *)
  h_opendir : list Z -> option (list (list Z));
  h_stat : list Z -> option hstat;
  (** what successive reads of a file return before the end *)
  h_open : list Z -> option (list (list Z));
  h_path_max : Z;
  (** the last byte of the name of the i-th entry of a directory, which
      nothing initialises *)
  h_stale : list Z -> Z -> Z;
  (** the root entry's mode, mtime and the bytes behind its name *)
  h_root_stale : Z -> Z
}.

(** ** The image under construction *)

(** [data] holds the first [size] bytes of the buffer; the rest of it is
    never read. *)
Record output := mkOutput { o_alloc : Z; o_size : Z; o_data : list Z }.
Record tool := mkTool { t_out : output; t_stdout : list Z }.
Definition with_out (o : output) (t : tool) : tool := mkTool o (t_stdout t).
Definition OUTPUT_INIT : output := mkOutput 1 0 [].

Definition output_append (data : list Z) : M tool unit :=
  t <- get;
  let b := t_out t in
  let need := u32 (o_size b + Z.of_nat (length data)) in
  alloc <- (if o_alloc b <? need
            then match grow_loop 33 need (o_alloc b) with Some a => ret a | None => spin end
            else ret (o_alloc b));
  put (with_out (mkOutput alloc need (o_data b ++ data)) t).

(** [memcpy(&out->data[off],...)]. *)
Definition output_patch (off : Z) (data : list Z) : M tool unit :=
  t <- get;
  let b := t_out t in
  check_ ((0 <=? off) && (off + Z.of_nat (length data) <=? o_size b)) "out->data[]";;
  put (with_out (mkOutput (o_alloc b) (o_size b)
    (take (Z.to_nat off) (o_data b) ++ data ++ drop (Z.to_nat off + length data) (o_data b))) t).

Definition puts (s : list Z) : M tool unit :=
  modify (fun t => mkTool (t_out t) (t_stdout t ++ s)).

(** ** Directories in memory *)

Definition word_bytes (x : Z) : list Z :=
  [x mod 256; (x / 256) mod 256; (x / 65536) mod 256; (x / 16777216) mod 256].

Record directory_entry := mkEntry {
  ent_size : Z; ent_type : Z; ent_location : Z; ent_mode : Z; ent_mtime : Z; ent_name : list Z
}.
Definition entry_bytes (e : directory_entry) : list Z :=
  word_bytes (ent_size e) ++ word_bytes (ent_type e) ++ word_bytes (ent_location e) ++
  word_bytes (ent_mode e) ++ word_bytes (ent_mtime e) ++ ent_name e.
Definition directory_bytes (es : list directory_entry) : list Z :=
  word_bytes (Z.of_nat (length es)) ++ es ≫= entry_bytes.
Definition with_location (l : Z) (e : directory_entry) : directory_entry :=
  mkEntry (ent_size e) (ent_type e) l (ent_mode e) (ent_mtime e) (ent_name e).

(** [strncpy(name,s,n)]. *)
Definition strncpy (s : list Z) (n : nat) : list Z := take n s ++ replicate (n - length s) 0.
(** The string in memory from [s] on. *)
Definition cstring (s : list Z) : option (list Z) := l ← strlen s; Some (take (Z.to_nat l) s).

Definition S_IFMT : Z := 0xF000.
Definition S_ISDIR (mode : Z) : bool := Z.land mode S_IFMT =? 0x4000.
Definition S_ISREG (mode : Z) : bool := Z.land mode S_IFMT =? 0x8000.

(** [!strcmp(name,s)], where [name] has no terminator. *)
Definition ignore_file (name : list Z) : bool :=
  bool_decide (name = bytes ".") || bool_decide (name = bytes "..") || bool_decide (name = bytes ".svn").

Section tool.
  Context (h : host).

(** [snprintf(fullpath,PATH_MAX,"%s/%s",path,name)]. *)
Definition fullpath (path name : list Z) : list Z :=
  take (Z.to_nat (h_path_max h - 1)) (path ++ SLASH :: name).

Definition process_file (path : list Z) : M tool unit :=
  match h_open h path with
  | None => halt "exit"
  | Some chunks => fold_right (fun tmp rest => output_append tmp;; rest) (ret tt) chunks
  end.

(** The first loop of process_dir: the entries of the directory. *)
Fixpoint scan_dir (path : list Z) (names : list (list Z)) (es : list directory_entry) : M tool (list directory_entry) :=
  match names with
  | [] => ret es
  | d_name :: names' =>
      if ignore_file d_name then scan_dir path names' es
      else
        match h_stat h (fullpath path d_name) with
        | None => halt "exit"
        | Some st =>
            if S_ISDIR (st_mode st) || S_ISREG (st_mode st) then
              let ent := mkEntry (u32 (st_size st)) (if S_ISDIR (st_mode st) then TYPE_DIR else TYPE_FILE) 0
                (u32 (st_mode st)) (u32 (st_mtime st))
                (strncpy d_name (Z.to_nat MAX_FILENAME_LEN) ++ [u8 (h_stale h path (Z.of_nat (length es)))]) in
              scan_dir path names' (es ++ [ent])
            else scan_dir path names' es
        end
  end.

(** The name of entry [i] as a string: it ends at the first zero byte, which
    may lie behind the field. *)
Definition entry_name (es : list directory_entry) (i : Z) : option (list Z) :=
  cstring (drop (Z.to_nat (dir_entry 0 i + 20)) (directory_bytes es)).

(** The second loop: [n] entries are left, from [i] on. *)
Fixpoint pack_entries (process_dir : list Z -> M tool unit) (path : list Z) (n : nat) (i : Z) (es : list directory_entry) :
    M tool (list directory_entry) :=
  match n with
  | O => ret es
  | S n' =>
      name <- of_opt (entry_name es i) "newdirect->entries[i].name";
      let full := fullpath path name in
      puts (full ++ [10]);;
      t <- get;
      e <- of_opt (zlookup es i) "newdirect->entries[i]";
      let es := zinsert i (with_location (o_size (t_out t)) e) es in
      (if ent_type e =? TYPE_DIR then process_dir full else process_file full);;
      pack_entries process_dir path n' (i + 1) es
  end.

(** The recursion follows the directories of the host, whose depth [fuel]
    bounds. *)
Fixpoint process_dir (fuel : nat) (path : list Z) : M tool unit :=
  match fuel with
  | O => spin
  | S fuel' =>
      match h_opendir h path with
      | None => halt "exit"
      | Some names =>
          es <- scan_dir path names [];
          t <- get;
          let diroffset := o_size (t_out t) in
          output_append (directory_bytes es);;
          es <- pack_entries (process_dir fuel') path (length es) 0 es;
          output_patch diroffset (directory_bytes es)
      end
  end.

(** [main] for [-build], up to the write of the image. *)
Definition root_entry : directory_entry :=
  mkEntry 0 TYPE_DIR SIZEOF_DIRECTORY_ENTRY (u32 (h_root_stale h 0)) (u32 (h_root_stale h 1))
    (bytes "ROOT" ++ 0 :: ((fun i => u8 (h_root_stale h i)) <$> seqZ 2 251)).
Definition build (fuel : nat) (dir : list Z) : option (list Z) :=
  match (output_append (entry_bytes root_entry);; process_dir fuel dir) (mkTool OUTPUT_INIT []) with
  | Ok _ t => Some (o_data (t_out t))
  | _ => None
  end.
End tool.
