(* ===== verification/FstoolProofs.v ===== *)
(** * Images of directories: what fstool packs, the kernel finds

    A directory of the host is a tree; [layout] is the image of a tree, and
    process_dir writes it; an image of a tree answers get_directory_entry as
    the tree does. *)

From S2P Require Import Prelude Constants Pipe PipeProofs Libc LibcProofs PrintProofs Filesystem FilesystemProofs Fstool.

(** ** Trees *)

Inductive tree :=
  | File (st : hstat) (chunks : list (list Z))
  | Dir (st : hstat) (entries : list (list Z * tree)).
Definition tstat (T : tree) : hstat := match T with File st _ => st | Dir st _ => st end.
Definition is_dir (T : tree) : bool := match T with Dir _ _ => true | _ => false end.

Fixpoint tree_rect' (P : tree -> Prop) (HF : forall st c, P (File st c))
    (HD : forall st es, Forall (fun x => P (snd x)) es -> P (Dir st es)) (T : tree) : P T :=
  match T with
  | File st c => HF st c
  | Dir st es =>
      HD st es ((fix go es : Forall (fun x => P (snd x)) es :=
        match es with
        | [] => List.Forall_nil _
        | (n, T') :: es' => List.Forall_cons _ (n, T') es' (tree_rect' P HF HD T') (go es')
        end) es)
  end.

Fixpoint depth (T : tree) : nat :=
  match T with File _ _ => 0 | Dir _ es => S (fold_right (fun x d => Nat.max (depth (snd x)) d) 0%nat es) end.
(** The bytes a tree takes in an image. *)
Definition header (n : nat) : Z := 4 + Z.of_nat n * SIZEOF_DIRECTORY_ENTRY.
Fixpoint tsize (T : tree) : Z :=
  match T with
  | File _ c => Z.of_nat (length (concat c))
  | Dir _ es => header (length es) + fold_right (fun x d => tsize (snd x) + d) 0 es
  end.
Definition tsizes (es : list (list Z * tree)) : Z := fold_right (fun x d => tsize (snd x) + d) 0 es.

Lemma tsize_pos T : 0 <= tsize T.
Proof.
  induction T as [st c|st es IH] using tree_rect'; cbn [tsize]; [lia|]. unfold header, SIZEOF_DIRECTORY_ENTRY, MAX_FILENAME_LEN.
  enough (0 <= fold_right (fun x d => tsize (snd x) + d) 0 es) by lia.
  induction IH as [|x es Hx _ IH']; cbn; lia.
Qed.
Lemma tsizes_pos es : 0 <= tsizes es.
Proof. induction es as [|x es IH]; cbn; [lia|]. pose proof (tsize_pos x.2). unfold tsizes in IH. lia. Qed.

(** The walk along the parts of a path: the tree it ends at. *)
Fixpoint tassoc (c : list Z) (es : list (list Z * tree)) : option tree :=
  match es with
  | [] => None
  | (n, T) :: es' => if decide (n = c) then Some T else tassoc c es'
  end.
Fixpoint tree_walk (T : tree) (ps : list (list Z)) : option tree :=
  match ps, T with
  | [], _ => Some T
  | _, File _ _ => None
  | c :: ps', Dir _ es => if decide (c = []) then tree_walk T ps' else T' ← tassoc c es; tree_walk T' ps'
  end.

(** ** The layout of a tree *)

Section layout.
  Context (h : host).

Definition entry_of (path : list Z) (i : Z) (n : list Z) (T : tree) (loc : Z) : directory_entry :=
  mkEntry (u32 (st_size (tstat T))) (if is_dir T then TYPE_DIR else TYPE_FILE) loc
    (u32 (st_mode (tstat T))) (u32 (st_mtime (tstat T)))
    (strncpy n (Z.to_nat MAX_FILENAME_LEN) ++ [u8 (h_stale h path i)]).
(** The entries of a directory, before and after the locations are known. *)
Fixpoint raw_ents (path : list Z) (i : Z) (es : list (list Z * tree)) : list directory_entry :=
  match es with [] => [] | (n, T) :: es' => entry_of path i n T 0 :: raw_ents path (i + 1) es' end.
Fixpoint dir_ents (path : list Z) (i l : Z) (es : list (list Z * tree)) : list directory_entry :=
  match es with [] => [] | (n, T) :: es' => entry_of path i n T l :: dir_ents path (i + 1) (l + tsize T) es' end.

Fixpoint layout (path : list Z) (loc : Z) (T : tree) : list Z :=
  match T with
  | File _ c => concat c
  | Dir _ es =>
      let base := loc + header (length es) in
      directory_bytes (dir_ents path 0 base es) ++
      (fix go (l : Z) (es : list (list Z * tree)) : list Z :=
         match es with [] => [] | (n, T') :: es' => layout (fullpath h path n) l T' ++ go (l + tsize T') es' end) base es
  end.
Fixpoint layouts (path : list Z) (l : Z) (es : list (list Z * tree)) : list Z :=
  match es with [] => [] | (n, T') :: es' => layout (fullpath h path n) l T' ++ layouts path (l + tsize T') es' end.

Lemma layout_dir path loc st es : layout path loc (Dir st es) =
  directory_bytes (dir_ents path 0 (loc + header (length es)) es) ++ layouts path (loc + header (length es)) es.
Proof.
  cbn [layout]. f_equal. generalize (loc + header (length es)). induction es as [|[n T] es IH]; intros l; [done|].
  cbn [layouts]. f_equal. apply IH.
Qed.

(** ** What the host has to say about a tree *)

Definition packable (n : list Z) : Prop :=
  name n /\ Forall is_byte n /\ (length n < Z.to_nat MAX_FILENAME_LEN)%nat.
Definition kept (path n : list Z) : bool :=
  negb (ignore_file n) && match h_stat h (fullpath h path n) with
                          | Some st => S_ISDIR (st_mode st) || S_ISREG (st_mode st)
                          | None => true
                          end.
Definition child_ok (path n : list Z) (T : tree) : Prop :=
  packable n /\ h_stat h (fullpath h path n) = Some (tstat T) /\ S_ISDIR (st_mode (tstat T)) = is_dir T.
Fixpoint represents (path : list Z) (T : tree) : Prop :=
  match T with
  | File _ c => h_open h path = Some c /\ Forall is_byte (concat c)
  | Dir _ es =>
      (exists names, h_opendir h path = Some names /\ List.filter (kept path) names = es.*1 /\
         Forall (fun n => ignore_file n = false -> is_Some (h_stat h (fullpath h path n))) names) /\
      (fix go (es : list (list Z * tree)) : Prop :=
         match es with
         | [] => True
         | (n, T') :: es' => child_ok path n T' /\ represents (fullpath h path n) T' /\ go es'
         end) es
  end.
Definition children_ok (path : list Z) (es : list (list Z * tree)) : Prop :=
  Forall (fun x => child_ok path x.1 x.2 /\ represents (fullpath h path x.1) x.2) es.
Lemma represents_children path st es : represents path (Dir st es) -> children_ok path es.
Proof.
  intros [_ H]. induction es as [|[n T] es IH]; [constructor|]. destruct H as (H1 & H2 & H3).
  constructor; [done|]. by apply IH.
Qed.
End layout.

(** ** Bytes of directories *)

Definition ENTRY : nat := Z.to_nat SIZEOF_DIRECTORY_ENTRY.
Lemma ENTRY_eq : ENTRY = 276%nat.
Proof. by vm_compute. Qed.

Arguments entry_bytes : simpl never.
Arguments directory_bytes : simpl never.

(** The name field has its 256 bytes. *)
Definition full_entry (e : directory_entry) : Prop := length (ent_name e) = 256%nat.
Lemma entry_bytes_length e : full_entry e -> length (entry_bytes e) = ENTRY.
Proof. intros H. unfold entry_bytes. rewrite !length_app, H. by vm_compute. Qed.
Lemma entries_length es : Forall full_entry es -> length (es ≫= entry_bytes) = (length es * ENTRY)%nat.
Proof.
  induction 1 as [|e es He _ IH]; [done|]. cbn. rewrite length_app, IH, entry_bytes_length by done. done.
Qed.
Lemma directory_bytes_length es : Forall full_entry es -> Z.of_nat (length (directory_bytes es)) = header (length es).
Proof.
  intros H. unfold directory_bytes. rewrite length_app, entries_length by done. unfold header. cbn [word_bytes length].
  unfold ENTRY. rewrite Nat2Z.inj_add, Nat2Z.inj_mul, Z2Nat.id by done. done.
Qed.

Lemma strncpy_length n k : length (strncpy n k) = k.
Proof. unfold strncpy. rewrite length_app, length_take, length_replicate. lia. Qed.
Lemma entry_of_full h path i n T l : full_entry (entry_of h path i n T l).
Proof. unfold full_entry. cbn. rewrite length_app, strncpy_length. done. Qed.
Lemma raw_ents_full h path i es : Forall full_entry (raw_ents h path i es).
Proof. revert i. induction es as [|[n T] es IH]; intros i; constructor; [apply entry_of_full | apply IH]. Qed.
Lemma dir_ents_full h path i l es : Forall full_entry (dir_ents h path i l es).
Proof. revert i l. induction es as [|[n T] es IH]; intros i l; constructor; [apply entry_of_full | apply IH]. Qed.
Lemma raw_ents_length h path i es : length (raw_ents h path i es) = length es.
Proof. revert i. induction es as [|[n T] es IH]; intros i; cbn; [done|]. by rewrite IH. Qed.
Lemma dir_ents_length h path i l es : length (dir_ents h path i l es) = length es.
Proof. revert i l. induction es as [|[n T] es IH]; intros i l; cbn; [done|]. by rewrite IH. Qed.

(** A packable name in its field. *)
Lemma packed_name n x : packable n -> exists junk, strncpy n (Z.to_nat MAX_FILENAME_LEN) ++ [x] = n ++ 0 :: junk.
Proof.
  intros (_ & _ & Hn). unfold strncpy. rewrite take_ge by lia. rewrite <- app_assoc.
  destruct (Z.to_nat MAX_FILENAME_LEN - length n)%nat as [|k] eqn:E; [lia|]. cbn. by eexists.
Qed.
Lemma cstring_app s r : no_nul s -> cstring (s ++ 0 :: r) = Some s.
Proof.
  intros H. unfold cstring. rewrite strlen_spec by done. cbn. f_equal. rewrite Nat2Z.id. by apply take_app_length'.
Qed.

(** The bytes of entry [i]. *)
Lemma directory_at pre e post : Forall full_entry pre ->
  drop (Z.to_nat (dir_entry 0 (Z.of_nat (length pre)))) (directory_bytes (pre ++ e :: post)) =
  entry_bytes e ++ post ≫= entry_bytes.
Proof.
  intros H. unfold directory_bytes. rewrite bind_app. cbn [mbind list_bind].
  rewrite app_assoc. apply drop_app_length'. rewrite length_app, entries_length by done.
  unfold dir_entry, ENTRY. cbn [word_bytes length]. unfold SIZEOF_DIRECTORY_ENTRY, MAX_FILENAME_LEN. lia.
Qed.
Lemma entry_name_at pre e post n junk : Forall full_entry pre -> ent_name e = n ++ 0 :: junk -> no_nul n ->
  entry_name (pre ++ e :: post) (Z.of_nat (length pre)) = Some n.
Proof.
  intros H He Hn. unfold entry_name.
  replace (Z.to_nat (dir_entry 0 (Z.of_nat (length pre)) + 20)) with (Z.to_nat (dir_entry 0 (Z.of_nat (length pre))) + 20)%nat
    by (unfold dir_entry, SIZEOF_DIRECTORY_ENTRY, MAX_FILENAME_LEN; lia).
  rewrite <- drop_drop, directory_at by done. unfold entry_bytes. cbn [word_bytes app]. cbn [drop].
  rewrite He, <- !app_assoc. by apply cstring_app.
Qed.

Lemma layout_length h T : forall path l, Z.of_nat (length (layout h path l T)) = tsize T.
Proof.
  induction T as [st c|st es IH] using tree_rect'; intros path l; [done|].
  rewrite layout_dir, length_app, Nat2Z.inj_add, directory_bytes_length by apply dir_ents_full.
  rewrite dir_ents_length. cbn [tsize]. f_equal. generalize (l + header (length es)).
  induction IH as [|[n T] es HT _ IH']; intros m; [done|]. cbn [layouts fold_right snd].
  rewrite length_app, Nat2Z.inj_add, IH'. f_equal. apply HT.
Qed.
Lemma layouts_length h path es l : Z.of_nat (length (layouts h path l es)) = tsizes es.
Proof.
  revert l. induction es as [|[n T] es IH]; intros l; [done|]. cbn [layouts tsizes fold_right snd].
  rewrite length_app, Nat2Z.inj_add, IH, layout_length. done.
Qed.

(** ** The program writes the layout *)

Record out_ok (t : tool) : Prop := {
  ok_size : o_size (t_out t) = Z.of_nat (length (o_data (t_out t)));
  ok_alloc : 0 < o_alloc (t_out t) < 2 ^ 31
}.
(** [bs] has been added to the image. *)
Definition appended (t : tool) (bs : list Z) (t' : tool) : Prop :=
  out_ok t' /\ o_data (t_out t') = o_data (t_out t) ++ bs.

Lemma appended_size t bs t' : out_ok t -> appended t bs t' -> o_size (t_out t') = o_size (t_out t) + Z.of_nat (length bs).
Proof. intros H [H' E]. rewrite (ok_size _ H'), (ok_size _ H), E, length_app. lia. Qed.
Lemma appended_trans t bs t1 bs' t2 : appended t bs t1 -> appended t1 bs' t2 -> appended t (bs ++ bs') t2.
Proof. intros [_ E1] [H2 E2]. split; [done|]. by rewrite E2, E1, app_assoc. Qed.

Lemma output_append_spec t bs : out_ok t -> o_size (t_out t) + Z.of_nat (length bs) < 2 ^ 30 ->
  wp (output_append bs) (fun _ t' => appended t bs t') t.
Proof.
  intros H Hlen. pose proof (ok_alloc _ H) as Ha. pose proof (ok_size _ H) as Hs. unfold output_append. wp_step. wp_step.
  rewrite u32_small by lia. wp_step.
  set (need := o_size (t_out t) + Z.of_nat (length bs)) in *.
  apply (wp_mono _ (fun a s => s = t /\ 0 < a < 2 ^ 31)).
  - destruct (Z.ltb_spec (o_alloc (t_out t)) need).
    + destruct (grow_enough need (o_alloc (t_out t)) Ha Hlen) as (a & -> & ?). apply wp_ret. split; [done|]. lia.
    + apply wp_ret. split; [done|]. lia.
  - intros a s [-> Ha']. apply wp_put. split; [|done]. split; cbn; [|done]. unfold need. rewrite length_app. lia.
Qed.

Section program.
  Context (h : host).

Lemma chunks_spec chunks : forall t, out_ok t -> o_size (t_out t) + Z.of_nat (length (concat chunks)) < 2 ^ 30 ->
  wp (fold_right (fun tmp rest => output_append tmp;; rest) (ret tt) chunks) (fun _ t' => appended t (concat chunks) t') t.
Proof.
  induction chunks as [|b chunks IH]; intros t H Hlen; cbn [fold_right concat] in *.
  - apply wp_ret. split; [done|]. by rewrite app_nil_r.
  - rewrite length_app in Hlen. wp_step. eapply wp_mono; [apply output_append_spec; [done | lia]|]. intros [] t1 H1.
    pose proof (appended_size _ _ _ H H1). eapply wp_mono; [apply IH; [apply H1 | lia]|]. intros [] t2 H2.
    by eapply appended_trans.
Qed.
Lemma process_file_spec path st chunks t : represents h path (File st chunks) -> out_ok t ->
  o_size (t_out t) + tsize (File st chunks) < 2 ^ 30 ->
  wp (process_file h path) (fun _ t' => appended t (concat chunks) t') t.
Proof. intros [Ho _] H Hlen. unfold process_file. rewrite Ho. by apply chunks_spec. Qed.

Lemma scan_dir_spec path names : forall es acc t, children_ok h path es -> List.filter (kept h path) names = es.*1 ->
  Forall (fun n => ignore_file n = false -> is_Some (h_stat h (fullpath h path n))) names ->
  wp (scan_dir h path names acc) (fun r t' => t' = t /\ r = acc ++ raw_ents h path (Z.of_nat (length acc)) es) t.
Proof.
  induction names as [|n names IH]; intros es acc t Hc Hf Hst; cbn [scan_dir].
  { destruct es; [|done]. apply wp_ret. by rewrite app_nil_r. }
  apply list.Forall_cons in Hst as [Hn Hst]. cbn [List.filter] in Hf. unfold kept in Hf at 1.
  destruct (ignore_file n); cbn [negb andb] in Hf; [by apply IH|].
  destruct (Hn eq_refl) as [st Est]. rewrite Est in Hf |- *.
  destruct (S_ISDIR (st_mode st) || S_ISREG (st_mode st)) eqn:Ek; cbn in Hf; [|by apply IH].
  destruct es as [|[n' T] es]; [done|]. injection Hf as <- Hf. apply list.Forall_cons in Hc as [[(Hp & E & Hd) _] Hc].
  cbn in E, Hd. rewrite Est in E. injection E as ->. eapply wp_mono; [by apply (IH es)|]. intros r t' [-> ->]. split; [done|].
  cbn [raw_ents]. rewrite length_app, <- app_assoc. cbn [length app]. unfold entry_of. rewrite Hd.
  by replace (Z.of_nat (length acc + 1)) with (Z.of_nat (length acc) + 1) by lia.
Qed.

Lemma pack_entries_spec proc path es : forall pre l t,
  children_ok h path es ->
  Forall (fun x => is_dir x.2 = true -> forall t, out_ok t -> o_size (t_out t) + tsize x.2 < 2 ^ 30 ->
     wp (proc (fullpath h path x.1)) (fun _ t' => appended t (layout h (fullpath h path x.1) (o_size (t_out t)) x.2) t') t) es ->
  out_ok t -> o_size (t_out t) = l -> l + tsizes es < 2 ^ 30 -> Forall full_entry pre ->
  wp (pack_entries h proc path (length es) (Z.of_nat (length pre)) (pre ++ raw_ents h path (Z.of_nat (length pre)) es))
    (fun r t' => r = pre ++ dir_ents h path (Z.of_nat (length pre)) l es /\ appended t (layouts h path l es) t') t.
Proof.
  induction es as [|[n T] es IH]; intros pre l t Hc Hproc H Hl Hlen Hpre; cbn [length pack_entries raw_ents dir_ents layouts].
  { apply wp_ret. split; [done|]. split; [done|]. by rewrite app_nil_r. }
  apply list.Forall_cons in Hc as [[(Hp & _ & _) Hrep] Hc]. apply list.Forall_cons in Hproc as [HT Hproc]. cbn [fst snd] in *.
  cbn [tsizes fold_right snd] in Hlen. fold (tsizes es) in Hlen. pose proof (tsizes_pos es) as Hz1. pose proof (tsize_pos T) as Hz2.
  destruct (packed_name n (u8 (h_stale h path (Z.of_nat (length pre)))) Hp) as [junk Hj].
  set (e := entry_of h path (Z.of_nat (length pre)) n T 0) in *. wp_step.
  apply (wp_of_opt _ n); [eapply entry_name_at; [done | exact Hj | apply Hp]|].
  wp_step. unfold puts. apply wp_modify. wp_step. wp_step. wp_step. apply (wp_of_opt _ e); [apply zlookup_middle|].
  cbn [t_out]. wp_step. set (t1 := mkTool (t_out t) _). assert (H1 : out_ok t1) by (by destruct H).
  assert (Hins : zinsert (Z.of_nat (length pre)) (with_location (o_size (t_out t)) e) (pre ++ e :: raw_ents h path (Z.of_nat (length pre) + 1) es) =
    (pre ++ [entry_of h path (Z.of_nat (length pre)) n T l]) ++ raw_ents h path (Z.of_nat (length (pre ++ [e]))) es).
  { unfold zinsert. destruct (Z.ltb_spec (Z.of_nat (length pre)) 0); [lia|]. rewrite Nat2Z.id, insert_app_r_alt, Nat.sub_diag by lia.
    rewrite Hl, <- app_assoc, length_app. cbn. by replace (Z.of_nat (length pre + 1)) with (Z.of_nat (length pre) + 1) by lia. }
  apply (wp_mono _ (fun _ t' => appended t1 (layout h (fullpath h path n) l T) t')).
  - rewrite <- Hl in *. destruct T as [st c|st es']; cbn [is_dir entry_of ent_type e].
    + change (TYPE_FILE =? TYPE_DIR) with false. cbv iota. eapply process_file_spec; [exact Hrep | done | cbn [t1 t_out] in *; lia].
    + rewrite Z.eqb_refl. apply (HT eq_refl t1 H1). cbn [t1 t_out] in *. lia.
  - intros [] t2 H2. rewrite Hins.
    assert (Hs2 : o_size (t_out t2) = l + tsize T).
    { rewrite (appended_size _ _ _ H1 H2), layout_length. cbn. lia. }
    specialize (IH (pre ++ [entry_of h path (Z.of_nat (length pre)) n T l]) (l + tsize T) t2 Hc Hproc (proj1 H2) Hs2).
    rewrite !length_app in IH. rewrite length_app. cbn [length] in *.
    replace (Z.of_nat (length pre + 1)) with (Z.of_nat (length pre) + 1) in * by lia.
    eapply wp_mono; [apply IH; [lia | apply Forall_app; split; [done | constructor; [apply entry_of_full | constructor]]]|].
    intros r t3 [-> H3]. split; [by rewrite <- app_assoc|]. eapply (appended_trans t1); [exact H2 | exact H3].
Qed.

Lemma process_dir_spec T : is_dir T = true -> forall fuel path t, represents h path T -> (depth T <= fuel)%nat -> out_ok t ->
  o_size (t_out t) + tsize T < 2 ^ 30 ->
  wp (process_dir h fuel path) (fun _ t' => appended t (layout h path (o_size (t_out t)) T) t') t.
Proof.
  induction T as [st c|st es IH] using tree_rect'; [done|]. intros _ fuel path t Hrep Hf H Hlen.
  destruct fuel as [|fuel]; [cbn in Hf; lia|]. cbn [process_dir]. pose proof (represents_children h path st es Hrep) as Hc.
  destruct Hrep as [(names & -> & Hfil & Hst) _]. cbn [tsize] in Hlen. fold (tsizes es) in Hlen.
  pose proof (tsizes_pos es). wp_step. eapply wp_mono; [by apply (scan_dir_spec path names es [])|].
  intros r t' [-> ->]. cbn [app length]. wp_step. wp_step. wp_step. change (Z.of_nat 0) with 0.
  set (raw := raw_ents h path 0 es). set (l := o_size (t_out t)) in *.
  assert (Hraw : Z.of_nat (length (directory_bytes raw)) = header (length es)).
  { unfold raw. rewrite directory_bytes_length by apply raw_ents_full. by rewrite raw_ents_length. }
  eapply wp_mono; [apply output_append_spec; [done | lia]|]. intros [] t1 H1.
  assert (Hs1 : o_size (t_out t1) = l + header (length es)) by (rewrite (appended_size _ _ _ H H1); lia).
  wp_step. unfold raw at 1. rewrite raw_ents_length.
  eapply wp_mono; [apply (pack_entries_spec (process_dir h fuel) path es [] (l + header (length es)) t1); try done|].
  - apply list.Forall_forall. intros [n T'] Hin Hd t2 H2 Hlen2. cbn [fst snd] in *.
    unfold children_ok in Hc. rewrite list.Forall_forall in IH, Hc. apply (IH _ Hin); [done | apply (Hc _ Hin) | | done | done].
    change (S (fold_right (fun x d => depth x.2 `max` d) 0 es) <= S fuel)%nat in Hf. cut (depth T' <= fold_right (fun x d => depth x.2 `max` d) 0 es)%nat; [cbn [snd]; lia|].
    clear - Hin. induction es as [|x es IHe]; [by apply elem_of_nil in Hin|]. cbn.
    apply elem_of_cons in Hin as [<- |Hin]; [cbn; lia|]. specialize (IHe Hin). lia.
  - apply H1.
  - lia.
  - cbn [app length]. intros r t2 [-> H2]. change (Z.of_nat 0) with 0. unfold output_patch. wp_step. wp_step. wp_step.
    set (es2 := dir_ents h path 0 (l + header (length es)) es).
    assert (Hd : Z.of_nat (length (directory_bytes es2)) = header (length es)).
    { unfold es2. rewrite directory_bytes_length by apply dir_ents_full. by rewrite dir_ents_length. }
    assert (Hl : l = Z.of_nat (length (o_data (t_out t)))) by apply H.
    assert (Hs2 : o_size (t_out t2) = l + header (length es) + tsizes es).
    { rewrite (appended_size _ _ _ (proj1 H1) H2), layouts_length. lia. }
    wp_step. { b2p. split; b2p; lia. }
    wp_step. destruct H1 as [_ E1], H2 as [[K1 K2] E2].
    assert (E : take (Z.to_nat l) (o_data (t_out t2)) ++ directory_bytes es2 ++
      drop (Z.to_nat l + length (directory_bytes es2)) (o_data (t_out t2)) = o_data (t_out t) ++ layout h path l (Dir st es)).
    { rewrite E2, E1, layout_dir. fold es2. rewrite Hl, Nat2Z.id, <- app_assoc, take_app_length. do 2 f_equal.
      rewrite app_assoc. apply drop_app_length'. rewrite length_app. lia. }
    split; [|exact E]. split; cbn; [|done]. rewrite E, length_app, Nat2Z.inj_add, layout_length. cbn [tsize]. fold (tsizes es). lia.
Qed.
End program.

(** ** The layout is an image *)

Lemma fs_byte_drop fs off k r : 0 <= off -> drop (Z.to_nat off) fs = r -> 0 <= k -> fs_byte fs (off + k) = r !! Z.to_nat k.
Proof.
  intros H1 <- H2. unfold fs_byte, zlookup. destruct (Z.ltb_spec (off + k) 0); [lia|].
  rewrite lookup_drop. f_equal. lia.
Qed.
Lemma word_value x : is_u32 x ->
  x mod 256 + 2 ^ 8 * ((x / 256) mod 256) + 2 ^ 16 * ((x / 65536) mod 256) + 2 ^ 24 * ((x / 16777216) mod 256) = x.
Proof.
  intros Hx. unfold is_u32 in Hx. change (2 ^ 8) with 256. change (2 ^ 16) with (256 * 256). change (2 ^ 24) with (256 * 256 * 256).
  change 65536 with (256 * 256). change 16777216 with (256 * 256 * 256). rewrite <- !Z.div_div by lia.
  pose proof (Z.div_mod x 256 ltac:(lia)). pose proof (Z.div_mod (x / 256) 256 ltac:(lia)).
  pose proof (Z.div_mod (x / 256 / 256) 256 ltac:(lia)).
  assert (x / 256 / 256 / 256 < 256) by (rewrite !Z.div_div by lia; apply Z.div_lt_upper_bound; lia).
  assert (0 <= x / 256 / 256 / 256) by (rewrite !Z.div_div by lia; apply Z.div_pos; lia).
  rewrite (Z.mod_small (x / 256 / 256 / 256)) by lia. lia.
Qed.
Lemma fs_word_drop fs off x r : 0 <= off -> is_u32 x -> drop (Z.to_nat off) fs = word_bytes x ++ r -> fs_word fs off = Some x.
Proof.
  intros H0 Hx Hd. unfold fs_word. rewrite <- (Z.add_0_r off) at 1.
  rewrite !(fs_byte_drop fs off _ _ H0 Hd) by lia.
  change (Z.to_nat 0) with 0%nat. change (Z.to_nat 1) with 1%nat. change (Z.to_nat 2) with 2%nat. change (Z.to_nat 3) with 3%nat.
  unfold word_bytes. cbn. f_equal. by apply word_value.
Qed.
Lemma drop_more {A} (l : list A) off k a r : 0 <= off -> 0 <= k -> length a = Z.to_nat k -> drop (Z.to_nat off) l = a ++ r ->
  drop (Z.to_nat (off + k)) l = r.
Proof. intros H0 Hk Ha Hd. rewrite Z2Nat.inj_add, <- drop_drop, Hd, <- Ha by done. apply drop_app_length. Qed.

Lemma next_word fs a x r : 0 <= a -> drop (Z.to_nat a) fs = word_bytes x ++ r -> drop (Z.to_nat (a + 4)) fs = r.
Proof. intros Ha. by apply drop_more. Qed.

(** The entry at [a] of the image. *)
Record entry_at (fs : list Z) (a : Z) (n : list Z) (T : tree) (l : Z) : Prop := {
  ea_size : de_size fs a = Some (u32 (st_size (tstat T)));
  ea_type : de_type fs a = Some (if is_dir T then TYPE_DIR else TYPE_FILE);
  ea_location : de_location fs a = Some l;
  ea_mode : de_mode fs a = Some (u32 (st_mode (tstat T)));
  ea_mtime : de_mtime fs a = Some (u32 (st_mtime (tstat T)));
  ea_name : string_of (de_name fs a) = Some n
}.
Arguments ea_size {fs a n T l} _.
Arguments ea_type {fs a n T l} _.
Arguments ea_location {fs a n T l} _.
Arguments ea_mode {fs a n T l} _.
Arguments ea_mtime {fs a n T l} _.
Arguments ea_name {fs a n T l} _.

Lemma entry_of_at h fs a path i n T l r : 0 <= a -> is_u32 l -> packable n ->
  drop (Z.to_nat a) fs = entry_bytes (entry_of h path i n T l) ++ r -> entry_at fs a n T l.
Proof.
  intros Ha Hl Hn Hd. unfold entry_bytes in Hd. rewrite <- !app_assoc in Hd. cbn [entry_of ent_size ent_type ent_location ent_mode ent_mtime ent_name] in Hd.
  assert (Hnext : forall k x r', 0 <= k -> drop (Z.to_nat (a + k)) fs = word_bytes x ++ r' -> drop (Z.to_nat (a + (k + 4))) fs = r').
  { intros k x r' Hk E. rewrite Z.add_assoc. eapply next_word; [lia | exact E]. }
  pose proof (Hnext 0 _ _ ltac:(lia) ltac:(rewrite Z.add_0_r; exact Hd)) as H4. pose proof (Hnext 4 _ _ ltac:(lia) H4) as H8.
  pose proof (Hnext 8 _ _ ltac:(lia) H8) as H12. pose proof (Hnext 12 _ _ ltac:(lia) H12) as H16.
  pose proof (Hnext 16 _ _ ltac:(lia) H16) as H20.
  destruct (packed_name n (u8 (h_stale h path i)) Hn) as [junk Hj]. rewrite Hj in H20.
  assert (Hu : forall x, is_u32 (u32 x)) by (intros x; apply u32_range). split.
  - exact (fs_word_drop _ _ _ _ Ha (Hu _) Hd).
  - eapply fs_word_drop; [lia | | exact H4]. by destruct T.
  - exact (fs_word_drop _ (a + 8) _ _ ltac:(lia) Hl H8).
  - exact (fs_word_drop _ (a + 12) _ _ ltac:(lia) (Hu _) H12).
  - exact (fs_word_drop _ (a + 16) _ _ ltac:(lia) (Hu _) H16).
  - unfold de_name. change 20 with (16 + 4). rewrite H20, <- app_assoc. apply string_of_app. apply Hn.
Qed.

Fixpoint img (fs : list Z) (loc : Z) (T : tree) : Prop :=
  match T with
  | File _ c => take (length (concat c)) (drop (Z.to_nat loc) fs) = concat c
  | Dir _ es =>
      dir_count fs loc = Some (Z.of_nat (length es)) /\ 0 <= loc /\
      (fix go (i : Z) (es : list (list Z * tree)) : Prop :=
         match es with
         | [] => True
         | (n, T') :: es' => (exists l, entry_at fs (dir_entry loc i) n T' l /\ img fs l T') /\ go (i + 1) es'
         end) 0 es
  end.
Fixpoint imgs (fs : list Z) (loc i : Z) (es : list (list Z * tree)) : Prop :=
  match es with
  | [] => True
  | (n, T') :: es' => (exists l, entry_at fs (dir_entry loc i) n T' l /\ img fs l T') /\ imgs fs loc (i + 1) es'
  end.

Lemma img_dir fs loc st es : img fs loc (Dir st es) <->
  dir_count fs loc = Some (Z.of_nat (length es)) /\ 0 <= loc /\ imgs fs loc 0 es.
Proof.
  cbn [img]. enough (H : forall i, (fix go (i : Z) (es : list (list Z * tree)) : Prop :=
    match es with
    | [] => True
    | (n, T') :: es' => (exists l, entry_at fs (dir_entry loc i) n T' l /\ img fs l T') /\ go (i + 1) es'
    end) i es <-> imgs fs loc i es) by (by rewrite H).
  induction es as [|[n T] es IH]; intros i; [done|]. cbn [imgs]. by rewrite IH.
Qed.

Section image.
  Context (h : host) (fs : list Z).
  Hypothesis Hfs : Z.of_nat (length fs) < 2 ^ 32.

Lemma children_img path loc es : forall i l pre post rest, 0 <= loc -> 0 <= i ->
  Forall (fun x => forall path pre post, fs = pre ++ layout h path (Z.of_nat (length pre)) x.2 ++ post ->
    represents h path x.2 -> img fs (Z.of_nat (length pre)) x.2) es ->
  children_ok h path es -> fs = pre ++ layouts h path l es ++ post -> l = Z.of_nat (length pre) ->
  drop (Z.to_nat (dir_entry loc i)) fs = (dir_ents h path i l es ≫= entry_bytes) ++ rest -> imgs fs loc i es.
Proof using Hfs.
  induction es as [|[n T] es IH]; intros i l pre post rest Hloc Hi HT Hc Efs -> Hd; [done|].
  apply list.Forall_cons in HT as [HT HTs]. apply list.Forall_cons in Hc as [[(Hp & _ & _) Hrep] Hc]. cbn [fst snd] in *.
  cbn [layouts dir_ents mbind list_bind] in *. rewrite <- app_assoc in Efs, Hd.
  assert (Hd0 : 0 <= dir_entry loc i) by (unfold dir_entry, SIZEOF_DIRECTORY_ENTRY, MAX_FILENAME_LEN; lia). split.
  - exists (Z.of_nat (length pre)). split; [|by eapply HT]. eapply entry_of_at; [done | | done | exact Hd].
    rewrite Efs, length_app in Hfs. unfold is_u32. lia.
  - eapply (IH (i + 1) (Z.of_nat (length pre) + tsize T) (pre ++ layout h (fullpath h path n) (Z.of_nat (length pre)) T) post rest); try done.
    + lia.
    + by rewrite <- app_assoc.
    + by rewrite length_app, Nat2Z.inj_add, layout_length.
    + replace (dir_entry loc (i + 1)) with (dir_entry loc i + SIZEOF_DIRECTORY_ENTRY) by (unfold dir_entry; lia).
      eapply drop_more; [done | done | | exact Hd]. by rewrite entry_bytes_length by apply entry_of_full.
Qed.

Lemma layout_img T : forall path pre post, fs = pre ++ layout h path (Z.of_nat (length pre)) T ++ post ->
  represents h path T -> img fs (Z.of_nat (length pre)) T.
Proof using Hfs.
  induction T as [st c|st es IH] using tree_rect'; intros path pre post Efs Hrep.
  - cbn [img]. rewrite Nat2Z.id, Efs, drop_app_length. cbn [layout]. by rewrite take_app_length.
  - rewrite layout_dir in Efs. pose proof (represents_children _ _ _ _ Hrep) as Hc.
    set (loc := Z.of_nat (length pre)) in *. set (ents := dir_ents h path 0 (loc + header (length es)) es) in *.
    assert (Hlen : length ents = length es) by apply dir_ents_length.
    assert (Hd : drop (Z.to_nat loc) fs = word_bytes (Z.of_nat (length es)) ++ (ents ≫= entry_bytes) ++
      layouts h path (loc + header (length es)) es ++ post).
    { unfold loc at 1. rewrite Nat2Z.id, Efs, drop_app_length. unfold directory_bytes. by rewrite Hlen, <- !app_assoc. }
    assert (Hn : is_u32 (Z.of_nat (length es))).
    { pose proof (f_equal length Efs) as E. rewrite !length_app in E. unfold directory_bytes in E.
      rewrite length_app, entries_length, Hlen, ENTRY_eq in E by apply dir_ents_full. unfold is_u32. lia. }
    apply img_dir. split; [by eapply fs_word_drop; [lia | done | exact Hd]|]. split; [lia|].
    eapply (children_img path loc es 0 (loc + header (length es)) (pre ++ directory_bytes ents) post); try done.
    + lia.
    + by rewrite Efs, <- !app_assoc.
    + rewrite length_app, Nat2Z.inj_add, directory_bytes_length by apply dir_ents_full. by rewrite Hlen.
    + unfold dir_entry. rewrite Z.mul_0_l, Z.add_0_r. eapply drop_more; [lia | lia | | exact Hd]. done.
Qed.
End image.

(** ** Lookups in an image *)

Lemma imgs_listing fs loc es : forall i, imgs fs loc i es ->
  mapM (fun i => n ← string_of (de_name fs (dir_entry loc i)); Some (n, dir_entry loc i)) (seqZ i (Z.of_nat (length es))) =
  Some (imap (fun k x => (x.1, dir_entry loc (i + Z.of_nat k))) es).
Proof.
  induction es as [|[n T] es IH]; intros i H; [done|]. destruct H as [(l & He & _) H].
  rewrite seqZ_cons by (cbn; lia). replace (Z.pred (Z.of_nat (length ((n, T) :: es)))) with (Z.of_nat (length es)) by (cbn; lia).
  cbn [mapM]. rewrite (ea_name He). cbn [mbind option_bind]. rewrite <- Z.add_1_r, (IH (i + 1) H). cbn. rewrite Z.add_0_r.
  do 2 f_equal. apply imap_ext. intros k x _. cbn. by replace (i + 1 + Z.of_nat k) with (i + Z.of_nat (S k)) by lia.
Qed.

(** Names in a directory of the image and of the tree. *)
Lemma imgs_assoc fs loc c es : forall i, imgs fs loc i es ->
  match tassoc c es with
  | Some T => exists e l, assoc c (imap (fun k x => (x.1, dir_entry loc (i + Z.of_nat k))) es) = Some e /\
      entry_at fs e c T l /\ img fs l T
  | None => assoc c (imap (fun k x => (x.1, dir_entry loc (i + Z.of_nat k))) es) = None
  end.
Proof.
  induction es as [|[n T] es IH]; intros i H; [done|]. destruct H as [(l & He & Hi) H]. cbn [tassoc imap assoc fst].
  destruct (decide (n = c)) as [-> |Hne].
  - exists (dir_entry loc (i + Z.of_nat 0)), l. rewrite Z.add_0_r. done.
  - specialize (IH (i + 1) H).
    replace (imap ((fun k x => (x.1, dir_entry loc (i + Z.of_nat k))) ∘ S) es) with
      (imap (fun k (x : list Z * tree) => (x.1, dir_entry loc (i + 1 + Z.of_nat k))) es); [exact IH|].
    apply imap_ext. intros k x _. cbn. by replace (i + 1 + Z.of_nat k) with (i + Z.of_nat (S k)) by lia.
Qed.

(** The entry [e] describes the tree [T], whose contents are in the image. *)
Definition found (fs : list Z) (e : Z) (T : tree) : Prop := exists n l, entry_at fs e n T l /\ img fs l T.

Lemma resolve_img fs ps : forall d e st es, img fs d (Dir st es) ->
  match tree_walk (Dir st es) ps with
  | None => resolve fs d e ps = Some (inl (- ENOENT))
  | Some T => exists e', resolve fs d e ps = Some (inr e') /\ (Forall (fun c => c = []) ps /\ e' = e \/ found fs e' T)
  end.
Proof.
  induction ps as [|c ps IH]; intros d e st es H; cbn [tree_walk resolve].
  { exists e. split; [done|]. left. split; [constructor | done]. }
  destruct (decide (c = [])) as [-> |Hne].
  { specialize (IH d e st es H). destruct (tree_walk (Dir st es) ps) as [T|]; [|exact IH].
    destruct IH as (e' & E & Hor). exists e'. split; [exact E|]. destruct Hor as [[Hall ->]|Hf]; [left | by right].
    split; [by constructor | done]. }
  apply img_dir in H as (Hcount & Hd & H). unfold listing. rewrite Hcount. cbn [mbind option_bind].
  rewrite (imgs_listing fs d es 0 H). cbn [mbind option_bind]. pose proof (imgs_assoc fs d c es 0 H) as Ha.
  destruct (tassoc c es) as [T|]; cbn [mbind option_bind]; [|by rewrite Ha].
  destruct Ha as (e' & l & -> & He & Hi). rewrite (ea_type He). cbn [mbind option_bind]. destruct T as [st' ch|st' es'].
  - cbn [is_dir]. change (TYPE_FILE =? TYPE_DIR) with false. cbv iota. destruct ps as [|c' ps]; cbn [tree_walk].
    + exists e'. split; [done|]. right. by exists c, l.
    + done.
  - cbn [is_dir]. rewrite Z.eqb_refl, (ea_location He). cbn [mbind option_bind]. specialize (IH l e' st' es' Hi).
    destruct (tree_walk (Dir st' es') ps) as [T|] eqn:Ew; [|exact IH]. destruct IH as (e2 & E & Hor). exists e2. split; [exact E|].
    right. destruct Hor as [[Hall ->]|Hf]; [|done]. exists c, l.
    assert (T = Dir st' es') as ->; [|done]. clear - Hall Ew.
    induction Hall as [|x ps -> _ IHp]; cbn in Ew; [by injection Ew as <-|]. by apply IHp.
Qed.

(** ** The image consists of bytes *)

Lemma word_bytes_ok x : Forall is_byte (word_bytes x).
Proof. repeat constructor; by apply Z.mod_pos_bound. Qed.
Lemma entry_bytes_ok e : Forall is_byte (ent_name e) -> Forall is_byte (entry_bytes e).
Proof. intros H. unfold entry_bytes. rewrite !Forall_app. by repeat split; try apply word_bytes_ok. Qed.
Lemma dir_ents_ok h path es : children_ok h path es -> forall i l, Forall is_byte (dir_ents h path i l es ≫= entry_bytes).
Proof.
  induction 1 as [|[n T] es [[(_ & Hn & _) _] _] _ IH]; intros i l; [constructor|]. cbn [dir_ents mbind list_bind].
  apply Forall_app. split; [|apply IH]. apply entry_bytes_ok. cbn. apply Forall_app. split.
  - unfold strncpy. apply Forall_app. split; [by apply Forall_take | by apply Forall_replicate].
  - constructor; [by apply Z.mod_pos_bound | constructor].
Qed.
Lemma layout_bytes h T : forall path l, represents h path T -> Forall is_byte (layout h path l T).
Proof.
  induction T as [st c|st es IH] using tree_rect'; intros path l Hrep; [apply Hrep|].
  pose proof (represents_children h path st es Hrep) as Hc. rewrite layout_dir. apply Forall_app. split.
  { unfold directory_bytes. apply Forall_app. split; [apply word_bytes_ok | by apply dir_ents_ok]. }
  generalize (l + header (length es)). clear Hrep. induction IH as [|[n T] es HT _ IH']; intros m; cbn [layouts]; [constructor|].
  apply list.Forall_cons in Hc as [[_ Hrep] Hc]. apply Forall_app. split; [by apply HT | by apply IH'].
Qed.

Lemma root_entry_full h : full_entry (root_entry h).
Proof. unfold full_entry, root_entry. cbn [ent_name]. rewrite length_app. cbn [length]. rewrite length_fmap, length_seqZ. done. Qed.
Lemma root_entry_ok h : Forall is_byte (entry_bytes (root_entry h)).
Proof.
  apply entry_bytes_ok. cbn [root_entry ent_name]. apply Forall_app. split; [by repeat constructor|].
  constructor; [done|]. apply Forall_fmap, list.Forall_true. intros i. by apply Z.mod_pos_bound.
Qed.

Lemma build_layout h dir st es fuel : represents h dir (Dir st es) -> (depth (Dir st es) <= fuel)%nat ->
  SIZEOF_DIRECTORY_ENTRY + tsize (Dir st es) < 2 ^ 30 ->
  build h fuel dir = Some (entry_bytes (root_entry h) ++ layout h dir SIZEOF_DIRECTORY_ENTRY (Dir st es)).
Proof.
  intros Hrep Hf Hlen. unfold build. pose proof (entry_bytes_length _ (root_entry_full h)) as Hr. rewrite ENTRY_eq in Hr.
  pose proof (tsize_pos (Dir st es)). unfold SIZEOF_DIRECTORY_ENTRY, MAX_FILENAME_LEN in Hlen.
  assert (H0 : out_ok (mkTool OUTPUT_INIT [])) by done.
  assert (W : wp (output_append (entry_bytes (root_entry h));; process_dir h fuel dir)
    (fun _ t => o_data (t_out t) = entry_bytes (root_entry h) ++ layout h dir SIZEOF_DIRECTORY_ENTRY (Dir st es)) (mkTool OUTPUT_INIT [])).
  { wp_step. eapply wp_mono; [apply output_append_spec; [done | rewrite Hr; done]|]. intros [] t1 H1.
    assert (Hs : o_size (t_out t1) = SIZEOF_DIRECTORY_ENTRY) by (rewrite (appended_size _ _ _ H0 H1), Hr; done).
    eapply wp_mono; [apply (process_dir_spec h (Dir st es)); try done; [apply H1 | rewrite Hs; exact Hlen]|].
    intros [] t2 [_ E]. by rewrite E, Hs, (proj2 H1). }
  apply wp_ok in W as ([] & t & E & Hd). by rewrite E, Hd.
Qed.

(** The image of a directory tree. *)
Record image_of (fs : list Z) (T : tree) : Prop := {
  io_bytes : Forall is_byte fs;
  io_size : Z.of_nat (length fs) < 2 ^ 30;
  io_type : de_type fs 0 = Some TYPE_DIR;
  io_root : de_location fs 0 = Some SIZEOF_DIRECTORY_ENTRY;
  io_img : img fs SIZEOF_DIRECTORY_ENTRY T
}.
Lemma build_image_of h dir st es fuel : represents h dir (Dir st es) -> (depth (Dir st es) <= fuel)%nat ->
  SIZEOF_DIRECTORY_ENTRY + tsize (Dir st es) < 2 ^ 30 -> exists fs, build h fuel dir = Some fs /\ image_of fs (Dir st es).
Proof.
  intros Hrep Hf Hlen. set (fs := entry_bytes (root_entry h) ++ layout h dir SIZEOF_DIRECTORY_ENTRY (Dir st es)).
  exists fs. split; [by apply build_layout|].
  pose proof (entry_bytes_length _ (root_entry_full h)) as Hr. rewrite ENTRY_eq in Hr.
  assert (Hfs : Z.of_nat (length fs) < 2 ^ 30).
  { unfold fs. rewrite length_app, Nat2Z.inj_add, layout_length, Hr. unfold SIZEOF_DIRECTORY_ENTRY, MAX_FILENAME_LEN in Hlen. lia. }
  assert (Hfs' : Z.of_nat (length fs) < 2 ^ 32) by lia.
  split.
  - apply Forall_app; split; [apply root_entry_ok | by apply layout_bytes].
  - exact Hfs.
  - eapply (fs_word_drop fs 4); [done | done |]. unfold fs, entry_bytes. rewrite <- !app_assoc. reflexivity.
  - eapply (fs_word_drop fs 8); [done | done |]. unfold fs, entry_bytes. rewrite <- !app_assoc. reflexivity.
  - replace SIZEOF_DIRECTORY_ENTRY with (Z.of_nat (length (entry_bytes (root_entry h)))) by (rewrite Hr; done).
    apply (layout_img h fs Hfs' (Dir st es) dir _ []); [|done]. rewrite app_nil_r, Hr. done.
Qed.
Lemma image_lookup fs st es path r : image_of fs (Dir st es) -> no_nul path -> Forall is_byte path ->
  match tree_walk (Dir st es) (parts [] path) with
  | None => get_directory_entry fs (path ++ 0 :: r) = Some (inl (- ENOENT))
  | Some T => exists e, get_directory_entry fs (path ++ 0 :: r) = Some (inr e) /\
      (Forall (fun c => c = []) (parts [] path) /\ e = 0 \/ found fs e T)
  end.
Proof.
  intros [Hbytes _ _ Hloc Himg] Hn Hb.
  pose proof (resolve_img fs (parts [] path) SIZEOF_DIRECTORY_ENTRY 0 st es Himg) as Hres.
  assert (Hget : forall v, resolve fs SIZEOF_DIRECTORY_ENTRY 0 (parts [] path) = Some v -> get_directory_entry fs (path ++ 0 :: r) = Some v).
  { intros v Hv. by eapply get_directory_entry_correct. }
  destruct (tree_walk (Dir st es) (parts [] path)) as [T|]; [|by apply Hget].
  destruct Hres as (e & E & Hor). exists e. split; [by apply Hget | done].
Qed.

(** C33. What [fstool -build] packs, the kernel finds.  For a directory of the
    host, of any depth, the tool produces an image in which
    get_directory_entry, for every path, answers as the directory itself
    does: a path to a file or directory yields its entry, with the size,
    type, mode and modification time that stat gave for it and, for a file,
    the location of its contents in the image; any other path yields
    ENOENT. *)
Theorem build_roundtrip h dir st es fuel : represents h dir (Dir st es) -> (depth (Dir st es) <= fuel)%nat ->
  SIZEOF_DIRECTORY_ENTRY + tsize (Dir st es) < 2 ^ 30 ->
  exists fs, build h fuel dir = Some fs /\ forall path r, no_nul path -> Forall is_byte path ->
    match tree_walk (Dir st es) (parts [] path) with
    | None => get_directory_entry fs (path ++ 0 :: r) = Some (inl (- ENOENT))
    | Some T => exists e, get_directory_entry fs (path ++ 0 :: r) = Some (inr e) /\
        (Forall (fun c => c = []) (parts [] path) /\ e = 0 \/ found fs e T)
    end.
Proof.
  intros Hrep Hf Hlen. destruct (build_image_of h dir st es fuel Hrep Hf Hlen) as (fs & Hfs & Him). exists fs. split; [done|].
  intros path r Hn Hb. by apply image_lookup.
Qed.

(** A host with the directory "d", which holds the file "sh" and the
    directory "b" with the file "x". *)
Definition demo_tree : tree :=
  Dir (mkStat 0 0x41ED 7) [(bytes "sh", File (mkStat 3 0x81A4 8) [[1; 2]; [3]]); (bytes "b", Dir (mkStat 0 0x41ED 9)
    [(bytes "x", File (mkStat 1 0x81A4 10) [[4]])])].
Definition demo_host : host := mkHost
  (fun p => if decide (p = bytes "d") then Some [bytes "."; bytes ".."; bytes "sh"; bytes "b"]
            else if decide (p = bytes "d/b") then Some [bytes "."; bytes ".."; bytes "x"] else None)
  (fun p => if decide (p = bytes "d/sh") then Some (mkStat 3 0x81A4 8)
            else if decide (p = bytes "d/b") then Some (mkStat 0 0x41ED 9)
            else if decide (p = bytes "d/b/x") then Some (mkStat 1 0x81A4 10) else None)
  (fun p => if decide (p = bytes "d/sh") then Some [[1; 2]; [3]]
            else if decide (p = bytes "d/b/x") then Some [[4]] else None)
  4096 (fun _ _ => 0xAA) (fun i => i).
Lemma demo_represents : represents demo_host (bytes "d") demo_tree.
Proof.
  assert (Hp : forall n, n = bytes "sh" \/ n = bytes "b" \/ n = bytes "x" -> packable n).
  { intros n Hn. split; [|split].
    - split; [|split]; destruct Hn as [->|[->| ->]]; by repeat constructor.
    - destruct Hn as [->|[->| ->]]; by repeat constructor.
    - destruct Hn as [->|[->| ->]]; vm_compute; lia. }
  split; [eexists; split; [vm_compute; reflexivity|]; split; [vm_compute; reflexivity|] |].
  { repeat constructor; intros H; try (vm_compute in H; discriminate H); vm_compute; by eexists. }
  split; [split; [apply Hp; auto | split; vm_compute; reflexivity]|].
  split; [split; [vm_compute; reflexivity | by repeat constructor]|].
  split; [split; [apply Hp; auto | split; vm_compute; reflexivity]|]. split; [|done].
  split; [eexists; split; [vm_compute; reflexivity|]; split; [vm_compute; reflexivity|] |].
  { repeat constructor; intros H; try (vm_compute in H; discriminate H); vm_compute; by eexists. }
  split; [split; [apply Hp; auto | split; vm_compute; reflexivity]|].
  split; [split; [vm_compute; reflexivity | by repeat constructor] | done].
Qed.
Lemma build_roundtrip_witness :
  exists fs, build demo_host 5 (bytes "d") = Some fs /\ forall path r, no_nul path -> Forall is_byte path ->
    match tree_walk demo_tree (parts [] path) with
    | None => get_directory_entry fs (path ++ 0 :: r) = Some (inl (- ENOENT))
    | Some T => exists e, get_directory_entry fs (path ++ 0 :: r) = Some (inr e) /\
        (Forall (fun c => c = []) (parts [] path) /\ e = 0 \/ found fs e T)
    end.
Proof. apply build_roundtrip; [apply demo_represents | vm_compute; lia | vm_compute; reflexivity]. Defined.
