(* ===== verification/LifecycleProofs.v ===== *)
(** * The life of a process: lemmas (source/process.c, source/unixproc.c)

    The new process on the ready list, its address space, and the copy of a
    segment. *)

From S2P Require Import Prelude Constants Libc Filesystem Page PageInv PageSpec Kernel Process ProcessInv ProcessTheorems UserMemory KernelMem Pipe Allocator PipeProofs Filedesc Lifecycle.

(** ** Steps on the table and on pages *)

Lemma zinsert_twice {A} i (x y : A) l : zinsert i x (zinsert i y l) = zinsert i x l.
Proof. unfold zinsert. destruct (i <? 0); [done|]. apply list_insert_insert_eq. Qed.

(** The table of [k] is [ps] with [p] for the process [pid]. *)
Definition slot_is (k : kstate) (pid : Z) (p : process) (ps : list process) : Prop :=
  k_processes k = zinsert pid p ps /\ 0 <= pid < Z.of_nat (length ps).

Lemma slot_lookup k pid p ps : slot_is k pid p ps -> zlookup (k_processes k) pid = Some p.
Proof. intros [-> H]. by apply zlookup_zinsert_eq. Qed.
Lemma slot_upd k pid p ps f (Q : unit -> kstate -> Prop) : slot_is k pid p ps ->
  Q tt (k <| k_processes := zinsert pid (f p) ps |>) -> wp (upd_proc pid f) Q k.
Proof.
  intros Hs HQ. eapply wp_upd_proc; [by eapply slot_lookup|]. destruct Hs as [-> _]. by rewrite zinsert_twice.
Qed.
Lemma wp_page_op {A} k (m : M pages A) (Q : A -> kstate -> Prop) : k_paging k = None ->
  wp m (fun a pg => Q a (k <| k_pages := pg |>)) (k_pages k) -> wp (page_op m) Q k.
Proof.
  intros Hp HQ. unfold page_op. wp_step. wp_step. wp_step. wp_step; [by apply bool_decide_eq_true_2|]. by apply wp_zoom.
Qed.

(** ** The ready list *)

(** A process that has just been created can be scheduled. *)
Lemma launch_wp k pid p0 p ps R S :
  sched R S (k <| k_processes := ps |>) -> slot_is k pid p ps -> zlookup ps pid = Some p0 -> p_exists p0 = 0 ->
  p_exists p <> 0 -> p_ready p <> 0 -> p_prev p = None -> p_next p = None ->
  wp (list_add Ready pid) (fun _ k' => sched (pid :: R) S k' /\
    (exists ps' l', k' = k <| k_processes := ps' |> <| k_ready := l' |>) /\
    (exists p', zlookup (k_processes k') pid = Some p' /\ unlinked p' = unlinked p) /\
    (forall y q, y <> pid -> zlookup ps y = Some q -> exists q', zlookup (k_processes k') y = Some q' /\ unlinked q' = unlinked q)) k.
Proof.
  intros Hs Hk Hp0 He0 He Hr Hpr Hnx.
  assert (HR : pid ∉ R) by (intros Hin; by destruct (sc_runnable Hs Hin Hp0)).
  assert (HS : pid ∉ S) by (intros Hin; by destruct (sc_blocked Hs Hin Hp0)).
  pose proof (slot_lookup _ _ _ _ Hk) as Hp. destruct Hk as [Hk Hrange].
  assert (Hold : forall y q, y <> pid -> zlookup ps y = Some q -> zlookup (k_processes k) y = Some q).
  { intros y q Hne Hq. rewrite Hk. by rewrite zlookup_zinsert_ne. }
  assert (Hdl : forall l L, dlist ps l L -> pid ∉ L -> dlist (k_processes k) l L).
  { intros l L Hd Hn. apply (dlist_links_eq ps); [done|]. intros x q Hx Hq. exists q. split; [|done].
    apply Hold; [|done]. by intros ->. }
  eapply wp_mono; [apply (list_add_wp Ready k R pid p); [apply Hdl; [apply Hs | done] | done..]|].
  intros [] k' (ps' & l' & -> & Hd & Hrl). cbn [with_list]. split; [|split; [by exists ps', l'|split]].
  - split; cbn.
    + rewrite (rl_length Hrl), Hk, zinsert_length. apply Hs.
    + done.
    + eapply dlist_relinked; [apply Hdl; [apply Hs | done] | exact Hrl |].
      intros x Hx [->|Hin]; [done | by apply (sc_disjoint Hs Hin)].
    + intros x [->|Hx]%elem_of_cons; [done | by apply (sc_disjoint Hs)].
    + intros x q' [->|Hx]%elem_of_cons Hq'.
      * destruct (rl_fields Hrl Hp) as (p' & Hp' & E). rewrite Hp' in Hq'. injection Hq' as <-.
        split; [rewrite (unlinked_field p_exists _ _ (fun _ => eq_refl) E) | rewrite (unlinked_field p_ready _ _ (fun _ => eq_refl) E)]; done.
      * destruct (dlist_elem _ _ _ x (sc_ready Hs) Hx) as [q Hq]. cbn in Hq.
        destruct (rl_fields Hrl (Hold x q ltac:(by intros ->) Hq)) as (q2 & Hq2 & E). rewrite Hq2 in Hq'. injection Hq' as <-.
        rewrite (unlinked_field p_exists _ _ (fun _ => eq_refl) E), (unlinked_field p_ready _ _ (fun _ => eq_refl) E).
        by apply (sc_runnable Hs Hx).
    + intros x q' Hx Hq'. destruct (dlist_elem _ _ _ x (sc_suspended Hs) Hx) as [q Hq]. cbn in Hq.
      destruct (rl_fields Hrl (Hold x q ltac:(by intros ->) Hq)) as (q2 & Hq2 & E). rewrite Hq2 in Hq'. injection Hq' as <-.
      rewrite (unlinked_field p_exists _ _ (fun _ => eq_refl) E), (unlinked_field p_ready _ _ (fun _ => eq_refl) E).
      by apply (sc_blocked Hs Hx).
    + intros x q' Hq' H1 H2. apply not_elem_of_cons in H1 as [Hne H1].
      assert (Hq : exists q, zlookup ps x = Some q).
      { apply zlookup_is_Some. pose proof (zlookup_range _ _ _ Hq') as Hrg. rewrite (rl_length Hrl), Hk, zinsert_length in Hrg. done. }
      destruct Hq as [q Hq]. pose proof (rl_other Hrl (x := x) (p := q)) as Ho.
      rewrite Ho in Hq'; [|by intros [?|?] | by apply Hold]. injection Hq' as <-. by apply (sc_off Hs Hq).
  - cbn. destruct (rl_fields Hrl Hp) as (p' & Hp' & E). by exists p'.
  - intros y q Hne Hq. cbn. by apply (rl_fields Hrl), Hold.
Qed.

Lemma get_free_pid_spec k : length (k_processes k) = Z.to_nat MAX_PROCESSES ->
  wp get_free_pid (fun r k' => k' = k /\
    ((r = -1 /\ forall x, 1 <= x < MAX_PROCESSES -> pid_used k x) \/ (1 <= r < MAX_PROCESSES /\ ~ pid_used k r))) k.
Proof.
  intros Hlen. unfold get_free_pid. wp_step. eapply wp_mono; [apply (free_pid_loop_spec _ 1); [done | done | done]|].
  intros r k' (-> & Hr & Hu & Hf). apply wp_ret. split; [done|]. case_test; [left | right].
  - split; [done|]. intros x Hx. apply Hu. lia.
  - split; [lia|]. apply Hf. lia.
Qed.

(** ** The address space of a new process *)

Definition STACK_PAGES : Z := PROCESS_STACK_SIZE / PAGE_SIZE.
Definition STACK_PAGE : Z := (PROCESS_STACK_BASE - PROCESS_STACK_SIZE) / PAGE_SIZE.
Definition KERNEL_PAGES : Z := 6 * MB / PAGE_SIZE.

(** The pages the code of the kernel image takes. *)
Definition code_pages (cs ce : Z) : Z := Z.max 0 ((ce + PAGE_SIZE - 1) / PAGE_SIZE - cs).

(** What a new process sees: its stack, backed by the frames [L]; the code of
    the kernel image, to read; and the kernel, out of reach of user mode. *)
Definition start_view (cs ce : Z) (L : list Z) (n : Z) : option Z :=
  match zlookup L (n - STACK_PAGE) with
  | Some a => Some (pte a PAGE_USER PAGE_READ_WRITE)
  | None =>
      if in_range cs ce n then Some (pte (n * PAGE_SIZE) PAGE_USER PAGE_READ_ONLY)
      else if in_range 0 (6 * MB) n then Some (pte (n * PAGE_SIZE) PAGE_SUPERVISOR PAGE_READ_ONLY)
      else None
  end.

(** The directory [d] was made from free frames: no frame that was in use
    has changed. *)
Record new_space (A : gset Z) (pg pg' : pages) (d : Z) (V : gmap Z Z) (L : list Z) : Prop := {
  ns_space : exists A' T, space A' pg' d T V /\ A ⊆ A' /\ foot d T ## A /\
    (forall x, x ∈ L -> x ∈ A' /\ x ∉ foot d T);
  ns_fresh : NoDup L /\ forall x, x ∈ L -> (x ∉ A) /\ zero_at (pmem pg') x;
  ns_frame b : b ∈ A -> same_page (pmem pg) (pmem pg') b
}.

Section space.
  Context (A : gset Z) (pg : pages).

(** The state between the steps. *)
Definition building (N : Z) (d : Z) (pg' : pages) (V : gmap Z Z) : Prop :=
  exists A' T, space A' pg' d T V /\ A ⊆ A' /\ foot d T ## A /\ room A' N /\
    forall b, b ∈ A -> same_page (pmem pg) (pmem pg') b.

Lemma building_dir N : pinv A pg -> room A (1 + N) -> 0 <= N -> wp alloc_page (fun d pg' => building N d pg' ∅) pg.
Proof using.
  intros Hp Hroom HN. eapply wp_mono; [apply alloc_page_wp; [done | unfold room in *; lia]|].
  intros d pg' Hf. exists ({[d]} ∪ A), ∅. split; [by eapply new_dir|]. destruct Hf as (Hd & HdA & Hz & Hi & Hs).
  split; [set_solver|]. split.
  { intros x [->|[i Hi']]%elem_of_foot Hx; [done | by rewrite lookup_empty in Hi']. }
  split; [|done]. unfold room in *. rewrite size_union, size_singleton by set_solver. lia.
Qed.

(** A step that maps pages keeps the frames of others. *)
Lemma building_grows N N' d pg1 pg2 A1 T1 V1 A2 T2 V2 : space A1 pg1 d T1 V1 -> A ⊆ A1 -> foot d T1 ## A -> room A1 N ->
  (forall b, b ∈ A -> same_page (pmem pg) (pmem pg1) b) ->
  space A2 pg2 d T2 V2 -> grows d A1 pg1 T1 A2 pg2 T2 -> Z.of_nat (size A2) <= Z.of_nat (size A1) + (N - N') ->
  building N' d pg2 V2.
Proof using.
  intros H1 HA Hfoot HN Hs H2 Hg Hsz. exists A2, T2. split; [done|]. pose proof (gr_mono Hg). pose proof (gr_new Hg) as Hn.
  split; [set_solver|]. split.
  { intros x Hx HxA. destruct (decide (x ∈ foot d T1)); [set_solver|]. set_solver. }
  split; [unfold room in *; lia|]. intros b Hb. eapply same_page_trans; [by apply Hs|].
  apply (gr_frame Hg); [set_solver|]. set_solver.
Qed.

Lemma building_identity N s end_ a r d pg1 V : 0 <= s -> end_ <= 2 ^ 32 - PAGE_SIZE -> perms a r -> 0 <= N ->
  building (Z.max 0 ((end_ + PAGE_SIZE - 1) / PAGE_SIZE - s) + N) d pg1 V ->
  wp (identity_map d (s * PAGE_SIZE) end_ a r) (fun _ pg2 => exists V', building N d pg2 V' /\
    set_range V (in_range s end_) (fun n => pte (n * PAGE_SIZE) a r) V') pg1.
Proof using.
  intros H0 He Hp HN (A1 & T1 & Hsp & HA & Hf & Hr & Hs). eapply wp_mono; [apply (identity_map_wp A1 pg1 d T1 V); try done|].
  { unfold room in *. lia. }
  intros [] pg2 (A2 & T2 & V2 & Hsp2 & Hg & _ & Hsz & HV). exists V2. split; [|done].
  eapply (building_grows _ N); [exact Hsp | done..| exact Hsp2 | exact Hg | lia].
Qed.

Lemma building_stack d pg1 V : building (2 * STACK_PAGES) d pg1 V ->
  wp (map_new_pages d (PROCESS_STACK_BASE - PROCESS_STACK_SIZE) STACK_PAGES) (fun _ pg2 => exists V' L, new_space A pg pg2 d V' L /\
    backs L STACK_PAGE V V' /\ Z.of_nat (length L) = STACK_PAGES) pg1.
Proof using.
  intros (A1 & T1 & Hsp & HA & Hf & Hr & Hs).
  change (PROCESS_STACK_BASE - PROCESS_STACK_SIZE) with (STACK_PAGE * PAGE_SIZE).
  eapply wp_mono; [apply (map_new_pages_wp A1 pg1 d T1 V STACK_PAGE STACK_PAGES); try done|].
  intros [] pg2 (A2 & T2 & V2 & L & Hsp2 & Hg & HL & Hb & Hnf & Hsz & HA2). exists V2, L. split; [|done].
  pose proof (gr_mono Hg). pose proof (gr_new Hg). split.
  - exists A2, T2. split; [done|]. split; [set_solver|]. split.
    { intros x Hx HxA. destruct (decide (x ∈ foot d T1)); set_solver. }
    intros x Hx. destruct (nf_new _ _ _ _ _ _ Hnf x Hx) as (_ & ? & ? & _). done.
  - split; [apply Hnf|]. intros x Hx. destruct (nf_new _ _ _ _ _ _ Hnf x Hx) as (? & _ & _ & ?). split; [set_solver | done].
  - intros b Hb'. eapply same_page_trans; [by apply Hs|]. apply (gr_frame Hg); set_solver.
Qed.
End space.

(** ** start_process *)

(** The record of a new process with the directory [d] and the handles [f0],
    [f1], [f2]. *)
Definition new_process (pid d f0 f1 f2 start : Z) : process :=
  process_zero <| p_pid := pid |> <| p_exists := 1 |> <| p_ready := 1 |> <| p_pdir := d |>
    <| p_stack_start := PROCESS_STACK_BASE - PROCESS_STACK_SIZE |> <| p_stack_end := PROCESS_STACK_BASE |>
    <| p_data_start := PROCESS_DATA_BASE |> <| p_data_end := PROCESS_DATA_BASE |>
    <| p_text_start := PROCESS_TEXT_BASE |> <| p_text_end := PROCESS_TEXT_BASE |>
    <| p_parent_pid := -1 |> <| p_waiting_on := -1 |> <| p_exit_status := 255 |>
    <| p_filedesc := zinsert STDERR_FILENO f2 (zinsert STDOUT_FILENO f1 (zinsert STDIN_FILENO f0 (p_filedesc process_zero))) |>
    <| p_cwd := SLASH :: 0 :: replicate 1022 0 |>
    <| p_saved_regs := init_regs PROCESS_STACK_BASE start |>.

Definition screen_handle : filehandle :=
  fh_undef <| fh_type := Some FH_SCREEN |> <| fh_refcount := Some 1 |> <| fh_write := Some screen_write_f |>
    <| fh_read := Some screen_read_f |> <| fh_destroy := Some screen_destroy_f |>.
Definition reader_handle (b : Z) : filehandle :=
  fh_undef <| fh_type := Some FH_PIPE_READER |> <| fh_p := Some b |> <| fh_refcount := Some 1 |>
    <| fh_write := Some pipe_reader_write_f |> <| fh_read := Some pipe_reader_read_f |>
    <| fh_destroy := Some pipe_reader_destroy_f |>.

(** Standard input is a new empty pipe, output and errors go to the screen. *)
Definition standard_handles (k : kstate) (f0 f1 f2 : Z) : Prop :=
  exists b, pipe_rep k b 1 1 (-1) [] /\ k_objs k !! f0 = Some (OFh (reader_handle b)) /\
    k_objs k !! f1 = Some (OFh screen_handle) /\ k_objs k !! f2 = Some (OFh screen_handle).

Lemma pipe_rep_objs k k' b r w pid l : k_objs k' = k_objs k -> pipe_rep k b r w pid l -> pipe_rep k' b r w pid l.
Proof. intros E (data & bytes & P). exists data, bytes. split; rewrite ?E; apply P. Qed.
Lemma standard_handles_objs k k' f0 f1 f2 : k_objs k' = k_objs k -> standard_handles k f0 f1 f2 -> standard_handles k' f0 f1 f2.
Proof. intros E (b & Hb & H). exists b. split; [by eapply pipe_rep_objs|]. by rewrite E. Qed.

Section handles.
  Context {Inv : gmap Z Z -> Buddy.memarea -> Prop} `{!Allocator Buddy.kmalloc_ma Buddy.kfree_ma Inv}.

Lemma heap_changed_objs (X : Z -> Prop) k k' a o : heap_changed X k k' -> ~ X a -> k_objs k !! a = Some o -> k_objs k' !! a = Some o.
Proof using. intros (h & os & n & -> & H) HX Ha. by apply H. Qed.

(** Making the handles, with the descriptors set in between; [rest] comes
    after. *)
Lemma standard_handles_spec {B} k pid p ps (rest : K B) (Q : B -> kstate -> Prop) : heap_inv Inv k -> slot_is k pid p ps ->
  (forall f0 f1 f2 k', k_processes k' = zinsert pid (p <| p_filedesc ::= fun l =>
        zinsert STDERR_FILENO f2 (zinsert STDOUT_FILENO f1 (zinsert STDIN_FILENO f0 l)) |>) ps ->
     k_pages k' = k_pages k -> k_ready k' = k_ready k -> k_suspended k' = k_suspended k ->
     standard_handles k' f0 f1 f2 -> heap_inv Inv k' -> wpx rest Q k') ->
  wpx (b <- new_pipe;
       fh <- new_pipe_reader b; set_filedesc pid STDIN_FILENO fh;;
       fh <- new_screen_handle; set_filedesc pid STDOUT_FILENO fh;;
       fh <- new_screen_handle; set_filedesc pid STDERR_FILENO fh;; rest) Q k.
Proof using Allocator0.
  intros Hi Hs Hrest. apply wpx_bind. eapply wpx_mono; [by apply new_pipe_spec|].
  intros b k1 (_ & _ & (data & bytes & P1) & Hi1 & HC1). apply wpx_bind. eapply wpx_mono; [by apply new_handle_spec|].
  intros f0 k2 (_ & _ & Hf0 & Hi2 & HC2). destruct HC1 as (h1 & o1 & n1 & -> & HO1), HC2 as (h2 & o2 & n2 & -> & HO2).
  apply wpx_wp_bind. eapply slot_upd; [exact Hs|].
  set (p1 := set_field (zinsert STDIN_FILENO f0) p).
  set (k3 := (heap_state (heap_state k h1 o1 n1) h2 o2 n2) <| k_processes := zinsert pid p1 ps |>).
  assert (Hs3 : slot_is k3 pid p1 ps) by (split; [done | apply Hs]).
  apply wpx_bind. eapply wpx_mono; [by apply (new_handle_spec (Inv := Inv) k3)|].
  intros f1 k4 (_ & _ & Hf1 & Hi4 & (h4 & o4 & n4 & -> & HO4)).
  apply wpx_wp_bind. eapply slot_upd; [exact Hs3|].
  set (p2 := set_field (zinsert STDOUT_FILENO f1) p1).
  set (k5 := (heap_state k3 h4 o4 n4) <| k_processes := zinsert pid p2 ps |>).
  assert (Hs5 : slot_is k5 pid p2 ps) by (split; [done | apply Hs]).
  apply wpx_bind. eapply wpx_mono; [by apply (new_handle_spec (Inv := Inv) k5)|].
  intros f2 k6 (_ & _ & Hf2 & Hi6 & (h6 & o6 & n6 & -> & HO6)).
  apply wpx_wp_bind. eapply slot_upd; [exact Hs5|].
  apply (Hrest f0 f1 f2); [done..| |done].
  - exists b. split; [|split; [|split]].
    + exists data, bytes. split; try apply P1; cbn; (apply HO6; [tauto|]); (apply HO4; [tauto|]); (apply HO2; [tauto|]); apply P1.
    + apply HO6; [tauto|]. apply HO4; [tauto|]. exact Hf0.
    + apply HO6; [tauto|]. exact Hf1.
    + exact Hf2.
Qed.
End handles.

(** The last steps of start_process. *)
Lemma finish_spec k pid p0 p ps start R S : sched R S (k <| k_processes := ps |>) -> slot_is k pid p ps ->
  zlookup ps pid = Some p0 -> p_exists p0 = 0 -> p_exists p <> 0 -> p_prev p = None -> p_next p = None ->
  p_cwd p = p_cwd process_zero ->
  wp (p <- get_proc pid;
      '(cwd, _) <- of_opt (snprintf (p_cwd p) PATH_MAX (cstr "/") []) "format";
      upd_proc pid (fun p => p <| p_cwd := cwd |>);;
      upd_proc pid (fun p => p <| p_saved_regs := init_regs (p_stack_end p) start |>);;
      upd_proc pid (fun p => p <| p_ready := 1 |>);;
      list_add Ready pid;; ret pid)
    (fun r k' => r = pid /\ sched (pid :: R) S k' /\ (exists ps' l', k' = k <| k_processes := ps' |> <| k_ready := l' |>) /\
       (exists p', zlookup (k_processes k') pid = Some p' /\ unlinked p' = unlinked (p <| p_cwd := SLASH :: 0 :: replicate 1022 0 |>
          <| p_saved_regs := init_regs (p_stack_end p) start |> <| p_ready := 1 |>)) /\
       others_same pid (k <| k_processes := ps |>) k') k.
Proof.
  intros Hs Hk Hp0 He0 He Hpr Hnx Hcwd. wp_step. eapply wp_get_proc; [by eapply slot_lookup|]. rewrite Hcwd.
  assert (Hpr1 : snprintf (p_cwd process_zero) PATH_MAX (cstr "/") [] = Some (SLASH :: 0 :: replicate 1022 0, 1)) by (vm_compute; reflexivity).
  rewrite Hpr1. wp_step. apply (wp_of_opt _ _ _ _ _ eq_refl). wp_step. eapply slot_upd; [exact Hk|].
  wp_step. eapply slot_upd; [split; [reflexivity | apply Hk]|]. wp_step. eapply slot_upd; [split; [reflexivity | apply Hk]|].
  wp_step. set (p1 := set_field _ _).
  eapply wp_mono; [eapply (launch_wp _ pid p0 p1 ps R S); [by eapply sched_frame | split; [reflexivity | apply Hk] | done..]|].
  intros [] k' (Hs' & (ps' & l' & ->) & Hp' & Hoth). apply wp_ret. split; [done|]. split; [done|]. split; [by exists ps', l'|].
  split; [done|]. exact Hoth.
Qed.

Section start.
  Context {Inv : gmap Z Z -> Buddy.memarea -> Prop} `{!Allocator Buddy.kmalloc_ma Buddy.kfree_ma Inv}.
  Context (k : kstate) (A : gset Z) (R S : list Z) (cs : Z).
  Context (Hpages : pinv A (k_pages k)) (Hheap : heap_inv Inv k) (Hsched : sched R S k) (Hoff : k_paging k = None).
  Context (Hcs : e_code_start (k_env k) = cs * PAGE_SIZE) (Hcs0 : 0 <= cs) (Hce : e_code_end (k_env k) <= 2 ^ 32 - PAGE_SIZE).
  Context (Hroom : room A (1 + (KERNEL_PAGES + (code_pages cs (e_code_end (k_env k)) + 2 * STACK_PAGES)))).

(** The new process [pid]. *)
Record started (start pid : Z) (k' : kstate) : Prop := {
  sd_fresh : 1 <= pid < MAX_PROCESSES /\ ~ pid_used k pid;
  sd_sched : sched (pid :: R) S k';
  sd_heap : heap_inv Inv k';
  sd_others : others_same pid k k';
  sd_process : exists d f0 f1 f2 V L, standard_handles k' f0 f1 f2 /\
    (exists p', zlookup (k_processes k') pid = Some p' /\ unlinked p' = new_process pid d f0 f1 f2 start) /\
    new_space A (k_pages k) (k_pages k') d V L /\ Z.of_nat (length L) = STACK_PAGES /\
    forall n, V !! n = start_view cs (e_code_end (k_env k)) L n
}.

Lemma view_compose V1 V2 V3 L ce : set_range ∅ (in_range 0 (6 * MB)) (fun n => pte (n * PAGE_SIZE) PAGE_SUPERVISOR PAGE_READ_ONLY) V1 ->
  set_range V1 (in_range cs ce) (fun n => pte (n * PAGE_SIZE) PAGE_USER PAGE_READ_ONLY) V2 -> backs L STACK_PAGE V2 V3 ->
  forall n, V3 !! n = start_view cs ce L n.
Proof using.
  intros H1 H2 H3 n. rewrite (H3 n). unfold start_view. destruct (zlookup L (n - STACK_PAGE)); [done|].
  rewrite (H2 n). destruct (in_range cs ce n); [done|]. by rewrite (H1 n), lookup_empty.
Qed.

Lemma start_process_spec start : (exists x, 1 <= x < MAX_PROCESSES /\ ~ pid_used k x) ->
  wpx (start_process start) (fun pid k' => started start pid k') k.
Proof using All.
  intros [x0 Hx0]. unfold start_process. apply wpx_wp_bind. eapply wp_mono; [apply get_free_pid_spec, Hsched|].
  intros pid k0 (-> & [[-> Hall]|[Hpid Hfree]]); [destruct Hx0 as [? []]; by apply Hall|].
  destruct (Z.ltb_spec pid 0); [lia|]. set (ps := k_processes k).
  assert (Hlen : Z.of_nat (length ps) = MAX_PROCESSES) by (unfold ps; rewrite (sc_table Hsched); done).
  destruct (zlookup_is_Some ps pid ltac:(lia)) as [p0 Hp0]. assert (Hps : 0 <= pid < Z.of_nat (length ps)) by lia.
  assert (He0 : p_exists p0 = 0) by (destruct (decide (p_exists p0 = 0)); [done|]; destruct Hfree; by exists p0).
  apply wpx_wp_bind. eapply wp_upd_proc; [exact Hp0|]. apply wpx_wp_bind, wp_page_op; [done|].
  eapply wp_mono; [apply (building_dir A (k_pages k)); [done | exact Hroom |]|].
  { unfold code_pages. change KERNEL_PAGES with 1536. change STACK_PAGES with 16. lia. }
  intros d pg1 B1. apply wpx_wp_bind. eapply slot_upd; [split; [reflexivity | done]|].
  apply wpx_wp_bind, wp_page_op; [done|]. change (0 * MB) with (0 * PAGE_SIZE). cbn [k_pages set_field].
  eapply wp_mono; [apply (building_identity A (k_pages k) (code_pages cs (e_code_end (k_env k)) + 2 * STACK_PAGES)); [done | done | | | exact B1]|].
  { split; [by right | by right]. }
  { unfold code_pages. change STACK_PAGES with 16. lia. }
  intros [] pg2 (V1 & B2 & HV1). apply wpx_wp_bind. wp_step. apply wpx_wp_bind, wp_page_op; [done|].
  cbn [k_env set_field k_pages]. rewrite Hcs.
  eapply wp_mono; [apply (building_identity A (k_pages k) (2 * STACK_PAGES)); [done | done | | done | exact B2]|].
  { split; [by left | by right]. }
  intros [] pg3 (V2 & B3 & HV2). apply wpx_wp_bind, wp_page_op; [done|].
  eapply wp_mono; [by apply (building_stack A (k_pages k))|]. intros [] pg4 (V3 & L & HN & HV3 & HL).
  pose proof (view_compose _ _ _ _ _ HV1 HV2 HV3) as HV.
  apply wpx_wp_bind. eapply slot_upd; [split; [reflexivity | done]|].
  eapply standard_handles_spec; [exact Hheap | split; [reflexivity | done] |].
  intros f0 f1 f2 k2 F1 F2 F3 F4 Hh Hi.
  apply wpx_wp. eapply wp_mono; [eapply (finish_spec k2 pid p0 _ ps start R S);
    [eapply sched_frame; [exact Hsched | done | exact F3 | exact F4] | split; [exact F1 | done] | done..]|].
  intros r k' (-> & Hs' & (ps' & l' & ->) & (p' & Hp' & Hu) & Hoth). split.
  - done.
  - exact Hs'.
  - exact Hi.
  - exact Hoth.
  - exists d, f0, f1, f2, V3, L. split; [by eapply standard_handles_objs; [|exact Hh]|].
    split; [exists p'; split; [exact Hp'|]; rewrite Hu; vm_compute; reflexivity|]. cbn. rewrite F2. done.
Qed.
End start.
