(* ===== verification/ForkProofs.v ===== *)
(** * fork: the copy of an address space (source/unixproc.c) *)

From S2P Require Import Prelude Constants Libc Filesystem Page PageInv PageSpec Kernel Process ProcessInv ProcessTheorems UserMemory KernelMem Pipe Allocator PipeProofs Filedesc Lifecycle LifecycleProofs.

(** ** Bytes of a frame *)

Definition page_byte (m : gmap Z Z) (a : Z) : Z := byte_of (pword m (a - a mod 4)) (a mod 4).

(** The frame [a] of [m] holds what the frame [b] of [m0] holds. *)
Definition copy_of (m : gmap Z Z) (a : Z) (m0 : gmap Z Z) (b : Z) : Prop :=
  forall i, 0 <= i < PAGE_SIZE -> page_byte m (a + i) = page_byte m0 (b + i).

Lemma frame_mod4 a i : frame a -> (a + i) mod 4 = i mod 4.
Proof.
  intros [_ Ha]. unfold PAGE_SIZE in Ha. apply Z.mod_divide in Ha as [x ->]; [|lia].
  replace (x * 4096 + i) with (i + (x * 1024) * 4) by lia. by apply Z.mod_add.
Qed.
Lemma frame_word_of a i : frame a -> 0 <= i < PAGE_SIZE ->
  (a + i) - (a + i) mod 4 = a + (i - i mod 4) /\ 0 <= i - i mod 4 < PAGE_SIZE /\ page_word (a + (i - i mod 4)) = true.
Proof.
  intros Ha Hi. rewrite frame_mod4 by done. pose proof (Z.mod_pos_bound i 4 ltac:(lia)). pose proof (Z.mod_le i 4 ltac:(lia) ltac:(lia)).
  split; [lia|]. split; [lia|]. apply frame_word; [done | lia |].
  rewrite (Z.div_mod i 4) at 1 by lia. replace (4 * (i / 4) + i mod 4 - i mod 4) with (i / 4 * 4) by lia. by apply Z.mod_mul.
Qed.

Lemma same_page_byte m m' a i : same_page m m' a -> frame a -> 0 <= i < PAGE_SIZE -> page_byte m' (a + i) = page_byte m (a + i).
Proof. intros Hs Ha Hi. unfold page_byte. destruct (frame_word_of a i Ha Hi) as (-> & H & _). by rewrite Hs. Qed.
Lemma copy_of_frame m m' a m0 b : copy_of m a m0 b -> same_page m m' a -> frame a -> copy_of m' a m0 b.
Proof. intros Hc Hs Ha i Hi. rewrite <- Hc by done. by apply same_page_byte. Qed.

Lemma load_phys k a i (Q : Z -> kstate -> Prop) : k_paging k = None -> frame a -> 0 <= i < PAGE_SIZE ->
  Q (page_byte (pmem (k_pages k)) (a + i)) k -> wp (load (Phys (a + i))) Q k.
Proof.
  intros Hp Ha Hi HQ. destruct (frame_word_of a i Ha Hi) as (Hw & _ & Hpw). cbn [load]. apply wp_page_op; [done|].
  unfold pread8. wp_step. apply wp_pread; [by rewrite Hw|]. apply wp_ret.
  replace (k <| k_pages := k_pages k |>) with k by (by destruct k). exact HQ.
Qed.
Lemma store_phys k a i v (Q : unit -> kstate -> Prop) : k_paging k = None -> frame a -> 0 <= i < PAGE_SIZE ->
  Q tt (poke (a + i) v k) -> wp (store (Phys (a + i)) v) Q k.
Proof.
  intros Hp Ha Hi HQ. destruct (frame_word_of a i Ha Hi) as (Hw & _ & Hpw). cbn [store]. apply wp_page_op; [done|].
  unfold pwrite8. wp_step. apply wp_pread; [by rewrite Hw|]. apply wp_pwrite; [by rewrite Hw|]. exact HQ.
Qed.

Lemma poke_page_byte k a i b j v : frame a -> 0 <= i < PAGE_SIZE -> frame b -> 0 <= j < PAGE_SIZE ->
  page_byte (pmem (k_pages (poke (a + i) v k))) (b + j) =
    if decide (a + i = b + j) then u8 v else page_byte (pmem (k_pages k)) (b + j).
Proof.
  intros Ha Hi Hb Hj. unfold page_byte. cbn.
  destruct (decide (a + i - (a + i) mod 4 = b + j - (b + j) mod 4)) as [Hw|Hw].
  - rewrite Hw, pword_insert_eq, byte_of_set_byte by (by apply Z.mod_pos_bound).
    destruct (decide (a + i = b + j)) as [He|Hne]; [by rewrite He, decide_True|]. rewrite decide_False; [done | lia].
  - rewrite pword_insert_ne by done. rewrite decide_False; [done|]. intros He. apply Hw. by rewrite He.
Qed.

(** [memmove(page,buf,n)]: the bytes [src] of [buf], which do not depend on the
    page, at the start of the frame [a]. *)
Lemma fill_frame_spec A k a buf src : k_paging k = None -> pinv A (k_pages k) -> a ∈ A -> Z.of_nat (length src) <= PAGE_SIZE ->
  Forall is_byte src ->
  (forall j x pg, src !! j = Some x -> (forall c, c ∈ A -> c <> a -> same_page (pmem (k_pages k)) (pmem pg) c) ->
     wp (load (padd buf (Z.of_nat j))) (fun y k' => y = x /\ k' = k <| k_pages := pg |>) (k <| k_pages := pg |>)) ->
  wp (kmemmove (Phys a) buf (Z.of_nat (length src))) (fun _ k' => exists pg, k' = k <| k_pages := pg |> /\ pinv A pg /\
    (forall i, 0 <= i < PAGE_SIZE -> page_byte (pmem pg) (a + i) = default (page_byte (pmem (k_pages k)) (a + i)) (zlookup src i)) /\
    forall c, c ∈ A -> c <> a -> same_page (pmem (k_pages k)) (pmem pg) c) k.
Proof.
  intros Hp Hinv HaA Hlen Hb Hload. destruct (pinv_frame _ _ _ Hinv HaA) as [Ha _]. unfold kmemmove, memmove. rewrite Nat2Z.id.
  apply (wp_for (fun j k' => exists pg, k' = k <| k_pages := pg |> /\ pinv A pg /\
    (forall i, 0 <= i < PAGE_SIZE -> page_byte (pmem pg) (a + i) =
       default (page_byte (pmem (k_pages k)) (a + i)) (zlookup (take (Z.to_nat j) src) i)) /\
    forall c, c ∈ A -> c <> a -> same_page (pmem (k_pages k)) (pmem pg) c)).
  - exists (k_pages k). split; [by destruct k|]. split; [done|]. split; [|done]. intros i Hi. unfold zlookup. by destruct (i <? 0).
  - intros j k' Hj (pg & -> & Hpg & Hdone & Hs). rewrite Z.add_0_l in *.
    destruct (lookup_lt_is_Some_2 src (Z.to_nat j)) as [x Hx]; [lia|]. specialize (Hload _ _ pg Hx Hs).
    rewrite Z2Nat.id in Hload by lia. wp_step. eapply wp_mono; [exact Hload|]. intros y k' [-> ->]. cbn [padd].
    assert (Hu : u32 (a + j) = a + j).
    { apply u32_small. destruct Ha as [Hx' Hm]. unfold PAGE_START, PAGE_SIZE, MB in *. apply Z.mod_divide in Hm as [y ->]; lia. }
    rewrite Hu. assert (Hjp : 0 <= j < PAGE_SIZE) by lia. apply store_phys; [done | done | done |].
    exists (k_pages (poke (a + j) x (k <| k_pages := pg |>))). destruct (frame_word_of a j Ha Hjp) as (Hw & Hr & _).
    split; [by destruct k|]. split; [|split].
    + cbn. rewrite Hw. by apply pinv_write.
    + intros i Hi. rewrite poke_page_byte by done. replace (Z.to_nat (j + 1)) with (S (Z.to_nat j)) by lia.
      rewrite (take_S_r _ _ _ Hx), zlookup_snoc, length_take, Nat.min_l, Z2Nat.id by lia. case_decide as He.
      * assert (i = j) as -> by lia. rewrite Z.eqb_refl. unfold u8. cbn. apply Z.mod_small. by apply (Forall_lookup_1 _ _ _ _ Hb Hx).
      * destruct (Z.eqb_spec i j); [lia|]. cbn. by apply Hdone.
    + intros c Hc Hca. eapply same_page_trans; [by apply Hs|]. cbn. rewrite Hw.
      apply same_page_insert; [done | by apply (pinv_frame _ _ _ Hpg) | by intros -> | done].
  - intros k' (pg & -> & Hpg & Hdone & Hs). rewrite Z.add_0_l, Nat2Z.id, take_ge in Hdone by lia. by exists pg.
Qed.

Lemma page_byte_range m a : is_byte (page_byte m a).
Proof. unfold page_byte, byte_of, is_byte. change 255 with (Z.ones 8). rewrite Z.land_ones by lia. by apply Z.mod_pos_bound. Qed.

(** [memmove(page,src,PAGE_SIZE)]. *)
Lemma copy_frame_spec A k a b : k_paging k = None -> pinv A (k_pages k) -> a ∈ A -> b ∈ A -> a <> b ->
  wp (kmemmove (Phys a) (Phys b) PAGE_SIZE) (fun _ k' => exists pg, k' = k <| k_pages := pg |> /\ pinv A pg /\
    copy_of (pmem pg) a (pmem (k_pages k)) b /\ forall c, c ∈ A -> c <> a -> same_page (pmem (k_pages k)) (pmem pg) c) k.
Proof.
  intros Hp Hinv HaA HbA Hab. destruct (pinv_frame _ _ _ Hinv HbA) as [Hb _].
  set (src := (fun i => page_byte (pmem (k_pages k)) (b + i)) <$> seqZ 0 PAGE_SIZE).
  assert (Hl : Z.of_nat (length src) = PAGE_SIZE) by (unfold src; by rewrite length_fmap, length_seqZ).
  assert (Hsrc : forall j x, src !! j = Some x <-> x = page_byte (pmem (k_pages k)) (b + Z.of_nat j) /\ Z.of_nat j < PAGE_SIZE).
  { intros j x. unfold src. rewrite list_lookup_fmap_Some. split.
    - intros (i & -> & Hi). apply lookup_seqZ in Hi as [-> Hi]. done.
    - intros [-> Hj]. exists (Z.of_nat j). split; [done|]. apply lookup_seqZ. lia. }
  rewrite <- Hl at 1. eapply wp_mono; [apply (fill_frame_spec A k a (Phys b) src Hp Hinv HaA)|].
  - by rewrite Hl.
  - apply Forall_lookup_2. intros j x [-> _]%Hsrc. apply page_byte_range.
  - intros j x pg [-> Hj]%Hsrc Hs. cbn [padd].
    assert (Hu : u32 (b + Z.of_nat j) = b + Z.of_nat j).
    { apply u32_small. destruct Hb as [Hx Hm]. unfold PAGE_START, PAGE_SIZE, MB in *. apply Z.mod_divide in Hm as [y ->]; lia. }
    rewrite Hu. apply load_phys; [done | done | lia |]. split; [|done]. apply same_page_byte; [by apply Hs; [|apply not_eq_sym] | done | lia].
  - intros [] k' (pg & -> & Hpg & Hbytes & Hs). exists pg. split; [done|]. split; [done|]. split; [|done].
    intros i Hi. rewrite Hbytes by done. unfold zlookup. destruct (Z.ltb_spec i 0); [lia|].
    rewrite (proj2 (Hsrc (Z.to_nat i) (page_byte (pmem (k_pages k)) (b + i)))); [done|]. split; [|lia]. by rewrite Z2Nat.id by lia.
Qed.

Lemma copy_of_source m a m1 m0 b : copy_of m a m1 b -> same_page m0 m1 b -> frame b -> copy_of m a m0 b.
Proof. intros Hc Hs Hb i Hi. rewrite Hc by done. by apply same_page_byte. Qed.

(** ** Pages placed one after the other *)

Section place.
  Context (A : gset Z) (pg : pages) (d : Z) (T V : gmap Z Z) (s : Z).
  (** What the frame of a page holds; it depends on that frame alone. *)
  Context (P : Z -> gmap Z Z -> Z -> Prop).
  Context (HP : forall n m m' x, frame x -> same_page m m' x -> P n m x -> P n m' x).

(** New frames [L] back the pages from [s] on, and each holds what its page
    should. *)
Record placed (L : list Z) (A' : gset Z) (pg' : pages) (T' V' : gmap Z Z) : Prop := {
  pl_space : space A' pg' d T' V';
  pl_grows : grows d A pg T A' pg' T';
  pl_backs : backs L s V V';
  pl_size : Z.of_nat (size A') <= Z.of_nat (size A) + 2 * Z.of_nat (length L);
  pl_all : A' = A ∪ foot d T' ∪ list_to_set L;
  pl_nodup : NoDup L;
  pl_new i x : L !! i = Some x -> (x ∉ A) /\ x ∈ A' /\ (x ∉ foot d T') /\ P (s + Z.of_nat i) (pmem pg') x
}.

Lemma placed_nil : space A pg d T V -> placed [] A pg T V.
Proof using.
  clear HP. intros Hsp. split; [done | apply grows_refl | | cbn; lia | pose proof (sp_foot Hsp); set_solver | apply NoDup_nil_2 | by intros i x Hx; rewrite lookup_nil in Hx].
  intros n. unfold zlookup. by destruct (n - s <? 0).
Qed.

(** One more page: [x] is new, and the frames in use before have kept what
    they hold. *)
Lemma placed_snoc L A' pg' T' V' x A2 pg2 T2 : placed L A' pg' T' V' -> x ∉ A' -> x ∈ A2 -> x ∉ foot d T2 ->
  space A2 pg2 d T2 (<[s + Z.of_nat (length L) := pte x PAGE_USER PAGE_READ_WRITE]> V') ->
  grows d A' pg' T' A2 pg2 T2 -> (size A2 <= size A' + 2)%nat -> A2 = {[x]} ∪ A' ∪ foot d T2 -> P (s + Z.of_nat (length L)) (pmem pg2) x ->
  placed (L ++ [x]) A2 pg2 T2 (<[s + Z.of_nat (length L) := pte x PAGE_USER PAGE_READ_WRITE]> V').
Proof using HP.
  intros [Hsp Hg Hb Hsz Hall Hnd Hnew] HxA HxA2 HxT Hsp2 Hg2 Hsz2 Hall2 HPx.
  pose proof (gr_mono Hg) as HAA'. pose proof (gr_mono Hg2) as HA2. pose proof (gr_new Hg2) as Hn2. split.
  - done.
  - by eapply grows_trans.
  - intros n. rewrite zlookup_snoc. destruct (Z.eqb_spec (n - s) (Z.of_nat (length L))) as [Hn|Hn].
    + replace n with (s + Z.of_nat (length L)) by lia. by rewrite lookup_insert_eq.
    + rewrite lookup_insert_ne by lia. apply Hb.
  - rewrite length_app. cbn [length]. lia.
  - rewrite Hall2, Hall, list_to_set_app_L. cbn. pose proof (foot_mono d _ _ (gr_tbl Hg2)). set_solver.
  - apply list.NoDup_app. split; [done|]. split; [|apply NoDup_singleton].
    intros y Hy ->%list_elem_of_singleton. apply list_elem_of_lookup in Hy as [i Hi]. by destruct (Hnew i x Hi) as (_ & ? & _).
  - intros i y [Hi|[Hi Hy]]%lookup_app_Some.
    + destruct (Hnew i y Hi) as (H1 & H2 & H3 & H4). split; [done|]. split; [set_solver|].
      split; [intros Hin; destruct (decide (y ∈ foot d T')); set_solver|].
      eapply HP; [by apply (pinv_frame _ _ _ (sp_inv Hsp)) | by apply (gr_frame Hg2) | done].
    + apply list_lookup_singleton_Some in Hy as [Hy <-]. replace i with (length L) by lia. split; [set_solver|]. done.
Qed.
End place.
Arguments pl_space {A pg d T V s P L A' pg' T' V'} _.
Arguments pl_grows {A pg d T V s P L A' pg' T' V'} _.
Arguments pl_backs {A pg d T V s P L A' pg' T' V'} _ _.
Arguments pl_size {A pg d T V s P L A' pg' T' V'} _.
Arguments pl_all {A pg d T V s P L A' pg' T' V'} _.
Arguments pl_nodup {A pg d T V s P L A' pg' T' V'} _.
Arguments pl_new {A pg d T V s P L A' pg' T' V'} _ _ _ _.

(** ** map_and_copy *)

Section copy.
  Context (k : kstate) (A : gset Z) (d d0 : Z) (T V T0 V0 : gmap Z Z) (s : Z).
  Context (Hoff : k_paging k = None) (Hdst : space A (k_pages k) d T V) (Hsrc : space A (k_pages k) d0 T0 V0).
  Context (Hdisj : foot d0 T0 ## foot d T).

(** The source of page [n]: a frame in use that is not part of the new
    directory. *)
Definition source_page (n : Z) : Prop :=
  exists e, V0 !! n = Some e /\ Z.land e PAGE_ADDRESS_MASK ∈ A /\ Z.land e PAGE_ADDRESS_MASK ∉ foot d T.

(** The frames [L] back the pages from [s] on, as copies of the source's. *)
Definition copied : list Z -> gset Z -> pages -> gmap Z Z -> gmap Z Z -> Prop :=
  placed A (k_pages k) d T V s (fun n m x => exists e, V0 !! n = Some e /\ copy_of m x (pmem (k_pages k)) (Z.land e PAGE_ADDRESS_MASK)).

Lemma copied_snoc L A' pg' T' V' x A2 pg2 T2 pg3 e : copied L A' pg' T' V' -> fresh_frame A' (pmem pg') x pg2 ->
  forall p2, space A2 p2 d T2 (<[s + Z.of_nat (length L) := pte x PAGE_USER PAGE_READ_WRITE]> V') ->
  grows d ({[x]} ∪ A') pg2 T' A2 p2 T2 -> (size A2 <= size ({[x]} ∪ A') + 1)%nat -> A2 = {[x]} ∪ A' ∪ foot d T2 ->
  V0 !! (s + Z.of_nat (length L)) = Some e -> Z.land e PAGE_ADDRESS_MASK ∈ A -> Z.land e PAGE_ADDRESS_MASK ∉ foot d T ->
  pinv A2 pg3 -> copy_of (pmem pg3) x (pmem p2) (Z.land e PAGE_ADDRESS_MASK) ->
  (forall c, c ∈ A2 -> c <> x -> same_page (pmem p2) (pmem pg3) c) ->
  copied (L ++ [x]) A2 pg3 T2 (<[s + Z.of_nat (length L) := pte x PAGE_USER PAGE_READ_WRITE]> V').
Proof using All.
  intros C (Hx & HxA & _ & _ & Hs1) p2 Hsp2 Hg2 Hsz2 Hall He HeA HeT Hp3 Hcopy Hs3.
  pose proof (pl_grows C) as Hg. pose proof (sp_foot (pl_space C)) as Hfoot'.
  pose proof (gr_mono Hg) as HAA'. pose proof (gr_mono Hg2) as HA2. pose proof (gr_new Hg2) as Hnew2.
  assert (HxT : x ∉ foot d T2) by (intros Hin; destruct (decide (x ∈ foot d T')); set_solver).
  apply (placed_snoc _ _ _ _ _ _ _) with (A' := A') (pg' := pg') (T' := T'); try done.
  - intros n m m' y Hy Hs (e' & He' & Hc). exists e'. split; [done|]. by eapply copy_of_frame.
  - set_solver.
  - split; [done | | apply Hsp2]. eapply pagedir_frame; [apply Hsp2|]. intros c Hc.
    apply Hs3; [by apply (sp_foot Hsp2)|]. by intros ->.
  - split; [set_solver | apply Hg2 | set_solver |]. intros c Hc HcT. assert (c <> x) by (by intros ->).
    eapply same_page_trans; [by apply Hs1|]. eapply same_page_trans; [apply (gr_frame Hg2); [set_solver | done]|].
    apply Hs3; [set_solver | done].
  - rewrite size_union, size_singleton in Hsz2 by set_solver. lia.
  - exists e. split; [done|].
    assert (Hef : frame (Z.land e PAGE_ADDRESS_MASK)) by (apply (pinv_frame _ _ _ (sp_inv Hsp2)); set_solver).
    eapply copy_of_source; [exact Hcopy | | done]. pose proof (gr_frame Hg HeA HeT) as Hs0.
    eapply same_page_trans; [exact Hs0|]. eapply same_page_trans; [apply Hs1; set_solver|].
    apply (gr_frame Hg2); [set_solver|]. intros Hin. pose proof (gr_new Hg). set_solver.
Qed.

(** One round of the loop. *)
Lemma copy_page_spec L A' pg' T' V' : copied L A' pg' T' V' -> source_page (s + Z.of_nat (length L)) ->
  pageno (s + Z.of_nat (length L)) -> room A (2 * Z.of_nat (length L) + 2) ->
  wp (page <- page_op alloc_page;
      page_op (map_page d ((s + Z.of_nat (length L)) * PAGE_SIZE) page PAGE_USER PAGE_READ_WRITE);;
      sl <- page_op (lookup_page d0 ((s + Z.of_nat (length L)) * PAGE_SIZE));
      match sl with
      | None => halt "sl"
      | Some src_phys => kmemmove (Phys page) (Phys src_phys) PAGE_SIZE
      end)
    (fun _ k' => exists x A2 pg2 T2 V2, k' = k <| k_pages := pg2 |> /\ copied (L ++ [x]) A2 pg2 T2 V2) (k <| k_pages := pg' |>).
Proof using All.
  intros C (e & He & HeA & HeT) Hn Hr. pose proof (pl_grows C) as Hg. pose proof (gr_mono Hg) as HAA'.
  pose proof (pl_size C) as Hsz. wp_step. apply wp_page_op; [done|]. cbn [k_pages set_field].
  eapply wp_mono; [apply (alloc_page_wp A'); [apply (pl_space C) | unfold room in *; lia]|]. intros x pg1 Hfresh.
  destruct (space_alloc _ _ _ _ _ _ _ (pl_space C) Hfresh) as [Hsp1 Hg1].
  assert (Hx : frame x /\ x ∉ A') by (by destruct Hfresh as (? & ? & _)). destruct Hx as [Hx HxA].
  assert (Hsz1 : size ({[x]} ∪ A') = S (size A')) by (rewrite size_union, size_singleton by set_solver; done).
  wp_step. apply wp_page_op; [done|]. cbn [k_pages set_field].
  eapply wp_mono; [apply (map_page_wp _ _ _ _ _ (s + Z.of_nat (length L)) x PAGE_USER PAGE_READ_WRITE Hsp1 Hn)|].
  { by apply frame_aligned. }
  { split; by left. }
  { unfold room in *. rewrite Hsz1. lia. }
  intros [] pg2 (A2 & T2 & Hsp2 & Hg2 & Hsz2 & Hall). pose proof (gr_mono Hg2) as HA2.
  assert (Hsrc2 : space A2 pg2 d0 T0 V0).
  { split; [apply Hsp2 | | pose proof (sp_foot Hsrc); set_solver]. eapply pagedir_frame; [apply Hsrc|]. intros b Hb.
    assert (HbA : b ∈ A) by (by apply (sp_foot Hsrc)). assert (HbT : b ∉ foot d T) by set_solver.
    eapply same_page_trans; [by apply (gr_frame Hg)|]. assert (HbT' : b ∉ foot d T') by (pose proof (gr_new Hg); set_solver).
    eapply same_page_trans; [apply (gr_frame Hg1); set_solver|]. apply (gr_frame Hg2); set_solver. }
  wp_step. apply wp_page_op; [done|]. cbn [k_pages set_field].
  eapply wp_mono; [by apply (lookup_page_wp A2 pg2 d0 T0 V0)|]. intros r pg3 [-> ->]. rewrite He. cbn [fmap option_fmap option_map].
  set (k2 := set_field _ _). assert (Hk2 : k2 = k <| k_pages := pg2 |>) by (by destruct k). rewrite Hk2.
  eapply wp_mono; [apply (copy_frame_spec A2 (k <| k_pages := pg2 |>) x (Z.land e PAGE_ADDRESS_MASK));
    [done | apply Hsp2 | set_solver | set_solver |]|].
  { intros ->. set_solver. }
  intros [] k' (pg4 & -> & Hp4 & Hc & Hs4). exists x, A2, pg4, T2, (<[s + Z.of_nat (length L) := pte x PAGE_USER PAGE_READ_WRITE]> V').
  split; [by destruct k|]. by eapply (copied_snoc L A' pg' T' V' x A2 pg1 T2 pg4 e).
Qed.
End copy.

Lemma map_and_copy_spec k A d d0 T V T0 V0 s t :
  k_paging k = None -> space A (k_pages k) d T V -> space A (k_pages k) d0 T0 V0 -> foot d0 T0 ## foot d T ->
  0 <= s <= t -> t * PAGE_SIZE <= 2 ^ 32 - PAGE_SIZE -> (forall n, s <= n < t -> source_page A d T V0 n) ->
  room A (2 * (t - s)) ->
  wp (map_and_copy d0 d (s * PAGE_SIZE) (t * PAGE_SIZE)) (fun _ k' => exists L A' pg' T' V', k' = k <| k_pages := pg' |> /\
    Z.of_nat (length L) = t - s /\ copied k A d T V V0 s L A' pg' T' V') k.
Proof.
  intros Hoff Hdst Hsrc Hdisj Hst Ht Hpages Hr. unfold map_and_copy.
  wp_step. wp_step; [b2p; by apply Z.mod_mul|]. wp_step. wp_step; [b2p; by apply Z.mod_mul|].
  apply (wp_for_pages (fun n k' => n <= t /\ exists L A' pg' T' V', k' = k <| k_pages := pg' |> /\
    Z.of_nat (length L) = n - s /\ copied k A d T V V0 s L A' pg' T' V')).
  - lia.
  - done.
  - split; [lia|]. exists [], A, (k_pages k), T, V. split; [by destruct k|]. split; [cbn; lia | by apply placed_nil].
  - intros n k' Hn Hlt (Hnt & L & A' & pg' & T' & V' & -> & HL & C). assert (Hn' : n < t) by (unfold PAGE_SIZE in *; lia).
    replace n with (s + Z.of_nat (length L)) by lia.
    eapply wp_mono; [apply (copy_page_spec k A d d0 T V T0 V0 s Hoff Hdst Hsrc Hdisj L A' pg' T' V' C)|].
    + apply Hpages. lia.
    + unfold pageno, PAGE_SIZE in *. lia.
    + unfold room in *. lia.
    + intros [] k' (x & A2 & pg2 & T2 & V2 & -> & C2). split; [lia|]. exists (L ++ [x]), A2, pg2, T2, V2.
      split; [done|]. split; [|done]. rewrite length_app. cbn [length]. lia.
  - intros n k' Hn Hrange (Hnt & L & A' & pg' & T' & V' & -> & HL & C). exists L, A', pg', T', V'. split; [done|].
    split; [|done]. destruct (decide (n = t)) as [-> |Hne]; [done|]. exfalso.
    assert (s <= n < n); [|lia]. apply Hrange. unfold in_range. unfold PAGE_SIZE. b2p. split; b2p; lia.
Qed.

(** ** The address space of a child *)

Section child.
  Context (A : gset Z) (pg : pages) (d0 : Z) (T0 V0 : gmap Z Z) (Hsrc : space A pg d0 T0 V0).

(** Page [n] of the parent is backed by a frame in use. *)
Definition backed (n : Z) : Prop := exists e, V0 !! n = Some e /\ Z.land e PAGE_ADDRESS_MASK ∈ A.

(** The directory [d] maps the pages in [rng] to frames of its own, copies of
    the frames of the parent, and the other pages as [V] does; no frame that
    was in use has changed. *)
Record mirror_in (A' : gset Z) (pg' : pages) (d : Z) (T' V V' : gmap Z Z) (rng : Z -> bool) : Prop := {
  mi_space : space A' pg' d T' V';
  mi_mono : A ⊆ A';
  mi_foot : foot d T' ## A;
  mi_frame b : b ∈ A -> same_page (pmem pg) (pmem pg') b;
  mi_other n : rng n = false -> V' !! n = V !! n;
  mi_pages n : rng n = true -> exists x e, V' !! n = Some (pte x PAGE_USER PAGE_READ_WRITE) /\ V0 !! n = Some e /\
    x ∈ A' /\ (x ∉ A) /\ (x ∉ foot d T') /\ copy_of (pmem pg') x (pmem pg) (Z.land e PAGE_ADDRESS_MASK);
  mi_inj n m : rng n = true -> rng m = true -> V' !! n = V' !! m -> n = m
}.
Definition mirror (N : Z) (pg' : pages) (d : Z) (V V' : gmap Z Z) (rng : Z -> bool) : Prop :=
  exists A' T', mirror_in A' pg' d T' V V' rng /\ room A' N.

Definition pages_of (s t n : Z) : bool := (s <=? n) && (n <? t).

Lemma mirror_source N pg' d V V' rng A' T' : mirror_in A' pg' d T' V V' rng -> room A' N ->
  space A' pg' d0 T0 V0 /\ foot d0 T0 ## foot d T'.
Proof using Hsrc.
  intros M _. pose proof (mi_mono _ _ _ _ _ _ _ M). pose proof (mi_foot _ _ _ _ _ _ _ M). pose proof (sp_foot Hsrc). split.
  - split; [apply M | | set_solver]. eapply pagedir_frame; [apply Hsrc|]. intros b Hb. apply M. set_solver.
  - set_solver.
Qed.

Lemma mirror_start N pg' d V : building A pg N d pg' V -> mirror N pg' d V V (fun _ => false).
Proof using. intros (A' & T' & Hsp & HA & Hf & Hr & Hs). exists A', T'. by split; [split|]. Qed.

Lemma pte_inj x y : aligned x -> aligned y -> pte x PAGE_USER PAGE_READ_WRITE = pte y PAGE_USER PAGE_READ_WRITE -> x = y.
Proof using.
  intros Hx Hy E. assert (Hp : perms PAGE_USER PAGE_READ_WRITE) by (split; by left).
  rewrite <- (pte_phys x PAGE_USER PAGE_READ_WRITE Hx Hp), E. by apply pte_phys.
Qed.

(** A frame of a copied segment, by page. *)
Lemma copied_page k A1 d T1 V1 s L A2 pg2 T2 V2 n : copied k A1 d T1 V1 V0 s L A2 pg2 T2 V2 ->
  pages_of s (s + Z.of_nat (length L)) n = true -> exists i x, L !! i = Some x /\ n = s + Z.of_nat i /\
    V2 !! n = Some (pte x PAGE_USER PAGE_READ_WRITE).
Proof using.
  intros C Hn. unfold pages_of in Hn. b2p. destruct (zlookup_is_Some L (n - s)) as [x Hx]; [lia|].
  exists (Z.to_nat (n - s)), x. split; [|split; [lia|]].
  - unfold zlookup in Hx. destruct (Z.ltb_spec (n - s) 0); [lia | done].
  - by rewrite (pl_backs C n), Hx.
Qed.
Lemma copied_outside k A1 d T1 V1 s L A2 pg2 T2 V2 n : copied k A1 d T1 V1 V0 s L A2 pg2 T2 V2 ->
  pages_of s (s + Z.of_nat (length L)) n = false -> V2 !! n = V1 !! n.
Proof using.
  intros C Hn. rewrite (pl_backs C n). unfold zlookup. destruct (Z.ltb_spec (n - s) 0); [done|].
  rewrite lookup_ge_None_2; [done|]. unfold pages_of in Hn. b2p. destruct Hn as [Hn|Hn]; b2p; lia.
Qed.

Lemma mirror_extend k d V V' rng s L A1 T1 A2 pg2 T2 V2 : mirror_in A1 (k_pages k) d T1 V V' rng ->
  copied k A1 d T1 V' V0 s L A2 pg2 T2 V2 -> (forall n, backed n -> rng n = true -> pages_of s (s + Z.of_nat (length L)) n = false) ->
  (forall n, rng n = true -> backed n) -> (forall n, pages_of s (s + Z.of_nat (length L)) n = true -> backed n) ->
  mirror_in A2 pg2 d T2 V V2 (fun n => rng n || pages_of s (s + Z.of_nat (length L)) n).
Proof using All.
  intros M C Hdis Hrng Hseg. pose proof (pl_grows C) as Hg. pose proof (gr_mono Hg) as H12. pose proof (gr_new Hg) as Hnew.
  pose proof (mi_mono _ _ _ _ _ _ _ M) as HA1. pose proof (mi_foot _ _ _ _ _ _ _ M) as Hfoot.
  assert (Hold : forall n, rng n = true -> V2 !! n = V' !! n) by (intros n Hn; eapply copied_outside; [exact C | by apply Hdis; [apply Hrng|]]).
  split.
  - apply C.
  - set_solver.
  - intros x Hx HxA. destruct (decide (x ∈ foot d T1)); set_solver.
  - intros b Hb. eapply same_page_trans; [by apply M|]. apply (gr_frame Hg); set_solver.
  - intros n Hn. apply orb_false_iff in Hn as [H1 H2]. rewrite (copied_outside _ _ _ _ _ _ _ _ _ _ _ n C H2). by apply M.
  - intros n Hn. destruct (rng n) eqn:Er.
    + destruct (mi_pages _ _ _ _ _ _ _ M n Er) as (x & e & Hx & He & Hx1 & Hx2 & Hx3 & Hc). exists x, e.
      rewrite Hold by done. split; [done|]. split; [done|]. split; [set_solver|]. split; [done|].
      split; [intros Hin; destruct (decide (x ∈ foot d T1)); set_solver|].
      eapply copy_of_frame; [exact Hc | by apply (gr_frame Hg) |]. apply (pinv_frame _ _ _ (sp_inv (mi_space _ _ _ _ _ _ _ M)) Hx1).
    + cbn in Hn. destruct (copied_page _ _ _ _ _ _ _ _ _ _ _ n C Hn) as (i & x & Hi & -> & HV).
      destruct (pl_new C i x Hi) as (H1 & H2 & H3 & e & He & Hc). exists x, e.
      split; [done|]. split; [done|]. split; [done|]. split; [set_solver|]. split; [done|].
      assert (HeA : Z.land e PAGE_ADDRESS_MASK ∈ A).
      { destruct (Hseg _ Hn) as (e' & He' & Hin). rewrite He in He'. by injection He' as <-. }
      eapply copy_of_source; [exact Hc | by apply M |]. apply (pinv_frame A1 (k_pages k) _ (sp_inv (mi_space _ _ _ _ _ _ _ M))). set_solver.
  - assert (Hfr : forall x, x ∈ A2 -> aligned x).
    { intros x Hx. apply frame_aligned, (pinv_frame _ _ _ (sp_inv (pl_space C)) Hx). }
    assert (Hcase : forall n, rng n || pages_of s (s + Z.of_nat (length L)) n = true -> exists x, V2 !! n = Some (pte x PAGE_USER PAGE_READ_WRITE) /\
      x ∈ A2 /\ ((rng n = true /\ x ∈ A1) \/ (exists i, L !! i = Some x /\ n = s + Z.of_nat i))).
    { intros n Hn. destruct (rng n) eqn:Er.
      - destruct (mi_pages _ _ _ _ _ _ _ M n Er) as (x & e & Hx & _ & Hx1 & _). exists x. rewrite Hold by done.
        split; [done|]. split; [set_solver|]. by left.
      - destruct (copied_page _ _ _ _ _ _ _ _ _ _ _ n C Hn) as (i & x & Hi & -> & HV). exists x. split; [done|].
        destruct (pl_new C i x Hi) as (_ & ? & _). split; [done|]. right. by exists i. }
    intros n m Hn Hm E. destruct (Hcase n Hn) as (x & Hx & HxA & Hx'), (Hcase m Hm) as (y & Hy & HyA & Hy').
    rewrite Hx, Hy in E. injection E as E. apply pte_inj in E as <-; [|by apply Hfr | by apply Hfr].
    destruct Hx' as [[Hrn Hx1]|(i & Hi & Hni)], Hy' as [[Hrm Hy1]|(j & Hj & Hmj)].
    + apply (mi_inj _ _ _ _ _ _ _ M); try done. by rewrite <- !Hold, Hx, Hy.
    + by destruct (pl_new C j x Hj).
    + by destruct (pl_new C i x Hi).
    + pose proof (NoDup_lookup _ _ _ _ (pl_nodup C) Hi Hj). lia.
Qed.

Lemma mirror_copy N k d V V' rng s t : k_paging k = None -> mirror (2 * (t - s) + N) (k_pages k) d V V' rng -> 0 <= N ->
  0 <= s <= t -> t * PAGE_SIZE <= 2 ^ 32 - PAGE_SIZE -> (forall n, pages_of s t n = true -> backed n /\ rng n = false) ->
  (forall n, rng n = true -> backed n) ->
  wp (map_and_copy d0 d (s * PAGE_SIZE) (t * PAGE_SIZE)) (fun _ k' => exists pg' V2, k' = k <| k_pages := pg' |> /\
    mirror N pg' d V V2 (fun n => rng n || pages_of s t n)) k.
Proof using All.
  intros Hoff (A1 & T1 & M & Hr) HN Hst Ht Hseg Hrng. destruct (mirror_source _ _ _ _ _ _ _ _ M Hr) as [Hs1 Hd1].
  eapply wp_mono; [apply (map_and_copy_spec k A1 d d0 T1 V' T0 V0 s t Hoff (mi_space _ _ _ _ _ _ _ M) Hs1 Hd1 Hst Ht)|].
  - intros n Hn. destruct (Hseg n) as [(e & He & HeA) _]; [unfold pages_of; b2p; split; b2p; lia|]. exists e. split; [done|].
    pose proof (mi_mono _ _ _ _ _ _ _ M). pose proof (mi_foot _ _ _ _ _ _ _ M). split; set_solver.
  - unfold room in *. lia.
  - intros [] k' (L & A2 & pg2 & T2 & V2 & -> & HL & C). exists pg2, V2. split; [done|].
    assert (Et : s + Z.of_nat (length L) = t) by lia. exists A2, T2. split.
    + rewrite <- Et in Hseg |- *. eapply mirror_extend; [exact M | exact C | | done | by intros n Hn; apply Hseg].
      intros n _ Hn. destruct (pages_of s _ n) eqn:E; [|done]. destruct (Hseg n E). congruence.
    + pose proof (pl_size C). unfold room in *. lia.
Qed.
End child.

(** ** The handles a child shares *)

(** How many of the descriptors [fds] refer to the handle [a]. *)
Definition uses (a : Z) (fds : list Z) : Z := if decide (a = 0) then 0 else Z.of_nat (length (filter (fun x => x = a) fds)).
Definition add_refs (n : Z) (o : obj) : obj :=
  match o with OFh f => OFh (f <| fh_refcount ::= fmap (fun r => r + n) |>) | _ => o end.
(** Each handle is referred to [uses] times more often. *)
Definition shared (fds : list Z) (objs objs' : gmap Z obj) : Prop :=
  forall a, objs' !! a = add_refs (uses a fds) <$> objs !! a.
(** The descriptors refer to handles. *)
Definition handles_ok (objs : gmap Z obj) (fds : list Z) : Prop :=
  forall fh, fh ∈ fds -> fh <> 0 -> exists f r, objs !! fh = Some (OFh f) /\ fh_refcount f = Some r.

Lemma add_refs_0 o : add_refs 0 o = o.
Proof.
  destruct o as [f| |]; [|done..]. cbn. destruct f as [ty rc w rd ds p e po en]. cbn. unfold set_field. cbn.
  destruct rc as [r|]; [|done]. cbn. by rewrite Z.add_0_r.
Qed.
Lemma add_refs_add n m o : add_refs m (add_refs n o) = add_refs (n + m) o.
Proof.
  destruct o as [f| |]; [|done..]. cbn. destruct f as [ty rc w rd ds p e po en]. cbn. unfold set_field. cbn.
  destruct rc as [r|]; [|done]. cbn. by rewrite Z.add_assoc.
Qed.
Lemma uses_snoc a fds x : uses a (fds ++ [x]) = uses a fds + (if decide (a = x /\ a <> 0) then 1 else 0).
Proof.
  unfold uses. destruct (decide (a = 0)) as [-> |Ha]; [rewrite decide_False; [done | tauto]|]. rewrite list.filter_app, length_app.
  unfold filter at 2. cbn. destruct (decide (x = a)) as [-> |Hne].
  - rewrite decide_True by done. cbn. lia.
  - rewrite decide_False by (intros [-> _]; done). cbn. lia.
Qed.
Lemma shared_nil objs : shared [] objs objs.
Proof.
  intros a. unfold uses. replace (if decide (a = 0) then 0 else _) with 0 by (by destruct (decide (a = 0))).
  destruct (objs !! a); [|done]. cbn. by rewrite add_refs_0.
Qed.
Lemma shared_zero fds objs objs' : shared fds objs objs' -> shared (fds ++ [0]) objs objs'.
Proof. intros H a. rewrite (H a), uses_snoc, decide_False by tauto. by rewrite Z.add_0_r. Qed.
Lemma shared_snoc fds objs objs' x f r : shared fds objs objs' -> x <> 0 -> objs' !! x = Some (OFh f) -> fh_refcount f = Some r ->
  shared (fds ++ [x]) objs (<[x := OFh (f <| fh_refcount := Some (r + 1) |>)]> objs').
Proof.
  intros H Hx Hf Hr a. rewrite uses_snoc. destruct (decide (a = x)) as [-> |Hne].
  - rewrite decide_True by done. rewrite lookup_insert_eq. pose proof (H x) as E. rewrite Hf in E.
    destruct (objs !! x) as [o|]; [|done]. cbn in E |- *. injection E as E. f_equal. rewrite <- add_refs_add, <- E. cbn.
    destruct f as [ty rc w rd ds p e po en]. cbn in *. unfold set_field. cbn. by rewrite Hr.
  - rewrite decide_False by tauto. rewrite lookup_insert_ne by done. by rewrite Z.add_0_r.
Qed.

Lemma copy_filedesc_spec k parent child pp pc ps : slot_is k child pc ps -> parent <> child -> zlookup ps parent = Some pp ->
  length (p_filedesc pp) = Z.to_nat MAX_FDS -> p_filedesc pc = replicate (Z.to_nat MAX_FDS) 0 -> handles_ok (k_objs k) (p_filedesc pp) ->
  wp (copy_filedesc parent child) (fun _ k' => exists objs, shared (p_filedesc pp) (k_objs k) objs /\
    k' = k <| k_processes := zinsert child (pc <| p_filedesc := p_filedesc pp |>) ps |> <| k_objs := objs |>) k.
Proof.
  intros Hs Hne Hpp Hlen Hpc Hok. set (fds := p_filedesc pp) in *. change (Z.to_nat MAX_FDS) with 16%nat in *.
  unfold copy_filedesc. change (Z.to_nat MAX_FDS) with 16%nat.
  set (part := fun i : Z => take (Z.to_nat i) fds ++ replicate (16 - Z.to_nat i) 0).
  apply (wp_for (fun i k' => exists objs, shared (take (Z.to_nat i) fds) (k_objs k) objs /\
    k' = k <| k_processes := zinsert child (pc <| p_filedesc := part i |>) ps |> <| k_objs := objs |>)).
  - exists (k_objs k). split; [apply shared_nil|]. destruct Hs as [Hk _]. unfold part. change (take (Z.to_nat 0) fds ++ replicate (16 - Z.to_nat 0) 0) with (replicate 16 0). rewrite <- Hpc.
    replace (pc <| p_filedesc := p_filedesc pc |>) with pc by (by destruct pc). rewrite <- Hk. by destruct k.
  - intros i k' Hi (objs & Hsh & ->). change (0 + Z.of_nat 16) with 16 in Hi. match goal with |- wp _ _ ?K => set (k1 := K) end.
    assert (Hs1 : slot_is k1 child (pc <| p_filedesc := part i |>) ps) by (split; [done | apply Hs]).
    wp_step. eapply (wp_get_proc parent pp).
    { cbn. by rewrite zlookup_zinsert_ne. }
    destruct (lookup_lt_is_Some_2 fds (Z.to_nat i)) as [fh Hfh]; [lia|].
    wp_step. apply (wp_of_opt _ fh). { unfold zlookup. destruct (Z.ltb_spec i 0); [lia | done]. }
    replace (Z.to_nat (i + 1)) with (S (Z.to_nat i)) by lia. rewrite (take_S_r _ _ _ Hfh).
    assert (Hpart : zinsert i fh (part i) = part (i + 1)).
    { unfold part, zinsert. destruct (Z.ltb_spec i 0); [lia|]. replace (Z.to_nat (i + 1)) with (S (Z.to_nat i)) by lia.
      rewrite (take_S_r _ _ _ Hfh). rewrite insert_app_r_alt by (rewrite length_take; lia). rewrite length_take, Nat.min_l, Nat.sub_diag by lia.
      replace (16 - Z.to_nat i)%nat with (S (16 - S (Z.to_nat i)))%nat by lia. cbn. by rewrite <- app_assoc. }
    unfold truthy. destruct (Z.eqb_spec fh 0) as [-> |Hnz]; cbn [negb when_].
    + apply wp_ret. exists objs. split; [by apply shared_zero|]. unfold k1.
      replace (part (i + 1)) with (part i); [done|]. rewrite <- Hpart. unfold part, zinsert. destruct (Z.ltb_spec i 0); [lia|].
      rewrite insert_app_r_alt by (rewrite length_take; lia). rewrite length_take, Nat.min_l, Nat.sub_diag by lia.
      by replace (16 - Z.to_nat i)%nat with (S (16 - S (Z.to_nat i)))%nat by lia.
    + unfold set_filedesc. wp_step. eapply slot_upd; [exact Hs1|].
      destruct (Hok fh) as (f0 & r0 & Hf0 & Hr0); [by eapply list_elem_of_lookup_2 | done |].
      pose proof (Hsh fh) as E. rewrite Hf0 in E. cbn in E.
      set (f := set_field _ f0) in E. assert (Hr : fh_refcount f = Some (r0 + uses fh (take (Z.to_nat i) fds))).
      { unfold f. cbn. by rewrite Hr0. }
      wp_step. eapply (wp_get_fh _ fh f); [exact E|]. wp_step. rewrite Hr. apply wp_fld. eapply (wp_upd_fh _ fh f); [exact E|].
      eexists. split; [by eapply shared_snoc|]. unfold k1. rewrite <- Hpart. by destruct k.
  - intros k' (objs & Hsh & ->). change (Z.to_nat (0 + Z.of_nat 16)) with 16%nat in Hsh. rewrite take_ge in Hsh by lia.
    exists objs. split; [done|]. unfold part. change (0 + Z.of_nat 16) with 16. change (Z.to_nat 16) with 16%nat.
    by rewrite take_ge, app_nil_r by lia.
Qed.

(** ** syscall_fork *)

(** The record of the child of the process [p]. *)
Definition child_process (p : process) (child d : Z) (r : regs) : process :=
  process_zero <| p_pid := child |> <| p_parent_pid := p_pid p |> <| p_exists := 1 |> <| p_ready := 1 |> <| p_pdir := d |>
    <| p_text_start := p_text_start p |> <| p_text_end := p_text_end p |>
    <| p_data_start := p_data_start p |> <| p_data_end := p_data_end p |>
    <| p_stack_start := p_stack_start p |> <| p_stack_end := p_stack_end p |>
    <| p_filedesc := p_filedesc p |> <| p_saved_regs := r <| r_eax := 0 |> |> <| p_cwd := p_cwd p |>.

(** The pages of a segment. *)
Record segment_pages (s e from to : Z) : Prop := {
  sg_start : s = from * PAGE_SIZE;
  sg_end : e = to * PAGE_SIZE;
  sg_range : 0 <= from <= to;
  sg_top : to * PAGE_SIZE <= 2 ^ 32 - PAGE_SIZE
}.

Section fork.
  Context (k : kstate) (c : Z) (p : process) (A : gset Z) (T0 V0 : gmap Z Z) (R S : list Z).
  Context (ts te ds de ss se : Z).
  Context (Hcur : k_current k = Some c) (Hp : zlookup (k_processes k) c = Some p) (Hex : p_exists p <> 0).
  Context (Hspace : space A (k_pages k) (p_pdir p) T0 V0) (Hsched : sched R S k).
  Context (Htext : segment_pages (p_text_start p) (p_text_end p) ts te)
    (Hdata : segment_pages (p_data_start p) (p_data_end p) ds de)
    (Hstack : segment_pages (p_stack_start p) (p_stack_end p) ss se).
  Context (Hdisj : (te <= ds \/ de <= ts) /\ (te <= ss \/ se <= ts) /\ (de <= ss \/ se <= ds)).

(** The pages of the process. *)
Definition seg_pages (n : Z) : bool := pages_of ts te n || pages_of ds de n || pages_of ss se n.

  Context (Hbacked : forall n, seg_pages n = true -> backed A V0 n).
  Context (Hfds : length (p_filedesc p) = Z.to_nat MAX_FDS) (Hhandles : handles_ok (k_objs k) (p_filedesc p)).
  Context (Hroom : room A (1 + (KERNEL_PAGES + (2 * (te - ts) + (2 * (de - ds) + 2 * (se - ss)))))).

Record forked (r : regs) (child : Z) (k' : kstate) : Prop := {
  fk_fresh : 1 <= child < MAX_PROCESSES /\ ~ pid_used k child;
  fk_sched : sched (child :: R) S k';
  fk_others : others_same child k k';
  fk_handles : shared (p_filedesc p) (k_objs k) (k_objs k');
  fk_frame : k_heap k' = k_heap k /\ k_current k' = Some c /\ k_paging k' = Some (p_pdir p);
  fk_child : exists d A' T V1 V, mirror_in A (k_pages k) V0 A' (k_pages k') d T V1 V seg_pages /\
    set_range ∅ (in_range 0 (6 * MB)) (fun n => pte (n * PAGE_SIZE) PAGE_USER PAGE_READ_ONLY) V1 /\
    exists p', zlookup (k_processes k') child = Some p' /\ unlinked p' = child_process p child d r
}.

(** The steps after the memory has been copied. *)
Lemma fork_finish r child pc d0 p0 k1 : slot_is k1 child pc (k_processes k) -> child <> c -> zlookup (k_processes k) child = Some p0 ->
  p_exists p0 = 0 -> pc = process_zero <| p_pid := child |> <| p_parent_pid := p_pid p |> <| p_exists := 1 |> <| p_pdir := d0 |>
    <| p_text_start := p_text_start p |> <| p_text_end := p_text_end p |>
    <| p_data_start := p_data_start p |> <| p_data_end := p_data_end p |>
    <| p_stack_start := p_stack_start p |> <| p_stack_end := p_stack_end p |> ->
  k_objs k1 = k_objs k -> k_ready k1 = k_ready k -> k_suspended k1 = k_suspended k ->
  wp (enable_paging (p_pdir p);;
      copy_filedesc c child;;
      upd_proc child (fun c => c <| p_saved_regs := r <| r_eax := 0 |> |>);;
      upd_proc child (fun c => c <| p_cwd := p_cwd p |>);;
      upd_proc child (fun c => c <| p_ready := 1 |>);;
      list_add Ready child;;
      ret child)
    (fun x k' => x = child /\ sched (child :: R) S k' /\ others_same child k k' /\ shared (p_filedesc p) (k_objs k) (k_objs k') /\
       k_heap k' = k_heap k1 /\ k_current k' = k_current k1 /\ k_paging k' = Some (p_pdir p) /\ k_pages k' = k_pages k1 /\
       exists p', zlookup (k_processes k') child = Some p' /\ unlinked p' = child_process p child d0 r) k1.
Proof using Hp Hsched Hfds Hhandles.
  intros Hs Hne Hp0 He0 Epc Ho Hr Hsu. unfold enable_paging. wp_step. apply wp_modify. wp_step.
  eapply wp_mono; [eapply (copy_filedesc_spec _ c child p pc (k_processes k)); [exact Hs | done | done | done | by rewrite Epc | cbn; by rewrite Ho]|].
  intros [] k2 (objs & Hsh & Hk2). cbn in Hsh. rewrite Ho in Hsh.
  assert (F : k_processes k2 = zinsert child (pc <| p_filedesc := p_filedesc p |>) (k_processes k) /\ k_objs k2 = objs /\
    k_heap k2 = k_heap k1 /\ k_current k2 = k_current k1 /\ k_paging k2 = Some (p_pdir p) /\ k_pages k2 = k_pages k1 /\
    k_ready k2 = k_ready k /\ k_suspended k2 = k_suspended k).
  { rewrite Hk2. cbn. by rewrite Hr, Hsu. }
  destruct F as (F1 & F2 & F3 & F4 & F5 & F6 & F7 & F8). clear Hk2.
  wp_step. eapply slot_upd; [split; [exact F1 | apply Hs]|]. wp_step. eapply slot_upd; [split; [reflexivity | apply Hs]|].
  wp_step. eapply slot_upd; [split; [reflexivity | apply Hs]|]. wp_step.
  eapply wp_mono; [eapply (launch_wp _ child p0 _ (k_processes k) R S);
    [by eapply sched_frame | split; [reflexivity | apply Hs] | done | done | by rewrite Epc..]|].
  intros [] k' (Hs' & (ps' & l' & ->) & (p' & Hp' & Hu) & Hoth). apply wp_ret. split; [done|]. split; [done|]. split; [exact Hoth|].
  cbn. rewrite F2, F3, F4, F5, F6. repeat (split; [done|]). exists p'. split; [done|]. rewrite Hu, Epc. vm_compute. reflexivity.
Qed.

Lemma seg_disjoint : (forall n, pages_of ts te n = true -> pages_of ds de n = false /\ pages_of ss se n = false) /\
  (forall n, pages_of ds de n = true -> pages_of ss se n = false).
Proof using Hdisj.
  clear - Hdisj. unfold pages_of. destruct Hdisj as (H1 & H2 & H3). split; intros n Hn; b2p.
  - split; destruct (Z.leb_spec ds n), (Z.ltb_spec n de), (Z.leb_spec ss n), (Z.ltb_spec n se); cbn; lia.
  - destruct (Z.leb_spec ss n), (Z.ltb_spec n se); cbn; lia.
Qed.

Lemma mirror_ext N pg' d V V' r1 r2 : (forall n, r1 n = r2 n) -> mirror A (k_pages k) V0 N pg' d V V' r1 -> mirror A (k_pages k) V0 N pg' d V V' r2.
Proof using.
  intros E (A' & T' & M & Hr). exists A', T'. split; [|done]. split; try apply M; intros; apply M; by rewrite ?E.
Qed.

(** The three copies. *)
Lemma fork_segments k1 d V1 (rest : K Z) (Q : Z -> kstate -> Prop) : k_paging k1 = None ->
  building A (k_pages k) (2 * (te - ts) + (2 * (de - ds) + 2 * (se - ss))) d (k_pages k1) V1 ->
  (forall pg' V', mirror A (k_pages k) V0 0 pg' d V1 V' seg_pages -> wp rest Q (k1 <| k_pages := pg' |>)) ->
  wp (map_and_copy (p_pdir p) d (p_text_start p) (p_text_end p);;
      map_and_copy (p_pdir p) d (p_data_start p) (p_data_end p);;
      map_and_copy (p_pdir p) d (p_stack_start p) (p_stack_end p);; rest) Q k1.
Proof using All.
  intros Hoff HB Hrest. destruct seg_disjoint as [D1 D2].
  assert (Hb : forall n, pages_of ts te n = true \/ pages_of ds de n = true \/ pages_of ss se n = true -> backed A V0 n).
  { intros n Hn. apply Hbacked. unfold seg_pages. destruct Hn as [->|[->| ->]]; by rewrite ?orb_true_r. }
  destruct Htext as [-> -> Hts Htt], Hdata as [-> -> Hds Hdt], Hstack as [-> -> Hss Hst].
  wp_step. eapply wp_mono; [apply (mirror_copy A (k_pages k) (p_pdir p) T0 V0 Hspace _ k1 d V1 V1 (fun _ => false) ts te Hoff
    (mirror_start A (k_pages k) V0 _ _ _ _ HB)); [lia | done | done | split; auto | done]|].
  intros [] k2 (pg2 & V2 & -> & M2). wp_step.
  eapply wp_mono; [apply (mirror_copy A (k_pages k) (p_pdir p) T0 V0 Hspace (2 * (se - ss)) (k1 <| k_pages := pg2 |>) d V1 V2
    (fun n => false || pages_of ts te n) ds de); [exact Hoff | exact M2 | lia | done | done | |]|].
  { intros n Hn. split; [auto|]. cbn. destruct (pages_of ts te n) eqn:E; [|done]. destruct (D1 n E). congruence. }
  { intros n Hn. cbn in Hn. auto. }
  intros [] k3 (pg3 & V3 & -> & M3). wp_step. rewrite <- (Z.add_0_r (2 * (se - ss))) in M3.
  eapply wp_mono; [apply (mirror_copy A (k_pages k) (p_pdir p) T0 V0 Hspace 0 (k1 <| k_pages := pg2 |> <| k_pages := pg3 |>) d V1 V3
    (fun n => (false || pages_of ts te n) || pages_of ds de n) ss se); [exact Hoff | exact M3 | lia | done | done | |]|].
  { intros n Hn. split; [auto|]. cbn. destruct (pages_of ts te n) eqn:E; [destruct (D1 n E); congruence|].
    destruct (pages_of ds de n) eqn:E2; [|done]. pose proof (D2 n E2). congruence. }
  { intros n Hn. cbn in Hn. apply orb_true_iff in Hn as [?|?]; auto. }
  intros [] k4 (pg4 & V4 & -> & M4). eapply (Hrest pg4 V4).
  eapply mirror_ext; [|exact M4]. done.
Qed.

Lemma fork_spec r : (exists x, 1 <= x < MAX_PROCESSES /\ ~ pid_used k x) ->
  wp (syscall_fork r) (fun child k' => forked r child k') k.
Proof using All.
  intros [x0 Hx0]. unfold syscall_fork. wp_step. eapply wp_mono; [apply get_free_pid_spec, Hsched|].
  intros child k0 (-> & [[-> Hall]|[Hchild Hfree]]); [destruct Hx0 as [? []]; by apply Hall|].
  destruct (Z.ltb_spec child 0); [lia|].
  assert (Hlen : Z.of_nat (length (k_processes k)) = MAX_PROCESSES) by (rewrite (sc_table Hsched); done).
  assert (Hcr : 0 <= child < Z.of_nat (length (k_processes k))) by lia.
  destruct (zlookup_is_Some (k_processes k) child Hcr) as [p0 Hp0].
  assert (Hne : child <> c) by (intros ->; destruct Hfree; by exists p).
  assert (He0 : p_exists p0 = 0) by (destruct (decide (p_exists p0 = 0)); [done|]; destruct Hfree; by exists p0).
  wp_step. eapply wp_current; [done|]. wp_step. eapply wp_get_proc; [exact Hp|].
  wp_step. eapply wp_upd_proc; [exact Hp0|]. unfold disable_paging. wp_step. apply wp_modify.
  wp_step. apply wp_page_op; [done|].
  eapply wp_mono; [apply (building_dir A (k_pages k)); [apply Hspace | exact Hroom |]|].
  { destruct Htext as [_ _ Ht _], Hdata as [_ _ Hd _], Hstack as [_ _ Hst _]. change KERNEL_PAGES with 1536. lia. }
  intros d pg1 B1. wp_step. eapply wp_get_proc; [cbn; rewrite zlookup_zinsert_ne by done; exact Hp|].
  wp_step. eapply slot_upd; [split; [reflexivity | done]|]. wp_step. apply wp_page_op; [done|].
  change (for_pages (0 * MB) (6 * MB) (fun addr => map_page d addr addr PAGE_USER PAGE_READ_ONLY))
    with (identity_map d (0 * PAGE_SIZE) (6 * MB) PAGE_USER PAGE_READ_ONLY). cbn [k_pages set_field].
  eapply wp_mono; [apply (building_identity A (k_pages k) (2 * (te - ts) + (2 * (de - ds) + 2 * (se - ss)))); [done | done | | | exact B1]|].
  { split; [by left | by right]. }
  { destruct Htext as [_ _ Ht _], Hdata as [_ _ Hd _], Hstack as [_ _ Hst _]. lia. }
  intros [] pg2 (V1 & B2 & HV1).
  match goal with |- wp _ _ ?K => set (k1 := K) end.
  assert (F : exists pc, slot_is k1 child pc (k_processes k) /\ pc = process_zero <| p_pid := child |> <| p_parent_pid := p_pid p |>
    <| p_exists := 1 |> <| p_pdir := d |> <| p_text_start := p_text_start p |> <| p_text_end := p_text_end p |>
    <| p_data_start := p_data_start p |> <| p_data_end := p_data_end p |>
    <| p_stack_start := p_stack_start p |> <| p_stack_end := p_stack_end p |>).
  { eexists. split; [split; [reflexivity | done] | reflexivity]. }
  destruct F as (pc & F1 & Epc).
  assert (F : k_objs k1 = k_objs k /\ k_ready k1 = k_ready k /\ k_suspended k1 = k_suspended k /\ k_heap k1 = k_heap k /\
    k_current k1 = Some c /\ k_paging k1 = None /\ k_pages k1 = pg2) by (by rewrite <- Hcur).
  destruct F as (F2 & F3 & F4 & F5 & F6 & F7 & F8). clearbody k1.
  apply (fork_segments k1 d V1); [done | by rewrite F8 |]. intros pg' V' (A' & T' & M & _).
  eapply wp_mono; [apply (fork_finish r child pc d p0 (k1 <| k_pages := pg' |>)); try done|].
  intros x k' (-> & G1 & G2 & G3 & G4 & G5 & G6 & G7 & G8). split; try done.
  - split; [by rewrite G4|]. split; [by rewrite G5|]. done.
  - exists d, A', T', V1, V'. rewrite G7. done.
Qed.
End fork.
