(* ===== verification/LifecycleTheorems.v ===== *)
(** * The life of a process: the claims (source/process.c, source/unixproc.c) *)

From S2P Require Import Prelude Constants Libc Filesystem Page PageInv PageSpec PageTheorems BuddyInv BuddyTheorems Kernel Process ProcessInv ProcessTheorems UserMemory KernelMem Pipe Allocator PipeProofs PipeTheorems Filedesc Lifecycle LifecycleProofs ForkProofs.

(** ** start_process *)

(** Every slot of the table, 0 apart, is taken. *)
Definition table_full (k : kstate) : Prop := forall x, 1 <= x < MAX_PROCESSES -> pid_used k x.

Lemma not_full k : length (k_processes k) = Z.to_nat MAX_PROCESSES -> ~ table_full k -> exists x, 1 <= x < MAX_PROCESSES /\ ~ pid_used k x.
Proof.
  intros Hlen Hn. pose proof (get_free_pid_spec k Hlen) as H. unfold wp in H.
  destruct (get_free_pid k) as [pid k1| | |]; [|done..]. destruct H as (_ & [[_ Hall]|H]); [by destruct Hn | by exists pid].
Qed.
Lemma start_process_full k start : length (k_processes k) = Z.to_nat MAX_PROCESSES -> table_full k ->
  start_process start k = Ok (-1) k.
Proof.
  intros Hlen Hall. pose proof (get_free_pid_spec k Hlen) as H. unfold start_process, bind. unfold wp in H.
  destruct (get_free_pid k) as [pid k1| | |]; [|done..]. destruct H as [-> [[-> _]|[Hp Hf]]]; [done|]. destruct Hf. by apply Hall.
Qed.

(** C13. start_process gives a new process an id no process has, a record with
    the initial registers, directory and handles, a place at the head of the
    ready list, and an address space that is exactly the stack (64 KB of
    fresh zeroed frames), the code of the image and the kernel; no frame in
    use and no other process changes.  With the table full it returns -1 and
    changes nothing.  The only other outcome is the assertion that the kernel
    heap is exhausted. *)
Theorem start_process_correct k A R S cs start :
  pinv A (k_pages k) -> heap_inv buddy_holds k -> sched R S k -> k_paging k = None ->
  e_code_start (k_env k) = cs * PAGE_SIZE -> 0 <= cs -> e_code_end (k_env k) <= 2 ^ 32 - PAGE_SIZE ->
  room A (1 + (KERNEL_PAGES + (code_pages cs (e_code_end (k_env k)) + 2 * STACK_PAGES))) ->
  (table_full k -> start_process start k = Ok (-1) k) /\
  (~ table_full k -> wpx (start_process start) (fun pid k' => started (Inv := buddy_holds) k A R S cs start pid k') k).
Proof.
  intros H1 H2 H3 H4 H5 H6 H7 H8. split; [apply start_process_full, H3|]. intros Hn.
  apply start_process_spec; try done. by apply not_full; [apply H3|].
Qed.

(** One process, no frame in use and a heap of 16 KB. *)
Definition start_demo : kstate := (demo 1) <| k_heap := Buddy.buddy_init 14 4096 ∅ |>.
Lemma start_demo_inv : heap_inv buddy_holds start_demo.
Proof.
  exists ∅. split; [split; [apply init_wf | apply init_coalesced]; vm_compute; by split || done|].
  split; intros ? ?; by rewrite ?fmap_empty, lookup_empty.
Qed.
Lemma start_demo_sched : sched [1] [] start_demo.
Proof. apply (sched_frame [1] [] (demo 1)); [apply demo_sched1 | reflexivity..]. Qed.
Lemma start_demo_free : ~ table_full start_demo.
Proof. intros H. destruct (H 2 ltac:(done)) as (p & Hp & He). change (zlookup (k_processes (demo 1)) 2 = Some p) in Hp. by apply demo_lookup in Hp as ->. Qed.
Lemma start_process_correct_witness :
  wpx (start_process 0x100300) (fun pid k' => started (Inv := buddy_holds) start_demo ∅ [1] [] 0x100 0x100300 pid k') start_demo.
Proof.
  destruct (start_process_correct start_demo ∅ [1] [] 0x100 0x100300 (initial_pinv ∅) start_demo_inv start_demo_sched) as [_ H];
    [reflexivity | reflexivity | lia | by vm_compute | by vm_compute |]. exact (H start_demo_free).
Defined.

(** ** fork *)

(** What fork relies on: the process [c] runs in an address space of its own,
    its segments are whole pages, apart from each other and backed by frames
    in use, its descriptors refer to handles, and there are frames for the
    child. *)
Record forkable (k : kstate) (c : Z) (p : process) (A : gset Z) (T V : gmap Z Z) (ts te ds de ss se : Z) : Prop := {
  fa_current : k_current k = Some c;
  fa_process : zlookup (k_processes k) c = Some p;
  fa_exists : p_exists p <> 0;
  fa_space : space A (k_pages k) (p_pdir p) T V;
  fa_text : segment_pages (p_text_start p) (p_text_end p) ts te;
  fa_data : segment_pages (p_data_start p) (p_data_end p) ds de;
  fa_stack : segment_pages (p_stack_start p) (p_stack_end p) ss se;
  fa_apart : (te <= ds \/ de <= ts) /\ (te <= ss \/ se <= ts) /\ (de <= ss \/ se <= ds);
  fa_backed n : seg_pages ts te ds de ss se n = true -> backed A V n;
  fa_descriptors : length (p_filedesc p) = Z.to_nat MAX_FDS;
  fa_handles : handles_ok (k_objs k) (p_filedesc p);
  fa_room : room A (1 + (KERNEL_PAGES + (2 * (te - ts) + (2 * (de - ds) + 2 * (se - ss)))))
}.

Lemma forkable_spec k c p A T V R S ts te ds de ss se r : forkable k c p A T V ts te ds de ss se -> sched R S k ->
  (exists x, 1 <= x < MAX_PROCESSES /\ ~ pid_used k x) ->
  wp (syscall_fork r) (fun child k' => forked k c p A V R S ts te ds de ss se r child k') k.
Proof. intros [] Hs Hx. by eapply fork_spec. Qed.

(** C14. fork makes a child that is a copy: its record has the parent's
    segments, descriptors, working directory and registers, with a zero in
    eax; each page of its text, data and
    stack is a frame of its own with the bytes of the parent's, the kernel is
    mapped besides and nothing else; every handle of the parent is referred
    to once more for each descriptor; the child is at the head of the ready
    list; no frame in use and no other process changes.  With the table full
    it returns -EAGAIN and changes nothing. *)
Theorem fork_correct k c p A T V R S ts te ds de ss se r :
  forkable k c p A T V ts te ds de ss se -> sched R S k ->
  (table_full k -> syscall_fork r k = Ok (- EAGAIN) k) /\
  (~ table_full k -> wp (syscall_fork r) (fun child k' => forked k c p A V R S ts te ds de ss se r child k') k).
Proof.
  intros F Hs. split; [|intros Hn; apply (forkable_spec k c p A T V); [done | done | by apply not_full; [apply Hs|]]].
  intros Hall. pose proof (get_free_pid_spec k (sc_table Hs)) as H. unfold syscall_fork, bind. unfold wp in H.
  destruct (get_free_pid k) as [pid k1| | |]; [|done..]. destruct H as [-> [[-> _]|[Hp Hf]]]; [done|]. destruct Hf. by apply Hall.
Qed.

(** A process with a stack of two pages and two descriptors for one handle. *)
Definition fork_space : M pages Z := d <- alloc_page; map_new_pages d (0x10 * PAGE_SIZE) 2;; ret d.
Definition fork_demo_pages : pages := final fork_space (initial_pages ∅).
Definition FORK_HANDLE : Z := 4096.
Definition fork_demo_process : process :=
  (demo_process 1 1) <| p_pdir := PAGE_START |>
    <| p_stack_start := 0x10000 |> <| p_stack_end := 0x12000 |> <| p_data_start := 0x20000 |> <| p_data_end := 0x20000 |>
    <| p_text_start := 0x30000 |> <| p_text_end := 0x30000 |>
    <| p_filedesc := 0 :: FORK_HANDLE :: FORK_HANDLE :: replicate 13 0 |>.
Definition fork_demo : kstate :=
  (demo 1) <| k_processes := zinsert 1 fork_demo_process (k_processes (demo 1)) |>
    <| k_objs := {[ FORK_HANDLE := OFh screen_handle ]} |> <| k_pages := fork_demo_pages |> <| k_paging := Some PAGE_START |>.

Lemma fork_demo_eq : fork_space (initial_pages ∅) = Ok PAGE_START fork_demo_pages.
Proof.
  assert (H : result fork_space (initial_pages ∅) = Some PAGE_START) by (vm_compute; reflexivity).
  exact (run_eq fork_space (initial_pages ∅) PAGE_START H).
Qed.
#[local] Opaque fork_demo_pages.

(** The frames behind the stack. *)
Lemma fork_demo_frames : exists A T V L, space A fork_demo_pages PAGE_START T V /\ Z.of_nat (size A) <= 5 /\
  length L = 2%nat /\ PageTheorems.backed A PAGE_START T V 0x10 L.
Proof.
  assert (H : wp fork_space (fun d pg => exists A T V L, space A pg d T V /\ Z.of_nat (size A) <= 5 /\
    length L = 2%nat /\ PageTheorems.backed A d T V 0x10 L) (initial_pages ∅)).
  { unfold fork_space. wp_step. eapply wp_mono; [apply (alloc_page_wp ∅); [apply initial_pinv | done]|]. intros d pg Hf.
    pose proof (new_dir _ _ _ _ (initial_pinv ∅) Hf) as Hsp. wp_step.
    eapply wp_mono; [apply (map_new_pages_wp _ _ _ _ _ _ 2 Hsp); [done | done | done |]|].
    { unfold room. rewrite union_empty_r_L, size_singleton, MAX_FRAMES_eq. lia. }
    intros [] pg' (A' & T' & V' & L & Hsp' & _ & HL & Hb & [Hnd Hnew] & Hsz & _). apply wp_ret. exists A', T', V', L.
    split; [done|]. split; [rewrite union_empty_r_L, size_singleton in Hsz; lia|]. split; [lia|]. split.
    - done.
    - intros i a Hi. rewrite Hb. replace (0x10 + i - 0x10) with i by lia. by rewrite Hi.
    - intros a Ha. by destruct (Hnew a Ha) as (_ & ? & ? & _). }
  exact (wp_result _ _ _ _ _ H fork_demo_eq).
Qed.
Lemma fork_demo_space : exists A T V, space A fork_demo_pages PAGE_START T V /\ Z.of_nat (size A) <= 5 /\
  forall n, 0x10 <= n < 0x12 -> backed A V n.
Proof.
  destruct fork_demo_frames as (A & T & V & L & Hsp & Hsz & HL & Hb). exists A, T, V. split; [exact Hsp|]. split; [exact Hsz|]. intros n Hn.
  destruct (zlookup_is_Some L (n - 0x10)) as [x Hx]; [lia|]. exists (pte x PAGE_USER PAGE_READ_WRITE).
  pose proof (PageTheorems.bk_entry _ _ _ _ _ _ Hb _ _ Hx) as E. replace (0x10 + (n - 0x10)) with n in E by lia. split; [exact E|].
  assert (HxA : x ∈ A).
  { apply (PageTheorems.bk_owned _ _ _ _ _ _ Hb). unfold zlookup in Hx. destruct (n - 0x10 <? 0); [done|]. by eapply list_elem_of_lookup_2. }
  rewrite pte_phys; [exact HxA | | split; by left]. apply frame_aligned, (pinv_frame _ _ _ (sp_inv Hsp) HxA).
Qed.

Lemma fork_demo_handles : handles_ok (k_objs fork_demo) (p_filedesc fork_demo_process).
Proof.
  intros fh Hin Hnz. assert (fh = FORK_HANDLE) as ->.
  { change (p_filedesc fork_demo_process) with (0 :: FORK_HANDLE :: FORK_HANDLE :: replicate 13 0) in Hin.
    rewrite !elem_of_cons, elem_of_replicate in Hin. naive_solver. }
  eexists _, _. split; [apply lookup_insert_eq | reflexivity].
Qed.
Lemma fork_demo_free : ~ table_full fork_demo.
Proof.
  intros H. destruct (H 2 ltac:(done)) as (p & Hp & He). change (zlookup (zinsert 1 fork_demo_process (k_processes (demo 1))) 2 = Some p) in Hp.
  rewrite zlookup_zinsert_ne in Hp by done. by apply demo_lookup in Hp as ->.
Qed.
Lemma fork_demo_sched : sched [1] [] fork_demo.
Proof.
  eapply (sched_frame [1] [] ((demo 1) <| k_processes := zinsert 1 fork_demo_process (k_processes (demo 1)) |>)); [|reflexivity..].
  apply (sched_upd [1] [] (demo 1) 1 (demo_process 1 1)); [apply demo_sched1 | by apply demo_at | vm_compute; by repeat split].
Qed.
Lemma fork_demo_ok : exists A T V, forkable fork_demo 1 fork_demo_process A T V 0x30 0x30 0x20 0x20 0x10 0x12.
Proof.
  destruct fork_demo_space as (A & T & V & Hsp & Hsz & Hb). exists A, T, V. split; try exact fork_demo_handles; try exact Hsp.
  - reflexivity.
  - apply zlookup_zinsert_eq. by vm_compute.
  - done.
  - by split.
  - by split.
  - by split.
  - lia.
  - intros n Hn. apply Hb. unfold seg_pages, pages_of in Hn. lia.
  - reflexivity.
  - unfold room. rewrite MAX_FRAMES_eq. change KERNEL_PAGES with 1536. lia.
Qed.

Lemma fork_correct_witness : exists A V,
  wp (syscall_fork regs_zero) (fun child k' =>
    forked fork_demo 1 fork_demo_process A V [1] [] 0x30 0x30 0x20 0x20 0x10 0x12 regs_zero child k') fork_demo.
Proof.
  destruct fork_demo_ok as (A & T & V & H). exists A, V.
  destruct (fork_correct fork_demo 1 fork_demo_process A T V [1] [] 0x30 0x30 0x20 0x20 0x10 0x12 regs_zero H fork_demo_sched) as [_ Hf].
  exact (Hf fork_demo_free).
Defined.
