(* ===== verification/HandleProofs.v ===== *)
(** * File handles: reference counts (source/filedesc.c, source/pipe.c)

    The invariant of the objects behind file descriptors: a handle counts the
    descriptors that refer to it, each end of a pipe belongs to one handle, a
    pipe has an open end, and a process recorded as blocked on a pipe is on the
    list of suspended processes.  Closing a handle keeps it. *)

From S2P Require Import Prelude Constants Libc Page Kernel Process ProcessInv ProcessTheorems UserMemory KernelMem Pipe Allocator PipeProofs Filedesc Lifecycle LifecycleProofs ForkProofs.

(** ** Ends of pipes *)

(** The end of a pipe a handle stands for: [(true, b)] reads from the pipe
    [b], [(false, b)] writes to it. *)
Definition pipe_end (f : filehandle) : option (bool * Z) :=
  match fh_destroy f, fh_p f with
  | Some pipe_reader_destroy_f, Some b => Some (true, b)
  | Some pipe_writer_destroy_f, Some b => Some (false, b)
  | _, _ => None
  end.
(** The handle can be destroyed. *)
Definition complete (f : filehandle) : Prop :=
  match fh_destroy f with
  | Some screen_destroy_f | Some file_destroy_f => True
  | Some pipe_reader_destroy_f | Some pipe_writer_destroy_f => is_Some (fh_p f)
  | None => False
  end.

Lemma pipe_end_refcount f n : pipe_end (f <| fh_refcount := n |>) = pipe_end f.
Proof. done. Qed.
Lemma complete_refcount f n : complete (f <| fh_refcount := n |>) <-> complete f.
Proof. done. Qed.

(** ** The invariant *)

(** [U a] is the number of references to the handle at [a], [S] the list of
    suspended processes. *)
Record hinv (U : Z -> Z) (S : list Z) (k : kstate) : Prop := {
  hv_count a : 0 <= U a;
  hv_handle a : U a <> 0 -> exists f, k_objs k !! a = Some (OFh f) /\ fh_refcount f = Some (U a) /\ complete f;
  hv_end a f e b : U a <> 0 -> k_objs k !! a = Some (OFh f) -> pipe_end f = Some (e, b) ->
    exists p n, k_objs k !! b = Some (OPipe p) /\ (if e : bool then b_reading p else b_writing p) = Some n /\ n <> 0;
  hv_unique a a' f f' e : U a <> 0 -> U a' <> 0 -> k_objs k !! a = Some (OFh f) -> k_objs k !! a' = Some (OFh f') ->
    pipe_end f = Some e -> pipe_end f' = Some e -> a = a';
  hv_pipe b p : k_objs k !! b = Some (OPipe p) -> exists r w pid l data bytes, pipe_at k b r w pid l data bytes /\
    (r <> 0 \/ w <> 0) /\ (pid = -1 \/ (pid ∈ S /\ w <> 0));
  hv_data b b' p p' d : k_objs k !! b = Some (OPipe p) -> k_objs k !! b' = Some (OPipe p') ->
    b_data p = Some d -> b_data p' = Some d -> b = b';
  hv_blocked b b' p p' pid : k_objs k !! b = Some (OPipe p) -> k_objs k !! b' = Some (OPipe p') ->
    b_readpid p = Some pid -> b_readpid p' = Some pid -> pid <> -1 -> b = b'
}.
Arguments hv_count {U S k} _ _.
Arguments hv_handle {U S k} _ {a} _.
Arguments hv_end {U S k} _ {a f e b} _ _ _.
Arguments hv_unique {U S k} _ {a a' f f' e} _ _ _ _ _ _.
Arguments hv_pipe {U S k} _ {b p} _.
Arguments hv_data {U S k} _ {b b' p p' d} _ _ _ _.
Arguments hv_blocked {U S k} _ {b b' p p' pid} _ _ _ _ _.

(** No handle is lost: every one is referred to. *)
Definition no_leak (U : Z -> Z) (k : kstate) : Prop := forall a f, k_objs k !! a = Some (OFh f) -> 0 < U a.

Lemma hinv_objs U S k k' : k_objs k' = k_objs k -> hinv U S k -> hinv U S k'.
Proof.
  intros E H. split; rewrite ?E; try apply H. intros b p Hb.
  destruct (hv_pipe H Hb) as (r & w & pid & l & d & bs & P & HH). exists r, w, pid, l, d, bs. split; [|done].
  split; rewrite ?E; apply P.
Qed.
Lemma hinv_ext U U' S k : (forall a, U' a = U a) -> hinv U S k -> hinv U' S k.
Proof. intros E H. split; intros *; rewrite ?E; apply H. Qed.

(** ** Steps that keep it *)

(** A handle may change in fields other than its end; its count is [n]. *)
Lemma hinv_handle U S k a f f' n : hinv U S k -> k_objs k !! a = Some (OFh f) -> U a <> 0 -> pipe_end f' = pipe_end f -> complete f' ->
  fh_refcount f' = Some n -> 0 <= n -> hinv (fun x => if decide (x = a) then n else U x) S (k <| k_objs ::= insert a (OFh f') |>).
Proof.
  intros H Ha Hu He Hc Hr Hn.
  assert (Hpipe : forall b p, <[a := OFh f']> (k_objs k) !! b = Some (OPipe p) <-> k_objs k !! b = Some (OPipe p)).
  { intros b p. destruct (decide (b = a)) as [-> |Hne]; [rewrite lookup_insert_eq, Ha; naive_solver | by rewrite lookup_insert_ne]. }
  assert (Hfh : forall x g, (if decide (x = a) then n else U x) <> 0 -> <[a := OFh f']> (k_objs k) !! x = Some (OFh g) ->
    exists g0, k_objs k !! x = Some (OFh g0) /\ U x <> 0 /\ pipe_end g0 = pipe_end g).
  { intros x g Hx Hg. destruct (decide (x = a)) as [-> |Hne].
    - rewrite lookup_insert_eq in Hg. injection Hg as <-. by exists f.
    - rewrite lookup_insert_ne in Hg by done. by exists g. }
  split; cbn.
  - intros x. case_decide; [done | apply H].
  - intros x Hx. case_decide as E; [subst x; rewrite lookup_insert_eq; by exists f'|]. rewrite lookup_insert_ne by done. by apply H.
  - intros x g e b Hx Hg Hp. destruct (Hfh x g Hx Hg) as (g0 & Hg0 & Hu0 & E). rewrite <- E in Hp.
    destruct (hv_end H Hu0 Hg0 Hp) as (p & m & Hb & ?). exists p, m. by rewrite Hpipe.
  - intros x y g g' e Hx Hy Hg Hg' Hp Hp'. destruct (Hfh x g Hx Hg) as (g0 & Hg0 & Hu0 & E), (Hfh y g' Hy Hg') as (g1 & Hg1 & Hu1 & E').
    rewrite <- E in Hp. rewrite <- E' in Hp'. exact (hv_unique H Hu0 Hu1 Hg0 Hg1 Hp Hp').
  - intros b p Hb. rewrite Hpipe in Hb. destruct (hv_pipe H Hb) as (r & w & pid & l & d & bs & P & HH).
    exists r, w, pid, l, d, bs. split; [|done]. split; cbn; try apply P; [apply Hpipe, P|].
    rewrite lookup_insert_ne; [apply P|]. intros ->. pose proof (pa_data P). congruence.
  - intros *. rewrite !Hpipe. apply H.
  - intros *. rewrite !Hpipe. apply H.
Qed.

(** An object nobody refers to may go, if it is no part of a pipe. *)
Lemma hinv_delete U S k k' a o : hinv U S k -> U a = 0 -> k_objs k !! a = Some o -> (forall p, o <> OPipe p) ->
  (forall b r w pid l bytes, ~ pipe_at k b r w pid l a bytes) -> k_objs k' = delete a (k_objs k) -> hinv U S k'.
Proof.
  intros H Hu Ha Ho Hd E.
  assert (Hne : forall x, U x <> 0 -> x <> a) by (by intros x Hx ->).
  assert (Hpipe : forall b p, delete a (k_objs k) !! b = Some (OPipe p) <-> k_objs k !! b = Some (OPipe p)).
  { intros b p. destruct (decide (b = a)) as [-> |Hba]; [rewrite lookup_delete_eq, Ha; naive_solver | by rewrite lookup_delete_ne]. }
  split; rewrite ?E.
  - apply H.
  - intros x Hx. rewrite lookup_delete_ne by (symmetry; by apply Hne). by apply H.
  - intros x f e b Hx. rewrite lookup_delete_ne by (symmetry; by apply Hne). intros Hf He.
    destruct (hv_end H Hx Hf He) as (p & n & Hp & ?). exists p, n. by rewrite Hpipe.
  - intros x y f f' e Hx Hy. rewrite !lookup_delete_ne by (symmetry; by apply Hne). by apply H.
  - intros b p Hb. rewrite Hpipe in Hb. destruct (hv_pipe H Hb) as (r & w & pid & l & d & bs & P & HH).
    exists r, w, pid, l, d, bs. split; [|done]. split; rewrite ?E; try apply P; [apply Hpipe, P|].
    rewrite lookup_delete_ne; [apply P|]. intros ->. by eapply Hd.
  - intros *. rewrite !Hpipe. apply H.
  - intros *. rewrite !Hpipe. apply H.
Qed.

(** *** Pipes *)

(** What a pipe [b] with the buffer [data], on which [pid] is blocked, may
    become; [S'] is the new list of suspended processes. *)
Definition pipe_becomes (U : Z -> Z) (S' : list Z) (k : kstate) (b data pid : Z) (k' : kstate) : Prop :=
  (k_objs k' !! b = None /\ k_objs k' !! data = None /\
    (forall a f e, U a <> 0 -> k_objs k !! a = Some (OFh f) -> pipe_end f <> Some (e, b))) \/
  (exists r w pid' l bytes, pipe_at k' b r w pid' l data bytes /\ (r <> 0 \/ w <> 0) /\
    (pid' = -1 \/ (pid' = pid /\ pid' ∈ S' /\ w <> 0)) /\
    forall a f e, U a <> 0 -> k_objs k !! a = Some (OFh f) -> pipe_end f = Some (e, b) -> if e : bool then r <> 0 else w <> 0).

Section pipe_step.
  Context (U : Z -> Z) (S S' : list Z) (k k' : kstate) (b r w pid : Z) (l : list Z) (data : Z) (bytes : list Z).
  Context (H : hinv U S k) (P : pipe_at k b r w pid l data bytes).
  Context (Hother : forall x, x <> b -> x <> data -> k_objs k' !! x = k_objs k !! x).
  Context (Hb : pipe_becomes U S' k b data pid k') (HS : forall x, x ∈ S -> x <> pid -> x ∈ S').

Lemma step_fh x f : U x <> 0 -> k_objs k' !! x = Some (OFh f) <-> k_objs k !! x = Some (OFh f).
Proof using H P Hother.
  intros Hx. destruct (hv_handle H Hx) as (g & Hg & _). rewrite Hother; [done | intros ->; by rewrite (pa_pipe P) in Hg |].
  intros ->. by rewrite (pa_data P) in Hg.
Qed.
Lemma step_pipe y p : y <> b -> k_objs k' !! y = Some (OPipe p) <-> k_objs k !! y = Some (OPipe p).
Proof using P Hother Hb.
  intros Hy. destruct (decide (y = data)) as [-> |Hd]; [|by rewrite Hother].
  rewrite (pa_data P). split; [|done]. destruct Hb as [(_ & -> & _)|(r' & w' & pid' & l' & bs' & P' & _)]; [done|].
  by rewrite (pa_data P').
Qed.
Lemma step_self p : k_objs k' !! b = Some (OPipe p) -> b_data p = Some data /\ (b_readpid p = Some (-1) \/ b_readpid p = Some pid).
Proof using Hb.
  intros Hbp. destruct Hb as [[E _]|(r' & w' & pid' & l' & bs' & P' & _ & Hpid' & _)]; [congruence|].
  rewrite (pa_pipe P') in Hbp. injection Hbp as <-. split; [done|]. cbn. destruct Hpid' as [-> |[-> _]]; auto.
Qed.

Lemma hinv_pipe : hinv U S' k'.
Proof using All.
  split.
  - apply H.
  - intros a Ha. destruct (hv_handle H Ha) as (f & Hf & HH). exists f. by rewrite step_fh.
  - intros a f e y Ha Hf He. rewrite step_fh in Hf by done. destruct (hv_end H Ha Hf He) as (p & n & Hp & Hn & Hn0).
    destruct (decide (y = b)) as [-> |Hy]; [|exists p, n; by rewrite step_pipe].
    destruct Hb as [(_ & _ & Hno)|(r' & w' & pid' & l' & bs' & P' & _ & _ & Hends)]; [by destruct (Hno a f e Ha Hf)|].
    specialize (Hends a f e Ha Hf He). eexists _, (if e then r' else w'). split; [apply P'|]. by destruct e.
  - intros a a' f f' e Ha Ha' Hf Hf'. rewrite step_fh in Hf, Hf' by done. by apply (hv_unique H).
  - intros y p Hy. destruct (decide (y = b)) as [-> |Hne].
    + destruct Hb as [[E _]|(r' & w' & pid' & l' & bs' & P' & Ho & Hpid' & _)]; [congruence|].
      exists r', w', pid', l', data, bs'. split; [done|]. split; [done|]. tauto.
    + rewrite step_pipe in Hy by done. destruct (hv_pipe H Hy) as (r1 & w1 & pid1 & l1 & d1 & bs1 & P1 & Ho & Hpid1).
      assert (Hd1 : d1 <> data). { intros ->. apply Hne. by apply (hv_data H (pa_pipe P1) (pa_pipe P) eq_refl). }
      exists r1, w1, pid1, l1, d1, bs1. split; [|split; [done|]].
      * split; try apply P1; [by apply step_pipe; [|apply P1]|]. rewrite Hother; [apply P1 | | done].
        intros ->. pose proof (pa_data P1). pose proof (pa_pipe P). congruence.
      * destruct Hpid1 as [?|[Hin Hw]]; [by left | destruct (decide (pid1 = -1)) as [|Hn1]; [by left|]]. right. split; [|done]. apply HS; [done|].
        intros ->. apply Hne. by apply (hv_blocked H (pa_pipe P1) (pa_pipe P) eq_refl eq_refl).
  - intros x y p q d Hx Hy Hdx Hdy. destruct (decide (x = b)) as [-> |Hxb], (decide (y = b)) as [-> |Hyb]; [done|..].
    + rewrite step_pipe in Hy by done. destruct (step_self p Hx) as [E _]. rewrite E in Hdx. injection Hdx as <-.
      symmetry. by apply (hv_data H Hy (pa_pipe P) Hdy).
    + rewrite step_pipe in Hx by done. destruct (step_self q Hy) as [E _]. rewrite E in Hdy. injection Hdy as <-.
      by apply (hv_data H Hx (pa_pipe P) Hdx).
    + rewrite step_pipe in Hx, Hy by done. exact (hv_data H Hx Hy Hdx Hdy).
  - intros x y p q n Hx Hy Hnx Hny Hn. destruct (decide (x = b)) as [-> |Hxb], (decide (y = b)) as [-> |Hyb]; [done|..].
    + rewrite step_pipe in Hy by done. destruct (step_self p Hx) as [_ [E|E]]; rewrite E in Hnx; injection Hnx as <-; [done|].
      symmetry. by apply (hv_blocked H Hy (pa_pipe P) Hny).
    + rewrite step_pipe in Hx by done. destruct (step_self q Hy) as [_ [E|E]]; rewrite E in Hny; injection Hny as <-; [done|].
      by apply (hv_blocked H Hx (pa_pipe P) Hnx).
    + rewrite step_pipe in Hx, Hy by done. exact (hv_blocked H Hx Hy Hnx Hny Hn).
Qed.
End pipe_step.

(** ** What else a step changes *)

(** A process but for its place on the lists. *)
Definition core (p : process) : process := (unlinked p) <| p_ready := 0 |>.

(** Only the heap and the lists have changed. *)
Definition quiet (k k' : kstate) : Prop :=
  exists h os n ps r s, k' = (heap_state k h os n) <| k_processes := ps |> <| k_ready := r |> <| k_suspended := s |> /\
    core <$> ps = core <$> k_processes k.

Lemma quiet_heap (X : Z -> Prop) k k' : heap_changed X k k' -> quiet k k'.
Proof.
  intros (h & o & n & -> & _). exists h, o, n, (k_processes k), (k_ready k), (k_suspended k). split; [by destruct k | done].
Qed.
Lemma quiet_refl k : quiet k k.
Proof. apply (quiet_heap (fun _ => False)), heap_changed_refl. Qed.
Lemma quiet_trans k k1 k2 : quiet k k1 -> quiet k1 k2 -> quiet k k2.
Proof.
  intros (h & o & n & ps & r & s & -> & E) (h' & o' & n' & ps' & r' & s' & -> & E'). exists h', o', n', ps', r', s'.
  split; [done|]. rewrite E'. exact E.
Qed.
Lemma quiet_released a k k' : released a k k' -> quiet k k'.
Proof. intros HR. apply (quiet_heap (fun x => x = a)). by eapply heap_changed_released. Qed.
Lemma quiet_insert a o k : quiet k (k <| k_objs ::= insert a o |>).
Proof. apply (quiet_heap (fun x => x = a)). by apply heap_changed_insert. Qed.
Lemma zlookup_nat {A} (l : list A) i : zlookup l (Z.of_nat i) = l !! i.
Proof. unfold zlookup. destruct (Z.ltb_spec (Z.of_nat i) 0); [lia|]. by rewrite Nat2Z.id. Qed.
Lemma core_unlinked p q v : unlinked p = unlinked (q <| p_ready := v |>) -> core p = core q.
Proof. intros E. unfold core. by rewrite E. Qed.
Lemma moved_core x v k k' : moved x v k k' -> quiet k k'.
Proof.
  intros (ps & r & s & -> & Hlen & Hps). exists (k_heap k), (k_objs k), (k_nallocs k), ps, r, s. split; [by destruct k|].
  apply list_eq. intros i. rewrite !list_lookup_fmap. destruct (k_processes k !! i) as [p|] eqn:E.
  - destruct (Hps (Z.of_nat i) p) as (p' & Hp' & Hu); [by rewrite zlookup_nat|]. rewrite zlookup_nat in Hp'. rewrite Hp'. cbn. f_equal.
    destruct (decide (Z.of_nat i = x)); [by apply (core_unlinked p' p v)|]. unfold core. by rewrite Hu.
  - rewrite lookup_ge_None_2; [done|]. rewrite Hlen. by apply lookup_ge_None_1.
Qed.
Lemma woken_quiet pid R S k k' : woken pid R S k k' -> quiet k k'.
Proof. intros [(_ & -> & _)|(S1 & S2 & _ & Hm & _)]; [apply quiet_refl | by eapply moved_core]. Qed.
Lemma woken_objs pid R S k k' : woken pid R S k k' -> k_objs k' = k_objs k /\ k_heap k' = k_heap k.
Proof. intros [(_ & -> & _)|(S1 & S2 & _ & Hm & _)]; [done | by apply (moved_heap _ _ _ _ Hm)]. Qed.

(** The lists before and after: at most one process has become ready. *)
Definition wakes (R S R' S' : list Z) : Prop :=
  (R' = R /\ S' = S) \/ exists pid S1 S2, S = S1 ++ pid :: S2 /\ R' = pid :: R /\ S' = S1 ++ S2.

(** ... namely [pid], when somebody was recorded. *)
Definition wakes_up (pid : Z) (R S R' S' : list Z) : Prop :=
  (pid = -1 /\ R' = R /\ S' = S) \/ (pid <> -1 /\ exists S1 S2, S = S1 ++ pid :: S2 /\ R' = pid :: R /\ S' = S1 ++ S2).
Lemma wakes_up_wakes pid R S R' S' : wakes_up pid R S R' S' -> wakes R S R' S'.
Proof. intros [(_ & H)|(_ & S1 & S2 & H)]; [by left | right; by exists pid, S1, S2]. Qed.

Lemma woken_lists pid R S k k' : woken pid R S k k' -> exists R' S', wakes_up pid R S R' S' /\ sched R' S' k' /\
  (forall x, x ∈ S -> x <> pid -> x ∈ S').
Proof.
  intros [(-> & -> & Hs)|(S1 & S2 & -> & _ & Hs)].
  - exists R, S. split; [by left | done].
  - exists (pid :: R), (S1 ++ S2). split; [|split; [done | set_solver]]. right. split; [|by exists S1, S2].
    intros ->. destruct (dlist_elem _ _ _ (-1) (sc_ready Hs)) as [q Hq]; [apply list_elem_of_here|]. apply zlookup_range in Hq. lia.
Qed.

(** ** What closing a handle does

    As a relation on the objects of the heap and the two lists. *)

(** The pipe [b] with the buffer [data] has become [p]: it is freed once neither
    end is open. *)
Definition end_closed (os : gmap Z obj) (b : Z) (p : pipe_buffer) (data : Z) : gmap Z obj :=
  if decide (b_reading p = Some 0 /\ b_writing p = Some 0) then delete b (delete data os) else <[b := OPipe p]> os.

(** The handle [f] at [a] is destroyed: with a reading end the pipe is not read
    from any more; with a writing end it is not written to any more, and a
    process that is blocked on it becomes ready. *)
Inductive destroys (os : gmap Z obj) (R S : list Z) (a : Z) (f : filehandle) : gmap Z obj -> list Z -> list Z -> Prop :=
  | destroys_plain : pipe_end f = None -> destroys os R S a f (delete a os) R S
  | destroys_reader b p data : pipe_end f = Some (true, b) -> os !! b = Some (OPipe p) -> b_data p = Some data ->
      destroys os R S a f (delete a (end_closed os b (p <| b_reading := Some 0 |>) data)) R S
  | destroys_writer b p data pid R' S' : pipe_end f = Some (false, b) -> os !! b = Some (OPipe p) -> b_data p = Some data ->
      b_readpid p = Some pid -> wakes_up pid R S R' S' ->
      destroys os R S a f (delete a (end_closed os b (p <| b_writing := Some 0 |> <| b_readpid := Some (-1) |>) data)) R' S'.

(** One reference to the handle at [a] is dropped; it is destroyed with the
    last one. *)
Inductive closes (os : gmap Z obj) (R S : list Z) (a : Z) : gmap Z obj -> list Z -> list Z -> Prop :=
  | closes_shared f n : os !! a = Some (OFh f) -> fh_refcount f = Some n -> n <> 1 ->
      closes os R S a (<[a := OFh (f <| fh_refcount := Some (n - 1) |>)]> os) R S
  | closes_last f os' R' S' : os !! a = Some (OFh f) -> fh_refcount f = Some 1 -> destroys os R S a f os' R' S' ->
      closes os R S a os' R' S'.

Lemma closes_wakes os R S a os' R' S' : closes os R S a os' R' S' -> wakes R S R' S'.
Proof. intros [|f os1 R1 S1 _ _ [| |b p data pid R2 S2 _ _ _ _ Hw]]; try by left. by apply wakes_up_wakes in Hw. Qed.

(** An end that is marked as open is the end of a handle. *)
Definition live_ends (os : gmap Z obj) : Prop :=
  forall b p (e : bool) n, os !! b = Some (OPipe p) -> (if e then b_reading p else b_writing p) = Some n -> n <> 0 ->
    exists a f, os !! a = Some (OFh f) /\ pipe_end f = Some (e, b).

Lemma end_closed_lookup os b p data x : x <> b -> x <> data -> end_closed os b p data !! x = os !! x.
Proof. intros H1 H2. unfold end_closed. case_decide; [by rewrite !lookup_delete_ne | by rewrite lookup_insert_ne]. Qed.
Lemma end_closed_pipe os b p data x q l : os !! data = Some (OBytes l) -> end_closed os b p data !! x = Some (OPipe q) ->
  if decide (x = b) then q = p else os !! x = Some (OPipe q).
Proof.
  intros Hd. unfold end_closed. destruct (decide (_ /\ _)); destruct (decide (x = b)) as [-> |Hne].
  - by rewrite lookup_delete_eq.
  - rewrite lookup_delete_ne by done. by intros [_ ?]%lookup_delete_Some.
  - rewrite lookup_insert_eq. by intros [= <-].
  - by rewrite lookup_insert_ne.
Qed.

(** Closing one end of a pipe keeps it. *)
Lemma live_ends_closed os a f e b p q data l : live_ends os -> os !! a = Some (OFh f) -> pipe_end f = Some (e, b) ->
  os !! b = Some (OPipe p) -> os !! data = Some (OBytes l) ->
  (if e : bool then b_reading q = Some 0 /\ b_writing q = b_writing p else b_writing q = Some 0 /\ b_reading q = b_reading p) ->
  live_ends (delete a (end_closed os b q data)).
Proof.
  intros H Ha He Hb Hd Hq x px e' n [_ Hx]%lookup_delete_Some Hn Hn0. pose proof (end_closed_pipe _ _ _ _ _ _ _ Hd Hx) as Hpx.
  assert (Hold : exists a' g, os !! a' = Some (OFh g) /\ pipe_end g = Some (e', x) /\ (e', x) <> (e, b)).
  { destruct (decide (x = b)) as [-> |Hne]; [subst px|].
    - assert (e' <> e) by (intros ->; destruct e; destruct Hq; congruence).
      destruct (H b p e' n Hb) as (a' & g & ? & ?); [destruct e, e'; destruct Hq; congruence | done |]. exists a', g. naive_solver.
    - destruct (H x px e' n Hpx Hn Hn0) as (a' & g & ? & ?). exists a', g. naive_solver. }
  destruct Hold as (a' & g & Hg & Hge & Hdiff). exists a', g. split; [|done].
  rewrite lookup_delete_ne by congruence. rewrite end_closed_lookup; [done | congruence..].
Qed.

(** ... and so does freeing a character array. *)
Lemma live_ends_delete os a l : os !! a = Some (OBytes l) -> live_ends os -> live_ends (delete a os).
Proof.
  intros Ha H b p e n [_ Hb]%lookup_delete_Some Hn Hn0. destruct (H b p e n Hb Hn Hn0) as (a' & g & Hg & He). exists a', g.
  rewrite lookup_delete_ne; [done | congruence].
Qed.

(** The buffers of the pipes are character arrays. *)
Definition has_buffers (os : gmap Z obj) : Prop :=
  forall b p data, os !! b = Some (OPipe p) -> b_data p = Some data -> exists l, os !! data = Some (OBytes l).
Lemma hinv_buffers U S k : hinv U S k -> has_buffers (k_objs k).
Proof.
  intros H b p data Hb Hd. destruct (hv_pipe H Hb) as (r & w & pid & l & d & bs & P & _). rewrite (pa_pipe P) in Hb. injection Hb as <-.
  injection Hd as <-. exists bs. apply P.
Qed.
Lemma closes_live os R S a os' R' S' : has_buffers os -> closes os R S a os' R' S' -> live_ends os -> live_ends os'.
Proof.
  intros HB [f n Ha Hr Hn|f os1 R1 S1 Ha Hr D] H.
  - intros b p e m [[_ ?]|[Hne Hb]]%lookup_insert_Some Hm Hm0; [done|]. destruct (H b p e m Hb Hm Hm0) as (a' & g & Hg & Hge).
    destruct (decide (a' = a)) as [-> |Hna]; [|exists a', g; by rewrite lookup_insert_ne].
    rewrite Ha in Hg. injection Hg as ->. eexists a, _. rewrite lookup_insert_eq. split; [done|]. by rewrite pipe_end_refcount.
  - destruct D as [He|b p data He Hb Hd|b p data pid R2 S2 He Hb Hd Hp Hw].
    + intros b p e m [Hne Hb]%lookup_delete_Some Hm Hm0. destruct (H b p e m Hb Hm Hm0) as (a' & g & Hg & Hge). exists a', g.
      rewrite lookup_delete_ne; [done | congruence].
    + destruct (HB b p data Hb Hd) as [l Hl]. by eapply live_ends_closed.
    + destruct (HB b p data Hb Hd) as [l Hl]. by eapply live_ends_closed.
Qed.

(** ** Closing *)

Section close.
  Context {Inv : gmap Z Z -> Buddy.memarea -> Prop} `{!Allocator Buddy.kmalloc_ma Buddy.kfree_ma Inv}.

Lemma check_buffer_free_spec k b r w pid l data bytes : heap_inv Inv k -> pipe_at k b r w pid l data bytes ->
  (r = 0 -> w = 0 -> pid = -1) ->
  wp (check_buffer_free b) (fun _ k' => heap_inv Inv k' /\ heap_changed (fun x => x = b \/ x = data) k k' /\
    ((r = 0 /\ w = 0 /\ k_objs k' = delete b (delete data (k_objs k))) \/ ((r <> 0 \/ w <> 0) /\ k' = k))) k.
Proof using Allocator0.
  intros Hi P Hpid. pose proof (pipe_at_ne _ _ _ _ _ _ _ _ P) as Hbd. unfold check_buffer_free. wp_step. eapply wp_get_pipe; [apply P|].
  wp_step. apply wp_fld. wp_step. apply wp_fld. unfold truthy. destruct (Z.eqb_spec r 0) as [-> |Hr]; cbn.
  2: { apply wp_ret. split; [done|]. split; [apply heap_changed_refl|]. right. auto. }
  destruct (Z.eqb_spec w 0) as [-> |Hw]; cbn.
  2: { apply wp_ret. split; [done|]. split; [apply heap_changed_refl|]. right. auto. }
  rewrite (Hpid eq_refl eq_refl). wp_step. apply wp_fld. wp_step. apply wp_assert; [done|]. wp_step. apply wp_fld. wp_step.
  eapply wp_mono; [by eapply kfree_spec; [|apply P]|]. intros [] k1 [HR1 Hi1]. destruct HR1 as [h1 E1].
  assert (Hb1 : exists p, k_objs k1 !! b = Some (OPipe p)).
  { eexists. rewrite E1. cbn. rewrite lookup_delete_ne by done. apply P. }
  destruct Hb1 as [p Hb1]. eapply wp_mono; [by eapply kfree_spec|]. intros [] k2 [HR2 Hi2]. split; [done|]. split.
  - eapply heap_changed_trans; [eapply (heap_changed_released (fun x => x = b \/ x = data)); [by exists h1 | by right]
    | eapply (heap_changed_released (fun x => x = b)); [exact HR2 | done] | auto].
  - left. split; [done|]. split; [done|]. destruct HR2 as [h2 ->]. cbn. by rewrite E1.
Qed.

(** The pipe [b] after one of its ends was closed, and after
    check_buffer_free. *)
Lemma closed_end U S S' k k1 k2 b r w pid l data bytes r' w' pid' : hinv U S k -> pipe_at k b r w pid l data bytes ->
  pipe_at k1 b r' w' pid' l data bytes -> (forall x, x <> b -> k_objs k1 !! x = k_objs k !! x) ->
  (pid' = -1 \/ (pid' = pid /\ pid' ∈ S' /\ w' <> 0)) -> (forall x, x ∈ S -> x <> pid -> x ∈ S') ->
  (forall a f e, U a <> 0 -> k_objs k !! a = Some (OFh f) -> pipe_end f = Some (e, b) -> if e : bool then r' <> 0 else w' <> 0) ->
  (r' = 0 /\ w' = 0 /\ k_objs k2 = delete b (delete data (k_objs k1))) \/ ((r' <> 0 \/ w' <> 0) /\ k2 = k1) -> hinv U S' k2.
Proof using.
  intros H P P1 Hx Hpid HS Hends H2. pose proof (pipe_at_ne _ _ _ _ _ _ _ _ P) as Hbd.
  apply (hinv_pipe U S S' k k2 b r w pid l data bytes H P); [|destruct H2 as [(-> & -> & E)|[Ho ->]]|done].
  - intros x Hb Hd. destruct H2 as [(_ & _ & ->)|[_ ->]]; [|by apply Hx].
    rewrite !lookup_delete_ne by congruence. by apply Hx.
  - left. rewrite E, lookup_delete_eq. split; [done|]. rewrite lookup_delete_ne, lookup_delete_eq by done. split; [done|].
    intros a f e Ha Hf He. specialize (Hends a f e Ha Hf He). by destruct e.
  - right. exists r', w', pid', l, bytes. done.
Qed.

(** Nobody waits for [y] on a pipe. *)
Definition idle (k : kstate) (y : Z) : Prop := forall b p, k_objs k !! b = Some (OPipe p) -> b_readpid p <> Some y.
(** A buffer that is not part of a pipe. *)
Definition private (k : kstate) (a : Z) : Prop :=
  (exists l, k_objs k !! a = Some (OBytes l)) /\ forall b p, k_objs k !! b = Some (OPipe p) -> b_data p <> Some a.
(** Idle processes stay so, and stay suspended; private buffers stay so. *)
Definition idle_kept (S S' : list Z) (k k' : kstate) : Prop :=
  (forall y, y <> -1 -> idle k y -> idle k' y /\ (y ∈ S -> y ∈ S')) /\ forall a, private k a -> private k' a.

(** A step that removes or changes handles only. *)
Definition pipes_same (k k' : kstate) : Prop :=
  (forall b p, k_objs k' !! b = Some (OPipe p) -> k_objs k !! b = Some (OPipe p)) /\
  (forall b l, k_objs k !! b = Some (OBytes l) -> k_objs k' !! b = Some (OBytes l)).
Lemma idle_trans S S1 S2 k k1 k2 : idle_kept S S1 k k1 -> idle_kept S1 S2 k1 k2 -> idle_kept S S2 k k2.
Proof using.
  intros [H1 P1] [H2 P2]. split; [|auto]. intros y Hy Hi. destruct (H1 y Hy Hi) as [Hi1 HS]. destruct (H2 y Hy Hi1). auto.
Qed.
Lemma idle_refl S k k' : pipes_same k k' -> idle_kept S S k k'.
Proof using.
  intros [H HB]. split.
  - intros y Hy Hi. split; [|done]. intros b p Hb. by apply (Hi b p), H.
  - intros a [[l Hl] Ha]. split; [exists l; by apply HB|]. intros b p Hb. by apply (Ha b p), H.
Qed.
Lemma idle_sub S k k1 k2 S1 : idle_kept S S1 k k1 -> pipes_same k1 k2 -> idle_kept S S1 k k2.
Proof using. intros H1 H2. eapply idle_trans; [exact H1 | by apply idle_refl]. Qed.
Lemma same_pipes k : pipes_same k k.
Proof using. by split. Qed.
Lemma same_pipes_delete k k' a f : k_objs k !! a = Some (OFh f) -> k_objs k' = delete a (k_objs k) -> pipes_same k k'.
Proof using.
  intros Ha E. unfold pipes_same. rewrite E. split; intros b o Hb.
  - by apply lookup_delete_Some in Hb as [_ ?].
  - rewrite lookup_delete_ne; [done | congruence].
Qed.

(** The handle at [a] is not referred to any more. *)
Record last_ref (U : Z -> Z) (k : kstate) (a : Z) (f : filehandle) : Prop := {
  lr_unused : U a = 0;
  lr_handle : k_objs k !! a = Some (OFh f);
  lr_complete : complete f;
  lr_pipe e b : pipe_end f = Some (e, b) ->
    exists p n, k_objs k !! b = Some (OPipe p) /\ (if e : bool then b_reading p else b_writing p) = Some n /\ n <> 0;
  lr_alone e b x g : pipe_end f = Some (e, b) -> U x <> 0 -> k_objs k !! x = Some (OFh g) -> pipe_end g <> Some (e, b)
}.

(** What destroying it does. *)
Record destroyed (U : Z -> Z) (R S : list Z) (k : kstate) (a : Z) (f : filehandle) (k' : kstate) : Prop := {
  ds_lists : exists R' S', destroys (k_objs k) R S a f (k_objs k') R' S' /\ sched R' S' k' /\ hinv U S' k' /\ idle_kept S S' k k';
  ds_heap : heap_inv Inv k';
  ds_quiet : quiet k k';
  ds_gone : k_objs k' !! a = None;
  ds_handles x g : k_objs k' !! x = Some (OFh g) -> k_objs k !! x = Some (OFh g)
}.

Lemma free_handle U R S R' S' k k1 a f f0 : destroys (k_objs k) R S a f0 (delete a (k_objs k1)) R' S' -> sched R' S' k1 -> hinv U S' k1 -> heap_inv Inv k1 -> quiet k k1 ->
  U a = 0 -> k_objs k1 !! a = Some (OFh f) -> (forall x g, k_objs k1 !! x = Some (OFh g) -> k_objs k !! x = Some (OFh g)) ->
  idle_kept S S' k k1 -> wp (kfree a) (fun _ k' => destroyed U R S k a f0 k') k1.
Proof using Allocator0.
  intros Hw Hs Hh Hi Hq Hu Hf Hsub Hidle. eapply wp_mono; [by eapply kfree_spec|]. intros [] k' [HR Hi']. split.
  - exists R', S'. split; [by destruct HR as [h ->]|]. split; [|split].
    + eapply (heap_changed_sched (fun x => x = a)); [by eapply heap_changed_released | done].
    + destruct HR as [h ->]. eapply (hinv_delete U S' k1); [done | done | exact Hf | done | | reflexivity].
      intros b r w pid l bytes P. pose proof (pa_data P). congruence.
    + eapply idle_sub; [exact Hidle|]. destruct HR as [h ->]. by eapply same_pipes_delete.
  - done.
  - eapply quiet_trans; [exact Hq | by eapply quiet_released].
  - destruct HR as [h ->]. apply lookup_delete_eq.
  - destruct HR as [h ->]. cbn. intros x g [_ Hx]%lookup_delete_Some. by apply Hsub.
Qed.

(** The objects then. *)
Lemma end_closed_objs k k1 k2 b r w pid l data bytes : pipe_at k1 b r w pid l data bytes ->
  (forall x, x <> b -> k_objs k1 !! x = k_objs k !! x) ->
  (r = 0 /\ w = 0 /\ k_objs k2 = delete b (delete data (k_objs k1))) \/ ((r <> 0 \/ w <> 0) /\ k2 = k1) ->
  k_objs k2 = end_closed (k_objs k) b (mkPipe (Some r) (Some w) (Some (Z.of_nat (length bytes)))
    (Some (Z.of_nat (length l))) (Some pid) (Some data)) data.
Proof using.
  intros P Hx H2. unfold end_closed. cbn [b_reading b_writing]. destruct H2 as [(-> & -> & E)|[Ho ->]].
  - rewrite decide_True by done. rewrite E. apply map_eq. intros x. destruct (decide (x = b)) as [-> |Hb]; [by rewrite !lookup_delete_eq|].
    rewrite !(lookup_delete_ne _ b) by done. destruct (decide (x = data)) as [-> |Hd]; [by rewrite !lookup_delete_eq|].
    rewrite !lookup_delete_ne by done. by apply Hx.
  - rewrite decide_False by (intros [[= ->] [= ->]]; by destruct Ho). apply map_eq. intros x.
    destruct (decide (x = b)) as [-> |Hb]; [rewrite lookup_insert_eq; apply P | rewrite lookup_insert_ne by done; by apply Hx].
Qed.

(** The end of both destructors: [k1] is the state after the end was closed. *)
Lemma finish_end U R S R' S' k k1 a f b r w pid l data bytes r' w' pid' : hinv U S k -> last_ref U k a f ->
  pipe_at k b r w pid l data bytes -> pipe_at k1 b r' w' pid' l data bytes ->
  (forall x, x <> b -> k_objs k1 !! x = k_objs k !! x) -> (pid' = -1 \/ (pid' = pid /\ pid' ∈ S' /\ w' <> 0)) ->
  (forall x, x ∈ S -> x <> pid -> x ∈ S') ->
  (forall a f e, U a <> 0 -> k_objs k !! a = Some (OFh f) -> pipe_end f = Some (e, b) -> if e : bool then r' <> 0 else w' <> 0) ->
  destroys (k_objs k) R S a f (delete a (end_closed (k_objs k) b (mkPipe (Some r') (Some w') (Some (Z.of_nat (length bytes)))
    (Some (Z.of_nat (length l))) (Some pid') (Some data)) data)) R' S' -> sched R' S' k1 -> heap_inv Inv k1 -> quiet k k1 ->
  wp (check_buffer_free b;; kfree a) (fun _ k' => destroyed U R S k a f k') k1.
Proof using Allocator0.
  intros H L P P1 Hx1 Hpid HS Hends Hw Hs1 Hi1 Hq. wp_step.
  eapply wp_mono; [apply (check_buffer_free_spec k1 b r' w' pid' l data bytes Hi1 P1); tauto|].
  intros [] k2 (Hi2 & HC & H2). assert (Hh : hinv U S' k2) by (eapply (closed_end U S S' k k1 k2); [done | exact P | exact P1 | done..]).
  assert (Hab : a <> b) by (intros ->; pose proof (pa_pipe P); rewrite (lr_handle _ _ _ _ L) in *; done).
  assert (Had : a <> data) by (intros ->; pose proof (pa_data P); rewrite (lr_handle _ _ _ _ L) in *; done).
  eapply (free_handle U R S R' S' k k2 a f f); [| | done | done | | apply L | | |].
  - by rewrite (end_closed_objs k k1 k2 b r' w' pid' l data bytes P1 Hx1 H2).
  - by eapply heap_changed_sched.
  - eapply quiet_trans; [exact Hq | by eapply quiet_heap].
  - destruct HC as (h & o & na & -> & HC). cbn. apply HC; [naive_solver|]. rewrite Hx1 by done. apply L.
  - intros x g Hg. assert (Hxb : x <> b).
    { intros ->. destruct H2 as [(_ & _ & E)|[_ ->]]; [by rewrite E, lookup_delete_eq in Hg | by rewrite (pa_pipe P1) in Hg]. }
    rewrite <- Hx1 by done. destruct H2 as [(_ & _ & E)|[_ ->]]; [|done]. rewrite E, !lookup_delete_Some in Hg. tauto.
  - assert (Hk2 : forall x p, k_objs k2 !! x = Some (OPipe p) -> x <> b -> k_objs k !! x = Some (OPipe p)).
    { intros x p Hx Hxb. rewrite <- Hx1 by done. destruct H2 as [(_ & _ & E)|[_ ->]]; [|done]. rewrite E, !lookup_delete_Some in Hx. tauto. }
    assert (Hb2 : forall p, k_objs k2 !! b = Some (OPipe p) -> b_readpid p = Some pid' /\ b_data p = Some data).
    { intros p Hx. destruct H2 as [(_ & _ & E)|[_ ->]]; [by rewrite E, lookup_delete_eq in Hx|].
      rewrite (pa_pipe P1) in Hx. by injection Hx as <-. }
    split.
    + intros y Hy Hi. assert (Hyp : y <> pid) by (intros ->; by apply (Hi b _ (pa_pipe P))). split; [|by intros; apply HS].
      intros x p Hx. destruct (decide (x = b)) as [-> |Hxb]; [|by eapply Hi, Hk2].
      destruct (Hb2 p Hx) as [-> _]. intros [= E]. lia.
    + intros y [[ly Hly] Hy]. assert (Hyd : y <> data) by (intros ->; by apply (Hy b _ (pa_pipe P))).
      assert (Hyb : y <> b) by (intros ->; rewrite (pa_pipe P) in Hly; done). split.
      * exists ly. destruct HC as (h & o & na & -> & HC). cbn. apply HC; [naive_solver|]. by rewrite Hx1.
      * intros x p Hx. destruct (decide (x = b)) as [-> |Hxb]; [|by eapply Hy, Hk2]. destruct (Hb2 p Hx) as [_ ->]. congruence.
Qed.

(** The pipe behind the handle, and who else uses it. *)
Lemma last_ref_pipe U S k a f e b : hinv U S k -> last_ref U k a f -> pipe_end f = Some (e, b) ->
  exists r w pid l data bytes, pipe_at k b r w pid l data bytes /\ (if e then r <> 0 else w <> 0) /\ (pid = -1 \/ (pid ∈ S /\ w <> 0)) /\
    forall x g e', U x <> 0 -> k_objs k !! x = Some (OFh g) -> pipe_end g = Some (e', b) -> e' <> e /\ if e' then r <> 0 else w <> 0.
Proof using.
  intros H L He. destruct (lr_pipe _ _ _ _ L _ _ He) as (p & n & Hb & Hn & Hn0).
  destruct (hv_pipe H Hb) as (r & w & pid & l & data & bytes & P & Ho & Hpid). assert (Ep := pa_pipe P). rewrite Hb in Ep. injection Ep as ->.
  exists r, w, pid, l, data, bytes. split; [done|]. split; [destruct e; cbn in Hn; congruence|]. split; [done|].
  intros x g e' Hx Hg Hge. split; [intros ->; by destruct (lr_alone _ _ _ _ L e b x g)|].
  destruct (hv_end H Hx Hg Hge) as (p & m & Hb' & Hm & Hm0). rewrite Hb in Hb'. injection Hb' as <-. destruct e'; cbn in Hm; congruence.
Qed.

Lemma reader_destroy_spec U R S k a f b : hinv U S k -> sched R S k -> heap_inv Inv k -> last_ref U k a f -> fh_p f = Some b ->
  pipe_end f = Some (true, b) -> wp (pipe_reader_destroy a) (fun _ k' => destroyed U R S k a f k') k.
Proof using Allocator0.
  intros H Hs Hi L Hp He. destruct (last_ref_pipe _ _ _ _ _ _ _ H L He) as (r & w & pid & l & data & bytes & P & Hr & Hpid & Hends).
  unfold pipe_reader_destroy. wp_step. eapply wp_get_fh; [apply L|]. rewrite Hp. wp_step. apply wp_fld.
  pose proof (pipe_at_ne _ _ _ _ _ _ _ _ P) as Hbd. wp_step. eapply wp_get_pipe; [apply P|]. wp_step. apply wp_fld.
  wp_step. wp_step; [unfold truthy; b2p; done|].
  wp_step. eapply wp_upd_pipe; [apply P|].
  eapply (finish_end U R S R S k _ a f b r w pid l data bytes 0 w pid); [done | done | exact P | | | tauto | done | | | | | apply quiet_insert].
  - split; cbn; [by rewrite lookup_insert_eq | rewrite lookup_insert_ne by done; apply P | apply P..].
  - intros x Hx. cbn. by rewrite lookup_insert_ne.
  - intros x g e Hx Hg Hge. by destruct (Hends x g e Hx Hg Hge), e.
  - exact (destroys_reader _ R S a f b _ data He (pa_pipe P) eq_refl).
  - by eapply sched_frame.
  - eapply heap_inv_insert; [exact Hi | apply P | done].
Qed.

Lemma writer_destroy_spec U R S k a f b : hinv U S k -> sched R S k -> heap_inv Inv k -> last_ref U k a f -> fh_p f = Some b ->
  pipe_end f = Some (false, b) -> wp (pipe_writer_destroy a) (fun _ k' => destroyed U R S k a f k') k.
Proof using Allocator0.
  intros H Hs Hi L Hp He. destruct (last_ref_pipe _ _ _ _ _ _ _ H L He) as (r & w & pid & l & data & bytes & P & Hw & Hpid & Hends).
  unfold pipe_writer_destroy. wp_step. eapply wp_get_fh; [apply L|]. rewrite Hp. wp_step. apply wp_fld.
  pose proof (pipe_at_ne _ _ _ _ _ _ _ _ P) as Hbd. wp_step. eapply wp_get_pipe; [apply P|]. wp_step. apply wp_fld.
  wp_step. wp_step; [unfold truthy; b2p; done|].
  wp_step. eapply wp_upd_pipe; [apply P|]. match goal with |- wp _ _ ?K => set (k1 := K) end.
  assert (P1 : pipe_at k1 b r 0 pid l data bytes).
  { split; cbn; [by rewrite lookup_insert_eq | rewrite lookup_insert_ne by done; apply P | apply P..]. }
  assert (Hi1 : heap_inv Inv k1) by (eapply heap_inv_insert; [exact Hi | apply P | done]).
  wp_step. eapply wp_mono; [apply (wake_up_reader_spec k1 b r 0 pid l data bytes R S P1); [by eapply sched_frame | tauto]|].
  intros [] k3 (P3 & k2 & HC & Hwk & Hsz & Hh). destruct (woken_lists _ _ _ _ _ Hwk) as (R' & S' & HW & Hs' & HS).
  destruct (woken_objs _ _ _ _ _ Hwk) as [Ho3 _].
  eapply (finish_end U R S R' S' k k3 a f b r w pid l data bytes r 0 (-1)); [done | done | exact P | exact P3 | | by left | done | | | done | |].
  - intros x Hx. rewrite Ho3. destruct HC as (h & o & n & E & HC). destruct (k_objs k !! x) as [ox|] eqn:Ex.
    + rewrite E. cbn. apply HC; [done|]. cbn. by rewrite lookup_insert_ne.
    + assert (E2 : (obj_size <$> k_objs k3) !! x = None) by (rewrite Hsz; cbn; by rewrite lookup_fmap, lookup_insert_ne, Ex).
      rewrite lookup_fmap, Ho3 in E2. by apply fmap_None in E2.
  - intros x g e Hx Hg Hge. by destruct (Hends x g e Hx Hg Hge), e.
  - exact (destroys_writer _ R S a f b _ data pid R' S' He (pa_pipe P) eq_refl eq_refl HW).
  - unfold heap_inv. rewrite Hsz, Hh. exact Hi1.
  - eapply quiet_trans; [apply quiet_insert|]. eapply quiet_trans; [by eapply quiet_heap | by eapply woken_quiet].
Qed.

Lemma call_destroy_spec U R S k a f : hinv U S k -> sched R S k -> heap_inv Inv k -> last_ref U k a f ->
  wp (call_destroy a) (fun _ k' => destroyed U R S k a f k') k.
Proof using Allocator0.
  intros H Hs Hi L. pose proof (lr_complete _ _ _ _ L) as Hc. unfold complete in Hc. unfold call_destroy. wp_step. eapply wp_get_fh; [apply L|].
  destruct (fh_destroy f) as [[]|] eqn:Ed; [..|done]; wp_step; apply wp_fld.
  - eapply (free_handle U R S R S k k); [apply destroys_plain; unfold pipe_end; by rewrite Ed | done..| apply quiet_refl | apply L | apply L | done | apply idle_refl, same_pipes].
  - destruct Hc as [b Hb]. apply (writer_destroy_spec U R S k a f b); try done. unfold pipe_end. by rewrite Ed, Hb.
  - destruct Hc as [b Hb]. apply (reader_destroy_spec U R S k a f b); try done. unfold pipe_end. by rewrite Ed, Hb.
  - eapply (free_handle U R S R S k k); [apply destroys_plain; unfold pipe_end; by rewrite Ed | done..| apply quiet_refl | apply L | apply L | done | apply idle_refl, same_pipes].
Qed.

(** The count plays no part in it. *)
Lemma delete_end_closed os a o b p data : a <> b -> delete a (end_closed (<[a := o]> os) b p data) = delete a (end_closed os b p data).
Proof using.
  intros Hab. unfold end_closed. case_decide; apply map_eq; intros x; destruct (decide (x = a)) as [-> |Hne];
    rewrite ?lookup_delete_eq, ?(lookup_delete_ne _ a) by done; try done.
  - destruct (decide (x = b)) as [-> |Hb]; [by rewrite !lookup_delete_eq|]. rewrite !(lookup_delete_ne _ b) by done.
    destruct (decide (x = data)) as [-> |Hd]; [by rewrite !lookup_delete_eq|]. by rewrite !lookup_delete_ne, lookup_insert_ne.
  - destruct (decide (x = b)) as [-> |Hb]; [by rewrite !lookup_insert_eq | by rewrite !lookup_insert_ne].
Qed.
Lemma destroys_counted os R S a f n os' R' S' : os !! a = Some (OFh f) ->
  destroys (<[a := OFh (f <| fh_refcount := n |>)]> os) R S a (f <| fh_refcount := n |>) os' R' S' -> destroys os R S a f os' R' S'.
Proof using.
  intros Ha D. assert (Hpipe : forall b p, <[a := OFh (f <| fh_refcount := n |>)]> os !! b = Some (OPipe p) -> a <> b /\ os !! b = Some (OPipe p)).
  { by intros b p [[_ ?]|?]%lookup_insert_Some. }
  destruct D as [He|b p data He [Hab Hb]%Hpipe Hd|b p data pid R1 S1 He [Hab Hb]%Hpipe Hd Hp Hw]; rewrite pipe_end_refcount in He.
  - rewrite delete_insert_eq. by apply destroys_plain.
  - rewrite delete_end_closed by done. by eapply destroys_reader.
  - rewrite delete_end_closed by done. by eapply destroys_writer.
Qed.

(** One reference less. *)
Definition without (U : Z -> Z) (a x : Z) : Z := if decide (x = a) then U a - 1 else U x.

Record closed (U : Z -> Z) (R S : list Z) (k : kstate) (a : Z) (k' : kstate) : Prop := {
  cl_lists : exists R' S', closes (k_objs k) R S a (k_objs k') R' S' /\ sched R' S' k' /\ hinv (without U a) S' k' /\ idle_kept S S' k k';
  cl_heap : heap_inv Inv k';
  cl_quiet : quiet k k';
  cl_leak : no_leak U k -> no_leak (without U a) k'
}.

Lemma close_filehandle_spec U R S k a : hinv U S k -> sched R S k -> heap_inv Inv k -> U a <> 0 ->
  wp (close_filehandle a) (fun _ k' => closed U R S k a k') k.
Proof using Allocator0.
  intros H Hs Hi Ha. destruct (hv_handle H Ha) as (f & Hf & Hr & Hc). pose proof (hv_count H a) as Hpos.
  unfold close_filehandle. wp_step. eapply wp_get_fh; [exact Hf|]. rewrite Hr. wp_step. apply wp_fld.
  wp_step. wp_step; [b2p; lia|]. wp_step. eapply wp_upd_fh; [exact Hf|]. match goal with |- wp _ _ ?K => set (k1 := K) end.
  assert (H1 : hinv (without U a) S k1) by (eapply hinv_handle; [done | exact Hf | done | done | done | done | lia]).
  assert (Hi1 : heap_inv Inv k1) by (eapply heap_inv_insert; [exact Hi | exact Hf | done]).
  assert (Hs1 : sched R S k1) by (by eapply sched_frame).
  assert (Hf1 : forall x g, k_objs k1 !! x = Some (OFh g) -> exists g', k_objs k !! x = Some (OFh g')).
  { intros x g. cbn. intros [[<- _]|[_ Hx]]%lookup_insert_Some; eauto. }
  assert (Hid : pipes_same k k1).
  { split; cbn; intros b o; [by intros [[_ ?]|[_ ?]]%lookup_insert_Some|]. intros Hb. rewrite lookup_insert_ne; [done | congruence]. }
  apply wp_when; intros Hz; b2p.
  - eapply wp_mono; [eapply (call_destroy_spec (without U a) R S k1 a); [done | done | done |]|].
    + split; [unfold without; rewrite decide_True by done; lia | cbn; apply lookup_insert_eq | done | |].
      * intros e b He. destruct (hv_end H Ha Hf He) as (p & n & Hb & Hn). exists p, n. split; [|done].
        cbn. rewrite lookup_insert_ne; [done | congruence].
      * intros e b x g He Hx Hg Hge. unfold without in Hx. destruct (decide (x = a)) as [-> |Hne]; [lia|].
        cbn in Hg. rewrite lookup_insert_ne in Hg by done. apply Hne. exact (hv_unique H Hx Ha Hg Hf Hge He).
    + intros [] k' [(R' & S' & D1 & D2 & D3 & D8) D4 D5 D6 D7]. split; [| done | |].
      * exists R', S'. split; [|split; [done|]; split; [done|]; eapply idle_trans; [by apply idle_refl | exact D8]].
        eapply (closes_last _ _ _ _ f); [exact Hf | rewrite Hr; f_equal; lia | exact (destroys_counted _ R S a f _ _ _ _ Hf D1)].
      * eapply quiet_trans; [apply quiet_insert | exact D5].
      * intros Hl x g Hg. unfold without. destruct (decide (x = a)) as [-> |Hne]; [congruence|].
        destruct (Hf1 x g (D7 x g Hg)) as [g' Hg']. by eapply Hl.
  - split; [exists R, S; split; [eapply closes_shared; [exact Hf | exact Hr | lia]|]; split; [done|]; split; [done | by apply idle_refl] | done | apply quiet_insert |].
    intros Hl x g Hg. unfold without. destruct (decide (x = a)) as [-> |Hne]; [lia|]. destruct (Hf1 x g Hg) as [g' Hg']. by eapply Hl.
Qed.
End close.
