(* ===== verification/DescProofs.v ===== *)
(** * File descriptors: close and dup2 (source/filedesc.c)

    The references to the handles are the descriptors of the processes that
    are alive; the calls on descriptors keep the counts in the handles equal to
    them. *)

From S2P Require Import Prelude Constants Libc Page Kernel Process ProcessInv ProcessTheorems UserMemory KernelMem Pipe Allocator PipeProofs Filedesc Lifecycle LifecycleProofs ForkProofs HandleProofs.

(** ** Counting descriptors *)

(** A killed process keeps its table of descriptors, and does not count. *)
Definition alive (p : process) : bool := truthy (p_exists p) && negb (truthy (p_exited p)).
Definition fds_of (p : process) : list Z := if alive p then p_filedesc p else [].
Definition table_fds (ps : list process) : list Z := ps ≫= fds_of.
(** The number of descriptors that refer to the handle [a]. *)
Definition refs (ps : list process) (a : Z) : Z := uses a (table_fds ps).

Lemma uses_app a l1 l2 : uses a (l1 ++ l2) = uses a l1 + uses a l2.
Proof. unfold uses. destruct (decide (a = 0)); [done|]. rewrite list.filter_app, length_app. lia. Qed.
Lemma uses_single a x : uses a [x] = if decide (a = x /\ a <> 0) then 1 else 0.
Proof. change [x] with ([] ++ [x]). rewrite uses_snoc. unfold uses. by destruct (decide (a = 0)). Qed.
Lemma uses_nonneg a l : 0 <= uses a l.
Proof. unfold uses. destruct (decide (a = 0)); lia. Qed.
Lemma uses_in a l : a ∈ l -> a <> 0 -> 1 <= uses a l.
Proof.
  intros (l1 & l2 & ->)%list_elem_of_split Ha. change (a :: l2) with ([a] ++ l2). rewrite !uses_app, uses_single, decide_True by done.
  pose proof (uses_nonneg a l1). pose proof (uses_nonneg a l2). lia.
Qed.
Lemma uses_zero a l : uses a l <> 0 -> a <> 0 /\ a ∈ l.
Proof.
  unfold uses. destruct (decide (a = 0)); [done|]. intros H. split; [done|].
  destruct (filter (fun x => x = a) l) as [|y l'] eqn:E; [done|].
  assert (Hy : y ∈ filter (fun x => x = a) l) by (rewrite E; left). by apply list_elem_of_filter in Hy as [-> ?].
Qed.

(** A list with one element changed, as a concatenation. *)
Lemma zinsert_parts {A} (l : list A) i x y : zlookup l i = Some x -> exists l1 l2, l = l1 ++ [x] ++ l2 /\ zinsert i y l = l1 ++ [y] ++ l2.
Proof.
  unfold zlookup, zinsert. destruct (i <? 0); [done|]. intros Hx. exists (take (Z.to_nat i) l), (drop (Datatypes.S (Z.to_nat i)) l).
  split; [symmetry; by apply take_drop_middle|]. apply insert_take_drop. by eapply lookup_lt_Some.
Qed.
Lemma uses_insert a l i x y : zlookup l i = Some x -> uses a (zinsert i y l) = uses a l - uses a [x] + uses a [y].
Proof. intros Hx. destruct (zinsert_parts l i x y Hx) as (l1 & l2 & -> & ->). rewrite !uses_app. lia. Qed.
Lemma refs_insert a ps x p q : zlookup ps x = Some p -> refs (zinsert x q ps) a = refs ps a - uses a (fds_of p) + uses a (fds_of q).
Proof.
  intros Hx. destruct (zinsert_parts ps x p q Hx) as (l1 & l2 & -> & ->). unfold refs, table_fds.
  rewrite !bind_app, !uses_app, !bind_singleton. lia.
Qed.
Lemma refs_core ps ps' a : core <$> ps' = core <$> ps -> refs ps' a = refs ps a.
Proof.
  intros E. unfold refs, table_fds. enough (H : forall l, l ≫= fds_of = (core <$> l) ≫= fds_of) by (by rewrite H, E, <- H).
  intros l. induction l as [|p l IH]; [done|]. cbn. by rewrite <- IH.
Qed.
Lemma refs_in ps x p a : zlookup ps x = Some p -> alive p = true -> a ∈ p_filedesc p -> a <> 0 -> 1 <= refs ps a.
Proof.
  intros Hp Hal Hin Ha. destruct (zinsert_parts ps x p p Hp) as (l1 & l2 & -> & _). unfold refs, table_fds.
  rewrite !bind_app, !uses_app, bind_singleton.
  assert (E : fds_of p = p_filedesc p) by (unfold fds_of; by rewrite Hal). rewrite E.
  pose proof (uses_in a _ Hin Ha). pose proof (uses_nonneg a (l1 ≫= fds_of)). pose proof (uses_nonneg a (l2 ≫= fds_of)). lia.
Qed.

Lemma core_lookup ps ps' x p : core <$> ps' = core <$> ps -> zlookup ps x = Some p -> exists p', zlookup ps' x = Some p' /\ core p' = core p.
Proof.
  intros E Hp. unfold zlookup in *. destruct (x <? 0); [done|].
  assert (E' : core <$> ps' !! Z.to_nat x = Some (core p)) by (by rewrite <- list_lookup_fmap, E, list_lookup_fmap, Hp).
  apply fmap_Some in E' as (p' & Hp' & Hc). by exists p'.
Qed.
Lemma core_field {A} (g : process -> A) p q : (forall x, g (core x) = g x) -> core p = core q -> g p = g q.
Proof. intros Hg E. rewrite <- (Hg p), E. apply Hg. Qed.
Lemma core_zinsert ps ps' x p p' : core <$> ps' = core <$> ps -> core p' = core p ->
  core <$> zinsert x p' ps' = core <$> zinsert x p ps.
Proof. intros E Ep. unfold zinsert. destruct (x <? 0); [done|]. by rewrite !list_fmap_insert, E, Ep. Qed.

(** ** The invariant of the kernel's handles *)

Section descriptors.
  Context {Inv : gmap Z Z -> Buddy.memarea -> Prop} `{!Allocator Buddy.kmalloc_ma Buddy.kfree_ma Inv}.

(** Every handle counts its descriptors, and none is lost. *)
Record system (R S : list Z) (k : kstate) : Prop := {
  sy_sched : sched R S k;
  sy_heap : heap_inv Inv k;
  sy_handles : hinv (refs (k_processes k)) S k;
  sy_leak : no_leak (refs (k_processes k)) k;
  sy_fds x p : zlookup (k_processes k) x = Some p -> length (p_filedesc p) = Z.to_nat MAX_FDS
}.

(** The state of [k] with the table [ps]. *)
Definition with_table (k : kstate) (ps : list process) : kstate := k <| k_processes := ps |>.
(** The process with one descriptor changed. *)
Definition set_desc (fd a : Z) (p : process) : process := p <| p_filedesc ::= zinsert fd a |>.

Lemma quiet_table k k1 x p p1 g : quiet k k1 -> zlookup (k_processes k1) x = Some p1 -> core (g p1) = core (g p) ->
  quiet (with_table k (zinsert x (g p) (k_processes k))) (with_table k1 (zinsert x (g p1) (k_processes k1))).
Proof using.
  intros (h & o & n & ps & r & s & -> & E) Hp1 Hg. exists h, o, n, (zinsert x (g p1) ps), r, s. split; [done|].
  cbn in *. by apply core_zinsert.
Qed.
Lemma core_set_desc fd a p q : core p = core q -> core (set_desc fd a p) = core (set_desc fd a q).
Proof using.
  intros E. change (core (set_desc fd a p)) with (set_desc fd a (core p)). rewrite E. done.
Qed.
Lemma quiet_current k k' : quiet k k' -> k_current k' = k_current k.
Proof using. by intros (h & o & n & ps & r & s & -> & _). Qed.
Lemma quiet_core k k' : quiet k k' -> core <$> k_processes k' = core <$> k_processes k.
Proof using. by intros (h & o & n & ps & r & s & -> & E). Qed.
Lemma set_desc_fds fd a p : alive p = true -> fds_of (set_desc fd a p) = zinsert fd a (p_filedesc p).
Proof using. intros H. unfold fds_of. change (alive (set_desc fd a p)) with (alive p). by rewrite H. Qed.
Lemma refs_set_desc ps x p fd a y z : zlookup ps x = Some p -> alive p = true -> zlookup (p_filedesc p) fd = Some y ->
  refs (zinsert x (set_desc fd z p) ps) a = refs ps a - uses a [y] + uses a [z].
Proof using.
  intros Hp Hal Hy. rewrite (refs_insert _ _ _ p) by done. rewrite set_desc_fds, (uses_insert _ _ _ y) by done.
  unfold fds_of. rewrite Hal. lia.
Qed.

(** Closing the handle behind the descriptor [fd] of [x]: the counts are those
    of a table in which [fd] is free. *)
Lemma close_descriptor R S k x p fd a : system R S k -> zlookup (k_processes k) x = Some p -> alive p = true ->
  zlookup (p_filedesc p) fd = Some a -> a <> 0 ->
  wp (close_filehandle a) (fun _ k' => exists R' S', closes (k_objs k) R S a (k_objs k') R' S' /\ sched R' S' k' /\ heap_inv Inv k' /\ quiet k k' /\
    hinv (refs (zinsert x (set_desc fd 0 p) (k_processes k))) S' k' /\ no_leak (refs (zinsert x (set_desc fd 0 p) (k_processes k))) k') k.
Proof using Allocator0.
  intros H Hp Hal Hfd Ha. assert (Hr : 1 <= refs (k_processes k) a).
  { apply (refs_in _ x p); try done. unfold zlookup in Hfd. destruct (fd <? 0); [done|]. by eapply list_elem_of_lookup_2. }
  assert (E : forall y, refs (zinsert x (set_desc fd 0 p) (k_processes k)) y = without (refs (k_processes k)) a y).
  { intros y. rewrite (refs_set_desc _ _ _ _ _ a) by done. rewrite !uses_single. unfold without.
    rewrite (decide_False (P := y = 0 /\ y <> 0)) by tauto. destruct (decide (y = a)) as [-> |Hne].
    - rewrite decide_True by done. lia.
    - rewrite decide_False by tauto. lia. }
  eapply wp_mono; [apply (close_filehandle_spec (refs (k_processes k)) R S); [apply H | apply H | apply H | lia]|].
  intros [] k' [(R' & S' & Hw & Hs & Hh & _) Hi Hq Hl]. exists R', S'. repeat (split; [done|]). split.
  - by eapply hinv_ext.
  - intros y f Hf. rewrite E. by apply (Hl (sy_leak _ _ _ H) y f).
Qed.

(** ... and the table follows. *)
Lemma system_table R S R' S' k k1 x p p1 fd a : system R S k -> zlookup (k_processes k) x = Some p ->
  quiet k k1 -> zlookup (k_processes k1) x = Some p1 -> core p1 = core p -> sched R' S' k1 -> heap_inv Inv k1 ->
  hinv (refs (zinsert x (set_desc fd a p) (k_processes k))) S' k1 -> no_leak (refs (zinsert x (set_desc fd a p) (k_processes k))) k1 ->
  system R' S' (with_table k1 (zinsert x (set_desc fd a p1) (k_processes k1))).
Proof using.
  intros H Hp Hq Hp1 Hc Hs Hi Hh Hl. pose proof (quiet_core _ _ Hq) as E.
  assert (Er : forall y, refs (zinsert x (set_desc fd a p1) (k_processes k1)) y = refs (zinsert x (set_desc fd a p) (k_processes k)) y).
  { intros y. apply refs_core, core_zinsert; [done | by apply core_set_desc]. }
  split.
  - eapply (sched_upd R' S' k1 x p1); [done | done | by split].
  - done.
  - eapply hinv_ext; [exact Er | by eapply (hinv_objs _ _ k1)].
  - intros y f Hf. cbn. rewrite Er. by apply (Hl y f).
  - assert (Hlen : forall y q, zlookup (k_processes k1) y = Some q -> length (p_filedesc q) = Z.to_nat MAX_FDS).
    { intros y q Hy. destruct (core_lookup (k_processes k1) (k_processes k) y q) as (q' & Hq' & Ec); [done | done|].
      rewrite <- (core_field p_filedesc q' q (fun _ => eq_refl) Ec). by apply (sy_fds _ _ _ H y). }
    intros y q. cbn. destruct (decide (y = x)) as [-> |Hne].
    + rewrite zlookup_zinsert_eq by (by eapply zlookup_range). intros [= <-]. cbn. rewrite zinsert_length. by apply (Hlen x).
    + rewrite zlookup_zinsert_ne by done. apply Hlen.
Qed.

Lemma fd_handle_spec k c p fd (Q : option Z -> kstate -> Prop) : k_current k = Some c -> zlookup (k_processes k) c = Some p ->
  length (p_filedesc p) = Z.to_nat MAX_FDS ->
  (forall a, zlookup (p_filedesc p) fd = Some a -> a <> 0 -> Q (Some a) k) ->
  ((forall a, zlookup (p_filedesc p) fd = Some a -> a = 0) -> Q None k) -> wp (fd_handle fd) Q k.
Proof using.
  intros Hc Hp Hl H1 H2. unfold fd_handle. destruct (Z.ltb_spec fd 0) as [Hlt|Hge].
  { cbn. apply wp_ret, H2. intros a Ha. apply zlookup_range in Ha. lia. }
  destruct (Z.leb_spec MAX_FDS fd) as [Hle|Hgt]; cbn.
  { apply wp_ret, H2. intros a Ha. apply zlookup_range in Ha. rewrite Hl in Ha. unfold MAX_FDS in *. lia. }
  destruct (zlookup_is_Some (p_filedesc p) fd) as [a Ha]; [rewrite Hl; unfold MAX_FDS in *; lia|].
  wp_step. eapply wp_cur; [exact Hc | exact Hp |]. wp_step. apply (wp_of_opt _ a); [done|]. apply wp_ret.
  destruct (Z.eqb_spec a 0) as [-> |Hne]; [apply H2 | by apply H1]. intros a. rewrite Ha. by intros [= <-].
Qed.

(** What a call on descriptors leaves: the table of [k] with [fd] of [c] set to
    [a], and the heap and the lists changed. *)
Definition fd_set (R S : list Z) (c : Z) (p : process) (fd a : Z) (k k' : kstate) : Prop :=
  quiet (with_table k (zinsert c (set_desc fd a p) (k_processes k))) k' /\
  exists R' S', wakes R S R' S' /\ system R' S' k'.

(** What closing the descriptor [fd] of [c], which refers to the handle at [a],
    leaves: exactly the effect of [closes] on the objects and the lists, a
    table in which [fd] is free, and the invariant. *)
Record fd_closed (R S : list Z) (c : Z) (p : process) (fd a : Z) (k k' : kstate) : Prop := {
  fc_effect : exists R' S', closes (k_objs k) R S a (k_objs k') R' S' /\ system R' S' k';
  fc_quiet : quiet (with_table k (zinsert c (set_desc fd 0 p) (k_processes k))) k';
  fc_live : live_ends (k_objs k) -> live_ends (k_objs k')
}.

Lemma close_spec R S k c p fd a : system R S k -> k_current k = Some c -> zlookup (k_processes k) c = Some p -> alive p = true ->
  zlookup (p_filedesc p) fd = Some a -> a <> 0 ->
  wp (syscall_close fd) (fun r k' => r = 0 /\ fd_closed R S c p fd a k k') k.
Proof using Allocator0.
  intros H Hc Hp Hal Hfd Ha. unfold syscall_close. wp_step.
  eapply fd_handle_spec; [exact Hc | exact Hp | by apply (sy_fds _ _ _ H c) | | intros Hz; by destruct Ha; apply Hz].
  intros a' Ha' _. rewrite Hfd in Ha'. injection Ha' as <-.
  wp_step. eapply wp_mono; [by eapply close_descriptor|]. intros [] k1 (R' & S' & Hcl & Hs & Hi & Hq & Hh & Hl).
  destruct (core_lookup _ _ c p (quiet_core _ _ Hq) Hp) as (p1 & Hp1 & Hcore).
  wp_step. unfold set_fd. eapply wp_upd_cur; [rewrite (quiet_current _ _ Hq); exact Hc | exact Hp1 |]. apply wp_ret. split; [done|]. split.
  - exists R', S'. split; [exact Hcl|]. by eapply (system_table R S R' S' k k1 c p p1).
  - eapply (quiet_table k k1 c p p1 (set_desc fd 0)); [done | done | by apply core_set_desc].
  - eapply closes_live; [eapply hinv_buffers, H | exact Hcl].
Qed.

(** The descriptor [fd] is made free, whether it was open or not. *)
Lemma vacate_spec R S k c p fd : system R S k -> k_current k = Some c -> zlookup (k_processes k) c = Some p -> alive p = true ->
  0 <= fd < MAX_FDS ->
  wp (fd_handle fd) (fun old => wp (match old with Some o => close_filehandle o | None => ret tt end) (fun _ k' =>
    exists R' S', wakes R S R' S' /\ sched R' S' k' /\ heap_inv Inv k' /\ quiet k k' /\
    hinv (refs (zinsert c (set_desc fd 0 p) (k_processes k))) S' k' /\ no_leak (refs (zinsert c (set_desc fd 0 p) (k_processes k))) k')) k.
Proof using Allocator0.
  intros H Hc Hp Hal Hfd. pose proof (sy_fds _ _ _ H c p Hp) as Hlen.
  eapply fd_handle_spec; [exact Hc | exact Hp | done | |].
  - intros a Ha Ha0. eapply wp_mono; [by eapply close_descriptor|]. intros [] k' (R' & S' & Hcl%closes_wakes & HH). by exists R', S'.
  - intros Hz. destruct (zlookup_is_Some (p_filedesc p) fd) as [a Ha]; [rewrite Hlen; unfold MAX_FDS in *; lia|].
    pose proof (Hz a Ha) as ->. apply wp_ret. exists R, S. split; [by left|]. split; [apply H|]. split; [apply H|].
    split; [apply quiet_refl|]. assert (E : forall y, refs (zinsert c (set_desc fd 0 p) (k_processes k)) y = refs (k_processes k) y).
    { intros y. rewrite (refs_set_desc _ _ _ _ _ 0) by done. lia. }
    split; [eapply hinv_ext; [exact E | apply H]|]. intros y f Hf. rewrite E. by apply (sy_leak _ _ _ H y f).
Qed.

(** One reference more to a handle that is referred to. *)
Lemma add_reference U S k a f : hinv U S k -> no_leak U k -> U a <> 0 -> k_objs k !! a = Some (OFh f) -> 
  let k' := k <| k_objs ::= insert a (OFh (f <| fh_refcount := Some (U a + 1) |>)) |> in
  let U' x := if decide (x = a) then U a + 1 else U x in hinv U' S k' /\ no_leak U' k'.
Proof using.
  intros H Hl Ha Hf. pose proof (hv_count H a). destruct (hv_handle H Ha) as (f' & Hf' & _ & Hc). rewrite Hf in Hf'. injection Hf' as <-.
  split; [by eapply hinv_handle; [| exact Hf | | | | | lia]|]. intros x g. cbn. case_decide as E; [lia|].
  rewrite lookup_insert_ne by done. apply Hl.
Qed.

Lemma dup2_spec R S k c p oldfd newfd a : system R S k -> k_current k = Some c -> zlookup (k_processes k) c = Some p -> alive p = true ->
  zlookup (p_filedesc p) oldfd = Some a -> a <> 0 -> 0 <= newfd < MAX_FDS -> oldfd <> newfd ->
  wp (syscall_dup2 oldfd newfd) (fun r k' => r = newfd /\ fd_set R S c p newfd a k k') k.
Proof using Allocator0.
  intros H Hc Hp Hal Hold Ha Hnew Hne. pose proof (sy_fds _ _ _ H c p Hp) as Hlen.
  pose proof (zlookup_range _ _ _ Hold) as Hro. rewrite Hlen in Hro. change (Z.of_nat (Z.to_nat MAX_FDS)) with MAX_FDS in Hro.
  unfold syscall_dup2. destruct (Z.ltb_spec oldfd 0); [lia|]. destruct (Z.leb_spec MAX_FDS oldfd); [lia|].
  destruct (Z.ltb_spec newfd 0); [lia|]. destruct (Z.leb_spec MAX_FDS newfd); [lia|]. cbn [orb].
  wp_step. eapply fd_handle_spec; [exact Hc | exact Hp | done | | intros Hz; by destruct Ha; apply Hz].
  intros a' Ha' _. rewrite Hold in Ha'. injection Ha' as <-. destruct (Z.eqb_spec oldfd newfd); [done|].
  pose proof (vacate_spec R S k c p newfd H Hc Hp Hal Hnew) as Hvac. wp_step.
  eapply wp_mono; [exact Hvac|]. intros old k0 Hold'. wp_step. eapply wp_mono; [exact Hold'|]. clear Hvac Hold' k0 old.
  intros [] k1 (R' & S' & Hw & Hs & Hi & Hq & Hh & Hl).
  set (U1 := refs (zinsert c (set_desc newfd 0 p) (k_processes k))) in *.
  destruct (core_lookup _ _ c p (quiet_core _ _ Hq) Hp) as (p1 & Hp1 & Hcore).
  assert (HU1 : 1 <= U1 a).
  { apply (refs_in _ c (set_desc newfd 0 p)); [by apply zlookup_zinsert_eq, (zlookup_range _ _ p) | done | | done].
    assert (Ho : zlookup (p_filedesc (set_desc newfd 0 p)) oldfd = Some a) by (cbn; by rewrite zlookup_zinsert_ne).
    unfold zlookup in Ho. destruct (oldfd <? 0); [done|]. by eapply list_elem_of_lookup_2. }
  destruct (hv_handle Hh (a := a)) as (f & Hf & Hrc & Hcf); [lia|].
  wp_step. unfold set_fd. eapply wp_upd_cur; [rewrite (quiet_current _ _ Hq); exact Hc | exact Hp1 |].
  wp_step. eapply wp_get_fh; [exact Hf|]. rewrite Hrc. wp_step. apply wp_fld. wp_step. eapply wp_upd_fh; [exact Hf|]. apply wp_ret.
  split; [done|]. destruct (add_reference U1 S' k1 a f Hh Hl ltac:(lia) Hf) as [Hh2 Hl2].
  set (k2 := k1 <| k_objs ::= insert a (OFh (f <| fh_refcount := Some (U1 a + 1) |>)) |>) in *.
  match goal with |- fd_set _ _ _ _ _ _ _ ?K => change K with (with_table k2 (zinsert c (set_desc newfd a p1) (k_processes k2))) end.
  assert (Hq2 : quiet k k2) by (eapply quiet_trans; [exact Hq | apply quiet_insert]).
  assert (E : forall y, refs (zinsert c (set_desc newfd a p) (k_processes k)) y = if decide (y = a) then U1 a + 1 else U1 y).
  { intros y. destruct (zlookup_is_Some (p_filedesc p) newfd) as [o Ho]; [rewrite Hlen; unfold MAX_FDS in *; lia|].
    unfold U1. rewrite !(refs_set_desc _ _ _ _ _ o) by done. rewrite !uses_single.
    rewrite !(decide_False (P := _ = 0 /\ _ <> 0)) by tauto. destruct (decide (y = a)) as [-> |Hya].
    - rewrite (decide_True (P := a = a /\ a <> 0)) by done. lia.
    - rewrite (decide_False (P := y = a /\ y <> 0)) by tauto. lia. }
  split.
  - eapply (quiet_table k k2 c p p1 (set_desc newfd a)); [done | done | by apply core_set_desc].
  - exists R', S'. split; [done|]. eapply (system_table R S R' S' k k2 c p p1); [done | done | done | done | done | by eapply sched_frame | | |].
    + eapply heap_inv_insert; [exact Hi | exact Hf | done].
    + eapply hinv_ext; [exact E | exact Hh2].
    + intros y g Hg. rewrite E. by apply (Hl2 y g).
Qed.
End descriptors.
