(* ===== verification/KillProofs.v ===== *)
(** * kill_process (source/process.c): lemmas

    A process is taken off its list, its descriptors are closed, its pages and
    its page directory are freed, its children lose their parent and a parent
    that waits for it is woken up. *)

From S2P Require Import Prelude Constants Libc Page PageInv PageSpec Kernel Process ProcessInv ProcessTheorems UserMemory KernelMem Pipe Allocator PipeProofs Filedesc Lifecycle LifecycleProofs ForkProofs HandleProofs DescProofs PageTheorems.

(** ** The lists *)

Definition without_list (w w' : which) (L L' : list Z) : list Z :=
  match w, w' with Ready, Ready | Suspended, Suspended => L' | _, _ => L end.
Definition pick (w : which) (R S : list Z) : list Z := match w with Ready => R | Suspended => S end.

Lemma relinked_core (X : Z -> Prop) ps ps' : relinked X ps ps' -> core <$> ps' = core <$> ps.
Proof.
  intros H. apply list_eq. intros i. rewrite !list_lookup_fmap. destruct (ps !! i) as [p|] eqn:E.
  - destruct (rl_fields H (x := Z.of_nat i) (p := p)) as (p' & Hp' & Hu); [by rewrite zlookup_nat|].
    rewrite zlookup_nat in Hp'. rewrite Hp'. cbn. unfold core. by rewrite Hu.
  - rewrite lookup_ge_None_2; [done|]. rewrite (rl_length H). by apply lookup_ge_None_1.
Qed.

(** Taking [x] off its list. *)
Lemma unlist_wp w R S k x p L1 L2 : sched R S k -> pick w R S = L1 ++ x :: L2 -> zlookup (k_processes k) x = Some p ->
  wp (list_remove w x) (fun _ k' => (exists ps l, k' = with_list w l (k <| k_processes := ps |>) /\ core <$> ps = core <$> k_processes k) /\
    sched (without_list w Ready R (L1 ++ L2)) (without_list w Suspended S (L1 ++ L2)) k') k.
Proof.
  intros Hs Hw Hp.
  assert (Hd : dlist (k_processes k) (the_list w k) (L1 ++ x :: L2)) by (rewrite <- Hw; destruct w; apply Hs).
  eapply wp_mono; [by apply (list_remove_wp w k L1 x L2 p)|]. intros [] k' (ps & l & -> & Hd' & Hx & Hrel).
  pose proof (elem_of_without L1 L2 x) as Hel. pose proof (dl_nodup Hd) as Hnd.
  split; [exists ps, l; split; [done | by eapply relinked_core]|].
  assert (Eps : k_processes (with_list w l (k <| k_processes := ps |>)) = ps) by (by destruct w).
  assert (Hother : forall w' L, w' <> w -> dlist (k_processes k) (the_list w' k) L -> (forall y, y ∈ L -> y ∉ L1 ++ x :: L2) ->
    dlist ps (the_list w' (with_list w l (k <| k_processes := ps |>))) L).
  { intros w' L Hne Hdl Hdis. replace (the_list w' (with_list w l (k <| k_processes := ps |>))) with (the_list w' k) by (by destruct w, w').
    by eapply dlist_relinked. }
  assert (Hfl : forall y q, zlookup ps y = Some q -> exists q0, zlookup (k_processes k) y = Some q0 /\ p_exists q = p_exists q0 /\ p_ready q = p_ready q0).
  { intros y q Hq. destruct (zlookup_is_Some (k_processes k) y) as [q0 Hq0]; [rewrite <- (rl_length Hrel); by eapply zlookup_range|].
    destruct (rl_fields Hrel Hq0) as (q' & Hq' & E). rewrite Hq in Hq'. injection Hq' as <-. exists q0. split; [done|]. by apply unlinked_ready. }
  assert (Hsub : forall y, y ∈ L1 ++ L2 -> y ∈ L1 ++ x :: L2).
  { intros y. rewrite Hel by done. case_decide; done. }
  assert (Hoff : forall y q, zlookup ps y = Some q -> y ∉ without_list w Ready R (L1 ++ L2) -> y ∉ without_list w Suspended S (L1 ++ L2) ->
    p_prev q = None /\ p_next q = None).
  { intros y q Hq H1 H2. destruct (decide (y = x)) as [-> |Hne]; [rewrite Hx in Hq; by injection Hq as <-|].
    assert (HL : y ∉ L1 ++ x :: L2).
    { intros Hy. assert (y ∈ L1 ++ L2) by (rewrite Hel by done; by rewrite decide_False). by destruct w; [apply H1 | apply H2]. }
    destruct (Hfl y q Hq) as (q0 & Hq0 & _). pose proof (rl_other Hrel HL Hq0) as E. rewrite Hq in E. injection E as ->.
    apply (sc_off Hs Hq0); destruct w; cbn in *; congruence. }
  assert (Hlen : length ps = Z.to_nat MAX_PROCESSES) by (rewrite (rl_length Hrel); apply Hs).
  destruct w; cbn [pick] in Hw; subst; split; rewrite ?Eps; cbn [without_list]; try done.
  - apply (Hother Suspended); [done | apply Hs |]. intros y Hy Hy'. by apply (sc_disjoint Hs Hy').
  - intros y Hy. apply (sc_disjoint Hs). by apply Hsub.
  - intros y q Hy Hq. destruct (Hfl y q Hq) as (q0 & Hq0 & -> & ->). exact (sc_runnable Hs (Hsub y Hy) Hq0).
  - intros y q Hy Hq. destruct (Hfl y q Hq) as (q0 & Hq0 & -> & ->). by apply (sc_blocked Hs Hy).
  - apply (Hother Ready); [done | apply Hs |]. intros y Hy. by apply (sc_disjoint Hs).
  - intros y Hy Hy'. apply (sc_disjoint Hs Hy). by apply Hsub.
  - intros y q Hy Hq. destruct (Hfl y q Hq) as (q0 & Hq0 & -> & ->). by apply (sc_runnable Hs Hy).
  - intros y q Hy Hq. destruct (Hfl y q Hq) as (q0 & Hq0 & -> & ->). exact (sc_blocked Hs (Hsub y Hy) Hq0).
Qed.

(** ** The descriptors *)

Section close_all.
  Context {Inv : gmap Z Z -> Buddy.memarea -> Prop} `{!Allocator Buddy.kmalloc_ma Buddy.kfree_ma Inv}.

(** The lists before and after any number of processes were woken up. *)
Definition woke (R S R' S' : list Z) : Prop := R ++ S ≡ₚ R' ++ S'.
Lemma wakes_woke R S R' S' : wakes R S R' S' -> woke R S R' S'.
Proof using.
  intros [[-> ->]|(pid & S1 & S2 & -> & -> & ->)]; unfold woke; [done|].
  rewrite app_assoc, <- Permutation_middle. cbn. by rewrite app_assoc.
Qed.

Lemma closes_woke os R S a os' R' S' : closes os R S a os' R' S' -> woke R S R' S'.
Proof using. intros H. by eapply wakes_woke, closes_wakes. Qed.

(** The references [l] are dropped one after the other; 0 is a free
    descriptor. *)
Inductive closes_all (os : gmap Z obj) (R S : list Z) : list Z -> gmap Z obj -> list Z -> list Z -> Prop :=
  | closes_none : closes_all os R S [] os R S
  | closes_free l os' R' S' : closes_all os R S l os' R' S' -> closes_all os R S (l ++ [0]) os' R' S'
  | closes_one l a os' R' S' os2 R2 S2 : closes_all os R S l os' R' S' -> a <> 0 -> closes os' R' S' a os2 R2 S2 ->
      closes_all os R S (l ++ [a]) os2 R2 S2.

(** The state when the references [l] have been dropped. *)
Record dropped (U : Z -> Z) (R S : list Z) (k : kstate) (l : list Z) (k' : kstate) : Prop := {
  dr_lists : exists R' S', woke R S R' S' /\ sched R' S' k' /\ hinv (fun a => U a - uses a l) S' k' /\ idle_kept S S' k k' /\
    closes_all (k_objs k) R S l (k_objs k') R' S';
  dr_heap : heap_inv Inv k';
  dr_quiet : quiet k k';
  dr_leak : no_leak U k -> no_leak (fun a => U a - uses a l) k';
  dr_live : live_ends (k_objs k) -> live_ends (k_objs k')
}.

Lemma close_all_spec U R S k x p : hinv U S k -> sched R S k -> heap_inv Inv k -> zlookup (k_processes k) x = Some p ->
  length (p_filedesc p) = Z.to_nat MAX_FDS -> (forall a, uses a (p_filedesc p) <= U a) ->
  wp (close_all x) (fun _ k' => dropped U R S k (p_filedesc p) k') k.
Proof using Allocator0.
  intros H Hs Hi Hp Hlen HU. unfold close_all. set (fds := p_filedesc p) in *.
  apply (wp_for (fun i k' => dropped U R S k (take (Z.to_nat i) fds) k')).
  - assert (E : forall a, U a - uses a (take (Z.to_nat 0) fds) = U a) by (intros a; change (take (Z.to_nat 0) fds) with (@nil Z); unfold uses; case_decide; cbn; lia).
    split; [exists R, S; split; [by unfold woke|]; split; [done|]; split; [by eapply hinv_ext|]; split; [apply idle_refl, same_pipes | apply closes_none] | done | apply quiet_refl | | done].
    intros Hl a f Hf. rewrite E. by apply (Hl a f).
  - intros i k' Hi' [(R' & S' & Hw & Hs' & Hh & Hid & Hca) Hhp Hq Hl Hlv]. change (0 + Z.of_nat (Z.to_nat MAX_FDS)) with MAX_FDS in Hi'.
    destruct (core_lookup _ _ x p (quiet_core _ _ Hq) Hp) as (p1 & Hp1 & Hc).
    wp_step. eapply wp_get_proc; [exact Hp1|]. rewrite (core_field p_filedesc p1 p (fun _ => eq_refl) Hc). fold fds.
    destruct (lookup_lt_is_Some_2 fds (Z.to_nat i)) as [a Ha]; [rewrite Hlen; lia|].
    wp_step. apply (wp_of_opt _ a). { unfold zlookup. destruct (Z.ltb_spec i 0); [lia | done]. }
    replace (Z.to_nat (i + 1)) with (Datatypes.S (Z.to_nat i)) by lia. rewrite (take_S_r _ _ _ Ha).
    assert (Eu : forall y, uses y (take (Z.to_nat i) fds ++ [a]) = uses y (take (Z.to_nat i) fds) + if decide (y = a /\ y <> 0) then 1 else 0).
    { intros y. apply uses_snoc. }
    unfold truthy. destruct (Z.eqb_spec a 0) as [-> |Hnz]; cbn [negb when_].
    + apply wp_ret. assert (E : forall y, U y - uses y (take (Z.to_nat i) fds ++ [0]) = U y - uses y (take (Z.to_nat i) fds)).
      { intros y. rewrite Eu, decide_False by tauto. lia. }
      split; [exists R', S'; split; [done|]; split; [done|]; split; [eapply hinv_ext; [exact E | exact Hh]|]; split; [done | by apply closes_free] | done | done | | done].
      intros Hlk y f Hf. rewrite E. by apply (Hl Hlk y f).
    + assert (Hpos : uses a (take (Z.to_nat i) fds) + 1 <= U a).
      { pose proof (HU a). rewrite <- (take_drop (Datatypes.S (Z.to_nat i)) fds), uses_app, (take_S_r _ _ _ Ha), Eu, decide_True in H0 by done.
        pose proof (uses_nonneg a (drop (Datatypes.S (Z.to_nat i)) fds)). lia. }
      eapply wp_mono; [apply (close_filehandle_spec (fun y => U y - uses y (take (Z.to_nat i) fds)) R' S'); [done | done | done | lia]|].
      intros [] k2 [(R2 & S2 & Hcl & Hs2 & Hh2 & Hid2) Hhp2 Hq2 Hl2].
      assert (E : forall y, U y - uses y (take (Z.to_nat i) fds ++ [a]) = without (fun y => U y - uses y (take (Z.to_nat i) fds)) a y).
      { intros y. rewrite Eu. unfold without. destruct (decide (y = a)) as [-> |Hne].
        - rewrite decide_True by done. lia.
        - rewrite decide_False by tauto. lia. }
      split.
      * exists R2, S2. split; [unfold woke in *; rewrite Hw; by eapply closes_woke|]. split; [done|]. split; [eapply hinv_ext; [exact E | exact Hh2]|].
        split; [by eapply idle_trans | by eapply closes_one].
      * done.
      * by eapply quiet_trans.
      * intros Hlk y f Hf. rewrite E. by apply (Hl2 (Hl Hlk) y f).
      * intros Hle. eapply closes_live; [eapply hinv_buffers, Hh | exact Hcl | by apply Hlv].
  - intros k' HD. change (0 + Z.of_nat (Z.to_nat MAX_FDS)) with MAX_FDS in HD. rewrite take_ge in HD; [done | rewrite Hlen; lia].
Qed.
End close_all.

(** ** The pages *)

(** A segment of whole pages: the frames [L] back the pages from [b] on. *)
Record owned (A : gset Z) (d : Z) (T V : gmap Z Z) (s e b : Z) (L : list Z) : Prop := {
  ow_start : s = b * PAGE_SIZE;
  ow_end : e = (b + Z.of_nat (length L)) * PAGE_SIZE;
  ow_base : 0 <= b;
  ow_top : e <= 2 ^ 32 - PAGE_SIZE;
  ow_backed : backed A d T V b L
}.

Lemma backed_apart A p d T V V' b L n b' L' : space A p d T V -> backed A d T V b L -> backed A d T V b' L' -> (forall x, x ∈ L' -> x ∉ L) ->
  (forall i, V' !! i = if (b <=? i) && (i <? n) then None else V !! i) -> n = b + Z.of_nat (length L) ->
  backed (A ∖ list_to_set L) d T V' b' L'.
Proof.
  intros Hsp Hb Hb' Hdis HV ->. split; [apply Hb'| |].
  - intros i a Hi. pose proof (bk_entry _ _ _ _ _ _ Hb' i a Hi) as Ha. rewrite HV.
    destruct (Z.leb_spec b (b' + i)), (Z.ltb_spec (b' + i) (b + Z.of_nat (length L))); try done. exfalso. cbn in *.
    destruct (zlookup_is_Some L (b' + i - b)) as [a' Ha']; [lia|]. pose proof (bk_entry _ _ _ _ _ _ Hb _ _ Ha') as E.
    replace (b + (b' + i - b)) with (b' + i) in E by lia. rewrite Ha in E. injection E as E.
    assert (Hel : forall (l : list Z) j y, zlookup l j = Some y -> y ∈ l).
    { intros l j y. unfold zlookup. destruct (j <? 0); [done|]. apply list_elem_of_lookup_2. }
    assert (Hal : forall y, y ∈ A -> aligned y) by (intros y Hy; apply frame_aligned, (pinv_frame _ _ _ (sp_inv Hsp) Hy)).
    apply pte_inj in E as <-; [apply (Hdis a); by eapply Hel | apply Hal, (bk_owned _ _ _ _ _ _ Hb'); by eapply Hel
      | apply Hal, (bk_owned _ _ _ _ _ _ Hb); by eapply Hel].
  - intros a Ha. destruct (bk_owned _ _ _ _ _ _ Hb' a Ha) as [H1 H2]. split; [|done]. apply elem_of_difference. split; [done|].
    rewrite elem_of_list_to_set. by apply Hdis.
Qed.

(** The frames [L] have been given back and no other frame has changed. *)
Definition freed (A : gset Z) (pg : pages) (d : Z) (T : gmap Z Z) (L : list Z) (pg' : pages) : Prop :=
  forall x, x ∈ A -> x ∉ foot d T -> x ∉ L -> same_page (pmem pg) (pmem pg') x.

Lemma unmap_segment_spec A k d T V s e b L : k_paging k = None -> space A (k_pages k) d T V -> owned A d T V s e b L ->
  wp (unmap_segment d s e) (fun _ k' => exists pg' V', k' = k <| k_pages := pg' |> /\ space (A ∖ list_to_set L) pg' d T V' /\
    freed A (k_pages k) d T L pg' /\
    forall s' e' b' L', owned A d T V s' e' b' L' -> (forall x, x ∈ L' -> x ∉ L) -> owned (A ∖ list_to_set L) d T V' s' e' b' L') k.
Proof.
  intros Hoff Hsp [-> -> Hb Htop Hbk]. unfold unmap_segment. apply wp_page_op; [done|].
  eapply wp_mono; [by apply (unmap_range_wp A (k_pages k) d T V b L)|]. intros [] pg' (V' & Hsp' & HV & Hs). exists pg', V'.
  replace (Z.to_nat (b + Z.of_nat (length L) - b)) with (length L) in Hsp' by lia. rewrite firstn_all in Hsp'.
  split; [done|]. split; [done|]. split; [done|]. intros s' e' b' L' [-> -> Hb' Ht' Hbk'] Hdis. split; try done.
  by eapply (backed_apart A (k_pages k) d T V V' b L).
Qed.

Lemma teardown_spec {B} A k d T V s1 e1 b1 L1 s2 e2 b2 L2 s3 e3 b3 L3 (rest : K B) (Q : B -> kstate -> Prop) :
  k_paging k = None -> space A (k_pages k) d T V ->
  owned A d T V s1 e1 b1 L1 -> owned A d T V s2 e2 b2 L2 -> owned A d T V s3 e3 b3 L3 -> NoDup (L1 ++ L2 ++ L3) ->
  (forall pg', pinv (A ∖ (list_to_set (L1 ++ L2 ++ L3) ∪ foot d T)) pg' -> freed A (k_pages k) d T (L1 ++ L2 ++ L3) pg' ->
     wp rest Q (k <| k_pages := pg' |>)) ->
  wp (unmap_segment d s1 e1;; unmap_segment d s2 e2;; unmap_segment d s3 e3;; page_op (free_page_dir d);; rest) Q k.
Proof.
  intros Hoff Hsp H1 H2 H3 Hnd Hrest. apply list.NoDup_app in Hnd as (_ & D1 & Hnd). apply list.NoDup_app in Hnd as (_ & D2 & _).
  wp_step. eapply wp_mono; [by eapply unmap_segment_spec|]. intros [] k1 (pg1 & V1 & -> & Hsp1 & F1 & K1).
  assert (H2' := K1 _ _ _ _ H2 ltac:(set_solver)). assert (H3' := K1 _ _ _ _ H3 ltac:(set_solver)).
  wp_step. eapply wp_mono; [by eapply unmap_segment_spec|]. intros [] k2 (pg2 & V2 & -> & Hsp2 & F2 & K2).
  assert (H3'' := K2 _ _ _ _ H3' ltac:(set_solver)).
  wp_step. eapply wp_mono; [by eapply unmap_segment_spec|]. intros [] k3 (pg3 & V3 & -> & Hsp3 & F3 & _).
  wp_step. apply wp_page_op; [done|]. eapply wp_mono; [by eapply free_page_dir_wp|]. intros [] pg4 [Hp4 F4]. apply Hrest.
  - replace (A ∖ (list_to_set (L1 ++ L2 ++ L3) ∪ foot d T)) with (A ∖ list_to_set L1 ∖ list_to_set L2 ∖ list_to_set L3 ∖ foot d T); [done|].
    rewrite !list_to_set_app_L. set_solver.
  - intros x Hx Hf HL. rewrite !elem_of_app in HL. cbn in *.
    eapply same_page_trans; [apply F1; tauto|].
    eapply same_page_trans; [apply F2; [set_solver | tauto..]|].
    eapply same_page_trans; [apply F3; [set_solver | tauto..]|]. apply F4; [set_solver | done].
Qed.

(** ** The children *)

(** Children of [pid] have no parent any more. *)
Definition orphan (pid : Z) (c : process) : process := if pid =? p_parent_pid c then c <| p_parent_pid := -1 |> else c.

Lemma orphan_children_spec k pid : length (k_processes k) = Z.to_nat MAX_PROCESSES ->
  wp (orphan_children pid) (fun _ k' => k' = k <| k_processes := orphan pid <$> k_processes k |>) k.
Proof.
  intros Hlen. unfold orphan_children. set (ps := k_processes k) in *.
  set (part := fun i : Z => (orphan pid <$> take (Z.to_nat i) ps) ++ drop (Z.to_nat i) ps).
  apply (wp_for (fun i k' => k' = k <| k_processes := part i |>)).
  - unfold part. change (Z.to_nat 0) with 0%nat. rewrite drop_0. cbn. unfold ps. by destruct k.
  - intros i k' Hi ->. change (0 + Z.of_nat (Z.to_nat MAX_PROCESSES)) with MAX_PROCESSES in Hi.
    destruct (lookup_lt_is_Some_2 ps (Z.to_nat i)) as [c Hc]; [rewrite Hlen; lia|].
    assert (Hlt : length (orphan pid <$> take (Z.to_nat i) ps) = Z.to_nat i).
    { rewrite length_fmap, length_take. rewrite Hlen. unfold MAX_PROCESSES in *. lia. }
    assert (Hd : drop (Z.to_nat i) ps = c :: drop (Datatypes.S (Z.to_nat i)) ps) by (by apply drop_S).
    assert (Hl : zlookup (part i) i = Some c).
    { unfold zlookup, part. destruct (Z.ltb_spec i 0); [lia|]. rewrite lookup_app_r by lia. by rewrite Hlt, Nat.sub_diag, Hd. }
    assert (Hp : part (i + 1) = zinsert i (orphan pid c) (part i)).
    { unfold part, zinsert. destruct (Z.ltb_spec i 0); [lia|]. replace (Z.to_nat (i + 1)) with (Datatypes.S (Z.to_nat i)) by lia.
      rewrite (take_S_r _ _ _ Hc), fmap_app, insert_app_r_alt by lia. rewrite Hlt, Nat.sub_diag, Hd. cbn. by rewrite <- app_assoc. }
    wp_step. eapply wp_get_proc; [exact Hl|]. unfold orphan in Hp. rewrite Hp. apply wp_when; intros Ht; rewrite Ht.
    + eapply wp_upd_proc; [exact Hl|]. done.
    + f_equal. unfold zinsert. unfold zlookup in Hl. destruct (i <? 0); [done|]. by rewrite list_insert_id.
  - intros k' ->. change (0 + Z.of_nat (Z.to_nat MAX_PROCESSES)) with MAX_PROCESSES. unfold part.
    rewrite take_ge, drop_ge, app_nil_r by (rewrite Hlen; lia). done.
Qed.

(** ** The stages *)

(** The lists and flags decide about [sched]. *)
Lemma sched_map R S k k' : sched R S k -> k_ready k' = k_ready k -> k_suspended k' = k_suspended k ->
  length (k_processes k') = length (k_processes k) ->
  (forall y q, zlookup (k_processes k) y = Some q -> exists q', zlookup (k_processes k') y = Some q' /\ p_prev q' = p_prev q /\ p_next q' = p_next q /\
    (y ∈ R \/ y ∈ S -> p_exists q' = p_exists q /\ p_ready q' = p_ready q)) -> sched R S k'.
Proof.
  intros Hs Er Es Hlen Hq.
  assert (Hback : forall y q', zlookup (k_processes k') y = Some q' -> exists q, zlookup (k_processes k) y = Some q /\
    p_prev q' = p_prev q /\ p_next q' = p_next q /\ (y ∈ R \/ y ∈ S -> p_exists q' = p_exists q /\ p_ready q' = p_ready q)).
  { intros y q' Hy. destruct (zlookup_is_Some (k_processes k) y) as [q Hq0]; [rewrite <- Hlen; by eapply zlookup_range|].
    destruct (Hq y q Hq0) as (q2 & Hq2 & HH). rewrite Hy in Hq2. injection Hq2 as <-. by exists q. }
  assert (Hdl : forall l L, dlist (k_processes k) l L -> dlist (k_processes k') l L).
  { intros l L Hd. apply (dlist_links_eq (k_processes k)); [done|]. intros y q _ Hy. destruct (Hq y q Hy) as (q' & ? & ? & ? & _). by exists q'. }
  split; rewrite ?Er, ?Es.
  - rewrite Hlen. apply Hs.
  - apply Hdl, Hs.
  - apply Hdl, Hs.
  - apply Hs.
  - intros y q' Hy Hq'. destruct (Hback y q' Hq') as (q & Hq0 & _ & _ & HH). destruct (HH (or_introl Hy)) as [-> ->]. by apply (sc_runnable Hs Hy).
  - intros y q' Hy Hq'. destruct (Hback y q' Hq') as (q & Hq0 & _ & _ & HH). destruct (HH (or_intror Hy)) as [-> ->]. by apply (sc_blocked Hs Hy).
  - intros y q' Hq' H1 H2. destruct (Hback y q' Hq') as (q & Hq0 & -> & -> & _). by apply (sc_off Hs Hq0).
Qed.

(** Without a process that is not blocked on a pipe. *)
Lemma hinv_unlist U S S' k x : hinv U S k -> idle k x -> (forall y, y ∈ S -> y <> x -> y ∈ S') -> hinv U S' k.
Proof.
  intros H Hx HS. split; try apply H. intros b p Hb. destruct (hv_pipe H Hb) as (r & w & pid & l & d & bs & P & Ho & Hpid).
  exists r, w, pid, l, d, bs. split; [done|]. split; [done|]. destruct Hpid as [?|[Hin Hw]]; [by left | right]. split; [|done].
  apply HS; [done|]. intros ->. by apply (Hx b _ (pa_pipe P)).
Qed.

Section stages.
  Context {Inv : gmap Z Z -> Buddy.memarea -> Prop} `{!Allocator Buddy.kmalloc_ma Buddy.kfree_ma Inv}.

(** What is known between the stages: the lists, the references, the table up
    to the lists, the current process and the pages. *)
Record dying (R S : list Z) (U : Z -> Z) (tbl : list process) (c : option Z) (pg : pages) (k : kstate) : Prop := {
  dy_sched : sched R S k;
  dy_heap : heap_inv Inv k;
  dy_hinv : hinv U S k;
  dy_leak : no_leak U k;
  dy_table : core <$> k_processes k = core <$> tbl;
  dy_current : k_current k = c;
  dy_off : k_paging k = None;
  dy_pages : k_pages k = pg
}.

Lemma stage_close R S U tbl c pg k x p : dying R S U tbl c pg k -> zlookup tbl x = Some p ->
  length (p_filedesc p) = Z.to_nat MAX_FDS -> (forall a, uses a (p_filedesc p) <= U a) ->
  wp (close_all x) (fun _ k' => exists R' S', woke R S R' S' /\ idle_kept S S' k k' /\
    dying R' S' (fun a => U a - uses a (p_filedesc p)) tbl c pg k' /\ closes_all (k_objs k) R S (p_filedesc p) (k_objs k') R' S' /\
    (live_ends (k_objs k) -> live_ends (k_objs k'))) k.
Proof using Allocator0.
  intros D Hp Hlen HU. destruct (core_lookup _ _ x p (dy_table _ _ _ _ _ _ _ D) Hp) as (p1 & Hp1 & Hc).
  pose proof (core_field p_filedesc p1 p (fun _ => eq_refl) Hc) as E. rewrite <- E in *.
  eapply wp_mono; [apply (close_all_spec U R S k x p1); [apply D | apply D | apply D | done | done | done]|].
  intros [] k' [(R' & S' & Hw & Hs & Hh & Hid & Hca) Hi Hq Hl Hlv]. exists R', S'. split; [done|]. split; [done|]. split; [|by split].
  pose proof (quiet_core _ _ Hq) as Ec. rewrite (dy_table _ _ _ _ _ _ _ D) in Ec. pose proof (Hl (dy_leak _ _ _ _ _ _ _ D)) as Hl'.
  destruct Hq as (h & o & n & ps & r & s & -> & _). split; try done; try apply D.
Qed.

Lemma stage_mailbox R S U tbl c pg k a : dying R S U tbl c pg k -> a = 0 \/ private k a ->
  wp (when_ (truthy a) (kfree a)) (fun _ k' => dying R S U tbl c pg k' /\ (forall y, idle k y -> idle k' y) /\
    k_objs k' = if a =? 0 then k_objs k else delete a (k_objs k)) k.
Proof using Allocator0.
  intros D Ha. unfold truthy. destruct (Z.eqb_spec a 0) as [-> |Hnz]; [by apply wp_ret|]. destruct Ha as [?|[[l Hl] Hp]]; [done|].
  cbn. eapply wp_mono; [eapply kfree_spec; [apply D | exact Hl]|].
  intros [] k' [[h E] Hi]. assert (Ho : k_objs k' = delete a (k_objs k)) by (by rewrite E). split; [split|split; [|done]].
  - rewrite E. eapply sched_frame; [apply D | done..].
  - done.
  - eapply (hinv_delete U S k k' a); [apply D | | exact Hl | done | | done].
    + destruct (decide (U a = 0)) as [|Hu]; [done|]. destruct (hv_handle (dy_hinv _ _ _ _ _ _ _ D) Hu) as (f & Hf & _). congruence.
    + intros b r w pid l' bytes P. by apply (Hp b _ (pa_pipe P)).
  - intros y f Hf. rewrite Ho in Hf. apply lookup_delete_Some in Hf as [_ Hf]. by apply (dy_leak _ _ _ _ _ _ _ D y f).
  - rewrite E. apply D.
  - rewrite E. apply D.
  - rewrite E. apply D.
  - rewrite E. apply D.
  - intros y Hy b p. rewrite Ho. intros [_ Hb]%lookup_delete_Some. by apply Hy in Hb.
Qed.

(** A change of the table that leaves the lists alone. *)
Lemma stage_table R S U tbl tbl' c pg k ps : dying R S U tbl c pg k -> sched R S (k <| k_processes := ps |>) ->
  core <$> ps = core <$> tbl' -> dying R S U tbl' c pg (k <| k_processes := ps |>).
Proof using. intros D Hs E. split; try done; try apply D. eapply hinv_objs; [|apply D]. done. Qed.

Lemma core_orphan pid p : core (orphan pid p) = orphan pid (core p).
Proof using. unfold orphan. change (p_parent_pid (core p)) with (p_parent_pid p). by destruct (pid =? p_parent_pid p). Qed.
Lemma fmap_orphan pid (ps ps' : list process) : core <$> ps = core <$> ps' -> core <$> (orphan pid <$> ps) = core <$> (orphan pid <$> ps').
Proof using.
  intros E. enough (H : forall l, core <$> (orphan pid <$> l) = orphan pid <$> (core <$> l)) by (by rewrite !H, E).
  intros l. induction l as [|p l IH]; [done|]. rewrite !fmap_cons, IH, core_orphan. done.
Qed.
Lemma stage_orphan R S U tbl c pg k pid : dying R S U tbl c pg k ->
  wp (orphan_children pid) (fun _ k' => dying R S U (orphan pid <$> tbl) c pg k' /\ k_objs k' = k_objs k) k.
Proof using.
  intros D. eapply wp_mono; [apply orphan_children_spec, (sc_table (dy_sched _ _ _ _ _ _ _ D))|]. intros [] k' ->. split; [|done].
  eapply stage_table; [exact D | | apply fmap_orphan, D].
  eapply sched_map; [apply D | done | done | cbn; apply length_fmap |]. intros y q Hq. exists (orphan pid q). cbn.
  assert (E : zlookup (orphan pid <$> k_processes k) y = Some (orphan pid q)).
  { unfold zlookup in *. destruct (y <? 0); [done|]. by rewrite list_lookup_fmap, Hq. }
  split; [exact E|]. unfold orphan. by destruct (pid =? p_parent_pid q).
Qed.

(** Waking up the parent. *)
Lemma stage_parent R S U tbl c pg k x y q : dying R S U tbl c pg k -> zlookup tbl y = Some q ->
  (SYSCALL_WAITPID = p_in_syscall q -> x = p_waiting_on q -> y ∈ S /\ idle k y) ->
  wp (parent <- get_proc y;
      when_ ((SYSCALL_WAITPID =? p_in_syscall parent) && (x =? p_waiting_on parent))
       (upd_proc y (fun q => q <| p_waiting_on := -1 |>);; resume_process y))
    (fun _ k' => exists R' S', wakes_up (if (SYSCALL_WAITPID =? p_in_syscall q) && (x =? p_waiting_on q) then y else -1) R S R' S' /\
       k_objs k' = k_objs k /\ dying R' S' U
       (if (SYSCALL_WAITPID =? p_in_syscall q) && (x =? p_waiting_on q) then zinsert y (q <| p_waiting_on := -1 |>) tbl else tbl) c pg k') k.
Proof using.
  intros D Hy Hwait. destruct (core_lookup _ _ y q (dy_table _ _ _ _ _ _ _ D) Hy) as (q1 & Hq1 & Hc).
  wp_step. eapply wp_get_proc; [exact Hq1|].
  rewrite (core_field p_in_syscall q1 q (fun _ => eq_refl) Hc), (core_field p_waiting_on q1 q (fun _ => eq_refl) Hc).
  destruct (Z.eqb_spec SYSCALL_WAITPID (p_in_syscall q)) as [E1|E1]; cbn [andb]; [|apply wp_ret; exists R, S; by split; [left|]].
  destruct (Z.eqb_spec x (p_waiting_on q)) as [E2|E2]; cbn [when_]; [|apply wp_ret; exists R, S; by split; [left|]].
  destruct (Hwait E1 E2) as [HS Hid]. wp_step. eapply wp_upd_proc; [exact Hq1|].
  assert (D1 : dying R S U (zinsert y (q <| p_waiting_on := -1 |>) tbl) c pg (k <| k_processes := zinsert y (q1 <| p_waiting_on := -1 |>) (k_processes k) |>)).
  { eapply stage_table; [exact D | eapply (sched_upd R S k y q1); [apply D | done | by split] |]. apply core_zinsert; [apply D|].
    change (core (q1 <| p_waiting_on := -1 |>)) with ((core q1) <| p_waiting_on := -1 |>). by rewrite Hc. }
  set (k1 := k <| k_processes := zinsert y (q1 <| p_waiting_on := -1 |>) (k_processes k) |>) in *. change (idle k1 y) in Hid.
  apply list_elem_of_split in HS as (S1 & S2 & ->). eapply wp_mono; [apply (resume_process_wp R S1 S2), D1|].
  intros [] k' [Hs' Hm]. exists (y :: R), (S1 ++ S2). split; [right; split; [intros ->; apply zlookup_range in Hy; lia | by exists S1, S2]|].

  pose proof (moved_heap _ _ _ _ Hm) as [Ho Hh]. pose proof (quiet_core _ _ (moved_core _ _ _ _ Hm)) as Ec.
  assert (F : k_current k' = k_current k1 /\ k_paging k' = k_paging k1 /\ k_pages k' = k_pages k1) by (by destruct Hm as (ps & lr & ls & -> & _)).
  destruct F as (F1 & F2 & F3). split; [done|]. split.
  - done.
  - unfold heap_inv. rewrite Ho, Hh. apply D1.
  - eapply hinv_objs; [exact Ho|]. eapply (hinv_unlist U (S1 ++ y :: S2)); [apply D1 | exact Hid |].
    intros z Hz Hne. rewrite elem_of_app, elem_of_cons in Hz. rewrite elem_of_app. tauto.
  - intros z f. rewrite Ho. apply D1.
  - rewrite Ec. apply D1.
  - rewrite F1. apply D1.
  - rewrite F2. apply D1.
  - rewrite F3. apply D1.
Qed.

(** A change of a process that is on no list. *)
Lemma stage_upd R S U tbl c pg k x p (g : process -> process) : dying R S U tbl c pg k -> zlookup tbl x = Some p -> x ∉ R -> x ∉ S ->
  (forall q, core (g q) = g (core q)) -> (forall q, p_prev (g q) = p_prev q) -> (forall q, p_next (g q) = p_next q) ->
  wp (upd_proc x g) (fun _ k' => dying R S U (zinsert x (g p) tbl) c pg k' /\ k_objs k' = k_objs k) k.
Proof using.
  intros D Hp HR HS Hg Hpr Hnx. destruct (core_lookup _ _ x p (dy_table _ _ _ _ _ _ _ D) Hp) as (p1 & Hp1 & Hc).
  eapply wp_upd_proc; [exact Hp1|]. split; [|done]. eapply stage_table; [exact D | | apply core_zinsert; [apply D | by rewrite !Hg, Hc]].
  eapply sched_map; [apply D | done | done | cbn; apply zinsert_length |]. intros y q Hq. cbn. destruct (decide (y = x)) as [-> |Hne].
  - exists (g p1). rewrite zlookup_zinsert_eq by (by eapply zlookup_range). rewrite Hp1 in Hq. injection Hq as <-.
    split; [done|]. split; [done|]. split; [done|]. tauto.
  - exists q. by rewrite zlookup_zinsert_ne.
Qed.
End stages.

(** ** kill_process *)

(** The table when [x] is dead. *)
Definition dead_table (x : Z) (p : process) (ps : list process) : list process :=
  let ps1 := orphan x <$> ps in
  if p_parent_pid p =? -1 then zinsert x (p <| p_exists := 0 |> <| p_exited := 1 |>) ps1
  else
    zinsert x (p <| p_exited := 1 |>)
      (match zlookup ps1 (p_parent_pid p) with
       | Some q => if (SYSCALL_WAITPID =? p_in_syscall q) && (x =? p_waiting_on q)
                   then zinsert (p_parent_pid p) (q <| p_waiting_on := -1 |>) ps1 else ps1
       | None => ps1
       end).

Lemma zlookup_fmap {A B} (g : A -> B) l i : zlookup (g <$> l) i = g <$> zlookup l i.
Proof. unfold zlookup. destruct (i <? 0); [done|]. apply list_lookup_fmap. Qed.
Lemma fds_of_orphan x p : fds_of (orphan x p) = fds_of p.
Proof. unfold orphan. by destruct (x =? p_parent_pid p). Qed.
Lemma refs_orphan x ps a : refs (orphan x <$> ps) a = refs ps a.
Proof.
  unfold refs, table_fds. f_equal. induction ps as [|p ps IH]; [done|]. cbn. by rewrite IH, fds_of_orphan.
Qed.
Lemma refs_dead x p ps a : zlookup ps x = Some p -> alive p = true -> p_parent_pid p <> x ->
  refs (dead_table x p ps) a = refs ps a - uses a (p_filedesc p).
Proof.
  intros Hp Hal Hpar. assert (Hf : fds_of p = p_filedesc p) by (unfold fds_of; by rewrite Hal).
  assert (Hp1 : zlookup (orphan x <$> ps) x = Some p).
  { rewrite zlookup_fmap, Hp. cbn. unfold orphan. by destruct (Z.eqb_spec x (p_parent_pid p)). }
  assert (Hd : forall l q, zlookup l x = Some p -> alive q = false -> refs (zinsert x q l) a = refs l a - uses a (p_filedesc p)).
  { intros l q Hl Hq. rewrite (refs_insert _ _ _ p) by done. unfold fds_of at 2. rewrite Hq, Hf. unfold uses at 2. case_decide; cbn; lia. }
  assert (Hdead : forall v, alive (p <| p_exited := 1 |>) = false /\ alive (p <| p_exists := v |> <| p_exited := 1 |>) = false).
  { intros v. unfold alive. cbn. by rewrite !andb_false_r. }
  unfold dead_table. destruct (p_parent_pid p =? -1); [rewrite Hd by (done || apply (Hdead 0)); by rewrite refs_orphan|].
  destruct (zlookup (orphan x <$> ps) (p_parent_pid p)) as [q|] eqn:Eq; [|rewrite Hd by (done || apply (Hdead 0)); by rewrite refs_orphan].
  destruct (_ && _); [|rewrite Hd by (done || apply (Hdead 0)); by rewrite refs_orphan].
  rewrite Hd; [| by rewrite zlookup_zinsert_ne | apply (Hdead 0)]. rewrite (refs_insert _ _ _ q) by done. rewrite refs_orphan.
  change (fds_of (q <| p_waiting_on := -1 |>)) with (fds_of q). lia.
Qed.
Lemma dead_fds x p ps n : (forall y q, zlookup ps y = Some q -> length (p_filedesc q) = n) -> zlookup ps x = Some p ->
  forall y q, zlookup (dead_table x p ps) y = Some q -> length (p_filedesc q) = n.
Proof.
  intros H Hp. assert (H1 : forall y q, zlookup (orphan x <$> ps) y = Some q -> length (p_filedesc q) = n).
  { intros y q. rewrite zlookup_fmap. intros (q0 & Hq0 & ->)%fmap_Some. rewrite <- (H y q0 Hq0). unfold orphan. by destruct (x =? p_parent_pid q0). }
  assert (Hins : forall l y0 q0, (forall y q, zlookup l y = Some q -> length (p_filedesc q) = n) -> length (p_filedesc q0) = n ->
    forall y q, zlookup (zinsert y0 q0 l) y = Some q -> length (p_filedesc q) = n).
  { intros l y0 q0 Hl Hq0 y q Hq. destruct (decide (y = y0)) as [-> |Hne].
    - pose proof (zlookup_range _ _ _ Hq) as Hr. rewrite zinsert_length in Hr. rewrite zlookup_zinsert_eq in Hq by done. by injection Hq as <-.
    - rewrite zlookup_zinsert_ne in Hq by done. by eapply Hl. }
  unfold dead_table. destruct (_ =? -1); apply Hins; try (cbn; by apply (H x)); [done|].
  destruct (zlookup (orphan x <$> ps) (p_parent_pid p)) as [q|] eqn:Eq; [|done]. destruct (_ && _); [|done].
  apply Hins; [done|]. cbn. by apply (H1 _ _ Eq).
Qed.

Lemma dead_pdir x p ps y q : zlookup ps x = Some p -> zlookup ps y = Some q ->
  exists q', zlookup (dead_table x p ps) y = Some q' /\ p_pdir q' = p_pdir q.
Proof.
  intros Hp Hq. assert (H1 : exists q', zlookup (orphan x <$> ps) y = Some q' /\ p_pdir q' = p_pdir q).
  { exists (orphan x q). rewrite zlookup_fmap, Hq. split; [done|]. unfold orphan. by destruct (x =? p_parent_pid q). }
  assert (Hins : forall l y0 q0, (exists q', zlookup l y = Some q' /\ p_pdir q' = p_pdir q) -> (y = y0 -> p_pdir q0 = p_pdir q) ->
    exists q', zlookup (zinsert y0 q0 l) y = Some q' /\ p_pdir q' = p_pdir q).
  { intros l y0 q0 (q' & Hl & E) H0. destruct (decide (y = y0)) as [-> |Hne].
    - exists q0. rewrite zlookup_zinsert_eq by (by eapply zlookup_range). auto.
    - exists q'. by rewrite zlookup_zinsert_ne. }
  assert (Hx : y = x -> p_pdir p = p_pdir q) by (intros ->; congruence).
  unfold dead_table. destruct (p_parent_pid p =? -1); apply Hins; try done.
  destruct (zlookup (orphan x <$> ps) (p_parent_pid p)) as [r|] eqn:Er; [|done]. destruct (_ && _); [|done].
  apply Hins; [done|]. intros ->. destruct H1 as (q' & Hq' & E). rewrite Er in Hq'. by injection Hq' as ->.
Qed.

(** The parent that waits for [x] in waitpid, -1 when there is none. *)
Definition waiter (x : Z) (p : process) (ps : list process) : Z :=
  if p_parent_pid p =? -1 then -1
  else match zlookup ps (p_parent_pid p) with
       | Some q => if (SYSCALL_WAITPID =? p_in_syscall q) && (x =? p_waiting_on q) then p_parent_pid p else -1
       | None => -1
       end.
(** The lists without [x]. *)
Definition off_list (x : Z) (R S R' S' : list Z) : Prop :=
  (exists L1 L2, R = L1 ++ x :: L2 /\ R' = L1 ++ L2 /\ S' = S) \/ (exists L1 L2, S = L1 ++ x :: L2 /\ S' = L1 ++ L2 /\ R' = R).
Lemma off_list_perm x R S R' S' : off_list x R S R' S' -> R ++ S ≡ₚ x :: R' ++ S'.
Proof.
  intros [(L1 & L2 & -> & -> & ->)|(L1 & L2 & -> & -> & ->)]; [by rewrite <- Permutation_middle|].
  by rewrite app_assoc, <- Permutation_middle, app_assoc.
Qed.

Section kill.
  Context {Inv : gmap Z Z -> Buddy.memarea -> Prop} `{!Allocator Buddy.kmalloc_ma Buddy.kfree_ma Inv}.
  Context (R S : list Z) (k : kstate) (x : Z) (p : process) (A : gset Z) (T V : gmap Z Z) (bs bd bt : Z) (Ls Ld Lt : list Z).

(** What kill_process relies on: the process is on a list and not blocked on a
    pipe, its segments are whole pages backed by frames of its own, its mailbox
    is a buffer of its own, and a parent that waits for it is suspended. *)
Record killable : Prop := {
  kl_system : system (Inv := Inv) R S k;
  kl_process : zlookup (k_processes k) x = Some p;
  kl_pid : p_pid p = x;
  kl_alive : alive p = true;
  kl_listed : x ∈ R ++ S;
  kl_idle : idle k x;
  kl_space : space A (k_pages k) (p_pdir p) T V;
  kl_stack : owned A (p_pdir p) T V (p_stack_start p) (p_stack_end p) bs Ls;
  kl_data : owned A (p_pdir p) T V (p_data_start p) (p_data_end p) bd Ld;
  kl_text : owned A (p_pdir p) T V (p_text_start p) (p_text_end p) bt Lt;
  kl_frames : NoDup (Ls ++ Ld ++ Lt);
  kl_mailbox : p_mailbox p = 0 \/ private k (p_mailbox p);
  kl_parent : p_parent_pid p = -1 \/ exists q, p_parent_pid p <> x /\ zlookup (k_processes k) (p_parent_pid p) = Some q /\
    (SYSCALL_WAITPID = p_in_syscall q -> x = p_waiting_on q -> p_parent_pid p ∈ S /\ idle k (p_parent_pid p));
  kl_current : exists c q, k_current k = Some c /\ zlookup (k_processes k) c = Some q
}.

(** The objects and the lists: the process is taken off its list, its
    descriptors are closed in order, its mailbox is freed, and the parent that
    waits for it becomes ready. *)
Definition kill_effect (k' : kstate) : Prop :=
  exists R1 S1 os R2 S2 R' S', off_list x R S R1 S1 /\ closes_all (k_objs k) R1 S1 (p_filedesc p) os R2 S2 /\
    k_objs k' = (if p_mailbox p =? 0 then os else delete (p_mailbox p) os) /\
    wakes_up (waiter x p (k_processes k)) R2 S2 R' S' /\ system (Inv := Inv) R' S' k'.

(** What is left of it. *)
Record killed (k' : kstate) : Prop := {
  kd_effect : kill_effect k';
  kd_live : live_ends (k_objs k) -> live_ends (k_objs k');
  kd_table : core <$> k_processes k' = core <$> dead_table x p (k_processes k);
  kd_pages : pinv (A ∖ (list_to_set (Ls ++ Ld ++ Lt) ∪ foot (p_pdir p) T)) (k_pages k');
  kd_frames : freed A (k_pages k) (p_pdir p) T (Ls ++ Ld ++ Lt) (k_pages k');
  kd_current : if bool_decide (k_current k = Some x) then k_current k' = None /\ k_paging k' = None
    else exists c q, k_current k = Some c /\ k_current k' = Some c /\ zlookup (k_processes k) c = Some q /\ k_paging k' = Some (p_pdir q)
}.

(** Off the list. *)
Lemma stage_unlist c k0 : killable -> k_processes k0 = k_processes k -> k_ready k0 = k_ready k -> k_suspended k0 = k_suspended k ->
  k_objs k0 = k_objs k -> k_heap k0 = k_heap k -> k_current k0 = c -> k_paging k0 = None -> k_pages k0 = k_pages k ->
  wp (if truthy (p_ready p) then list_remove Ready x else list_remove Suspended x) (fun _ k1 => exists R1 S1,
    dying (Inv := Inv) R1 S1 (refs (k_processes k)) (k_processes k) c (k_pages k) k1 /\ off_list x R S R1 S1 /\ k_objs k1 = k_objs k /\
    (forall y, y ∈ S -> y <> x -> y ∈ S1)) k0.
Proof using.
  intros K F1 F2 F3 F4 F5 F6 F7 F8. pose proof (kl_system K) as Hsys. pose proof (sy_sched _ _ _ Hsys) as Hs.
  assert (Hs0 : sched R S k0) by (by eapply sched_frame). pose proof (kl_process K) as Hp. rewrite <- F1 in Hp.
  assert (Hdy : forall R1 S1 k1, sched R1 S1 k1 -> core <$> k_processes k1 = core <$> k_processes k -> k_objs k1 = k_objs k0 -> k_heap k1 = k_heap k0 ->
    k_current k1 = k_current k0 -> k_paging k1 = k_paging k0 -> k_pages k1 = k_pages k0 -> (forall y, y ∈ S -> y <> x -> y ∈ S1) ->
    dying (Inv := Inv) R1 S1 (refs (k_processes k)) (k_processes k) c (k_pages k) k1).
  { intros R1 S1 k1 Hs1 Et G1 G2 G3 G4 G5 HS. split; try congruence.
    - unfold heap_inv. rewrite G1, G2, F4, F5. apply Hsys.
    - eapply hinv_objs; [rewrite G1; exact F4|]. eapply hinv_unlist; [apply Hsys | apply K | done].
    - intros y f. rewrite G1, F4. apply Hsys. }
  destruct (elem_of_app R S x) as [Hx _]. destruct (Hx (kl_listed K)) as [Hin|Hin].
  - destruct (sc_runnable Hs0 Hin Hp) as [_ Hr]. unfold truthy. destruct (Z.eqb_spec (p_ready p) 0); [done|]. cbn [negb].
    apply list_elem_of_split in Hin as (L1 & L2 & ER). eapply wp_mono; [by apply (unlist_wp Ready R S k0 x p L1 L2)|].
    intros [] k1 [(ps & l & -> & Ec) Hs1]. cbn [without_list] in Hs1. exists (L1 ++ L2), S. split; [apply Hdy; try done; cbn; by rewrite Ec, F1|].
    split; [left; by exists L1, L2|]. split; [exact F4 | done].
  - destruct (sc_blocked Hs0 Hin Hp) as [_ ->]. cbn [truthy negb]. change (truthy 0) with false. cbn iota.
    apply list_elem_of_split in Hin as (L1 & L2 & ES). eapply wp_mono; [by apply (unlist_wp Suspended R S k0 x p L1 L2)|].
    intros [] k1 [(ps & l & -> & Ec) Hs1]. cbn [without_list] in Hs1.
    assert (HS : forall y, y ∈ S -> y <> x -> y ∈ L1 ++ L2).
    { intros y. rewrite ES, !elem_of_app, elem_of_cons. tauto. }
    exists R, (L1 ++ L2). split; [apply Hdy; try done; cbn; by rewrite Ec, F1|].
    split; [right; by exists L1, L2|]. split; [exact F4 | done].
Qed.

(** The last stage: the process is marked, and paging is turned on again for
    the process that runs. *)
Lemma stage_exit k1 R1 S1 pg' (b : bool) tbl p1 : killable -> b = bool_decide (k_current k = Some x) ->
  dying (Inv := Inv) R1 S1 (fun a => refs (k_processes k) a - uses a (p_filedesc p)) tbl (if b then None else k_current k) pg' k1 ->
  R ++ S ≡ₚ x :: R1 ++ S1 -> zlookup tbl x = Some p1 -> zinsert x (p1 <| p_exited := 1 |>) tbl = dead_table x p (k_processes k) ->
  (forall y q, zlookup (k_processes k) y = Some q -> exists q', zlookup (dead_table x p (k_processes k)) y = Some q' /\ p_pdir q' = p_pdir q) ->
  pinv (A ∖ (list_to_set (Ls ++ Ld ++ Lt) ∪ foot (p_pdir p) T)) pg' -> freed A (k_pages k) (p_pdir p) T (Ls ++ Ld ++ Lt) pg' ->
  p_parent_pid p <> x -> (forall k', k_objs k' = k_objs k1 -> system (Inv := Inv) R1 S1 k' -> kill_effect k') ->
  (live_ends (k_objs k) -> live_ends (k_objs k1)) ->
  wp (upd_proc x (fun p => p <| p_exited := 1 |>);; when_ (negb b) (c <- cur; enable_paging (p_pdir c))) (fun _ k' => killed k') k1.
Proof using.
  intros K Eb D HP Hp1 Etbl Hpd Hpi Hfr Hpar Heff Hlive. pose proof (kl_system K) as Hsys.
  assert (Hnd : NoDup (x :: R1 ++ S1)).
  { rewrite <- HP. apply list.NoDup_app. pose proof (sy_sched _ _ _ Hsys) as Hs. split; [apply (dl_nodup (sc_ready Hs))|].
    split; [apply Hs | apply (dl_nodup (sc_suspended Hs))]. }
  apply list.NoDup_cons in Hnd as [Hnx _]. rewrite elem_of_app in Hnx.
  wp_step. eapply wp_mono; [eapply (stage_upd R1 S1 _ tbl _ pg' k1 x p1); [exact D | done | tauto | tauto | done..]|].
  intros [] k2 [D2 Ho2]. rewrite Etbl in D2. clear D. rewrite <- Ho2 in Hlive.
  assert (Hfin : forall v, system (Inv := Inv) R1 S1 (k2 <| k_paging := v |>)).
  { intros v. assert (Er : forall y, refs (k_processes k2) y = refs (k_processes k) y - uses y (p_filedesc p)).
    { intros y. rewrite (refs_core _ _ _ (dy_table _ _ _ _ _ _ _ D2)). apply refs_dead; [apply K | apply K | done]. }
    split.
    - eapply sched_frame; [apply D2 | done..].
    - apply D2.
    - eapply hinv_ext; [exact Er|]. eapply hinv_objs; [|apply D2]. done.
    - intros y f Hf. cbn. rewrite Er. by apply (dy_leak _ _ _ _ _ _ _ D2 y f).
    - intros y q Hq. cbn in Hq.
      destruct (core_lookup (k_processes k2) (dead_table x p (k_processes k)) y q) as (q' & Hq' & Ec); [by rewrite (dy_table _ _ _ _ _ _ _ D2) | done |].
      rewrite <- (core_field p_filedesc q' q (fun _ => eq_refl) Ec). eapply (dead_fds x p (k_processes k)); [apply Hsys | apply K | exact Hq']. }
  assert (Hoff : k2 <| k_paging := None |> = k2) by (rewrite <- (dy_off _ _ _ _ _ _ _ D2); by destruct k2).
  destruct b; cbn [negb when_].
  - apply wp_ret. split.
    + apply Heff; [exact Ho2|]. rewrite <- Hoff. apply Hfin.
    + exact Hlive.
    + apply D2.
    + by rewrite (dy_pages _ _ _ _ _ _ _ D2).
    + by rewrite (dy_pages _ _ _ _ _ _ _ D2).
    + rewrite <- Eb. split; apply D2.
  - destruct (kl_current K) as (c & q & Hc & Hq). destruct (Hpd c q Hq) as (q1 & Hq1 & Epd).
    destruct (core_lookup _ _ c q1 (dy_table _ _ _ _ _ _ _ D2) Hq1) as (q2 & Hq2 & Ec).
    pose proof (dy_current _ _ _ _ _ _ _ D2) as Hc2. rewrite Hc in Hc2.
    wp_step. eapply wp_cur; [exact Hc2 | exact Hq2 |]. apply wp_modify. split.
    + apply Heff; [exact Ho2 | apply Hfin].
    + exact Hlive.
    + apply D2.
    + cbn. by rewrite (dy_pages _ _ _ _ _ _ _ D2).
    + cbn. by rewrite (dy_pages _ _ _ _ _ _ _ D2).
    + rewrite <- Eb. exists c, q. split; [done|]. split; [done|]. split; [done|]. cbn. f_equal.
      rewrite (core_field p_pdir q2 q1 (fun _ => eq_refl) Ec). done.
Qed.

Lemma parent_other : killable -> p_parent_pid p <> x.
Proof using.
  intros K. destruct (kl_parent K) as [-> |(q & H & _)]; [|done]. intros <-. pose proof (zlookup_range _ _ _ (kl_process K)). lia.
Qed.

(** The children and the parent. *)
Lemma stage_family k1 R1 S1 pg' (b : bool) : killable -> b = bool_decide (k_current k = Some x) ->
  dying (Inv := Inv) R1 S1 (fun a => refs (k_processes k) a - uses a (p_filedesc p)) (k_processes k) (if b then None else k_current k) pg' k1 ->
  R ++ S ≡ₚ x :: R1 ++ S1 -> (forall y, y <> x -> y <> -1 -> y ∈ S -> idle k y -> y ∈ S1 /\ idle k1 y) ->
  pinv (A ∖ (list_to_set (Ls ++ Ld ++ Lt) ∪ foot (p_pdir p) T)) pg' -> freed A (k_pages k) (p_pdir p) T (Ls ++ Ld ++ Lt) pg' ->
  (forall R' S' k', wakes_up (waiter x p (k_processes k)) R1 S1 R' S' -> k_objs k' = k_objs k1 -> system (Inv := Inv) R' S' k' -> kill_effect k') ->
  (live_ends (k_objs k) -> live_ends (k_objs k1)) ->
  wp (orphan_children x;;
      p <- get_proc x;
      (if p_parent_pid p =? -1 then upd_proc x (fun p => p <| p_exists := 0 |>)
       else
         parent <- get_proc (p_parent_pid p);
         when_ ((SYSCALL_WAITPID =? p_in_syscall parent) && (p_pid p =? p_waiting_on parent))
           (upd_proc (p_parent_pid p) (fun q => q <| p_waiting_on := -1 |>);;
            resume_process (p_parent_pid p)));;
      upd_proc x (fun p => p <| p_exited := 1 |>);;
      when_ (negb b) (c <- cur; enable_paging (p_pdir c))) (fun _ k' => killed k') k1.
Proof using.
  intros K Eb D HP HS Hpi Hfr Heff Hlive. pose proof (parent_other K) as Hpar. pose proof (kl_process K) as Hp.
  pose proof (fun y q => dead_pdir x p (k_processes k) y q Hp) as Hpd.
  assert (Hnd : NoDup (x :: R1 ++ S1)).
  { rewrite <- HP. pose proof (sy_sched _ _ _ (kl_system K)) as Hs. apply list.NoDup_app. split; [apply (dl_nodup (sc_ready Hs))|].
    split; [apply Hs | apply (dl_nodup (sc_suspended Hs))]. }
  apply list.NoDup_cons in Hnd as [Hnx _]. rewrite elem_of_app in Hnx.
  wp_step. eapply wp_mono; [by eapply stage_orphan|]. intros [] k2 [D2 Ho2]. clear D.
  assert (Hp2 : zlookup (orphan x <$> k_processes k) x = Some p).
  { rewrite zlookup_fmap, Hp. cbn. unfold orphan. by destruct (Z.eqb_spec x (p_parent_pid p)). }
  destruct (core_lookup _ _ x p (dy_table _ _ _ _ _ _ _ D2) Hp2) as (p2 & Hp2' & Ec).
  wp_step. eapply wp_get_proc; [exact Hp2'|].
  rewrite (core_field p_parent_pid p2 p (fun _ => eq_refl) Ec), (core_field p_pid p2 p (fun _ => eq_refl) Ec), (kl_pid K).
  destruct (Z.eqb_spec (p_parent_pid p) (-1)) as [Em|Em].
  - wp_step. eapply wp_mono; [eapply (stage_upd R1 S1 _ _ _ pg' k2 x p); [exact D2 | done | tauto | tauto | done..]|].
    intros [] k3 [D3 Ho3]. eapply (stage_exit k3 R1 S1 pg' b _ (p <| p_exists := 0 |>)); try done.
    + apply zlookup_zinsert_eq. by eapply zlookup_range.
    + rewrite zinsert_twice. unfold dead_table. destruct (Z.eqb_spec (p_parent_pid p) (-1)); done.
    + intros k' Ho'. apply Heff; [|by rewrite Ho', Ho3, Ho2]. left. split; [|done]. unfold waiter. by rewrite Em.
    + by rewrite Ho3, Ho2.
  - destruct (kl_parent K) as [?|(q & _ & Hq & Hw)]; [done|].
    assert (Hq2 : zlookup (orphan x <$> k_processes k) (p_parent_pid p) = Some (orphan x q)) by (by rewrite zlookup_fmap, Hq).
    assert (Eo : p_in_syscall (orphan x q) = p_in_syscall q /\ p_waiting_on (orphan x q) = p_waiting_on q).
    { unfold orphan. by destruct (x =? p_parent_pid q). }
    destruct Eo as [Eo1 Eo2].
    wp_step. eapply wp_mono; [eapply (stage_parent R1 S1 _ _ _ pg' k2 x (p_parent_pid p) (orphan x q)); [exact D2 | done |]|].
    { rewrite Eo1, Eo2. intros E1 E2. destruct (Hw E1 E2) as [H1 H2]. destruct (HS (p_parent_pid p)) as [H3 H4]; try done. split; [done|].
      intros y r. rewrite Ho2. apply H4. }
    rewrite Eo1, Eo2. intros [] k3 (R3 & S3 & HW & Ho3 & D3). eapply (stage_exit k3 R3 S3 pg' b _ p); try done.
    + rewrite HP. constructor. by eapply wakes_woke, wakes_up_wakes.
    + destruct (_ && _); [|done]. by rewrite zlookup_zinsert_ne.
    + unfold dead_table. destruct (Z.eqb_spec (p_parent_pid p) (-1)); [done|]. by rewrite Hq2, Eo1, Eo2.
    + intros k' Ho'. apply Heff; [|by rewrite Ho', Ho3, Ho2]. unfold waiter. destruct (Z.eqb_spec (p_parent_pid p) (-1)); [done|]. by rewrite Hq.
    + by rewrite Ho3, Ho2.
Qed.

Lemma kill_process_spec : killable -> wp (kill_process x) (fun _ k' => killed k') k.
Proof using Allocator0.
  intros K. pose proof (kl_system K) as Hsys. pose proof (kl_process K) as Hp. unfold kill_process. wp_step. wp_step.
  set (b := bool_decide (k_current k = Some x)). unfold disable_paging. wp_step. apply wp_modify. wp_step.
  assert (Hk0 : wp (when_ b (modify (fun k => k <| k_current := None |>))) (fun _ k0 => k_processes k0 = k_processes k /\ k_ready k0 = k_ready k /\
    k_suspended k0 = k_suspended k /\ k_objs k0 = k_objs k /\ k_heap k0 = k_heap k /\ k_current k0 = (if b then None else k_current k) /\
    k_paging k0 = None /\ k_pages k0 = k_pages k) (k <| k_paging := None |>)) by (destruct b; [by apply wp_modify | by apply wp_ret]).
  eapply wp_mono; [exact Hk0|]. clear Hk0. intros [] k0 (F1 & F2 & F3 & F4 & F5 & F6 & F7 & F8).
  wp_step. eapply wp_get_proc; [rewrite F1; exact Hp|]. wp_step.
  eapply wp_mono; [by apply (stage_unlist _ k0 K F1 F2 F3 F4 F5 F6 F7 F8)|]. intros [] k1 (R1 & S1 & D1 & HP1 & Ho1 & HS1). clear k0 F1 F2 F3 F4 F5 F6 F7 F8.
  wp_step. eapply wp_mono; [eapply (stage_close R1 S1 _ _ _ _ k1 x p); [exact D1 | exact Hp | by apply (sy_fds _ _ _ Hsys x) |]|].
  { intros a. destruct (zinsert_parts (k_processes k) x p p Hp) as (l1 & l2 & -> & _). unfold refs, table_fds.
    rewrite !bind_app, !uses_app, bind_singleton. assert (Ef : fds_of p = p_filedesc p) by (unfold fds_of; by rewrite (kl_alive K)). rewrite Ef.
    pose proof (uses_nonneg a (l1 ≫= fds_of)). pose proof (uses_nonneg a (l2 ≫= fds_of)). lia. }
  intros [] k2 (R2 & S2 & HW2 & [Hid2 Hpr2] & D2 & Hca & Hlv). rewrite Ho1 in Hca, Hlv.
  destruct (core_lookup _ _ x p (dy_table _ _ _ _ _ _ _ D2) Hp) as (p2 & Hp2 & Ec).
  pose proof (fun B (g : process -> B) H => core_field g p2 p H Ec) as Hfield.
  wp_step. eapply wp_get_proc; [exact Hp2|].
  rewrite (Hfield _ p_pdir), (Hfield _ p_stack_start), (Hfield _ p_stack_end), (Hfield _ p_data_start), (Hfield _ p_data_end),
    (Hfield _ p_text_start), (Hfield _ p_text_end), (Hfield _ p_mailbox), (Hfield _ p_pid), (kl_pid K) by done.
  pose proof (dy_pages _ _ _ _ _ _ _ D2) as Epg.
  eapply (teardown_spec A k2 (p_pdir p) T V); [apply D2 | rewrite Epg; apply K | apply K | apply K | apply K | apply K |].
  rewrite Epg. intros pg' Hpi Hfr. wp_step.
  assert (D3 : dying (Inv := Inv) R2 S2 (fun a => refs (k_processes k) a - uses a (p_filedesc p)) (k_processes k) (if b then None else k_current k) pg'
    (k2 <| k_pages := pg' |>)).
  { split; try done; try apply D2; [eapply sched_frame; [apply D2 | done..] | eapply hinv_objs; [|apply D2]; done]. }
  eapply wp_mono; [eapply (stage_mailbox R2 S2); [exact D3|]|].
  { destruct (kl_mailbox K) as [?|Hm]; [by left | right]. apply Hpr2. unfold private in *. by rewrite Ho1. }
  intros [] k4 (D4 & Hid4 & Ho4). eapply (stage_family k4 R2 S2 pg' b); try done.
  - rewrite (off_list_perm _ _ _ _ _ HP1). by constructor.
  - intros y Hy Hm Hin Hi. assert (Hi1 : idle k1 y) by (unfold idle; by rewrite Ho1). destruct (Hid2 y Hm Hi1) as [Hi2 HS2].
    split; [by apply HS2, HS1|]. by apply Hid4.
  - intros R' S' k' Hwk Hk' Hsy. exists R1, S1, (k_objs k2), R2, S2, R', S'. rewrite Hk'.
    split; [exact HP1|]. split; [exact Hca|]. split; [exact Ho4|]. by split.
  - intros Hle. rewrite Ho4. change (live_ends (if p_mailbox p =? 0 then k_objs k2 else delete (p_mailbox p) (k_objs k2))).
    destruct (Z.eqb_spec (p_mailbox p) 0); [by apply Hlv|]. destruct (kl_mailbox K) as [?|Hm]; [done|].
    destruct (Hpr2 (p_mailbox p)) as [[l' Hl'] _]; [unfold private in *; by rewrite Ho1|]. by eapply live_ends_delete; [|apply Hlv].
Qed.
End kill.
