(* ===== verification/DescTheorems.v ===== *)
(** * Descriptors and the end of a process: the claims (source/filedesc.c, source/process.c) *)

From S2P Require Import Prelude Constants Libc Filesystem Page PageInv PageSpec BuddyInv BuddyTheorems Kernel Process ProcessInv ProcessTheorems UserMemory KernelMem Pipe Allocator PipeProofs PipeTheorems Filedesc Lifecycle LifecycleProofs ForkProofs PageTheorems LifecycleTheorems HandleProofs DescProofs KillProofs.

(** The descriptor [fd] of the process is open. *)
Definition open_fd (p : process) (fd a : Z) : Prop := zlookup (p_filedesc p) fd = Some a /\ a <> 0.
Definition closed_fd (p : process) (fd : Z) : Prop := forall a, zlookup (p_filedesc p) fd = Some a -> a = 0.

Lemma fd_handle_closed k c p fd : k_current k = Some c -> zlookup (k_processes k) c = Some p ->
  length (p_filedesc p) = Z.to_nat MAX_FDS -> closed_fd p fd -> fd_handle fd k = Ok None k.
Proof.
  intros Hc Hp Hl Hcl. assert (H : wp (fd_handle fd) (fun r k' => r = None /\ k' = k) k).
  { eapply fd_handle_spec; [exact Hc | exact Hp | done | | done]. intros a Ha Hne. by destruct Hne; apply Hcl. }
  unfold wp in H. destruct (fd_handle fd k) as [r k'| | |]; [|done..]. by destruct H as [-> ->].
Qed.

(** C17. close on a descriptor that is not open, or out of range, returns
    -EBADF and changes nothing.  On an open one it frees the descriptor and does
    to the kernel's objects and lists exactly what [closes] says: the handle
    loses one reference; with the last one it is freed, and when it was an end of
    a pipe that end is marked as closed, the pipe and its buffer are freed if the
    other end was closed already, and with the writing end a reader that is
    blocked on the pipe is moved from the suspended to the front of the ready
    processes and forgotten by the pipe.  The invariant of the handles is kept:
    every handle counts the descriptors of living processes that refer to it,
    none is lost, and no pipe counts on an end that has no handle.  Nothing
    else changes. *)
Theorem close_correct k R S c p fd :
  system (Inv := buddy_holds) R S k -> k_current k = Some c -> zlookup (k_processes k) c = Some p -> alive p = true ->
  (closed_fd p fd -> syscall_close fd k = Ok (- EBADF) k) /\
  (forall a, open_fd p fd a -> wp (syscall_close fd) (fun r k' => r = 0 /\ fd_closed (Inv := buddy_holds) R S c p fd a k k') k).
Proof.
  intros H Hc Hp Hal. split.
  - intros Hcl. unfold syscall_close, bind. rewrite (fd_handle_closed k c p fd); try done. by apply (sy_fds _ _ _ H c).
  - intros a [Hfd Ha]. by apply (close_spec R S k c p fd a).
Qed.

(** C18. dup2 returns -EBADF and changes nothing when the old descriptor is not
    open or either is out of range, and nothing happens when both are the same.
    Otherwise the new descriptor refers to the old one's handle, what it
    referred to before is closed, and the invariant of the handles holds
    again, also when both already referred to the same handle. *)
Theorem dup2_correct k R S c p oldfd newfd :
  system (Inv := buddy_holds) R S k -> k_current k = Some c -> zlookup (k_processes k) c = Some p -> alive p = true ->
  (closed_fd p oldfd \/ ~ 0 <= newfd < MAX_FDS -> syscall_dup2 oldfd newfd k = Ok (- EBADF) k) /\
  (forall a, open_fd p oldfd a -> 0 <= newfd < MAX_FDS ->
    (oldfd = newfd -> syscall_dup2 oldfd newfd k = Ok newfd k) /\
    (oldfd <> newfd -> wp (syscall_dup2 oldfd newfd) (fun r k' => r = newfd /\ fd_set (Inv := buddy_holds) R S c p newfd a k k') k)).
Proof.
  intros H Hc Hp Hal. pose proof (sy_fds _ _ _ H c p Hp) as Hlen. split.
  - intros Hbad. unfold syscall_dup2. destruct (Z.ltb_spec oldfd 0); [done|]. destruct (Z.leb_spec MAX_FDS oldfd); [done|].
    destruct (Z.ltb_spec newfd 0); [done|]. destruct (Z.leb_spec MAX_FDS newfd); [done|]. cbn [orb].
    destruct Hbad as [Hcl|?]; [|lia]. unfold bind. by rewrite (fd_handle_closed k c p oldfd).
  - intros a [Hfd Ha] Hnew. split; [intros <- | by intros; apply (dup2_spec R S k c p oldfd newfd a)].
    enough (Hw : wp (syscall_dup2 oldfd oldfd) (fun r k' => r = oldfd /\ k' = k) k).
    { unfold wp in Hw. destruct (syscall_dup2 oldfd oldfd k) as [r k'| | |]; [|done..]. by destruct Hw as [-> ->]. }
    unfold syscall_dup2. destruct (Z.ltb_spec oldfd 0); [lia|]. destruct (Z.leb_spec MAX_FDS oldfd); [lia|]. cbn [orb].
    wp_step. eapply fd_handle_spec; [exact Hc | exact Hp | done | | intros Hz; by destruct Ha; apply Hz].
    intros a' _ _. rewrite Z.eqb_refl. by apply wp_ret.
Qed.

(** C16. kill_process takes the process off its list, gives back every frame of
    its segments and of its page directory and no other, and leaves the frames of
    others unchanged.  The kernel's objects and the lists change exactly as
    [kill_effect] says: its descriptors are closed in order, with all that
    [closes] does for each of them, its mailbox is freed, and a parent that waits
    for it in waitpid is moved from the suspended to the front of the ready
    processes.  In the table its children have no parent any more, the parent
    waits for nobody, and the slot keeps the exit status for a parent or is free
    without one.  The invariant of the handles holds for the processes that are
    left.  The kernel stops in no assertion. *)
Theorem kill_process_correct R S k x p A T V bs bd bt Ls Ld Lt :
  killable (Inv := buddy_holds) R S k x p A T V bs bd bt Ls Ld Lt ->
  wp (kill_process x) (fun _ k' => killed (Inv := buddy_holds) R S k x p A T Ls Ld Lt k') k.
Proof. apply kill_process_spec. Qed.

(** ** A process with one open descriptor for the witnesses *)

Definition screen_demo : kstate := final new_screen_handle start_demo.
Definition HANDLE : Z := 4096.
Lemma screen_demo_eq : new_screen_handle start_demo = Ok HANDLE screen_demo.
Proof.
  assert (H : result new_screen_handle start_demo = Some HANDLE) by (vm_compute; reflexivity).
  exact (run_eq new_screen_handle start_demo HANDLE H).
Qed.
Lemma screen_demo_objs : k_objs screen_demo = {[ HANDLE := OFh screen_handle ]}.
Proof. vm_compute. reflexivity. Qed.
Lemma screen_demo_heap : heap_inv buddy_holds screen_demo.
Proof.
  assert (H : wpx new_screen_handle (fun fh k' => heap_inv buddy_holds k') start_demo).
  { eapply wpx_mono; [apply (new_handle_spec (Inv := buddy_holds)), start_demo_inv|]. by intros fh k' (_ & _ & _ & Hi & _). }
  exact (wpx_run _ _ _ _ _ H screen_demo_eq).
Qed.

#[local] Opaque screen_demo fork_demo_pages.

Definition desc_process : process := fork_demo_process <| p_filedesc := HANDLE :: replicate 15 0 |> <| p_parent_pid := -1 |>.
Definition desc_demo : kstate :=
  (demo 1) <| k_processes := zinsert 1 desc_process (k_processes (demo 1)) |>
    <| k_heap := k_heap screen_demo |> <| k_objs := {[ HANDLE := OFh screen_handle ]} |>
    <| k_pages := fork_demo_pages |> <| k_paging := Some PAGE_START |>.

Lemma desc_demo_lookup : zlookup (k_processes desc_demo) 1 = Some desc_process.
Proof. apply zlookup_zinsert_eq. by vm_compute. Qed.
Lemma desc_demo_sched : sched [1] [] desc_demo.
Proof.
  eapply (sched_frame [1] [] ((demo 1) <| k_processes := zinsert 1 desc_process (k_processes (demo 1)) |>)); [|reflexivity..].
  apply (sched_upd [1] [] (demo 1) 1 (demo_process 1 1)); [apply demo_sched1 | by apply demo_at | vm_compute; by repeat split].
Qed.
Lemma desc_demo_refs a : refs (k_processes desc_demo) a = if decide (a = HANDLE) then 1 else 0.
Proof.
  change (k_processes desc_demo) with (zinsert 1 desc_process (k_processes (demo 1))).
  assert (Hp : zlookup (k_processes (demo 1)) 1 = Some (demo_process 1 1)) by (by apply demo_at). rewrite (refs_insert _ _ _ _ _ Hp).
  assert (E : table_fds (k_processes (demo 1)) = replicate 16 0) by (vm_compute; reflexivity).
  unfold refs. rewrite E. change (fds_of (demo_process 1 1)) with (replicate 16 0). change (fds_of desc_process) with (HANDLE :: replicate 15 0).
  change (HANDLE :: replicate 15 0) with ([HANDLE] ++ replicate 15 0). rewrite uses_app, uses_single.
  assert (H0 : forall n, uses a (replicate n 0) = 0).
  { intros n. destruct (decide (uses a (replicate n 0) = 0)) as [|Hu]; [done|]. apply uses_zero in Hu as [Ha Hin].
    apply elem_of_replicate in Hin as [-> _]. done. }
  rewrite !H0. destruct (decide (a = HANDLE)) as [-> |Hne]; [by rewrite decide_True | rewrite decide_False by tauto; lia].
Qed.
Lemma desc_demo_objs a o : k_objs desc_demo !! a = Some o <-> a = HANDLE /\ o = OFh screen_handle.
Proof. change (k_objs desc_demo) with ({[ HANDLE := OFh screen_handle ]} : gmap Z obj). rewrite lookup_singleton_Some. naive_solver. Qed.
Lemma desc_demo_objs_eq : k_objs desc_demo = k_objs screen_demo.
Proof. vm_compute. reflexivity. Qed.
Lemma desc_demo_heap_eq : k_heap desc_demo = k_heap screen_demo.
Proof. vm_compute. reflexivity. Qed.
Lemma heap_inv_eq k k' : k_objs k' = k_objs k -> k_heap k' = k_heap k -> heap_inv buddy_holds k -> heap_inv buddy_holds k'.
Proof. intros E1 E2. unfold heap_inv. by rewrite E1, E2. Qed.
Lemma desc_demo_system : system (Inv := buddy_holds) [1] [] desc_demo.
Proof.
  assert (Hno : forall b p, k_objs desc_demo !! b = Some (OPipe p) -> False) by (intros b p [_ ?]%desc_demo_objs; done).
  split.
  - apply desc_demo_sched.
  - exact (heap_inv_eq screen_demo desc_demo desc_demo_objs_eq desc_demo_heap_eq screen_demo_heap).
  - split.
    + intros a. rewrite desc_demo_refs. destruct (decide _); lia.
    + intros a. rewrite desc_demo_refs. intros Ha. destruct (decide (a = HANDLE)) as [-> |]; [|done]. exists screen_handle.
      split; [by apply desc_demo_objs | by split].
    + intros a f e b _ Hf. apply desc_demo_objs in Hf as [_ Hf]. by injection Hf as ->.
    + intros a a' f f' e _ _ Hf Hf'. apply desc_demo_objs in Hf as [-> _], Hf' as [-> _]. done.
    + intros b p Hb. by destruct (Hno b p).
    + intros b b' p p' d Hb. by destruct (Hno b p).
    + intros b b' p p' d Hb. by destruct (Hno b p).
  - intros a f Hf. apply desc_demo_objs in Hf as [-> _]. rewrite desc_demo_refs. by rewrite decide_True.
  - intros x q. change (k_processes desc_demo) with (zinsert 1 desc_process (k_processes (demo 1))).
    destruct (decide (x = 1)) as [-> |Hne].
    + rewrite zlookup_zinsert_eq by (by vm_compute). by intros [= <-].
    + rewrite zlookup_zinsert_ne by done. intros ->%demo_lookup. unfold demo_process. by destruct (_ && _).
Qed.

Lemma desc_demo_open : open_fd desc_process 0 HANDLE.
Proof. by split. Qed.

Lemma close_correct_witness :
  wp (syscall_close 0) (fun r k' => r = 0 /\ fd_closed (Inv := buddy_holds) [1] [] 1 desc_process 0 HANDLE desc_demo k') desc_demo.
Proof.
  destruct (close_correct desc_demo [1] [] 1 desc_process 0 desc_demo_system eq_refl desc_demo_lookup eq_refl) as [_ H].
  exact (H HANDLE desc_demo_open).
Defined.

Lemma dup2_correct_witness :
  wp (syscall_dup2 0 5) (fun r k' => r = 5 /\ fd_set (Inv := buddy_holds) [1] [] 1 desc_process 5 HANDLE desc_demo k') desc_demo.
Proof.
  destruct (dup2_correct desc_demo [1] [] 1 desc_process 0 5 desc_demo_system eq_refl desc_demo_lookup eq_refl) as [_ H].
  destruct (H HANDLE desc_demo_open) as [_ H2]; [by split|]. by apply H2.
Defined.

Lemma desc_demo_killable : exists A T V L,
  killable (Inv := buddy_holds) [1] [] desc_demo 1 desc_process A T V 0x10 0x20 0x30 L [] [].
Proof.
  destruct fork_demo_frames as (A & T & V & L & Hsp & _ & HL & Hb). exists A, T, V, L.
  assert (Hnil : forall b, PageTheorems.backed A PAGE_START T V b []).
  { intros b. split; [apply NoDup_nil_2 | | by intros a ?%elem_of_nil]. intros i a. unfold zlookup. by destruct (i <? 0). }
  split.
  - exact desc_demo_system.
  - exact desc_demo_lookup.
  - reflexivity.
  - reflexivity.
  - left.
  - intros b p [_ ?]%desc_demo_objs. done.
  - exact Hsp.
  - split; [reflexivity | rewrite HL; reflexivity | done | done | exact Hb].
  - split; [reflexivity | reflexivity | done | done | apply Hnil].
  - split; [reflexivity | reflexivity | done | done | apply Hnil].
  - rewrite !app_nil_r. apply Hb.
  - by left.
  - by left.
  - exists 1, desc_process. split; [reflexivity | exact desc_demo_lookup].
Qed.
Lemma kill_process_correct_witness : exists A T L,
  wp (kill_process 1) (fun _ k' => killed (Inv := buddy_holds) [1] [] desc_demo 1 desc_process A T L [] [] k') desc_demo.
Proof.
  destruct desc_demo_killable as (A & T & V & L & H). exists A, T, L.
  exact (kill_process_correct [1] [] desc_demo 1 desc_process A T V 0x10 0x20 0x30 L [] [] H).
Defined.

(** ** fork and the handles *)

Lemma refs_fds (ps ps' : list process) a : fds_of <$> ps' = fds_of <$> ps -> refs ps' a = refs ps a.
Proof.
  intros E. unfold refs, table_fds. enough (H : forall l : list process, l ≫= fds_of = (fds_of <$> l) ≫= (fun x => x)) by (by rewrite H, E, <- H).
  intros l. induction l as [|p l IH]; [done|]. cbn. by rewrite IH.
Qed.
Lemma add_refs_fh n o f : add_refs n o = OFh f -> exists g, o = OFh g /\ f = g <| fh_refcount ::= fmap (fun r => r + n) |>.
Proof. destruct o as [g| |]; [|done..]. cbn. intros [= <-]. by exists g. Qed.

(** Every handle counts the descriptors of the child too. *)
Lemma hinv_shared U S k k' fds : hinv U S k -> (forall a, a ∈ fds -> a <> 0 -> U a <> 0) -> shared fds (k_objs k) (k_objs k') ->
  hinv (fun a => U a + uses a fds) S k'.
Proof.
  intros H Hin Hsh.
  assert (Hu : forall a, U a + uses a fds <> 0 -> U a <> 0).
  { intros a Ha HU. assert (uses a fds <> 0) as [? ?]%uses_zero by lia. by apply (Hin a). }
  assert (Hfh : forall a f, k_objs k' !! a = Some (OFh f) -> exists g, k_objs k !! a = Some (OFh g) /\ f = g <| fh_refcount ::= fmap (fun r => r + uses a fds) |>).
  { intros a f Hf. rewrite (Hsh a) in Hf. apply fmap_Some in Hf as (o & Ho & E). symmetry in E. apply add_refs_fh in E as (g & -> & ->). by exists g. }
  assert (Hpipe : forall b q, k_objs k' !! b = Some (OPipe q) <-> k_objs k !! b = Some (OPipe q)).
  { intros b q. rewrite (Hsh b). destruct (k_objs k !! b) as [[g|q'|l]|]; cbn; naive_solver. }
  assert (Hbytes : forall b l, k_objs k !! b = Some (OBytes l) -> k_objs k' !! b = Some (OBytes l)) by (intros b l Hb; by rewrite (Hsh b), Hb).
  split.
  - intros a. pose proof (hv_count H a). pose proof (uses_nonneg a fds). lia.
  - intros a Ha. destruct (hv_handle H (Hu a Ha)) as (f & Hf & Hr & Hc). eexists. split; [by rewrite (Hsh a), Hf|].
    split; [cbn; by rewrite Hr | done].
  - intros a f e b Ha Hf He. destruct (Hfh a f Hf) as (g & Hg & ->). destruct (hv_end H (Hu a Ha) Hg He) as (q & n & Hq & Hn).
    exists q, n. by rewrite Hpipe.
  - intros a a' f f' e Ha Ha' Hf Hf' He He'. destruct (Hfh a f Hf) as (g & Hg & ->), (Hfh a' f' Hf') as (g' & Hg' & ->).
    exact (hv_unique H (Hu a Ha) (Hu a' Ha') Hg Hg' He He').
  - intros b q Hb. rewrite Hpipe in Hb. destruct (hv_pipe H Hb) as (r & w & pid & l & d & bs & P & HH).
    exists r, w, pid, l, d, bs. split; [|done]. split; try apply P; [by apply Hpipe, P | apply Hbytes, P].
  - intros *. rewrite !Hpipe. apply H.
  - intros *. rewrite !Hpipe. apply H.
Qed.

Lemma child_alive p child d r p' : unlinked p' = child_process p child d r -> alive p' = true /\ p_filedesc p' = p_filedesc p.
Proof.
  intros E. unfold alive. change (p_exists p') with (p_exists (unlinked p')). change (p_exited p') with (p_exited (unlinked p')).
  change (p_filedesc p') with (p_filedesc (unlinked p')). by rewrite E.
Qed.
Lemma refs_child ps ps' child p' p0 a : length ps' = length ps -> zlookup ps child = Some p0 -> p_exists p0 = 0 ->
  (forall y q, y <> child -> zlookup ps y = Some q -> exists q', zlookup ps' y = Some q' /\ unlinked q' = unlinked q) ->
  zlookup ps' child = Some p' -> alive p' = true -> refs ps' a = refs ps a + uses a (p_filedesc p').
Proof.
  intros Hlen Hp0 He Hoth Hp' Hal. rewrite (refs_fds (zinsert child p' ps)).
  - assert (E0 : fds_of p0 = []) by (unfold fds_of, alive; by rewrite He).
    assert (E1 : fds_of p' = p_filedesc p') by (unfold fds_of; by rewrite Hal).
    rewrite (refs_insert _ _ _ p0), E0, E1 by done. assert (En : uses a [] = 0) by (unfold uses; by case_decide). lia.
  - apply list_eq. intros i. rewrite !list_lookup_fmap. rewrite <- !zlookup_nat.
    destruct (decide (Z.of_nat i = child)) as [Ei|Hne].
    + rewrite Ei, Hp', zlookup_zinsert_eq by (by eapply zlookup_range). done.
    + rewrite zlookup_zinsert_ne by done. destruct (zlookup ps (Z.of_nat i)) as [q|] eqn:Eq.
      * destruct (Hoth _ q Hne Eq) as (q' & -> & Hu). cbn. f_equal. change (fds_of q') with (fds_of (unlinked q')). by rewrite Hu.
      * rewrite zlookup_nat in Eq |- *. rewrite lookup_ge_None_2; [done|]. rewrite Hlen. by apply lookup_ge_None_1.
Qed.

Lemma forked_system k c p A V R S ts te ds de ss se r child k' : system (Inv := buddy_holds) R S k -> zlookup (k_processes k) c = Some p ->
  alive p = true -> forked k c p A V R S ts te ds de ss se r child k' -> system (Inv := buddy_holds) (child :: R) S k' /\
  forall a, refs (k_processes k') a = refs (k_processes k) a + uses a (p_filedesc p).
Proof.
  intros H Hp Hal [Hfresh Hs Hoth Hsh (Hheap & _) (d & A' & T' & V1 & V' & _ & _ & p' & Hp' & Hu)].
  destruct (child_alive _ _ _ _ _ Hu) as [Hal' Hfd]. pose proof (sy_sched _ _ _ H) as Hs0.
  assert (Hlen : length (k_processes k') = length (k_processes k)) by (by rewrite (sc_table Hs), (sc_table Hs0)).
  destruct (zlookup_is_Some (k_processes k) child) as [p0 Hp0]; [rewrite <- Hlen; by eapply zlookup_range|].
  assert (He0 : p_exists p0 = 0).
  { destruct (decide (p_exists p0 = 0)) as [|Hn]; [done|]. destruct Hfresh as [_ Hf]. destruct Hf. by exists p0. }
  assert (Er : forall a, refs (k_processes k') a = refs (k_processes k) a + uses a (p_filedesc p)).
  { intros a. rewrite <- Hfd. by apply (refs_child _ _ child p' p0). }
  split; [|exact Er]. split.
  - done.
  - unfold heap_inv. rewrite Hheap. replace (obj_size <$> k_objs k') with (obj_size <$> k_objs k); [apply H|].
    apply map_eq. intros a. rewrite !lookup_fmap, (Hsh a). destruct (k_objs k !! a) as [[g|q|l]|]; done.
  - eapply hinv_ext; [exact Er|]. eapply (hinv_shared (refs (k_processes k)) S k); [apply H | | exact Hsh].
    intros a Ha Ha0. pose proof (refs_in _ _ _ a Hp Hal Ha Ha0). lia.
  - intros a f Hf. rewrite Er. rewrite (Hsh a) in Hf. apply fmap_Some in Hf as (o & Ho & E). symmetry in E. apply add_refs_fh in E as (g & -> & _).
    pose proof (sy_leak _ _ _ H a g Ho). pose proof (uses_nonneg a (p_filedesc p)). lia.
  - intros x q Hq. destruct (decide (x = child)) as [-> |Hne].
    + rewrite Hp' in Hq. injection Hq as <-. rewrite Hfd. by apply (sy_fds _ _ _ H c).
    + destruct (zlookup_is_Some (k_processes k) x) as [q0 Hq0]; [rewrite <- Hlen; by eapply zlookup_range|].
      destruct (Hoth x q0 Hne Hq0) as (q' & Hq' & Eu). rewrite Hq in Hq'. injection Hq' as <-.
      rewrite (unlinked_field p_filedesc _ _ (fun _ => eq_refl) Eu). by apply (sy_fds _ _ _ H x).
Qed.

(** C19. fork keeps the invariant of the handles: every handle counts the
    child's descriptors too, so the handles the two processes share live until
    both have closed them, and the child can be scheduled, forked and killed
    like any other process. *)
Theorem fork_keeps_handles k c p A T V R S ts te ds de ss se r :
  forkable k c p A T V ts te ds de ss se -> system (Inv := buddy_holds) R S k -> alive p = true -> ~ table_full k ->
  wp (syscall_fork r) (fun child k' => system (Inv := buddy_holds) (child :: R) S k' /\
    forall a, refs (k_processes k') a = refs (k_processes k) a + uses a (p_filedesc p)) k.
Proof.
  intros F H Hal Hn. pose proof (sy_sched _ _ _ H) as Hs.
  eapply wp_mono; [apply (forkable_spec k c p A T V R S); [done | done | by apply not_full; [apply Hs|]]|].
  intros child k' Hf. eapply (forked_system k c p); [exact H | apply F | done | exact Hf].
Qed.

Lemma desc_demo_forkable : exists A T V, forkable desc_demo 1 desc_process A T V 0x30 0x30 0x20 0x20 0x10 0x12.
Proof.
  destruct fork_demo_space as (A & T & V & Hsp & Hsz & Hb). exists A, T, V. split; try exact Hsp.
  - reflexivity.
  - exact desc_demo_lookup.
  - done.
  - by split.
  - by split.
  - by split.
  - lia.
  - intros n Hn. apply Hb. unfold seg_pages, pages_of in Hn. lia.
  - reflexivity.
  - intros fh Hin Hnz. exists screen_handle, 1. split; [|reflexivity]. apply desc_demo_objs. split; [|reflexivity].
    change (p_filedesc desc_process) with (HANDLE :: replicate 15 0) in Hin. rewrite elem_of_cons, elem_of_replicate in Hin. naive_solver.
  - unfold room. rewrite MAX_FRAMES_eq. change KERNEL_PAGES with 1536. lia.
Qed.
Lemma desc_demo_free : ~ table_full desc_demo.
Proof.
  intros H. destruct (H 2 ltac:(done)) as (p & Hp & He). change (zlookup (zinsert 1 desc_process (k_processes (demo 1))) 2 = Some p) in Hp.
  rewrite zlookup_zinsert_ne in Hp by done. by apply demo_lookup in Hp as ->.
Qed.
Lemma fork_keeps_handles_witness :
  wp (syscall_fork regs_zero) (fun child k' => system (Inv := buddy_holds) (child :: [1]) [] k' /\
    forall a, refs (k_processes k') a = refs (k_processes desc_demo) a + uses a (p_filedesc desc_process)) desc_demo.
Proof.
  destruct desc_demo_forkable as (A & T & V & H).
  exact (fork_keeps_handles desc_demo 1 desc_process A T V [1] [] 0x30 0x30 0x20 0x20 0x10 0x12 regs_zero H desc_demo_system eq_refl desc_demo_free).
Defined.

(** ** A defect: killing a process that is blocked on a pipe

    [killable] asks for a process that is not blocked on a pipe, and needs to:
    kill_process does not clear the pipe's record of its reader. *)

(** A process is started, reads from its standard input and blocks; it is
    killed from another process; then a byte arrives, as from the keyboard. *)
Definition kill_while_reading : K unit :=
  shell <- start_process 0x100300;
  modify (fun k => k <| k_current := Some shell |>);;
  p <- get_proc shell; fh <- of_opt (zlookup (p_filedesc p) STDIN_FILENO) "filedesc[]";
  f <- get_fh fh; b <- fld (fh_p f);
  call_read fh (User 0) 1;;
  modify (fun k => k <| k_current := Some 1 |>);;
  kill_process shell;;
  write_to_pipe b (Const [104]) 1.

(** The write tries to resume the dead process, and the assertion of
    resume_process stops the kernel. *)
Lemma killed_reader_panics : exists s, kill_while_reading start_demo = Halt "proc->exists" s.
Proof.
  assert (H : match kill_while_reading start_demo with Halt msg _ => msg | _ => EmptyString end = "proc->exists"%string) by (vm_compute; reflexivity).
  destruct (kill_while_reading start_demo) as [|msg s| |] eqn:E; try discriminate H. exists s. by rewrite <- H.
Qed.
