(* ===== verification/FileProofs.v ===== *)
(** * Files: paths of a process, open, read, chdir (source/fscalls.c, source/syscall.c)

    A path in user memory is resolved against the current directory of the
    process and looked up in the filesystem image; an opened file is a new handle
    at position 0, and a read copies the bytes from the position on. *)

From Stdlib Require Import Ascii.
From S2P Require Import Prelude Constants Libc LibcProofs PrintProofs Page Filesystem FilesystemProofs Kernel Process ProcessInv ProcessTheorems UserMemory KernelMem Pipe Allocator PipeProofs Filedesc Syscall Lifecycle LifecycleProofs ForkProofs HandleProofs DescProofs.

(** ** The caller and its memory *)

(** The process that makes a call. *)
Record caller (k : kstate) (c : Z) (p : process) : Prop := {
  ca_current : k_current k = Some c;
  ca_lookup : zlookup (k_processes k) c = Some p;
  ca_alive : alive p = true;
  ca_segments : segments_ok p;
  ca_mapped : segments_mapped k p
}.
(** The string [s] lies at [str], terminator included, in one segment. *)
Definition path_at (k : kstate) (p : process) (str : Z) (s : list Z) : Prop :=
  user_cstring k str s /\ in_segment p str (str + Z.of_nat (length s) + 1).
(** The directory of the process is the one with the names [cs]. *)
Definition cwd_is (p : process) (cs : list (list Z)) : Prop :=
  Forall good_name cs /\ exists r, p_cwd p = join cs ++ 0 :: r.

(** The names a path stands for. *)
Definition names_of (cs : list (list Z)) (rel : list Z) : list (list Z) :=
  fold_left step (parts [] rel) (if decide (head rel = Some SLASH) then [] else cs).
(** The entry at the end of the names, or the error of the search. *)
Definition lookup_names (fs : list Z) (names : list (list Z)) : option (Z + Z) :=
  d ← de_location fs 0; resolve fs d 0 (parts [] (join names)).

Lemma user_byte_range k a v : user_byte k a = Some v -> is_byte v.
Proof.
  unfold user_byte. destruct (user_pa k a) as [pa|]; [|done]. cbn. intros [= <-]. unfold is_byte, byte_of.
  rewrite (Z.land_ones _ 8) by done. apply Z.mod_pos_bound. done.
Qed.
Lemma cstring_text k str s : user_cstring k str s -> no_nul s /\ Forall is_byte s.
Proof.
  intros [Hs _]. split; apply Forall_lookup; intros i x Hx; destruct (Hs i x Hx) as [H0 Hb]; [done|].
  by eapply user_byte_range.
Qed.
Lemma cstring_unique k str s s' : user_cstring k str s -> user_cstring k str s' -> s = s'.
Proof.
  intros [H1 E1] [H2 E2].
  assert (Hlen : forall a b : list Z, (forall i x, a !! i = Some x -> x <> 0 /\ user_byte k (str + Z.of_nat i) = Some x) ->
    user_byte k (str + Z.of_nat (length b)) = Some 0 -> (length a <= length b)%nat).
  { intros a b Ha Hb. destruct (decide (length a <= length b)%nat) as [|Hgt]; [done|].
    destruct (lookup_lt_is_Some_2 a (length b)) as [x Hx]; [lia|]. destruct (Ha _ _ Hx) as [H0 H]. congruence. }
  apply (list_eq_same_length s s' (length s)); [by apply Nat.le_antisymm; eauto | done |].
  intros i x y _ Hx Hy. destruct (H1 i x Hx) as [_ Ex], (H2 i y Hy) as [_ Ey]. congruence.
Qed.

(** Names made of bytes. *)
Lemma parts_bytes cur path : Forall is_byte cur -> Forall is_byte path -> Forall (Forall is_byte) (parts cur path).
Proof.
  revert cur. induction path as [|c path IH]; intros cur H1 H2; cbn; [by constructor|].
  apply list.Forall_cons in H2 as [Hc H2]. destruct (c =? SLASH); [constructor; [done|]; by apply IH|].
  apply IH; [|done]. apply Forall_app. split; [done | by constructor].
Qed.
Lemma removelast_Forall {A} (P : A -> Prop) l : Forall P l -> Forall P (removelast l).
Proof. intros H. rewrite removelast_firstn_len. by apply Forall_take. Qed.
Lemma names_of_bytes cs rel : Forall (Forall is_byte) cs -> Forall is_byte rel -> Forall (Forall is_byte) (names_of cs rel).
Proof.
  intros Hcs Hrel. unfold names_of. assert (Hs : forall ps start, Forall (Forall is_byte) ps -> Forall (Forall is_byte) start ->
    Forall (Forall is_byte) (fold_left step ps start)).
  { intros ps. induction ps as [|q ps IH]; intros start Hp Hst; [done|]. apply list.Forall_cons in Hp as [Hq Hp].
    cbn. apply IH; [done|]. unfold step. repeat case_decide; [done | by apply removelast_Forall |].
    apply Forall_app. split; [done | by constructor]. }
  apply Hs; [by apply parts_bytes|]. by case_decide.
Qed.
Lemma join_bytes cs : Forall (Forall is_byte) cs -> Forall is_byte (join cs).
Proof.
  intros H. assert (Hb : is_byte SLASH) by (by vm_compute). destruct cs as [|c cs]; [by constructor|]. unfold join.
  apply Forall_bind. eapply list.Forall_impl; [exact H|]. intros x Hx. by constructor.
Qed.

(** What a path needs to be resolved. *)
Definition path_fits (cs : list (list Z)) (rel : list Z) : Prop := Z.of_nat (length (join cs) + 1 + length rel) < PATH_MAX.

Section paths.
  Context (k : kstate) (c : Z) (p : process) (C : caller k c p).

Lemma valid_path str (Q : bool -> kstate -> Prop) : is_u32 str ->
  (forall s, path_at k p str s -> Q true k) -> ((~ exists s, path_at k p str s) -> Q false k) -> wp (valid_string str) Q k.
Proof using C.
  intros Hs HT HF. eapply wp_mono; [apply (valid_string_spec k c p); try done; apply C|].
  intros b k' [-> Hb]. destruct b.
  - destruct (proj1 Hb eq_refl) as (s & Hps). by eapply HT.
  - apply HF. intros Hex. by apply Hb in Hex.
Qed.

(** Reading a path, making it absolute and looking it up. *)
Lemma user_path_spec {B} str cs rel v (f : list Z -> Z + Z -> K B) (Q : B -> kstate -> Prop) :
  path_at k p str rel -> cwd_is p cs -> path_fits cs rel -> Forall is_byte (e_filesystem (k_env k)) ->
  lookup_names (e_filesystem (k_env k)) (names_of cs rel) = Some v ->
  (forall abs, holds PATH_MAX abs (join (names_of cs rel)) -> wpx (f abs v) Q k) ->
  wpx (s <- user_string str; abs <- absolute_path s; r <- path_entry abs; f abs r) Q k.
Proof using C.
  intros [Hs Hseg] (Hcs & r1 & Hcwd) Hfit Hfs Hv HQ. destruct (cstring_text _ _ _ Hs) as [Hn Hb].
  destruct (relative_to_absolute_correct (replicate (Z.to_nat PATH_MAX) 0) cs rel r1 [] PATH_MAX) as (abs & Eabs & Habs);
    [done | done | done | by rewrite length_replicate | done | done |]. fold (names_of cs rel) in Habs.
  apply wpx_wp_bind. eapply wp_mono; [eapply user_string_spec; [apply C | apply C | apply C | done | done]|].
  intros s k' [-> ->]. apply wpx_wp_bind. unfold absolute_path. wp_step. eapply wp_cur; [apply C | apply C |].
  rewrite Hcwd. eapply wp_of_opt; [exact Eabs|].
  apply wpx_wp_bind. unfold path_entry, filesystem. wp_step. wp_step. eapply wp_of_opt; [|by apply HQ].
  destruct Habs as (Hnn & _ & rest & ->). unfold lookup_names in Hv. apply bind_Some in Hv as (d & Hd & Hv).
  eapply get_directory_entry_correct; [done | done | | exact Hd | exact Hv].
  apply join_bytes, names_of_bytes; [|done]. eapply list.Forall_impl; [exact Hcs|]. by intros x [_ ?].
Qed.
End paths.

(** ** New handles *)

(** The end of a new handle, if it is one of a pipe: the pipe has that end open,
    and no other handle stands for it. *)
Definition end_ok (U : Z -> Z) (k : kstate) (f : filehandle) : Prop :=
  forall e b, pipe_end f = Some (e, b) ->
    (exists p n, k_objs k !! b = Some (OPipe p) /\ (if e : bool then b_reading p else b_writing p) = Some n /\ n <> 0) /\
    (forall x g, U x <> 0 -> k_objs k !! x = Some (OFh g) -> pipe_end g <> Some (e, b)).
Lemma hinv_new U S k k' a f : hinv U S k -> k_objs k !! a = None -> k_objs k' = <[a := OFh f]> (k_objs k) ->
  fh_refcount f = Some 1 -> complete f -> end_ok U k f ->
  hinv (fun x => if decide (x = a) then 1 else U x) S k'.
Proof.
  intros H Ha E Hr Hc He.
  assert (Hpipe : forall b q, k_objs k' !! b = Some (OPipe q) <-> k_objs k !! b = Some (OPipe q)).
  { intros b q. rewrite E. destruct (decide (b = a)) as [-> |Hne]; [rewrite lookup_insert_eq, Ha; naive_solver | by rewrite lookup_insert_ne]. }
  assert (Hfh : forall x g, (if decide (x = a) then 1 else U x) <> 0 -> k_objs k' !! x = Some (OFh g) ->
    (x = a /\ g = f) \/ (k_objs k !! x = Some (OFh g) /\ U x <> 0)).
  { intros x g Hx. rewrite E. destruct (decide (x = a)) as [-> |Hne].
    - rewrite lookup_insert_eq. intros [= <-]. by left.
    - rewrite lookup_insert_ne by done. by right. }
  split.
  - intros x. case_decide; [lia | apply H].
  - intros x Hx. rewrite E. case_decide as Ex; [subst x; rewrite lookup_insert_eq; by exists f|].
    rewrite lookup_insert_ne by done. by apply H.
  - intros x g e b Hx Hg Hp. destruct (Hfh x g Hx Hg) as [[-> ->]|[Hg0 Hu]].
    + destruct (He e b Hp) as [(q & n & Hb & ?) _]. exists q, n. by rewrite Hpipe.
    + destruct (hv_end H Hu Hg0 Hp) as (q & n & Hb & ?). exists q, n. by rewrite Hpipe.
  - intros x y g g' [e b] Hx Hy Hg Hg' Hp Hp'.
    destruct (Hfh x g Hx Hg) as [[-> ->]|[Hg0 Hu]], (Hfh y g' Hy Hg') as [[-> ->]|[Hg1 Hu1]]; [done | | |].
    + by destruct (proj2 (He e b Hp) y g').
    + by destruct (proj2 (He e b Hp') x g).
    + exact (hv_unique H Hu Hu1 Hg0 Hg1 Hp Hp').
  - intros b q Hb. rewrite Hpipe in Hb. destruct (hv_pipe H Hb) as (r & w & pid & l & d & bs & P & HH).
    exists r, w, pid, l, d, bs. split; [|done]. split; try apply P; [apply Hpipe, P|].
    rewrite E, lookup_insert_ne; [apply P|]. intros <-. pose proof (pa_data P). congruence.
  - intros *. rewrite !Hpipe. apply H.
  - intros *. rewrite !Hpipe. apply H.
Qed.

(** The handle of an opened file or directory. *)
Definition opened (t entry : Z) : filehandle :=
  fh_undef <| fh_type := Some t |> <| fh_refcount := Some 1 |> <| fh_write := Some file_write_f |>
    <| fh_read := Some file_read_f |> <| fh_destroy := Some file_destroy_f |>
    <| fh_entry := Some entry |> <| fh_pos := Some 0 |> <| fh_entryno := Some 0 |>.

Lemma first_free_spec l i : 0 <= i ->
  let fd := first_free l i in
  i <= fd <= i + Z.of_nat (length l) /\
  (fd < i + Z.of_nat (length l) -> zlookup l (fd - i) = Some 0) /\
  (forall j a, 0 <= j < fd - i -> zlookup l j = Some a -> a <> 0).
Proof.
  revert i. induction l as [|a l IH]; intros i Hi; cbn [first_free length].
  { split; [lia|]. split; [lia|]. intros j a Hj. lia. }
  destruct (Z.eqb_spec a 0) as [-> |Ha]; cbn zeta.
  { split; [lia|]. split; [by rewrite Z.sub_diag|]. intros j b Hj. lia. }
  destruct (IH (i + 1) ltac:(lia)) as (H1 & H2 & H3). split; [lia|]. split.
  - intros Hlt. rewrite zlookup_cons. destruct (Z.eqb_spec (first_free l (i + 1) - i) 0); [lia|].
    replace (first_free l (i + 1) - i - 1) with (first_free l (i + 1) - (i + 1)) by lia. apply H2. lia.
  - intros j b Hj. rewrite zlookup_cons. destruct (Z.eqb_spec j 0) as [-> |]; [by intros [= <-]|]. apply H3. lia.
Qed.

(** The error of open for the result [v] of the search, if any. *)
Definition open_error (fs : list Z) (flags : Z) (v : Z + Z) : option (option Z) :=
  match v with
  | inl e => Some (Some e)
  | inr entry =>
      ty ← de_type fs entry;
      Some (if (flags =? OPEN_DIRECTORY) && negb (ty =? TYPE_DIR) then Some (- ENOTDIR)
            else if negb (flags =? OPEN_DIRECTORY) && (ty =? TYPE_DIR) then Some (- EISDIR) else None)
  end.

Section files.
  Context {Inv : gmap Z Z -> Buddy.memarea -> Prop} `{!Allocator Buddy.kmalloc_ma Buddy.kfree_ma Inv}.

Lemma allocated_again a o o' k k1 : allocated a o k k1 -> allocated a o' k (k1 <| k_objs ::= insert a o' |>).
Proof using. intros [h ->]. exists h. destruct k. unfold set_field. cbn. by rewrite insert_insert_eq. Qed.
Lemma allocated_objs a o k k1 : allocated a o k k1 -> k_objs k1 = <[a := o]> (k_objs k).
Proof using. by intros [h ->]. Qed.

Lemma new_file_spec {B} t entry k (f : Z -> K B) (Q : B -> kstate -> Prop) : heap_inv Inv k ->
  (forall fh k', k_objs k !! fh = None -> fh <> 0 -> allocated fh (OFh (opened t entry)) k k' -> heap_inv Inv k' -> wpx (f fh) Q k') ->
  wpx (fh <- new_file t;
       upd_fh fh (fun f => f <| fh_entry := Some entry |> <| fh_pos := Some 0 |> <| fh_entryno := Some 0 |>);; f fh) Q k.
Proof using Allocator0.
  intros Hi HQ. unfold new_file. apply wpx_bind, wpx_bind.
  eapply wpx_mono; [apply (kmalloc_spec SIZEOF_FILEHANDLE (OFh fh_undef) k Hi); done|].
  intros fh k1 (Hn & _ & H0 & Hal & Hi1). pose proof (allocated_objs _ _ _ _ Hal) as Ho.
  assert (Hfh : k_objs k1 !! fh = Some (OFh fh_undef)) by (rewrite Ho; apply lookup_insert_eq).
  apply wpx_wp. wp_step. eapply wp_upd_fh; [exact Hfh|]. apply wp_ret.
  apply wpx_wp_bind. eapply wp_upd_fh; [apply lookup_insert_eq|]. apply HQ; [done | done | |].
  - eapply allocated_again, allocated_again, Hal.
  - eapply heap_inv_insert; [eapply heap_inv_insert; [exact Hi1 | exact Hfh | done] | apply lookup_insert_eq | done].
Qed.

(** A new handle in the free descriptor [fd]. *)
Lemma set_fd_new R S k k1 c p fd fh f0 (Q : unit -> kstate -> Prop) : system (Inv := Inv) R S k -> caller k c p ->
  zlookup (p_filedesc p) fd = Some 0 -> k_objs k !! fh = None -> fh <> 0 ->
  allocated fh (OFh f0) k k1 -> heap_inv Inv k1 -> fh_refcount f0 = Some 1 -> complete f0 -> end_ok (refs (k_processes k)) k f0 ->
  (let k' := with_table k1 (zinsert c (set_desc fd fh p) (k_processes k)) in system (Inv := Inv) R S k' -> Q tt k') ->
  wp (set_fd fd fh) Q k1.
Proof using Allocator0.
  intros Hsys C Hfd Hn H0 Hal Hi1 Hr1 Hcm Hend HQ. pose proof (ca_lookup _ _ _ C) as Hp.
  pose proof (allocated_objs _ _ _ _ Hal) as Ho.
  assert (Hq : quiet k k1) by (eapply (quiet_heap (fun _ => False)), heap_changed_allocated; [exact Hal | exact Hn]).
  assert (Hps : k_processes k1 = k_processes k) by (by destruct Hal as [h ->]).
  assert (Hp1 : zlookup (k_processes k1) c = Some p) by (by rewrite Hps).
  assert (HU : forall x, refs (zinsert c (set_desc fd fh p) (k_processes k)) x = if decide (x = fh) then 1 else refs (k_processes k) x).
  { intros x. rewrite (refs_set_desc _ _ _ _ _ 0) by (done || apply C). rewrite !uses_single.
    rewrite (decide_False (P := x = 0 /\ x <> 0)) by tauto. destruct (decide (x = fh)) as [-> |Hne].
    - rewrite decide_True by done. destruct (decide (refs (k_processes k) fh = 0)) as [->|Hu]; [done|].
      destruct (hv_handle (sy_handles _ _ _ Hsys) Hu) as (g & Hg & _). congruence.
    - rewrite decide_False by tauto. lia. }
  unfold set_fd. eapply wp_upd_cur; [rewrite (quiet_current _ _ Hq); apply C | exact Hp1 |]. rewrite <- Hps in HQ.
  apply HQ. eapply (system_table R S R S k k1 c p p); try done.
  - eapply sched_frame; [apply (sy_sched _ _ _ Hsys) | done | by destruct Hal as [h ->]..].
  - eapply hinv_ext; [exact HU|]. eapply hinv_new; [apply (sy_handles _ _ _ Hsys) | exact Hn | exact Ho | done | done | done].
  - intros x g Hg. rewrite HU. rewrite Ho in Hg. case_decide as Ex; [done|]. rewrite lookup_insert_ne in Hg by done.
    by apply (sy_leak _ _ _ Hsys x g).
Qed.

(** The descriptor [fd] of [c] is a new handle for [entry]. *)
Definition file_opened (R S : list Z) (c : Z) (p : process) (fd t entry : Z) (k k' : kstate) : Prop :=
  exists fh, k_objs k !! fh = None /\ k_objs k' = <[fh := OFh (opened t entry)]> (k_objs k) /\
    fd_set (Inv := Inv) R S c p fd fh k k'.
Lemma fd_new R S k k1 c p fd fh t entry (f : K Z) (Q : Z -> kstate -> Prop) : system (Inv := Inv) R S k -> caller k c p ->
  zlookup (p_filedesc p) fd = Some 0 -> k_objs k !! fh = None -> fh <> 0 ->
  allocated fh (OFh (opened t entry)) k k1 -> heap_inv Inv k1 ->
  (forall k', file_opened R S c p fd t entry k k' -> wp f Q k') -> wp (set_fd fd fh;; f) Q k1.
Proof using Allocator0.
  intros Hsys C Hfd Hn H0 Hal Hi1 HQ. apply wp_bind. eapply set_fd_new; [exact Hsys | exact C | done | done | done | exact Hal | done | done | done | done |].
  intros k' Hsys'. apply HQ. exists fh. split; [done|]. split; [exact (allocated_objs _ _ _ _ Hal)|]. split; [|exists R, S; split; [by left | done]].
  assert (Hq : quiet k k1) by (eapply (quiet_heap (fun _ => False)), heap_changed_allocated; [exact Hal | exact Hn]).
  assert (Hps : k_processes k1 = k_processes k) by (by destruct Hal as [h ->]).
  unfold k'. rewrite <- Hps at 2. eapply (quiet_table k k1 c p p (set_desc fd fh)); [done | rewrite Hps; apply C | done].
Qed.

Definition open_result (R S : list Z) (c : Z) (p : process) (flags : Z) (v : Z + Z) (err : option Z) (k : kstate) (r : Z) (k' : kstate) : Prop :=
  match err with
  | Some e => r = e /\ k' = k
  | None => r = first_free (p_filedesc p) 0 /\ exists entry, v = inr entry /\
      file_opened R S c p r (if flags =? OPEN_DIRECTORY then FH_DIR else FH_FILE) entry k k'
  end.
Lemma open_spec R S k c p path flags : system (Inv := Inv) R S k -> caller k c p -> is_u32 path ->
  forall rel cs v err, path_at k p path rel -> cwd_is p cs -> path_fits cs rel ->
    Forall is_byte (e_filesystem (k_env k)) -> lookup_names (e_filesystem (k_env k)) (names_of cs rel) = Some v ->
    open_error (e_filesystem (k_env k)) flags v = Some err ->
  wpx (syscall_open path flags) (fun r k' =>
    if decide (first_free (p_filedesc p) 0 = MAX_FDS) then r = - EMFILE /\ k' = k
    else open_result R S c p flags v err k r k') k.
Proof using Allocator0.
  intros Hsys C Hpath rel cs v err Hrel Hcwd Hfit Hfs Hv Herr.
  pose proof (sy_fds _ _ _ Hsys c p (ca_lookup _ _ _ C)) as Hlen.
  destruct (first_free_spec (p_filedesc p) 0 ltac:(done)) as (Hr & Hfree & _).
  rewrite Hlen, Z2Nat.id in * by done. unfold syscall_open. apply wpx_wp_bind. eapply valid_path; [exact C | done | | naive_solver].
  intros _ _. apply wpx_wp_bind. eapply wp_cur; [apply C | apply C |]. set (fd := first_free (p_filedesc p) 0) in *.
  destruct (Z.eqb_spec fd MAX_FDS) as [Efd|Efd]; [apply wpx_wp, wp_ret; by rewrite decide_True|].
  eapply wpx_mono; [|intros r k' Hres; rewrite decide_False by done; exact Hres]. rewrite Z.sub_0_r in Hfree.
  eapply user_path_spec; [exact C | exact Hrel | exact Hcwd | exact Hfit | exact Hfs | exact Hv |]. intros abs _.
  destruct v as [e|entry]; cbn in Herr; [injection Herr as <-; by apply wpx_wp, wp_ret|].
  apply bind_Some in Herr as (ty & Hty & [= <-]).
  apply wpx_wp_bind. unfold entry_field, filesystem. wp_step. wp_step. eapply wp_of_opt; [exact Hty|].
  destruct (flags =? OPEN_DIRECTORY) eqn:Ef, (ty =? TYPE_DIR); cbn [andb negb]; try (by apply wpx_wp, wp_ret);
    (apply new_file_spec; [apply (sy_heap _ _ _ Hsys)|]); intros fh k1 Hn H0 Hal Hi1; apply wpx_wp;
    (eapply fd_new; [exact Hsys | exact C | apply Hfree; lia | exact Hn | exact H0 | exact Hal | exact Hi1 |]);
    intros k' Ho; apply wp_ret; (split; [done|]); (exists entry; rewrite Ef; split; [reflexivity | exact Ho]).
Qed.

(** ** Reading *)

(** The bytes of the file with the entry [entry]. *)
Definition contents_of (fs : list Z) (entry : Z) (data : list Z) : Prop :=
  de_size fs entry = Some (Z.of_nat (length data)) /\ exists loc, de_location fs entry = Some loc /\
    forall i x, data !! i = Some x -> fs_byte fs (loc + Z.of_nat i) = Some x.
(** The handle [fh] is for a file, at the position [pos]. *)
Record file_at (k : kstate) (fh : Z) (f : filehandle) (entry pos : Z) : Prop := {
  fa_handle : k_objs k !! fh = Some (OFh f);
  fa_read : fh_read f = Some file_read_f;
  fa_type : fh_type f = Some FH_FILE;
  fa_entry : fh_entry f = Some entry;
  fa_pos : fh_pos f = Some pos
}.
Definition at_pos (pos : Z) (f : filehandle) : filehandle := f <| fh_pos := Some pos |>.
Definition with_handle (fh : Z) (f : filehandle) (k : kstate) : kstate := k <| k_objs ::= insert fh (OFh f) |>.

Lemma with_handle_id fh f k : k_objs k !! fh = Some (OFh f) -> with_handle fh f k = k.
Proof using. intros H. destruct k. unfold with_handle, set_field. cbn in *. by rewrite insert_id. Qed.
Lemma at_pos_id pos f : fh_pos f = Some pos -> at_pos pos f = f.
Proof using. intros H. destruct f. cbn in *. by subst. Qed.
Lemma contents_bytes fs entry data : Forall is_byte fs -> contents_of fs entry data -> Forall is_byte data.
Proof using.
  intros Hfs (_ & loc & _ & Hd). apply Forall_lookup. intros i x Hx. specialize (Hd i x Hx).
  unfold fs_byte, zlookup in Hd. case_match; [done|]. by eapply (Forall_lookup_1 is_byte fs).
Qed.

Lemma file_read_spec k fh f entry pos data pdir a count : file_at k fh f entry pos ->
  contents_of (e_filesystem (k_env k)) entry data -> Forall is_byte (e_filesystem (k_env k)) ->
  Z.of_nat (length data) < 2 ^ 31 -> 0 <= pos < 2 ^ 31 -> 0 <= count < 2 ^ 31 ->
  let n := Z.min count (Z.max 0 (Z.of_nat (length data) - pos)) in
  user_region k pdir a n ->
  wp (file_read fh (User a) count) (fun r k' => r = n /\ exists k1,
    user_written k pdir a n (take (Z.to_nat n) (drop (Z.to_nat pos) data)) k1 /\ k' = with_handle fh (at_pos (pos + n) f) k1) k.
Proof using.
  intros F D Hfs Hlen Hpos Hcount n Hreg. pose proof (contents_bytes _ _ _ Hfs D) as Hb.
  destruct D as (Hsize & loc & Hloc & Hd). unfold file_read.
  wp_step. eapply wp_get_fh; [apply F|]. rewrite (fa_type _ _ _ _ _ F), (fa_pos _ _ _ _ _ F), (fa_entry _ _ _ _ _ F).
  wp_step. apply wp_fld. change (FH_FILE =? FH_DIR) with false. cbv iota.
  wp_step. apply wp_fld. wp_step. apply wp_fld.
  wp_step. unfold entry_field, filesystem. wp_step. wp_step. eapply wp_of_opt; [exact Hsize|].
  destruct (Z.leb_spec (Z.of_nat (length data)) pos) as [Hend|Hmore].
  { apply wp_ret. split; [unfold n; lia|]. exists k. assert (Hn : n = 0) by (unfold n; lia). rewrite Hn in *. split.
    - by apply user_written_nil.
    - rewrite Z.add_0_r, at_pos_id by apply F. symmetry. apply with_handle_id, F. }
  assert (Hc : (if Z.of_nat (length data) <? u32 (pos + count) then u32 (Z.of_nat (length data) - pos) else count) = n).
  { rewrite !u32_small by lia. unfold n. case_test; lia. }
  rewrite Hc. wp_step. unfold entry_field, filesystem. wp_step. wp_step. eapply wp_of_opt; [exact Hloc|].
  set (src := take (Z.to_nat n) (drop (Z.to_nat pos) data)).
  assert (Hsl : Z.of_nat (length src) = n) by (unfold src; rewrite length_take, length_drop; unfold n; lia).
  rewrite <- Hsl at 1. wp_step.
  eapply wp_mono; [apply (kmemmove_user k pdir a n); [done | lia | by apply Forall_take, Forall_drop |]|].
  { intros j x pg Hj. unfold src in Hj. apply lookup_take_Some in Hj as [Hj _]. rewrite lookup_drop in Hj.
    cbn [padd load]. wp_step. wp_step. eapply wp_of_opt; [|by split].
    rewrite <- (Hd _ _ Hj). cbn. f_equal. lia. }
  intros [] k1 W. destruct (uw_rest W) as [pg Hk1].
  assert (Hf : k_objs k1 !! fh = Some (OFh f)) by (rewrite Hk1; apply F).
  wp_step. eapply wp_upd_fh; [exact Hf|]. apply wp_ret. rewrite s32_small by (unfold n; lia). split; [done|].
  exists k1. split; [done|]. by rewrite u32_small by (unfold n; lia).
Qed.

(** Moving the position keeps the invariant of the handles. *)
Lemma system_moved R S k pg fh f pos : system (Inv := Inv) R S k -> k_objs k !! fh = Some (OFh f) ->
  system (Inv := Inv) R S (with_handle fh (at_pos pos f) (k <| k_pages := pg |>)).
Proof using.
  intros Hsys Hf. pose proof (sy_leak _ _ _ Hsys fh f Hf) as Hu.
  destruct (hv_handle (sy_handles _ _ _ Hsys) (a := fh)) as (g & Hg & Hr & Hc); [lia|]. rewrite Hf in Hg. injection Hg as <-.
  split.
  - by eapply sched_frame; [apply (sy_sched _ _ _ Hsys)|..].
  - eapply heap_inv_insert; [exact (sy_heap _ _ _ Hsys) | exact Hf | done].
  - eapply hinv_ext; [|eapply (hinv_handle _ _ (k <| k_pages := pg |>) fh f (at_pos pos f) (refs (k_processes k) fh));
      [eapply hinv_objs; [|apply (sy_handles _ _ _ Hsys)]; done | exact Hf | lia | done | done | exact Hr | lia]].
    intros a. cbv beta. case_decide as E; [by subst|done].
  - intros a g. cbn. destruct (decide (a = fh)) as [-> |Hne]; [done|]. rewrite lookup_insert_ne by done. apply (sy_leak _ _ _ Hsys).
  - apply (sy_fds _ _ _ Hsys).
Qed.
End files.

(** ** The current directory *)

(** Names stay names. *)
Lemma names_of_good cs rel : Forall good_name cs -> no_nul rel -> Forall is_byte rel -> Forall good_name (names_of cs rel).
Proof.
  intros Hcs Hn Hb. unfold names_of.
  assert (Hp : Forall (fun c => (no_nul c /\ Forall (fun x => x <> SLASH) c) /\ Forall is_byte c) (parts [] rel)).
  { pose proof (parts_props [] rel (Forall_nil_2 _) (Forall_nil_2 _) Hn) as H1.
    pose proof (parts_bytes [] rel (Forall_nil_2 _) Hb) as H2. rewrite list.Forall_forall in H1, H2 |- *. auto. }
  assert (Hstart : Forall good_name (if decide (head rel = Some SLASH) then [] else cs)) by (by case_decide).
  revert Hp Hstart. generalize (parts [] rel) (if decide (head rel = Some SLASH) then [] else cs). clear.
  intros ps. induction ps as [|q ps IH]; intros start Hp Hs; [done|]. apply list.Forall_cons in Hp as [((Hq1 & Hq2) & Hq3) Hp].
  cbn. apply IH; [done|]. unfold step. case_decide as E; [done|]. case_decide; [by apply removelast_Forall|].
  apply Forall_app. split; [done|]. constructor; [|done]. split; [|done]. split; [|done]. tauto.
Qed.

(** The process in another directory. *)
Definition in_dir (cwd : list Z) (p : process) : process := p <| p_cwd := cwd |>.
Definition chdir_result (k : kstate) (c : Z) (p : process) (names : list (list Z)) (v : Z + Z) (ty : Z) (r : Z) (k' : kstate) : Prop :=
  match v with
  | inl e => r = e /\ k' = k
  | inr entry =>
      if ty =? TYPE_DIR then r = 0 /\ exists cwd, cwd_is (in_dir cwd p) names /\ length cwd = Z.to_nat PATH_MAX /\
        k' = k <| k_processes := zinsert c (in_dir cwd p) (k_processes k) |>
      else r = - ENOTDIR /\ k' = k
  end.

Lemma chdir_spec k c p path rel cs v ty : caller k c p -> is_u32 path -> path_at k p path rel -> cwd_is p cs -> path_fits cs rel ->
  Forall is_byte (e_filesystem (k_env k)) -> lookup_names (e_filesystem (k_env k)) (names_of cs rel) = Some v ->
  (forall entry, v = inr entry -> de_type (e_filesystem (k_env k)) entry = Some ty) ->
  wpx (syscall_chdir path) (chdir_result k c p (names_of cs rel) v ty) k.
Proof.
  intros C Hpath Hrel Hcwd Hfit Hfs Hv Hty. unfold syscall_chdir. apply wpx_wp_bind.
  eapply valid_path; [exact C | done | | naive_solver]. intros _ _.
  eapply user_path_spec; [exact C | exact Hrel | exact Hcwd | exact Hfit | exact Hfs | exact Hv |]. intros abs Habs.
  apply wpx_wp. destruct v as [e|entry]; [apply wp_ret; by split|].
  wp_step. unfold entry_field, filesystem. wp_step. wp_step. eapply wp_of_opt; [by apply Hty|].
  unfold chdir_result. destruct (ty =? TYPE_DIR); cbn [negb]; [|apply wp_ret; by split].
  wp_step. eapply wp_upd_cur; [apply C | apply C |]. apply wp_ret. split; [done|]. exists abs.
  destruct Habs as (Hn & Hl & rest & Habs). split; [|split; [lia | done]]. split; [|by exists rest].
  destruct (cstring_text _ _ _ (proj1 Hrel)) as [Hrn Hrb]. by apply names_of_good; [apply Hcwd|..].
Qed.
