(* ===== verification/FileTheorems.v ===== *)
(** * Theorems about files: open, read and chdir *)

From S2P Require Import Prelude Constants Libc LibcProofs Page Filesystem FilesystemProofs Buddy BuddyInv BuddyTheorems Kernel Process ProcessInv ProcessTheorems UserMemory KernelMem Pipe Allocator PipeProofs PipeTheorems Filedesc Syscall Lifecycle LifecycleProofs ForkProofs LifecycleTheorems HandleProofs DescProofs DescTheorems FileProofs.

(** C20. open: a pointer that is not a string of the process is refused with
    -EFAULT.  Otherwise the path is resolved against the current directory of
    the process, "." and ".." included, and looked up in the filesystem image;
    without a free descriptor the result is -EMFILE, a name that is missing
    gives the error of the search, a file that should be a directory and a
    directory that should not give -ENOTDIR and -EISDIR, and nothing changes.
    Otherwise the lowest free descriptor is returned and refers to a new handle
    for the entry at position 0, and the invariant of all handles still holds; or
    the kernel's heap is exhausted. *)
Theorem open_correct k R S c p path flags :
  system (Inv := buddy_holds) R S k -> caller k c p -> is_u32 path ->
  ((~ exists s, path_at k p path s) -> syscall_open path flags k = Ok (- EFAULT) k) /\
  (forall rel cs v err, path_at k p path rel -> cwd_is p cs -> path_fits cs rel ->
    Forall is_byte (e_filesystem (k_env k)) -> lookup_names (e_filesystem (k_env k)) (names_of cs rel) = Some v ->
    open_error (e_filesystem (k_env k)) flags v = Some err ->
    wpx (syscall_open path flags) (fun r k' =>
      if decide (first_free (p_filedesc p) 0 = MAX_FDS) then r = - EMFILE /\ k' = k
      else open_result (Inv := buddy_holds) R S c p flags v err k r k') k).
Proof.
  intros Hsys C Hpath. split; [|intros; by eapply open_spec].
  intros Hno. apply wp_exact. unfold syscall_open. wp_step. eapply valid_path; [exact C | done | naive_solver |].
  intros _. by apply wp_ret.
Qed.

(** C21. read of a file: a buffer outside of the segments gives -EFAULT, a
    descriptor that is not open -EBADF, and nothing changes.  Otherwise the
    result is the number of bytes up to the count or the end of the file, these
    bytes of the file are in the buffer and nothing else in memory has changed,
    the position has moved by as much, and the invariant of all handles holds. *)
Theorem read_file_correct k R S c p fd a count :
  system (Inv := buddy_holds) R S k -> caller k c p -> is_u32 a -> 0 <= count < 2 ^ 31 ->
  let valid := count = 0 \/ in_segment p a (a + count) in
  (~ valid -> syscall_read fd a count k = Ok (- EFAULT) k) /\
  (valid -> closed_fd p fd -> syscall_read fd a count k = Ok (- EBADF) k) /\
  (forall fh f entry pos data pdir, valid -> open_fd p fd fh -> file_at k fh f entry pos ->
    contents_of (e_filesystem (k_env k)) entry data -> Forall is_byte (e_filesystem (k_env k)) ->
    Z.of_nat (length data) < 2 ^ 31 -> 0 <= pos < 2 ^ 31 ->
    let n := Z.min count (Z.max 0 (Z.of_nat (length data) - pos)) in
    user_region k pdir a n ->
    wp (syscall_read fd a count) (fun r k' => r = n /\ system (Inv := buddy_holds) R S k' /\ exists k1,
      user_written k pdir a n (take (Z.to_nat n) (drop (Z.to_nat pos) data)) k1 /\
      k' = with_handle fh (at_pos (pos + n) f) k1) k).
Proof.
  intros Hsys C Ha Hcount valid.
  assert (Hptr : wp (valid_pointer a count) (fun b k' => k' = k /\ (b = true <-> valid)) k).
  { apply (valid_pointer_spec k c p); [apply C | apply C | apply C | done | unfold is_u32; lia]. }
  pose proof (sy_fds _ _ _ Hsys c p (ca_lookup _ _ _ C)) as Hlen. split; [|split].
  - intros Hno. apply wp_exact. unfold syscall_read. wp_step. eapply wp_mono; [exact Hptr|].
    intros b k' [-> Hb]. destruct b; [by destruct Hno; apply Hb|]. by apply wp_ret.
  - intros Hv Hcl. apply wp_exact. unfold syscall_read. wp_step. eapply wp_mono; [exact Hptr|].
    intros b k' [-> Hb]. destruct b; [|by apply Hb in Hv]. cbn [negb].
    wp_step. eapply fd_handle_spec; [apply C | apply C | done | intros x Hx H0; by destruct H0; eapply Hcl|].
    intros _. by apply wp_ret.
  - intros fh f entry pos data pdir Hv [Hfd H0] F D Hfs Hl Hpos n Hreg. unfold syscall_read. wp_step.
    eapply wp_mono; [exact Hptr|]. intros b k' [-> Hb]. destruct b; [|by apply Hb in Hv]. cbn [negb].
    wp_step. eapply fd_handle_spec; [apply C | apply C | done | | intros Hz; by destruct H0; apply Hz].
    intros x Hx _. rewrite Hfd in Hx. injection Hx as <-. unfold call_read. wp_step. eapply wp_get_fh; [apply F|].
    rewrite (fa_read _ _ _ _ _ F). wp_step. apply wp_fld.
    eapply wp_mono; [by eapply file_read_spec|]. intros r k' (-> & k1 & W & ->). split; [done|]. split; [|by exists k1].
    destruct (uw_rest W) as [pg ->]. eapply system_moved; [done | apply F].
Qed.

(** C24. chdir: a bad pointer gives -EFAULT, a missing name the error of the
    search, a file -ENOTDIR, and nothing changes; otherwise the current
    directory of the process is the canonical path of the resolved names, and
    nothing else changes. *)
Theorem chdir_correct k c p path : caller k c p -> is_u32 path ->
  ((~ exists s, path_at k p path s) -> syscall_chdir path k = Ok (- EFAULT) k) /\
  (forall rel cs v ty, path_at k p path rel -> cwd_is p cs -> path_fits cs rel ->
    Forall is_byte (e_filesystem (k_env k)) -> lookup_names (e_filesystem (k_env k)) (names_of cs rel) = Some v ->
    (forall entry, v = inr entry -> de_type (e_filesystem (k_env k)) entry = Some ty) ->
    wpx (syscall_chdir path) (chdir_result k c p (names_of cs rel) v ty) k).
Proof.
  intros C Hpath. split; [|intros; by eapply chdir_spec].
  intros Hno. apply wp_exact. unfold syscall_chdir. wp_step. eapply valid_path; [exact C | done | naive_solver |].
  intros _. by apply wp_ret.
Qed.

(** ** A process with the path "AB" in its memory, and an image with a file of that name *)

Definition demo_image : list Z := take 300 small_image ++ bytes "AB" ++ drop 302 small_image.
Definition root_cwd : list Z := SLASH :: replicate 1023 0.
Definition file_process : process := in_dir root_cwd user_demo_process.
Lemma in_dir_segments x p : segments_ok p -> segments_ok (in_dir x p).
Proof. done. Qed.
Lemma in_dir_mapped k k' x p : k_pages k' = k_pages k -> k_paging k' = k_paging k -> segments_mapped k p ->
  segments_mapped k' (in_dir x p).
Proof. intros E1 E2 H a Ha. rewrite (user_byte_frame k k') by done. by apply H. Qed.
Lemma in_dir_alive x p : alive (in_dir x p) = alive p.
Proof. done. Qed.
Definition file_demo : kstate :=
  start_demo <| k_processes := zinsert 1 file_process (k_processes (demo 1)) |>
    <| k_pages := k_pages user_demo |> <| k_paging := Some PAGE_START |>
    <| k_env := mkEnv demo_image 0x100000 0x110000 0x100100 0x112000 0x100200 (fun _ _ => 0) |>.

Lemma file_demo_lookup : zlookup (k_processes file_demo) 1 = Some file_process.
Proof. apply zlookup_zinsert_eq. by vm_compute. Qed.
Lemma file_demo_caller : caller file_demo 1 file_process.
Proof.
  split; [reflexivity | apply file_demo_lookup | exact (in_dir_alive root_cwd user_demo_process) | |].
  - exact (in_dir_segments root_cwd _ user_demo_segments_ok).
  - exact (in_dir_mapped user_demo file_demo root_cwd user_demo_process eq_refl eq_refl user_demo_mapped).
Qed.
(** A system with one process that runs and has nothing open. *)
Lemma bare_refs p a : p_filedesc p = replicate 16 0 -> refs (zinsert 1 p (k_processes (demo 1))) a = 0.
Proof.
  intros Hf. assert (Hz : forall l, l = [] \/ l = replicate 16 0 -> uses a l = 0).
  { intros l Hl. destruct (decide (uses a l = 0)) as [|Hu]; [done|]. apply uses_zero in Hu as [Ha Hin].
    destruct Hl as [-> | ->]; [by apply elem_of_nil in Hin|]. by apply elem_of_replicate in Hin as [-> _]. }
  assert (Hd : forall q, p_filedesc q = replicate 16 0 -> fds_of q = [] \/ fds_of q = replicate 16 0).
  { intros q Hq. unfold fds_of. rewrite Hq. destruct (alive q); auto. }
  rewrite (refs_insert _ _ 1 (demo_process 1 1)) by (by apply demo_at). rewrite !Hz by (by apply Hd).
  assert (E : table_fds (k_processes (demo 1)) = replicate 16 0) by (vm_compute; reflexivity). unfold refs. rewrite E, Hz by auto. done.
Qed.
Lemma bare_system k p : k_processes k = zinsert 1 p (k_processes (demo 1)) -> k_ready k = k_ready (demo 1) ->
  k_suspended k = k_suspended (demo 1) -> same_sched (demo_process 1 1) p -> p_filedesc p = replicate 16 0 -> k_objs k = ∅ ->
  heap_inv buddy_holds k -> system (Inv := buddy_holds) [1] [] k.
Proof.
  intros Ep Er Es Hsc Hf Eo Hh. assert (Hno : forall a o, k_objs k !! a = Some o -> False) by (intros a o H; by rewrite Eo, lookup_empty in H).
  assert (Hrefs : forall a, refs (k_processes k) a = 0) by (intros a; rewrite Ep; by apply bare_refs).
  split; [| exact Hh | | |].
  - eapply (sched_frame [1] [] ((demo 1) <| k_processes := zinsert 1 p (k_processes (demo 1)) |>)); [|exact Ep | exact Er | exact Es].
    apply (sched_upd [1] [] (demo 1) 1 (demo_process 1 1)); [apply demo_sched1 | by apply demo_at | exact Hsc].
  - split.
    + intros a. by rewrite Hrefs.
    + intros a. by rewrite Hrefs.
    + intros a f e b Hu. by rewrite Hrefs in Hu.
    + intros a a' f f' e Hu. by rewrite Hrefs in Hu.
    + intros b q Hb. by destruct (Hno b (OPipe q)).
    + intros b b' q q' d Hb. by destruct (Hno b (OPipe q)).
    + intros b b' q q' d Hb. by destruct (Hno b (OPipe q)).
  - intros a f Hfh. by destruct (Hno a (OFh f)).
  - intros x q. rewrite Ep. destruct (decide (x = 1)) as [-> |Hne].
    + rewrite zlookup_zinsert_eq by (by vm_compute). intros [= <-]. by rewrite Hf.
    + rewrite zlookup_zinsert_ne by done. intros ->%demo_lookup. unfold demo_process. by destruct (_ && _).
Qed.
Lemma file_demo_system : system (Inv := buddy_holds) [1] [] file_demo.
Proof.
  apply (bare_system file_demo file_process); [reflexivity | reflexivity | reflexivity | vm_compute; by repeat split | reflexivity | reflexivity |].
  exact (heap_inv_eq start_demo file_demo eq_refl eq_refl start_demo_inv).
Qed.
Lemma file_demo_path : path_at file_demo file_process 0x1000 (bytes "AB").
Proof.
  split.
  - split; [|vm_compute; reflexivity]. intros i x Hx.
    destruct i as [|[|i]]; [injection Hx as <-; split; [done | vm_compute; reflexivity].. | done].
  - apply in_segment_cases. left. vm_compute. split; discriminate.
Qed.
Lemma file_demo_cwd : cwd_is file_process [].
Proof. split; [constructor|]. exists (replicate 1022 0). reflexivity. Qed.
Lemma demo_image_bytes : Forall is_byte demo_image.
Proof. by_bytes. Qed.

Lemma file_demo_free : first_free (p_filedesc file_process) 0 = 0.
Proof. vm_compute. reflexivity. Qed.
Lemma open_correct_witness :
  lookup_names demo_image [bytes "AB"] = Some (inr 280) /\
  wpx (syscall_open 0x1000 0) (fun r k' => r = 0 /\
    file_opened (Inv := buddy_holds) [1] [] 1 file_process 0 FH_FILE 280 file_demo k') file_demo.
Proof.
  split; [vm_compute; reflexivity|].
  destruct (open_correct file_demo [1] [] 1 file_process 0x1000 0) as [_ H];
    [apply file_demo_system | apply file_demo_caller | by vm_compute |].
  eapply wpx_mono; [apply (H (bytes "AB") [] (inr 280) None);
    [apply file_demo_path | apply file_demo_cwd | by vm_compute | apply demo_image_bytes | vm_compute; reflexivity | vm_compute; reflexivity]|].
  intros r k'. rewrite file_demo_free, decide_False by done. unfold open_result. rewrite file_demo_free.
  intros (-> & entry & Ee & Ho). injection Ee as <-. split; [reflexivity | exact Ho].
Defined.

Lemma chdir_correct_witness :
  wpx (syscall_chdir 0x1000) (fun r k' => r = - ENOTDIR /\ k' = file_demo) file_demo.
Proof.
  destruct (chdir_correct file_demo 1 file_process 0x1000) as [_ H]; [apply file_demo_caller | by vm_compute |].
  apply (H (bytes "AB") [] (inr 280) TYPE_FILE);
    [apply file_demo_path | apply file_demo_cwd | by vm_compute | apply demo_image_bytes | vm_compute; reflexivity |].
  intros entry [= <-]. vm_compute. reflexivity.
Defined.

(** [file_demo] with the file opened. *)
Definition open_demo : kstate := final (syscall_open 0x1000 0) file_demo.
Definition FILE : Z := 4096.
Definition open_process : process := set_desc 0 FILE file_process.
Lemma open_demo_eq : syscall_open 0x1000 0 file_demo = Ok 0 open_demo.
Proof.
  assert (H : result (syscall_open 0x1000 0) file_demo = Some 0) by (vm_compute; reflexivity).
  exact (run_eq (syscall_open 0x1000 0) file_demo 0 H).
Qed.
Lemma open_demo_lookup : zlookup (k_processes open_demo) 1 = Some open_process.
Proof. vm_compute. reflexivity. Qed.
Lemma open_demo_objs : k_objs open_demo = {[ FILE := OFh (opened FH_FILE 280) ]}.
Proof. vm_compute. reflexivity. Qed.
Lemma open_demo_parts : k_current open_demo = Some 1 /\ k_pages open_demo = k_pages user_demo /\
  k_paging open_demo = k_paging user_demo /\ e_filesystem (k_env open_demo) = demo_image.
Proof. vm_compute. repeat split. Qed.
Lemma open_demo_system : system (Inv := buddy_holds) [1] [] open_demo.
Proof.
  assert (H : wpx (syscall_open 0x1000 0) (fun r k' =>
      if decide (first_free (p_filedesc file_process) 0 = MAX_FDS) then r = - EMFILE /\ k' = file_demo
      else open_result (Inv := buddy_holds) [1] [] 1 file_process 0 (inr 280) None file_demo r k') file_demo).
  { apply (open_spec [1] [] file_demo 1 file_process 0x1000 0) with (bytes "AB") [];
      [apply file_demo_system | apply file_demo_caller | by vm_compute | apply file_demo_path | apply file_demo_cwd | by vm_compute
      | apply demo_image_bytes | vm_compute; reflexivity | vm_compute; reflexivity]. }
  pose proof (wpx_run _ _ _ _ _ H open_demo_eq) as Hr. cbv beta in Hr. rewrite file_demo_free, decide_False in Hr by done.
  destruct Hr as (_ & entry & _ & fh & _ & _ & _ & R' & S' & Hw & Hs).
  destruct Hw as [[-> ->]|(pid & S1 & S2 & HS & _)]; [exact Hs | by destruct S1].
Qed.
#[local] Opaque open_demo.
Lemma set_desc_segments fd a p : segments_ok p -> segments_ok (set_desc fd a p).
Proof. done. Qed.
Lemma set_desc_mapped k k' fd a p : k_pages k' = k_pages k -> k_paging k' = k_paging k -> segments_mapped k p ->
  segments_mapped k' (set_desc fd a p).
Proof. intros E1 E2 H x Hx. rewrite (user_byte_frame k k') by done. by apply H. Qed.
Lemma open_demo_caller : caller open_demo 1 open_process.
Proof.
  destruct open_demo_parts as (Hc & Hpg & Hpa & _). split; [exact Hc | apply open_demo_lookup | reflexivity | |].
  - exact (set_desc_segments 0 FILE _ (ca_segments _ _ _ file_demo_caller)).
  - apply (set_desc_mapped file_demo); [exact Hpg | exact Hpa | apply file_demo_caller].
Qed.
Lemma open_demo_file : file_at open_demo FILE (opened FH_FILE 280) 280 0.
Proof. split; [rewrite open_demo_objs; reflexivity | reflexivity..]. Qed.
Lemma demo_contents : contents_of demo_image 280 [1; 2; 3].
Proof.
  split; [vm_compute; reflexivity|]. exists 556. split; [vm_compute; reflexivity|].
  intros i x Hx. destruct i as [|[|[|i]]]; [injection Hx as <-; vm_compute; reflexivity.. | done].
Qed.

Lemma read_file_correct_witness :
  wp (syscall_read 0 0x1000 2) (fun r k' => r = 2 /\ system (Inv := buddy_holds) [1] [] k' /\ exists k1,
    user_written open_demo PAGE_START 0x1000 2 [1; 2] k1 /\ k' = with_handle FILE (at_pos 2 (opened FH_FILE 280)) k1) open_demo.
Proof.
  assert (Ha : is_u32 0x1000) by done. assert (Hn : 0 <= 2 < 2 ^ 31) by done.
  destruct (read_file_correct open_demo [1] [] 1 open_process 0 0x1000 2 open_demo_system open_demo_caller Ha Hn) as (_ & _ & H).
  destruct open_demo_parts as (_ & Hpg & Hpa & Hfs).
  assert (Hreg : user_region open_demo PAGE_START 0x1000 2).
  { apply (user_region_frame user_demo); [exact Hpg | exact Hpa | apply user_demo_region; lia]. }
  apply (H FILE (opened FH_FILE 280) 280 0 [1; 2; 3] PAGE_START).
  - right. apply in_segment_cases. left. vm_compute. split; discriminate.
  - split; [vm_compute; reflexivity | discriminate].
  - apply open_demo_file.
  - rewrite Hfs. apply demo_contents.
  - rewrite Hfs. apply demo_image_bytes.
  - done.
  - lia.
  - exact Hreg.
Defined.
