(* ===== verification/WaitProofs.v ===== *)
(** * waitpid and brk (source/unixproc.c, source/syscall.c) *)

From S2P Require Import Prelude Constants Libc Page PageInv PageSpec Kernel Process ProcessInv ProcessTheorems UserMemory KernelMem Pipe Allocator PipeProofs Filedesc Syscall Lifecycle LifecycleProofs ForkProofs HandleProofs DescProofs KillProofs.

(** ** A word in user memory *)

Lemma u8_byte v : is_byte (u8 v).
Proof. unfold is_byte, u8. by apply Z.mod_pos_bound. Qed.
Lemma poke_u8 pa v k : poke pa (u8 v) k = poke pa v k.
Proof.
  unfold poke. do 3 f_equal. unfold set_byte, u8. rewrite <- !(Z.land_ones _ 8) by done. rewrite <- Z.land_assoc. done.
Qed.
Lemma store_user_written k pdir a n src v k' (Q : unit -> kstate -> Prop) : user_written k pdir a n src k' ->
  Z.of_nat (length src) < n -> (forall k2, user_written k pdir a n (src ++ [u8 v]) k2 -> Q tt k2) ->
  wp (store (User (a + Z.of_nat (length src))) v) Q k'.
Proof.
  intros W Hlt HQ. set (i := a + Z.of_nat (length src)).
  destruct (ur_mapped (uw_region W) (i := i)) as [pa Hpa]; [lia|].
  eapply store_user; [exact Hpa|]. rewrite <- poke_u8. apply HQ.
  apply user_written_step; [done | apply u8_byte | done |]. fold i. rewrite <- (uw_pa W) by lia. done.
Qed.
(** A word behind the bytes written so far. *)
Lemma store32_append k pdir a n src v k' (Q : unit -> kstate -> Prop) : user_written k pdir a n src k' ->
  Z.of_nat (length src) + 4 <= n -> (forall k2, user_written k pdir a n (src ++ le32 v) k2 -> Q tt k2) ->
  wp (store32 (User (a + Z.of_nat (length src))) v) Q k'.
Proof.
  intros W Hn HQ. pose proof (ur_range (uw_region W)) as Hr. unfold store32. cbn [padd]. rewrite !u32_small by lia.
  assert (Hstep : forall l x kx (Q' : unit -> kstate -> Prop), user_written k pdir a n (src ++ l) kx -> (length l < 4)%nat ->
    (forall k2, user_written k pdir a n (src ++ (l ++ [u8 x])) k2 -> Q' tt k2) ->
    wp (store (User (a + Z.of_nat (length src) + Z.of_nat (length l))) x) Q' kx).
  { intros l x kx Q' Wl Hl HQ'. replace (a + Z.of_nat (length src) + Z.of_nat (length l)) with (a + Z.of_nat (length (src ++ l))) by (rewrite length_app; lia).
    eapply store_user_written; [exact Wl | rewrite length_app; lia |]. by rewrite <- app_assoc. }
  wp_step. rewrite <- (Z.add_0_r (a + Z.of_nat (length src))) at 1. apply (Hstep [] v k'); [by rewrite app_nil_r | cbn; lia |].
  intros k1 W1. wp_step. apply (Hstep [u8 v] _ k1 _ W1); [cbn; lia|].
  intros k2 W2. wp_step. apply (Hstep [u8 v; u8 (Z.shiftr v 8)] _ k2 _ W2); [cbn; lia|].
  intros k3 W3. apply (Hstep [u8 v; u8 (Z.shiftr v 8); u8 (Z.shiftr v 16)] _ k3 _ W3); [cbn; lia|]. exact HQ.
Qed.
Lemma store32_user k pdir a v (Q : unit -> kstate -> Prop) : user_region k pdir a 4 ->
  (forall k', user_written k pdir a 4 (le32 v) k' -> Q tt k') -> wp (store32 (User a) v) Q k.
Proof.
  intros Hreg HQ. rewrite <- (Z.add_0_r a). apply (store32_append k pdir a 4 [] v k); [by apply user_written_nil | done | exact HQ].
Qed.

(** ** The invariant of the handles *)

Section system.
  Context {Inv : gmap Z Z -> Buddy.memarea -> Prop} `{!Allocator Buddy.kmalloc_ma Buddy.kfree_ma Inv}.

Lemma hinv_more U S S' k : hinv U S k -> (forall y, y ∈ S -> y ∈ S') -> hinv U S' k.
Proof using.
  intros H HS. split; try apply H. intros b p Hb. destruct (hv_pipe H Hb) as (r & w & pid & l & d & bs & P & Ho & Hpid).
  exists r, w, pid, l, d, bs. split; [done|]. split; [done|]. destruct Hpid as [?|[Hin Hw]]; [by left|]. right. auto.
Qed.
(** Only the lists have changed. *)
Lemma system_lists R S R' S' k k' : system (Inv := Inv) R S k -> quiet k k' -> sched R' S' k' -> k_objs k' = k_objs k ->
  k_heap k' = k_heap k -> (forall y, y ∈ S -> y ∈ S') -> system (Inv := Inv) R' S' k'.
Proof using.
  intros H Hq Hs Eo Eh HS. assert (Hrefs : forall a, refs (k_processes k') a = refs (k_processes k) a).
  { intros a. apply refs_core. by apply quiet_core. }
  split; [done | | | |].
  - unfold heap_inv. rewrite Eo, Eh. apply H.
  - eapply hinv_ext; [exact Hrefs|]. eapply hinv_objs; [exact Eo|]. eapply hinv_more; [apply H | exact HS].
  - intros a f. rewrite Eo, Hrefs. apply H.
  - intros x q Hx. destruct (core_lookup (k_processes k') (k_processes k) x q) as (q' & Hq' & Ec);
      [symmetry; by apply quiet_core | done|]. rewrite <- (core_field p_filedesc q' q (fun _ => eq_refl) Ec). by apply (sy_fds _ _ _ H x).
Qed.
(** Only the process [x] has changed, and not in its descriptors. *)
Lemma system_proc R S k x p p' : system (Inv := Inv) R S k -> zlookup (k_processes k) x = Some p ->
  sched R S (k <| k_processes := zinsert x p' (k_processes k) |>) -> fds_of p' = fds_of p -> p_filedesc p' = p_filedesc p ->
  system (Inv := Inv) R S (k <| k_processes := zinsert x p' (k_processes k) |>).
Proof using.
  intros H Hp Hs Ef Ed. assert (Hrefs : forall a, refs (zinsert x p' (k_processes k)) a = refs (k_processes k) a).
  { intros a. rewrite (refs_insert _ _ _ _ _ Hp), Ef. lia. }
  split; [done | apply H | | |].
  - eapply hinv_ext; [exact Hrefs|]. eapply hinv_objs; [|apply H]. done.
  - intros a f. cbn. rewrite Hrefs. apply H.
  - intros y q. cbn. destruct (decide (x = y)) as [<- |Hne].
    + rewrite zlookup_zinsert_eq by (by eapply zlookup_range). intros [= <-]. rewrite Ed. by apply (sy_fds _ _ _ H x).
    + rewrite zlookup_zinsert_ne by done. apply H.
Qed.
Lemma system_pages R S k pg : system (Inv := Inv) R S k -> system (Inv := Inv) R S (k <| k_pages := pg |>).
Proof using.
  intros H. split; try apply H.
  - by eapply sched_frame; [apply (sy_sched _ _ _ H)|..].
  - eapply hinv_objs; [|apply (sy_handles _ _ _ H)]. done.
Qed.
End system.

(** ** waitpid *)

Definition waiting (x : Z) (p : process) : process := p <| p_waiting_on := x |>.
Definition reaped (p : process) : process := p <| p_exists := 0 |>.
Definition with_proc (x : Z) (p : process) (k : kstate) : kstate := k <| k_processes := zinsert x p (k_processes k) |>.

Section waitpid.
  Context {Inv : gmap Z Z -> Buddy.memarea -> Prop} `{!Allocator Buddy.kmalloc_ma Buddy.kfree_ma Inv}.
  Context (k : kstate) (R S : list Z) (c : Z) (p : process) (pid : Z) (q : process).
  Context (Hsys : system (Inv := Inv) R S k) (Hc : k_current k = Some c) (Hp : zlookup (k_processes k) c = Some p).
  Context (Hpid : p_pid p = c) (Hq : zlookup (k_processes k) pid = Some q) (Hne : pid <> c).

(** The state after the pending wait was dropped. *)
Definition waited : kstate := with_proc c (waiting (-1) p) k.
Lemma waited_c : zlookup (k_processes waited) c = Some (waiting (-1) p).
Proof using Hp. apply zlookup_zinsert_eq. by eapply zlookup_range. Qed.
Lemma waited_pid : zlookup (k_processes waited) pid = Some q.
Proof using Hq Hne. cbn. by rewrite zlookup_zinsert_ne. Qed.
Lemma pid_in_table : 0 <= pid < MAX_PROCESSES.
Proof using Hq Hsys. pose proof (zlookup_range _ _ _ Hq) as H. rewrite (sc_table (sy_sched _ _ _ Hsys)) in H. unfold MAX_PROCESSES in *. lia. Qed.
Lemma waited_system x : system (Inv := Inv) R S (with_proc c (waiting x p) k).
Proof using Hsys Hp.
  apply (system_proc R S k c p); [done | done | | done | done]. by eapply sched_upd; [apply (sy_sched _ _ _ Hsys) | exact Hp |].
Qed.

(** Up to the point where the child is looked at. *)
Lemma waitpid_child status options (Q : Z -> kstate -> Prop) :
  (if (p_exists q =? 0) || negb (p_parent_pid q =? c) then Q (- ECHILD) waited
   else if negb (p_exited q =? 0) then
     wp (when_ (truthy status) (store32 (User status) (p_exit_status q)))
       (fun _ k' => wp (upd_proc pid reaped) (fun _ k' => Q pid k') k') waited
   else wp (suspend_process c) (fun _ k' => Q (- ESUSPEND) k') (with_proc c (waiting pid p) k)) ->
  wp (syscall_waitpid pid status options) Q k.
Proof using All.
  intros HQ. pose proof pid_in_table as Hr. unfold syscall_waitpid.
  destruct (Z.ltb_spec pid 0); [lia|]. destruct (Z.leb_spec MAX_PROCESSES pid); [lia|]. cbn [orb].
  wp_step. eapply wp_upd_cur; [exact Hc | exact Hp |]. fold (waiting (-1) p). fold (with_proc c (waiting (-1) p) k). fold waited.
  wp_step. eapply wp_get_proc; [apply waited_pid|]. wp_step. eapply wp_cur; [exact Hc | apply waited_c |].
  change (p_pid (waiting (-1) p)) with (p_pid p). rewrite Hpid. unfold truthy in *. rewrite !negb_involutive.
  destruct ((p_exists q =? 0) || negb (p_parent_pid q =? c)); [by apply wp_ret|].
  destruct (negb (p_exited q =? 0)).
  - wp_step. eapply wp_mono; [exact HQ|]. intros [] k1 H1. wp_step. eapply wp_mono; [exact H1|]. intros [] k2 H2. by apply wp_ret.
  - wp_step. eapply wp_upd_cur; [exact Hc | apply waited_c|]. wp_step. apply (wp_current _ c); [exact Hc|].
    assert (E : waited <| k_processes := zinsert c (waiting pid (waiting (-1) p)) (k_processes waited) |> =
      with_proc c (waiting pid p) k).
    { unfold waited, with_proc. destruct k. unfold set_field. cbn. by rewrite zinsert_twice. }
    unfold waiting in E at 1. rewrite E. wp_step. eapply wp_mono; [exact HQ|]. intros [] k2 H2. by apply wp_ret.
Qed.

(** The child is gone: its slot is free, and the invariant holds. *)
Lemma reaped_system k1 : system (Inv := Inv) R S k1 -> zlookup (k_processes k1) pid = Some q -> p_exited q <> 0 -> pid ∉ R -> pid ∉ S ->
  system (Inv := Inv) R S (with_proc pid (reaped q) k1).
Proof using.
  intros H1 Hq1 Hex HR HS. apply (system_proc R S k1 pid q); [done | done | | | done].
  - eapply sched_map; [apply (sy_sched _ _ _ H1) | done | done | cbn; apply zinsert_length |].
    intros y r Hy. cbn. destruct (decide (pid = y)) as [<- |Hy'].
    + rewrite zlookup_zinsert_eq by (by eapply zlookup_range). assert (r = q) as -> by congruence.
      exists (reaped q). split; [done|]. split; [done|]. split; [done|]. intros [?|?]; done.
    + rewrite zlookup_zinsert_ne by done. exists r. done.
  - assert (E : alive q = false) by (unfold alive, truthy; destruct (Z.eqb_spec (p_exited q) 0); [done|]; apply andb_false_r).
    unfold fds_of. by rewrite E.
Qed.
End waitpid.
