(* ===== verification/WaitTheorems.v ===== *)
(** * Theorems about waitpid and brk *)

From S2P Require Import Prelude Constants Libc Page PageInv PageSpec Buddy BuddyInv BuddyTheorems PageTheorems Kernel Process ProcessInv ProcessTheorems UserMemory KernelMem Pipe Allocator PipeProofs PipeTheorems Filedesc Syscall Lifecycle LifecycleProofs ForkProofs LifecycleTheorems HandleProofs DescProofs KillProofs DescTheorems FileProofs FileTheorems WaitProofs.

(** C22. waitpid: a number that is no process, or a process that is not a child of
    the caller, gives -ECHILD.  For a child that has exited it returns the
    child's id, stores the exit status when a pointer is given, and frees the
    slot of the child; for a child that is running the caller is suspended,
    waiting on it.  In each case the invariants of the lists and handles hold
    and nothing else changes. *)
Theorem waitpid_correct k R S c p pid status options :
  system (Inv := buddy_holds) R S k -> k_current k = Some c -> zlookup (k_processes k) c = Some p -> p_pid p = c ->
  (~ 0 <= pid < MAX_PROCESSES -> syscall_waitpid pid status options k = Ok (- ECHILD) k) /\
  (forall q, zlookup (k_processes k) pid = Some q -> pid <> c ->
    (p_exists q = 0 \/ p_parent_pid q <> c -> syscall_waitpid pid status options k = Ok (- ECHILD) (waited k c p)) /\
    (p_exists q <> 0 -> p_parent_pid q = c -> p_exited q <> 0 -> pid ∉ R -> pid ∉ S -> forall pdir,
      status = 0 \/ user_region k pdir status 4 ->
      wp (syscall_waitpid pid status options) (fun r k' => r = pid /\ system (Inv := buddy_holds) R S k' /\ exists k1,
        k' = with_proc pid (reaped q) k1 /\
        (if decide (status = 0) then k1 = waited k c p
         else user_written (waited k c p) pdir status 4 (le32 (p_exit_status q)) k1)) k) /\
    (p_exists q <> 0 -> p_parent_pid q = c -> p_exited q = 0 -> forall R1 R2, R = R1 ++ c :: R2 ->
      wp (syscall_waitpid pid status options) (fun r k' => r = - ESUSPEND /\ system (Inv := buddy_holds) (R1 ++ R2) (c :: S) k' /\
        moved c 0 (with_proc c (waiting pid p) k) k') k)).
Proof.
  intros Hsys Hc Hp Hpid. split.
  { intros Hr. unfold syscall_waitpid. destruct (Z.ltb_spec pid 0); [done|]. destruct (Z.leb_spec MAX_PROCESSES pid); [done | lia]. }
  intros q Hq Hne. split; [|split].
  - intros Hno. apply wp_exact, (waitpid_child k R S c p pid q Hsys Hc Hp Hpid Hq Hne). 
    replace ((p_exists q =? 0) || negb (p_parent_pid q =? c)) with true; [done|].
    destruct Hno as [->|Hn]; [done|]. destruct (Z.eqb_spec (p_parent_pid q) c); [done|]. by rewrite orb_true_r.
  - intros He Hpar Hex HR HS pdir Hst. apply (waitpid_child k R S c p pid q Hsys Hc Hp Hpid Hq Hne).
    destruct (Z.eqb_spec (p_exists q) 0); [done|]. destruct (Z.eqb_spec (p_parent_pid q) c); [|done].
    destruct (Z.eqb_spec (p_exited q) 0); [done|]. cbn [orb negb].
    pose proof (waited_pid k c p pid q Hq Hne) as Hq0. pose proof (waited_system k R S c p Hsys Hp (-1)) as Hs0.
    fold (waited k c p) in Hs0. unfold truthy. destruct (Z.eqb_spec status 0) as [-> |Hs]; cbn [negb].
    + apply wp_when; [done|]. intros _. eapply wp_upd_proc; [exact Hq0|]. split; [done|].
      split; [by apply (reaped_system R S pid q)|]. exists (waited k c p). split; [done|]. by rewrite decide_True.
    + destruct Hst as [|Hreg]; [done|]. apply wp_when; [|done]. intros _.
      apply (store32_user _ pdir); [by eapply user_region_frame; [..|exact Hreg]|].
      intros k1 W. destruct (uw_rest W) as [pg Hk1]. assert (Hq1 : zlookup (k_processes k1) pid = Some q) by (by rewrite Hk1).
      eapply wp_upd_proc; [exact Hq1|]. split; [done|]. split.
      * apply (reaped_system R S pid q); [rewrite Hk1; by apply system_pages | done..].
      * exists k1. split; [done|]. by rewrite decide_False.
  - intros He Hpar Hex R1 R2 ->. apply (waitpid_child k (R1 ++ c :: R2) S c p pid q Hsys Hc Hp Hpid Hq Hne).
    destruct (Z.eqb_spec (p_exists q) 0); [done|]. destruct (Z.eqb_spec (p_parent_pid q) c); [|done].
    destruct (Z.eqb_spec (p_exited q) 0); [|done]. cbn [orb negb].
    pose proof (waited_system k _ S c p Hsys Hp pid) as Hs0.
    eapply wp_mono; [apply suspend_process_wp, (sy_sched _ _ _ Hs0)|].
    intros [] k' [Hs' Hm]. split; [done|]. split; [|done].
    destruct (moved_heap _ _ _ _ Hm) as [Eo Eh].
    eapply system_lists; [exact Hs0 | by eapply moved_core | done | exact Eo | exact Eh |]. intros y Hy. by right.
Qed.

(** A process whose child has exited. *)
Definition zombie : process :=
  process_zero <| p_pid := 2 |> <| p_exists := 1 |> <| p_exited := 1 |> <| p_exit_status := 7 |> <| p_parent_pid := 1 |>.
Definition wait_demo : kstate := with_proc 2 zombie start_demo.
Lemma wait_demo_zombie : zlookup (k_processes wait_demo) 2 = Some zombie.
Proof. apply zlookup_zinsert_eq. by vm_compute. Qed.
Lemma wait_demo_refs a : refs (k_processes wait_demo) a = 0.
Proof.
  assert (E : table_fds (k_processes wait_demo) = replicate 16 0) by (vm_compute; reflexivity). unfold refs. rewrite E.
  destruct (decide (uses a (replicate 16 0) = 0)) as [|Hu]; [done|]. apply uses_zero in Hu as [Ha Hin].
  apply elem_of_replicate in Hin as [-> _]. done.
Qed.
Lemma wait_demo_system : system (Inv := buddy_holds) [1] [] wait_demo.
Proof.
  assert (Hno : forall a o, k_objs wait_demo !! a = Some o -> False) by (intros a o H; by vm_compute in H).
  split.
  - eapply sched_map; [apply start_demo_sched | reflexivity | reflexivity | apply zinsert_length |].
    intros y r Hy. change (k_processes wait_demo) with (zinsert 2 zombie (k_processes start_demo)). destruct (decide (2 = y)) as [<- |Hne].
    + rewrite zlookup_zinsert_eq by (by eapply zlookup_range). exists zombie.
      change (zlookup (k_processes (demo 1)) 2 = Some r) in Hy. apply demo_lookup in Hy as ->. repeat split; set_solver.
    + rewrite zlookup_zinsert_ne by done. by exists r.
  - exact (heap_inv_eq start_demo wait_demo eq_refl eq_refl start_demo_inv).
  - split.
    + intros a. by rewrite wait_demo_refs.
    + intros a. by rewrite wait_demo_refs.
    + intros a f e b Hu. by rewrite wait_demo_refs in Hu.
    + intros a a' f f' e Hu. by rewrite wait_demo_refs in Hu.
    + intros b p Hb. by destruct (Hno b (OPipe p)).
    + intros b b' p p' d Hb. by destruct (Hno b (OPipe p)).
    + intros b b' p p' d Hb. by destruct (Hno b (OPipe p)).
  - intros a f Hf. by destruct (Hno a (OFh f)).
  - intros x q. change (k_processes wait_demo) with (zinsert 2 zombie (k_processes (demo 1))).
    destruct (decide (x = 2)) as [-> |Hne].
    + rewrite zlookup_zinsert_eq by (by vm_compute). by intros [= <-].
    + rewrite zlookup_zinsert_ne by done. intros ->%demo_lookup. unfold demo_process. by destruct (_ && _).
Qed.
Lemma waitpid_correct_witness :
  wp (syscall_waitpid 2 0 0) (fun r k' => r = 2 /\ system (Inv := buddy_holds) [1] [] k' /\ exists k1,
    k' = with_proc 2 (reaped zombie) k1 /\ k1 = waited wait_demo 1 (demo_process 1 1)) wait_demo.
Proof.
  assert (Hp : zlookup (k_processes wait_demo) 1 = Some (demo_process 1 1)) by (vm_compute; reflexivity).
  destruct (waitpid_correct wait_demo [1] [] 1 (demo_process 1 1) 2 0 0) as [_ H];
    [apply wait_demo_system | reflexivity | exact Hp | reflexivity |].
  destruct (H zombie wait_demo_zombie) as (_ & H2 & _); [done|].
  assert (He : p_exists zombie <> 0) by (vm_compute; discriminate). assert (Hx : p_exited zombie <> 0) by (vm_compute; discriminate).
  assert (HR : 2 ∉ [1]) by (by intros ?%list_elem_of_singleton). assert (HS : 2 ∉ ([] : list Z)) by (by intros ?%elem_of_nil).
  exact (H2 He eq_refl Hx HR HS PAGE_START (or_introl eq_refl)).
Defined.

(** The process with another end of its data segment. *)
Definition with_end (e : Z) (p : process) : process := p <| p_data_end := e |>.
(** The number of the page an address rounds up to. *)
Definition page_up (a : Z) : Z := (a + (PAGE_SIZE - 1)) / PAGE_SIZE.

Lemma round_up a : 0 <= a -> page_up a < 2 ^ 20 ->
  (if negb (a mod PAGE_SIZE =? 0) then u32 ((a / PAGE_SIZE + 1) * PAGE_SIZE) else a) = page_up a * PAGE_SIZE /\
  a <= page_up a * PAGE_SIZE < a + PAGE_SIZE.
Proof.
  unfold page_up, PAGE_SIZE. intros Ha Hlt.
  pose proof (Z.div_mod a 4096 ltac:(done)) as E. pose proof (Z.mod_pos_bound a 4096 ltac:(done)) as Hm.
  destruct (Z.eqb_spec (a mod 4096) 0) as [Hz|Hz]; cbn [negb].
  - assert (Hq : (a + (4096 - 1)) / 4096 = a / 4096) by (symmetry; apply (Z.div_unique_pos _ _ _ 4095); lia).
    rewrite Hq. lia.
  - assert (Hq : (a + (4096 - 1)) / 4096 = a / 4096 + 1) by (symmetry; apply (Z.div_unique_pos _ _ _ (a mod 4096 - 1)); lia).
    rewrite Hq in *. rewrite u32_small by lia. lia.
Qed.

(** C23. brk: up to the end of the data segment nothing changes.  Beyond it the
    segment is extended to the next page boundary, less than a page further
    than asked for; each of its new pages is mapped for the user to a frame of
    its own that nobody held and that is zero, every other mapping and frame is as
    before, and paging is back on.  The address may not round up past 4 GB. *)
Theorem brk_correct k c p A T V b newend :
  k_current k = Some c -> zlookup (k_processes k) c = Some p -> space A (k_pages k) (p_pdir p) T V ->
  p_data_end p = b * PAGE_SIZE -> 0 <= b -> is_u32 newend ->
  (newend <= p_data_end p -> syscall_brk newend k = Ok 0 k) /\
  (p_data_end p < newend -> page_up newend < 2 ^ 20 -> room A (2 * (page_up newend - b)) ->
    newend <= page_up newend * PAGE_SIZE < newend + PAGE_SIZE /\
    wp (syscall_brk newend) (fun r k' => r = 0 /\ exists pg,
      extended A (k_pages k) (p_pdir p) T V b (page_up newend - b) pg /\
      k' = k <| k_pages := pg |> <| k_paging := Some (p_pdir p) |>
             <| k_processes := zinsert c (with_end (page_up newend * PAGE_SIZE) p) (k_processes k) |>) k).
Proof.
  intros Hc Hp Hsp Hend Hb Hu. split.
  - intros Hle. apply wp_exact. unfold syscall_brk. wp_step. eapply wp_cur; [done..|].
    destruct (Z.leb_spec newend (p_data_end p)); [|lia]. by apply wp_ret.
  - intros Hlt Hpg Hroom. destruct (round_up newend) as [Er Hr]; [unfold is_u32 in Hu; lia | done|]. split; [done|].
    assert (Hpos : 0 <= page_up newend - b) by (rewrite Hend in Hlt; unfold PAGE_SIZE in *; lia).
    unfold syscall_brk. wp_step. eapply wp_cur; [done..|]. destruct (Z.leb_spec newend (p_data_end p)); [lia|].
    cbv zeta. rewrite Er, Hend.
    assert (Hn : u32 (page_up newend * PAGE_SIZE - b * PAGE_SIZE) / PAGE_SIZE = page_up newend - b).
    { rewrite u32_small by (unfold PAGE_SIZE in *; lia). rewrite <- Z.mul_sub_distr_r. apply Z.div_mul. done. }
    rewrite Hn. unfold disable_paging, enable_paging. wp_step. wp_step. wp_step. apply wp_page_op; [done|].
    eapply wp_mono; [apply map_new_pages_wp; [exact Hsp | done | done | lia | done]|]. intros [] pg Hext.
    wp_step. wp_step. wp_step. eapply wp_upd_cur; [exact Hc | exact Hp |]. apply wp_ret. split; [done|].
    exists pg. split; [done|]. by destruct k.
Qed.

Lemma brk_correct_witness : exists A T V,
  wp (syscall_brk 0x20001) (fun r k' => r = 0 /\ exists pg,
    extended A (k_pages fork_demo) PAGE_START T V 0x20 1 pg /\
    k' = fork_demo <| k_pages := pg |> <| k_paging := Some PAGE_START |>
           <| k_processes := zinsert 1 (with_end (0x21 * PAGE_SIZE) fork_demo_process) (k_processes fork_demo) |>) fork_demo.
Proof.
  destruct fork_demo_space as (A & T & V & Hsp & Hsz & _). exists A, T, V.
  assert (Hp : zlookup (k_processes fork_demo) 1 = Some fork_demo_process) by (apply zlookup_zinsert_eq; by vm_compute).
  destruct (brk_correct fork_demo 1 fork_demo_process A T V 0x20 0x20001) as [_ H];
    [reflexivity | exact Hp | exact Hsp | reflexivity | lia | by vm_compute |].
  apply H; [vm_compute; reflexivity | vm_compute; reflexivity |].
  change (page_up 0x20001) with 0x21. unfold room. rewrite MAX_FRAMES_eq. lia.
Defined.
