(* ===== verification/ExecProofs.v ===== *)
(** * execve: the arguments of a program (source/unixproc.c)

    The arguments of the caller are checked and gathered in a block, which is
    laid out as the stack of the new program: the number of arguments, the
    address of the array, the array, and the strings. *)

From S2P Require Import Prelude Constants Libc Page PageInv PageSpec Buddy BuddyInv BuddyTheorems PageTheorems Filesystem FilesystemProofs Kernel Process ProcessInv ProcessTheorems UserMemory KernelMem Pipe Allocator PipeProofs PipeTheorems Filedesc Syscall Lifecycle LifecycleProofs ForkProofs LifecycleTheorems HandleProofs DescProofs KillProofs DescTheorems FileProofs FileTheorems WaitProofs.

(** ** Words of user memory *)

(** The word [v] lies at the user address [a]. *)
Definition user_word (k : kstate) (a v : Z) : Prop := is_u32 v /\ user_bytes k a (le32 v).

Lemma join_le32 v : is_u32 v -> u8 v + 2 ^ 8 * u8 (Z.shiftr v 8) + 2 ^ 16 * u8 (Z.shiftr v 16) + 2 ^ 24 * u8 (Z.shiftr v 24) = v.
Proof.
  unfold is_u32, u8. intros Hv. rewrite !Z.shiftr_div_pow2 by lia.
  replace (2 ^ 16) with (2 ^ 8 * 2 ^ 8) by done. replace (2 ^ 24) with (2 ^ 8 * 2 ^ 8 * 2 ^ 8) by done.
  rewrite <- !Z.div_div by lia. set (q1 := v / 2 ^ 8). set (q2 := q1 / 2 ^ 8). set (q3 := q2 / 2 ^ 8).
  pose proof (Z.div_mod v (2 ^ 8) ltac:(lia)). pose proof (Z.div_mod q1 (2 ^ 8) ltac:(lia)).
  pose proof (Z.div_mod q2 (2 ^ 8) ltac:(lia)). fold q1 in H. fold q2 in H0. fold q3 in H1.
  assert (0 <= q3 < 2 ^ 8). { unfold q3, q2, q1. rewrite !Z.div_div by lia. split; [by apply Z.div_pos; lia|]. apply Z.div_lt_upper_bound; lia. }
  rewrite (Z.mod_small q3) by done. lia.
Qed.
Lemma le32_join b0 b1 b2 b3 : is_byte b0 -> is_byte b1 -> is_byte b2 -> is_byte b3 ->
  let v := b0 + 2 ^ 8 * b1 + 2 ^ 16 * b2 + 2 ^ 24 * b3 in is_u32 v /\ le32 v = [b0; b1; b2; b3].
Proof.
  unfold is_byte, is_u32. intros H0 H1 H2 H3. cbv zeta. split; [lia|]. unfold le32, u8. rewrite !Z.shiftr_div_pow2 by lia.
  repeat f_equal.
  - symmetry. apply (Z.mod_unique_pos _ _ (b1 + 2 ^ 8 * b2 + 2 ^ 16 * b3)); lia.
  - symmetry. apply (Z.mod_unique_pos _ _ (b2 + 2 ^ 8 * b3)); [lia|]. symmetry. apply (Z.div_unique_pos _ _ _ b0); lia.
  - symmetry. apply (Z.mod_unique_pos _ _ b3); [lia|]. symmetry. apply (Z.div_unique_pos _ _ _ (b0 + 2 ^ 8 * b1)); lia.
  - symmetry. apply (Z.mod_unique_pos _ _ 0); [lia|]. symmetry. apply (Z.div_unique_pos _ _ _ (b0 + 2 ^ 8 * b1 + 2 ^ 16 * b2)); lia.
Qed.
Lemma le32_inj v w : is_u32 v -> is_u32 w -> le32 v = le32 w -> v = w.
Proof. intros Hv Hw [= H0 H1 H2 H3]. rewrite <- (join_le32 v Hv), <- (join_le32 w Hw). congruence. Qed.

Lemma load32_user k a v (Q : Z -> kstate -> Prop) : user_word k a v -> Q v k -> wp (load32 (User a)) Q k.
Proof.
  intros [Hv (Ha & He & Hb)] HQ. change (Z.of_nat (length (le32 v))) with 4 in He. unfold load32. cbn [padd].
  rewrite !u32_small by lia. wp_step. eapply load_user; [rewrite <- (Z.add_0_r a); exact (Hb 0%nat _ eq_refl)|].
  wp_step. eapply load_user; [exact (Hb 1%nat _ eq_refl)|]. wp_step. eapply load_user; [exact (Hb 2%nat _ eq_refl)|].
  wp_step. eapply load_user; [exact (Hb 3%nat _ eq_refl)|]. apply wp_ret. by rewrite join_le32.
Qed.
Lemma user_word_unique k a v w : user_word k a v -> user_word k a w -> v = w.
Proof.
  intros [Hv (_ & _ & H1)] [Hw (_ & _ & H2)]. apply le32_inj; [done..|]. apply list_eq. intros i.
  destruct (le32 v !! i) as [x|] eqn:Hx.
  - destruct (lookup_lt_is_Some_2 (le32 w) i) as [y Hy]; [by apply lookup_lt_Some in Hx|].
    rewrite Hy. specialize (H1 _ _ Hx). specialize (H2 _ _ Hy). congruence.
  - apply lookup_ge_None in Hx. symmetry. by apply lookup_ge_None.
Qed.
Lemma user_word_exists k p a : segments_ok p -> segments_mapped k p -> in_segment p a (a + 4) -> exists v, user_word k a v.
Proof.
  intros Hok Hm Hin. pose proof (in_segment_below _ _ _ Hok Hin) as Hr.
  assert (Hb : forall i, 0 <= i < 4 -> exists x, user_byte k (a + i) = Some x /\ is_byte x).
  { intros i Hi. destruct (Hm (a + i)) as [x Hx]; [eapply in_segment_mono; [exact Hin | lia | lia]|].
    exists x. split; [done|]. by eapply user_byte_range. }
  destruct (Hb 0 ltac:(lia)) as (b0 & E0 & B0), (Hb 1 ltac:(lia)) as (b1 & E1 & B1),
    (Hb 2 ltac:(lia)) as (b2 & E2 & B2), (Hb 3 ltac:(lia)) as (b3 & E3 & B3).
  destruct (le32_join b0 b1 b2 b3 B0 B1 B2 B3) as [Hu El]. eexists. split; [exact Hu|]. rewrite El.
  split; [lia|]. split; [cbn; lia|]. intros j x Hj. destruct j as [|[|[|[|j]]]]; cbn in Hj; try done; by injection Hj as <-.
Qed.

(** ** The argument vector *)

(** The array at [argv] holds the addresses of the strings [args] and ends in a
    null pointer; all of it lies in segments of the process. *)
Record arguments (k : kstate) (p : process) (argv : Z) (ptrs : list Z) (args : list (list Z)) : Prop := {
  ar_words i a : (ptrs ++ [0]) !! i = Some a -> user_word k (argv + 4 * Z.of_nat i) a;
  ar_segment : in_segment p argv (argv + 4 * Z.of_nat (length ptrs) + 4);
  ar_nonzero : Forall (fun a => a <> 0) ptrs;
  ar_strings : Forall2 (path_at k p) ptrs args
}.

(** What a call gives as arguments; a null pointer stands for none. *)
Definition given (k : kstate) (p : process) (argv : Z) (ptrs : list Z) (args : list (list Z)) : Prop :=
  if decide (argv = 0) then ptrs = [] /\ args = [] else arguments k p argv ptrs args.

(** No segment of the process starts in the first page of memory. *)
Definition null_unmapped (p : process) : Prop := forall s e, (s, e) ∈ segments p -> PAGE_SIZE <= s.

Section argv.
  Context (k : kstate) (c : Z) (p : process) (Hca : caller k c p) (Hnull : null_unmapped p).

Lemma user_argv_spec argv i v (Q : Z -> kstate -> Prop) : user_word k (argv + 4 * i) v -> 0 <= argv -> 0 <= i -> Q v k -> wp (user_argv argv i) Q k.
Proof using.
  intros Hw Ha Hi HQ. unfold user_argv. destruct Hw as [Hv Hb].
  assert (Hr : argv + 4 * i + 4 <= 2 ^ 32) by apply Hb. rewrite u32_small by lia. by apply (load32_user _ _ v).
Qed.

(** The words of two arrays at the same place agree up to the end of one. *)
Lemma arguments_prefix argv done_ ptrs args : arguments k p argv ptrs args ->
  (forall i a, done_ !! i = Some a -> a <> 0 /\ user_word k (argv + 4 * Z.of_nat i) a) -> (length done_ <= length ptrs)%nat.
Proof using.
  intros Ha Hd. destruct (decide (length done_ <= length ptrs)%nat) as [|Hn]; [done|]. exfalso.
  destruct (lookup_lt_is_Some_2 done_ (length ptrs)) as [a Hx]; [lia|]. destruct (Hd _ _ Hx) as [Hnz Hw]. apply Hnz.
  eapply user_word_unique; [exact Hw|]. apply Ha. by rewrite lookup_app_r, Nat.sub_diag by lia.
Qed.

Lemma valid_argv_loop_spec fuel argv done_ strs : is_u32 argv -> (length done_ + fuel = S (string_fuel p argv))%nat ->
  (done_ = [] \/ in_segment p argv (argv + 4 * Z.of_nat (length done_))) ->
  (forall i a, done_ !! i = Some a -> a <> 0 /\ user_word k (argv + 4 * Z.of_nat i) a) -> Forall2 (path_at k p) done_ strs ->
  wp (valid_argv_loop fuel argv (Z.of_nat (length done_)))
    (fun b k' => k' = k /\ (b = true <-> exists ptrs args, arguments k p argv ptrs args)) k.
Proof using Hca Hnull.
  destruct Hca as [Hc Hp _ Hok Hm]. intros Hu. revert done_ strs. induction fuel as [|fuel IH]; intros d strs Hf Hseg Hd Hs.
  { exfalso. destruct Hseg as [-> |Hseg]; [cbn in Hf; lia|]. destruct d as [|x d]; [cbn in Hf; lia|].
    pose proof (string_fuel_enough p argv (4 * Z.of_nat (length (x :: d)) - 1)) as Hsf. cbn [length] in *.
    replace (argv + (4 * Z.of_nat (S (length d)) - 1) + 1) with (argv + 4 * Z.of_nat (S (length d))) in Hsf by lia.
    specialize (Hsf Hseg). lia. }
  cbn [valid_argv_loop]. set (n := Z.of_nat (length d)) in *. unfold is_u32 in Hu.
  assert (Hn : 0 <= n /\ 4 * n + 4 < 2 ^ 32).
  { destruct Hseg as [-> |Hseg]; [by cbn|]. pose proof (in_segment_below _ _ _ Hok Hseg).
    destruct Hseg as (s & e & Hin & ? & ?). specialize (Hnull s e Hin). unfold PAGE_SIZE in Hnull. lia. }
  rewrite (u32_small ((n + 1) * 4)) by lia. wp_step. eapply wp_mono; [by eapply valid_pointer_spec; [..|unfold is_u32; lia]|].
  intros b k' [-> Hb]. destruct b; cbn [negb].
  2: { apply wp_ret. split; [done|]. split; [done|]. intros (ptrs & args & Ha). exfalso.
       pose proof (arguments_prefix _ _ _ _ Ha Hd) as Hle. assert (false = true); [|done]. apply Hb. right.
       eapply in_segment_mono; [apply Ha | lia | lia]. }
  destruct (proj1 Hb eq_refl) as [?|Hin]; [lia|].
  destruct (user_word_exists k p (argv + 4 * n)) as [v Hv]; [done | done | eapply in_segment_mono; [exact Hin | lia | lia]|].
  wp_step. eapply user_argv_spec; [exact Hv | lia | lia |]. destruct (Z.eqb_spec v 0) as [-> |Hv0].
  - apply wp_ret. split; [done|]. split; [|done]. intros _. exists d, strs. split.
    + intros i a [Hi|[Hi Ha]]%lookup_app_Some; [by apply Hd|]. apply list_lookup_singleton_Some in Ha as [Ha <-].
      by replace (Z.of_nat i) with n by lia.
    + fold n. eapply in_segment_mono; [exact Hin | lia | lia].
    + apply Forall_lookup_2. intros i x Hx. by apply (Hd i x).
    + done.
  - wp_step. eapply wp_mono; [eapply (valid_string_spec k c p); [done..|apply Hv]|]. intros b k' [-> Hvs]. destruct b; cbn [negb].
    2: { apply wp_ret. split; [done|]. split; [done|]. intros (ptrs & args & Ha). exfalso.
         pose proof (arguments_prefix _ _ _ _ Ha Hd) as Hle. assert (false = true); [|done]. apply Hvs.
         destruct (decide (length d < length ptrs)%nat) as [Hll|Hll].
         - destruct (lookup_lt_is_Some_2 ptrs (length d) Hll) as [a Hx]. assert (a = v) as ->.
           { eapply user_word_unique; [|exact Hv]. apply Ha. by apply lookup_app_l_Some. }
           destruct (Forall2_lookup_l _ _ _ _ _ (ar_strings _ _ _ _ _ Ha) Hx) as (s & _ & Hs'). by exists s.
         - destruct Hv0. eapply user_word_unique; [exact Hv|]. apply Ha. rewrite lookup_app_r by lia.
           by replace (length d - length ptrs)%nat with 0%nat by lia. }
    destruct (proj1 Hvs eq_refl) as (s & Hs1 & Hs2).
    rewrite u32_small by lia. specialize (IH (d ++ [v]) (strs ++ [s])). rewrite length_app in IH. cbn [length] in IH.
    replace (Z.of_nat (length d + 1)) with (n + 1) in IH by lia. apply IH; [lia | right | | ].
    + by replace (argv + 4 * (n + 1)) with (argv + (n + 1) * 4) by lia.
    + intros i a [Hi|[Hi Ha]]%lookup_app_Some; [by apply Hd|]. apply list_lookup_singleton_Some in Ha as [Ha <-].
      split; [done|]. by replace (Z.of_nat i) with n by lia.
    + apply Forall2_app; [done|]. by constructor.
Qed.

Lemma valid_argv_spec argv : is_u32 argv ->
  wp (valid_argv argv) (fun b k' => k' = k /\ (b = true <-> exists ptrs args, given k p argv ptrs args)) k.
Proof using Hca Hnull.
  intros Hu. unfold valid_argv. wp_step. eapply wp_cur; [apply Hca..|]. destruct (Z.eqb_spec argv 0) as [-> |Hnz].
  - apply wp_ret. split; [done|]. split; [|done]. intros _. by exists [], [].
  - eapply wp_mono; [apply (valid_argv_loop_spec _ argv [] [] Hu); [done | by left | done | done]|]. intros b k' [-> Hb].
    split; [done|]. rewrite Hb. unfold given. by destruct (decide (argv = 0)).
Qed.

(** The bytes of the strings, terminators included. *)
Definition strings_size (args : list (list Z)) : Z := foldr (fun s n => Z.of_nat (length s) + 1 + n) 0 args.
Lemma strings_size_pos args : 0 <= strings_size args.
Proof using. unfold strings_size. induction args as [|s args IH]; cbn; lia. Qed.
Lemma strings_size_app args s : strings_size (args ++ [s]) = strings_size args + Z.of_nat (length s) + 1.
Proof using. unfold strings_size. induction args as [|t args IH]; cbn; [lia|]. rewrite IH. lia. Qed.

Lemma string_arg a s : path_at k p a s -> wp (user_string a) (fun r k' => k' = k /\ r = s ++ [0]) k.
Proof using Hca. intros [H1 H2]. by eapply user_string_spec; [apply Hca..| |]. Qed.

Lemma count_args_loop fuel argv done_ ptrs strs args : 0 < argv -> arguments k p argv (done_ ++ ptrs) (strs ++ args) ->
  length done_ = length strs -> (length ptrs < fuel)%nat -> strings_size (strs ++ args) < 2 ^ 32 ->
  wp (count_args fuel argv (Z.of_nat (length done_)) (strings_size strs))
    (fun r k' => k' = k /\ r = (Z.of_nat (length (done_ ++ ptrs)), strings_size (strs ++ args))) k.
Proof using Hca.
  intros Hpos. revert done_ ptrs strs args. induction fuel as [|fuel IH]; intros d ptrs strs args Ha Hlen Hf Hsz; [lia|].
  cbn [count_args]. destruct (Z.eqb_spec argv 0); [lia|].
  assert (Hlen2 : length ptrs = length args).
  { pose proof (list.Forall2_length _ _ _ (ar_strings _ _ _ _ _ Ha)) as E. rewrite !length_app in E. lia. }
  destruct ptrs as [|a ptrs], args as [|s args]; try done.
  - rewrite !app_nil_r in *. wp_step. eapply user_argv_spec; [apply (ar_words _ _ _ _ _ Ha (length d) 0) | lia | lia |].
    { by rewrite lookup_app_r, Nat.sub_diag by lia. }
    by apply wp_ret.
  - wp_step. eapply user_argv_spec; [apply (ar_words _ _ _ _ _ Ha (length d) a) | lia | lia |].
    { by rewrite <- app_assoc, lookup_app_r, Nat.sub_diag by lia. }
    assert (Hnz : a <> 0). { pose proof (ar_nonzero _ _ _ _ _ Ha) as E. apply Forall_app in E as [_ E]. by apply list.Forall_cons in E as [E _]. }
    destruct (Z.eqb_spec a 0); [done|].
    assert (Hs : path_at k p a s). { pose proof (ar_strings _ _ _ _ _ Ha) as E. apply Forall2_app_inv in E as [_ E]; [|done]. by inversion E. }
    wp_step. eapply wp_mono; [by apply string_arg|]. intros r k' [-> ->]. rewrite length_app. cbn [length].
    assert (Hsum : strings_size (strs ++ [s]) = strings_size strs + Z.of_nat (length s + 1)) by (rewrite strings_size_app; lia).
    assert (Hle : 0 <= strings_size strs /\ strings_size (strs ++ [s]) <= strings_size (strs ++ s :: args)).
    { split; [apply strings_size_pos|]. unfold strings_size. rewrite !foldr_app. cbn.
      pose proof (strings_size_pos args). clear -H. unfold strings_size in H. induction strs as [|t strs IH]; cbn; lia. }
    rewrite <- Hsum, u32_small by (split; [apply strings_size_pos | lia]).
    specialize (IH (d ++ [a]) ptrs (strs ++ [s]) args). rewrite <- !app_assoc in IH. cbn [app] in IH.
    rewrite !(length_app d [a]) in IH. cbn [length] in IH.
    replace (Z.of_nat (length d + 1)) with (Z.of_nat (length d) + 1) in IH by lia.
    apply IH; [done | rewrite length_app; cbn; lia | cbn in Hf; lia | done].
Qed.
Lemma count_args_spec argv ptrs args : is_u32 argv -> given k p argv ptrs args -> strings_size args < 2 ^ 32 ->
  wp (count_args (S (string_fuel p argv)) argv 0 0) (fun r k' => k' = k /\ r = (Z.of_nat (length args), strings_size args)) k.
Proof using Hca.
  unfold given, is_u32. intros Hu Hg Hsz. destruct (decide (argv = 0)) as [-> |Hnz].
  - destruct Hg as [-> ->]. by apply wp_ret.
  - pose proof (list.Forall2_length _ _ _ (ar_strings _ _ _ _ _ Hg)) as E. rewrite <- E.
    eapply (count_args_loop _ argv [] ptrs [] args); [lia | done | done | | done].
    pose proof (string_fuel_enough p argv (4 * Z.of_nat (length ptrs) + 3)) as Hsf.
    replace (argv + (4 * Z.of_nat (length ptrs) + 3) + 1) with (argv + 4 * Z.of_nat (length ptrs) + 4) in Hsf by lia.
    specialize (Hsf (ar_segment _ _ _ _ _ Hg)). lia.
Qed.
End argv.

(** ** The block of arguments *)

Lemma splice_comm o1 a o2 b l : (o1 + length a <= o2)%nat -> (o2 + length b <= length l)%nat ->
  splice o2 b (splice o1 a l) = splice o1 a (splice o2 b l).
Proof.
  intros H1 H2. apply list_eq. intros i. rewrite !splice_lookup; rewrite ?splice_length; try lia.
  destruct (decide (o2 <= i < o2 + length b)%nat), (decide (o1 <= i < o1 + length a)%nat); try done; lia.
Qed.
Lemma splice_whole a l : length a = length l -> splice 0 a l = a.
Proof. intros H. unfold splice. cbn. by rewrite drop_ge, app_nil_r by lia. Qed.

Definition zstr (s : list Z) : list Z := s ++ [0].
(** The strings lie one below the other, the first at the top. *)
Definition strings_block (args : list (list Z)) : list Z := concat (reverse (zstr <$> args)).
Fixpoint arg_ptrs (top : Z) (args : list (list Z)) : list Z :=
  match args with
  | [] => []
  | s :: args' => let a := top - Z.of_nat (length (zstr s)) in a :: arg_ptrs a args'
  end.
Definition arg_size (args : list (list Z)) : Z := strings_size args + Z.of_nat (length args) * 4 + 8.
(** The stack pointer the program starts with. *)
Definition arg_base (args : list (list Z)) : Z := PROCESS_STACK_BASE - arg_size args.
Definition arg_block (args : list (list Z)) : list Z :=
  le32 (Z.of_nat (length args)) ++ le32 (arg_base args + 8) ++ (arg_ptrs PROCESS_STACK_BASE args ≫= le32) ++ strings_block args.

Lemma strings_block_cons s args : strings_block (s :: args) = strings_block args ++ zstr s.
Proof. unfold strings_block. rewrite fmap_cons, reverse_cons, concat_app. cbn [concat]. by rewrite app_nil_r. Qed.
Lemma strings_block_length args : Z.of_nat (length (strings_block args)) = strings_size args.
Proof.
  induction args as [|s args IH]; [done|]. rewrite strings_block_cons, length_app. unfold zstr. rewrite length_app.
  cbn [length]. change (strings_size (s :: args)) with (Z.of_nat (length s) + 1 + strings_size args). lia.
Qed.
Lemma arg_ptrs_length top args : length (arg_ptrs top args) = length args.
Proof. revert top. induction args as [|s args IH]; intros top; cbn; [done|]. by rewrite IH. Qed.
Lemma words_length (l : list Z) : length (l ≫= le32) = (4 * length l)%nat.
Proof. induction l as [|x l IH]; cbn [mbind list_bind]; [done|]. rewrite length_app, IH. cbn. lia. Qed.

Lemma caller_buf k c p d l : caller k c p -> caller (with_buf d l k) c p.
Proof. by intros [H1 H2 H3 H4 H5]. Qed.

Lemma cstr_bytes k p a s : path_at k p a s -> Forall is_byte (zstr s).
Proof. intros [H _]. apply cstring_text in H as [_ H]. apply Forall_app. split; [done|]. by repeat constructor. Qed.

(** A string of the caller, into the buffer. *)
Lemma copy_string k p a s d off l (Q : unit -> kstate -> Prop) : segments_ok p -> path_at k p a s -> k_objs k !! d = Some (OBytes l) ->
  (off + length (zstr s) <= length l)%nat -> Q tt (with_buf d (splice off (zstr s) l) k) ->
  wp (kmemmove (Obj d (Z.of_nat off)) (User a) (Z.of_nat (length (zstr s)))) Q k.
Proof.
  intros Hok Hs Hd Hlen HQ. pose proof (cstr_bytes _ _ _ _ Hs) as Hb. destruct Hs as [[Hs Hz] Hin].
  pose proof (in_segment_below _ _ _ Hok Hin) as Hr. eapply wp_mono; [eapply kmemmove_obj; [exact Hd | done | done |]|].
  - intros j x Hj. cbn [padd]. assert (Hjl : (j < length (zstr s))%nat) by (by eapply lookup_lt_Some).
    unfold zstr in Hjl. rewrite length_app in Hjl. cbn [length] in Hjl. rewrite u32_small by lia. eapply load_user; [|done].
    apply lookup_app_Some in Hj as [Hj|[Hj Hx]]; [by apply (Hs j x)|]. apply list_lookup_singleton_Some in Hx as [Hx <-].
    by replace j with (length s) by lia.
  - by intros [] k' ->.
Qed.

Lemma copy_args_spec k c p argv d size : 0 < argv -> size <= PROCESS_STACK_BASE -> forall args ptrs argno pos l,
  caller k c p -> k_objs k !! d = Some (OBytes l) -> Z.of_nat (length l) = size -> 0 <= argno ->
  (forall i a, ptrs !! i = Some a -> user_word k (argv + 4 * (argno + Z.of_nat i)) a) -> Forall2 (path_at k p) ptrs args ->
  8 + 4 * (argno + Z.of_nat (length args)) <= pos - strings_size args -> pos <= size ->
  wp (copy_args (length args) argv d size argno pos) (fun _ k' => k' = with_buf d
    (splice (Z.to_nat (8 + 4 * argno)) (arg_ptrs (PROCESS_STACK_BASE - size + pos) args ≫= le32)
      (splice (Z.to_nat (pos - strings_size args)) (strings_block args) l)) k) k.
Proof.
  intros Hpos Hbase args. revert k. induction args as [|s args IH]; intros k ptrs argno pos l Hca Hd Hl Hargno Hw Hs Hfit Hle.
  { cbn. apply wp_ret. by rewrite !splice_nil, with_buf_id. }
  apply Forall2_cons_inv_r in Hs as (a & ptrs' & Ha & Hs & ->). cbn [copy_args length].
  set (rest := strings_size args). assert (Hrest : strings_size (s :: args) = Z.of_nat (length s) + 1 + rest) by done.
  assert (Hrest0 : 0 <= rest) by apply strings_size_pos. cbn [length] in Hfit.
  assert (Hcl : Z.of_nat (length (zstr s)) = Z.of_nat (length s) + 1) by (unfold zstr; rewrite length_app; cbn; lia).
  assert (Hb32 : PROCESS_STACK_BASE < 2 ^ 32) by done.
  wp_step. eapply user_argv_spec; [specialize (Hw 0%nat a eq_refl); by rewrite Z.add_0_r in Hw | lia | lia |].
  wp_step. eapply wp_mono; [by eapply string_arg|]. intros r k' [-> ->]. fold (zstr s). cbv zeta.
  rewrite (u32_small (pos - _)) by lia. set (pos' := pos - Z.of_nat (length (zstr s))).
  wp_step. replace (Obj d pos') with (Obj d (Z.of_nat (Z.to_nat pos'))) by (f_equal; lia).
  eapply copy_string; [apply Hca | exact Ha | exact Hd | lia |]. set (l1 := splice _ (zstr s) l).
  assert (Hl1 : length l1 = length l) by (apply splice_length; lia).
  wp_step. replace (8 + 4 * argno) with (Z.of_nat (Z.to_nat (8 + 4 * argno))) at 1 by lia.
  eapply store32_obj; [apply lookup_insert_eq | lia |]. rewrite with_buf_twice. rewrite u32_small by lia.
  set (w := PROCESS_STACK_BASE - size + pos'). set (l2 := splice _ (le32 w) l1).
  assert (Hl2 : length l2 = length l) by (unfold l2; rewrite splice_length; [done|]; rewrite Hl1; cbn; lia).
  eapply wp_mono; [apply (IH (with_buf d l2 k) ptrs' (argno + 1) pos' l2)|].
  - by apply caller_buf.
  - apply lookup_insert_eq.
  - by rewrite Hl2.
  - lia.
  - intros i b Hi. specialize (Hw (S i) b Hi). by replace (argno + 1 + Z.of_nat i) with (argno + Z.of_nat (S i)) by lia.
  - done.
  - lia.
  - lia.
  - intros [] k' ->. rewrite with_buf_twice. f_equal. fold w. cbn [arg_ptrs]. cbv zeta.
    replace (PROCESS_STACK_BASE - size + pos - Z.of_nat (length (zstr s))) with w by lia. cbn [mbind list_bind].
    rewrite strings_block_cons. pose proof (strings_block_length args) as Hsl. fold rest in Hsl. fold rest.
    rewrite <- (splice_app _ (le32 w)). 2: { rewrite words_length, arg_ptrs_length. change (length (le32 w)) with 4%nat. rewrite splice_length; rewrite ?length_app; lia. }
    replace (Z.to_nat (8 + 4 * argno) + length (le32 w))%nat with (Z.to_nat (8 + 4 * (argno + 1))) by (cbn; lia). f_equal.
    unfold l2. rewrite splice_comm by (rewrite ?Hl1; cbn; lia). f_equal. unfold l1.
    replace (Z.to_nat (pos - strings_size (s :: args))) with (Z.to_nat (pos' - rest)) by lia.
    rewrite <- splice_app by lia. replace (Z.to_nat (pos' - rest) + length (strings_block args))%nat with (Z.to_nat pos') by lia.
    symmetry. apply splice_comm; lia.
Qed.

Lemma arg_size_pos args : 8 <= arg_size args.
Proof. unfold arg_size. pose proof (strings_size_pos args). lia. Qed.
Lemma arg_block_length args : Z.of_nat (length (arg_block args)) = arg_size args.
Proof.
  unfold arg_block, arg_size. rewrite !length_app, words_length, arg_ptrs_length. pose proof (strings_block_length args).
  change (length (le32 (Z.of_nat (length args)))) with 4%nat. change (length (le32 (arg_base args + 8))) with 4%nat. lia.
Qed.
Lemma arg_block_bytes k p ptrs args : Forall2 (path_at k p) ptrs args -> Forall is_byte (arg_block args).
Proof.
  intros H. assert (Hb : forall l, Forall is_byte (l ≫= le32)).
  { induction l as [|x l IH]; cbn [mbind list_bind]; [done|]. apply Forall_app. split; [apply le32_bytes | exact IH]. }
  assert (Hs : Forall is_byte (strings_block args)).
  { induction H as [|a s ptrs args Ha _ IH]; [done|]. rewrite strings_block_cons. apply Forall_app. split; [done | by eapply cstr_bytes]. }
  unfold arg_block. rewrite !Forall_app. split; [apply le32_bytes|]. split; [apply le32_bytes|]. split; [apply Hb | done].
Qed.

(** The parts of the block, as they are written, whatever the buffer held. *)
Lemma arg_block_splices args l : Z.of_nat (length l) = arg_size args ->
  splice 4 (le32 (arg_base args + 8)) (splice 0 (le32 (Z.of_nat (length args)))
    (splice 8 (arg_ptrs PROCESS_STACK_BASE args ≫= le32) (splice (Z.to_nat (arg_size args - strings_size args)) (strings_block args) l))) =
  arg_block args.
Proof.
  intros Hl. unfold arg_block. set (W := arg_ptrs PROCESS_STACK_BASE args ≫= le32). pose proof (strings_block_length args) as Hsl.
  assert (HW : length W = (4 * length args)%nat) by (unfold W; by rewrite words_length, arg_ptrs_length).
  unfold arg_size in *. replace (Z.to_nat _) with (8 + length W)%nat by lia.
  set (n := le32 (Z.of_nat (length args))). set (b := le32 (arg_base args + 8)).
  assert (Hn : length n = 4%nat) by done. assert (Hb : length b = 4%nat) by done. clearbody W n b.
  rewrite <- (splice_comm 8 W) by lia. rewrite splice_app by lia.
  change 4%nat with (0 + 4)%nat at 1. rewrite <- Hn at 1. rewrite splice_app by (rewrite splice_length; rewrite ?length_app; lia).
  rewrite <- (splice_comm 0 (n ++ b)) by (rewrite ?length_app; lia).
  replace 8%nat with (0 + length (n ++ b))%nat at 1 by (rewrite length_app; lia).
  rewrite splice_app by (rewrite !length_app; lia). rewrite <- app_assoc. apply splice_whole. rewrite !length_app. lia.
Qed.

Lemma given_strings k p argv ptrs args : given k p argv ptrs args -> Forall2 (path_at k p) ptrs args.
Proof. unfold given. destruct (decide (argv = 0)); [by intros [-> ->] | by intros []]. Qed.

Lemma gather_args_spec {B} k c p argv ptrs args d l (rest : K B) (Q : B -> kstate -> Prop) : caller k c p -> is_u32 argv ->
  given k p argv ptrs args -> k_objs k !! d = Some (OBytes l) -> Z.of_nat (length l) = arg_size args ->
  arg_size args <= PROCESS_STACK_BASE -> wp rest Q (with_buf d (arg_block args) k) ->
  wp (copy_args (Z.to_nat (Z.of_nat (length args))) argv d (arg_size args) 0 (arg_size args);;
      store32 (Obj d 0) (Z.of_nat (length args));;
      store32 (Obj d 4) (u32 (PROCESS_STACK_BASE - arg_size args + 8));; rest) Q k.
Proof.
  intros Hca Hu Hg Hd Hl Hfit Hrest. pose proof (arg_size_pos args) as Hpos. assert (HB : PROCESS_STACK_BASE < 2 ^ 32 - 8) by done.
  set (l1 := splice 8 (arg_ptrs PROCESS_STACK_BASE args ≫= le32) (splice (Z.to_nat (arg_size args - strings_size args)) (strings_block args) l)).
  pose proof (strings_size_pos args). pose proof (strings_block_length args) as Hsl.
  assert (Hl1 : length l1 = length l).
  { unfold arg_size in *. unfold l1. rewrite !splice_length; rewrite ?splice_length, ?words_length, ?arg_ptrs_length; lia. }
  rewrite Nat2Z.id. wp_step. eapply wp_mono with (P := fun _ k' => k' = with_buf d l1 k).
  { pose proof (given_strings _ _ _ _ _ Hg) as Hs. unfold given in Hg. destruct (decide (argv = 0)) as [-> |Hnz].
    - destruct Hg as [-> ->]. apply wp_ret. unfold l1. by rewrite !splice_nil, with_buf_id.
    - unfold is_u32 in Hu. unfold l1. 
      replace (arg_ptrs PROCESS_STACK_BASE args) with (arg_ptrs (PROCESS_STACK_BASE - arg_size args + arg_size args) args) by (f_equal; lia).
      apply (copy_args_spec k c p argv d (arg_size args)) with (ptrs := ptrs); try done; try lia.
      + intros i a Hi. rewrite Z.add_0_l. apply Hg. by apply lookup_app_l_Some.
      + unfold arg_size. lia. }
  intros [] k' ->. wp_step. apply (store32_obj d 0%nat) with (l := l1); [apply lookup_insert_eq | lia |].
  rewrite with_buf_twice. wp_step. apply (store32_obj d 4%nat) with (l := splice 0 (le32 (Z.of_nat (length args))) l1);
    [apply lookup_insert_eq | rewrite splice_length; cbn [length le32]; lia |].
  rewrite with_buf_twice. rewrite u32_small by lia. unfold l1. fold (arg_base args). by rewrite arg_block_splices.
Qed.

(** ** What the program finds *)

(** A program started with the stack pointer [esp] has [args] as its
    arguments: their number and the array lie where [main] expects them. *)
Record received (k : kstate) (esp : Z) (args : list (list Z)) : Prop := {
  rc_argc : user_word k esp (Z.of_nat (length args));
  rc_argv : user_word k (esp + 4) (esp + 8);
  rc_args i s : args !! i = Some s -> exists a, user_word k (esp + 8 + 4 * Z.of_nat i) a /\ user_cstring k a s
}.

Lemma user_bytes_part k a l1 l2 l3 : user_bytes k a (l1 ++ l2 ++ l3) -> user_bytes k (a + Z.of_nat (length l1)) l2.
Proof.
  intros (H1 & H2 & H3). rewrite !length_app in H2. split; [lia|]. split; [lia|]. intros j x Hj.
  replace (a + Z.of_nat (length l1) + Z.of_nat j) with (a + Z.of_nat (length l1 + j)) by lia. apply H3.
  rewrite lookup_app_r by lia. replace (length l1 + j - length l1)%nat with j by lia. by apply lookup_app_l_Some.
Qed.
Lemma words_split (l : list Z) i a : l !! i = Some a -> exists l1 l2, l ≫= le32 = l1 ++ le32 a ++ l2 /\ length l1 = (4 * i)%nat.
Proof.
  intros H. exists (take i l ≫= le32), (drop (S i) l ≫= le32). split.
  - rewrite <- (take_drop_middle _ _ _ H) at 1. by rewrite bind_app.
  - rewrite words_length, length_take. apply lookup_lt_Some in H. lia.
Qed.
Lemma strings_split args top i s : args !! i = Some s -> exists a l1 l2, arg_ptrs top args !! i = Some a /\
  strings_block args = l1 ++ zstr s ++ l2 /\ a = top - strings_size args + Z.of_nat (length l1) /\ a < top.
Proof.
  revert top i. induction args as [|t args IH]; intros top i; [by rewrite lookup_nil|]. destruct i as [|i]; cbn [lookup list_lookup].
  - intros [= ->]. exists (top - Z.of_nat (length (zstr s))), (strings_block args), []. split; [done|].
    rewrite strings_block_cons, app_nil_r. split; [done|]. rewrite strings_block_length. unfold zstr. rewrite length_app.
    change (strings_size (s :: args)) with (Z.of_nat (length s) + 1 + strings_size args). cbn [length]. lia.
  - intros H. destruct (IH (top - Z.of_nat (length (zstr t))) i H) as (a & l1 & l2 & Ha & Hs & He & Hlt).
    exists a, l1, (l2 ++ zstr t). split; [done|]. rewrite strings_block_cons, Hs, <- !app_assoc. split; [done|].
    change (strings_size (t :: args)) with (Z.of_nat (length t) + 1 + strings_size args). unfold zstr in *. rewrite length_app in *.
    cbn [length] in *. lia.
Qed.
Lemma cstr_read k a s : Forall (fun x => x <> 0) s -> user_bytes k a (zstr s) -> user_cstring k a s.
Proof.
  intros Hnz (_ & _ & H). unfold zstr in H. split.
  - intros i x Hx. split; [by apply (Forall_lookup_1 _ _ _ _ Hnz Hx)|]. apply H. by apply lookup_app_l_Some.
  - apply H. by rewrite lookup_app_r, Nat.sub_diag by lia.
Qed.

Lemma block_received k args : Forall (Forall (fun x => x <> 0)) args -> arg_size args <= PROCESS_STACK_BASE ->
  user_bytes k (arg_base args) (arg_block args) -> received k (arg_base args) args.
Proof.
  intros Hnz Hfit Hb. pose proof (arg_size_pos args). assert (HB : PROCESS_STACK_BASE < 2 ^ 32 - 8) by done.
  pose proof (strings_size_pos args). unfold arg_block in Hb. unfold arg_size in *. split.
  - split; [unfold is_u32; lia|]. apply (user_bytes_part k _ [] _ _) in Hb. by rewrite Z.add_0_r in Hb.
  - split; [unfold is_u32, arg_base, arg_size; lia|]. by apply (user_bytes_part k _ (le32 _) _ _) in Hb.
  - intros i s Hi. destruct (strings_split args PROCESS_STACK_BASE i s Hi) as (a & l1 & l2 & Ha & Hs & He & Hlt). exists a. split.
    + split; [unfold is_u32; lia|]. destruct (words_split _ _ _ Ha) as (w1 & w2 & Hw & Hwl). rewrite Hw in Hb.
      rewrite (app_assoc (le32 _) (le32 _)) in Hb. rewrite <- !app_assoc in Hb. rewrite (app_assoc (le32 _) (le32 _)) in Hb.
      rewrite (app_assoc _ w1) in Hb. apply user_bytes_part in Hb. rewrite !length_app, Hwl in Hb.
      change (length (le32 (Z.of_nat (length args)))) with 4%nat in Hb. change (length (le32 (arg_base args + 8))) with 4%nat in Hb.
      by replace (arg_base args + 8 + 4 * Z.of_nat i) with (arg_base args + Z.of_nat (4 + 4 + 4 * i)) by lia.
    + apply cstr_read; [by apply (Forall_lookup_1 _ _ _ _ Hnz Hi)|]. rewrite Hs in Hb. rewrite !app_assoc in Hb. rewrite <- (app_assoc _ (zstr s)) in Hb.
      apply user_bytes_part in Hb. rewrite !length_app, words_length, arg_ptrs_length in Hb.
      change (length (le32 (Z.of_nat (length args)))) with 4%nat in Hb. change (length (le32 (arg_base args + 8))) with 4%nat in Hb.
      replace (arg_base args + _) with a in Hb; [done|]. unfold arg_base, arg_size. lia.
Qed.

(** ** Other states *)

(** A state with the same address space. *)
Lemma given_frame k k' p argv ptrs args : k_pages k' = k_pages k -> k_paging k' = k_paging k ->
  given k p argv ptrs args -> given k' p argv ptrs args.
Proof.
  intros E1 E2. assert (Hb : forall a, user_byte k' a = user_byte k a) by (intros; by apply user_byte_frame).
  unfold given. destruct (decide (argv = 0)); [done|]. intros [H1 H2 H3 H4]. split; [|done|done|].
  - intros i a Hi. destruct (H1 i a Hi) as (Hu & Ha & He & Hx). split; [done|]. split; [done|]. split; [done|].
    intros j x Hj. rewrite Hb. by apply Hx.
  - eapply list.Forall2_impl; [exact H4|]. intros a s [[Hs Hz] Hseg]. split; [|done]. split; [|by rewrite Hb].
    intros j x Hj. rewrite Hb. by apply Hs.
Qed.
Lemma caller_frame k k' c p : k_current k' = k_current k -> k_processes k' = k_processes k -> k_pages k' = k_pages k ->
  k_paging k' = k_paging k -> caller k c p -> caller k' c p.
Proof.
  intros E1 E2 E3 E4 [H1 H2 H3 H4 H5]. split; [by rewrite E1 | by rewrite E2 | done | done |].
  intros a Ha. destruct (H5 a Ha) as [v Hv]. exists v. by rewrite (user_byte_frame k k').
Qed.
Lemma given_nonzero k p argv ptrs args : given k p argv ptrs args -> Forall (Forall (fun x => x <> 0)) args.
Proof.
  intros Hg. apply given_strings in Hg. induction Hg as [|a s l l' [[Hs _] _] _ IH]; constructor; [|done].
  apply Forall_lookup_2. intros i x Hx. by apply (Hs i x).
Qed.
