(* ===== verification/LoadProofs.v ===== *)
(** * execve: the pages of a program (source/unixproc.c)

    The pages of the executable file are copied to new frames, which are mapped
    one after the other from the start of the text segment on; and an address
    space as the memory that the processor, and the kernel on behalf of a
    process, see through it. *)

From S2P Require Import Prelude Constants Libc Page PageInv PageSpec Buddy BuddyInv BuddyTheorems PageTheorems Filesystem FilesystemProofs Kernel Process ProcessInv ProcessTheorems UserMemory KernelMem Pipe Allocator PipeProofs PipeTheorems Filedesc Syscall Lifecycle LifecycleProofs ForkProofs LifecycleTheorems HandleProofs DescProofs KillProofs DescTheorems FileProofs FileTheorems WaitProofs ExecProofs.

(** ** The file *)

Lemma zero_page_byte m a i : frame a -> zero_at m a -> 0 <= i < PAGE_SIZE -> page_byte m (a + i) = 0.
Proof.
  intros Ha Hz Hi. unfold page_byte. destruct (frame_word_of a i Ha Hi) as (-> & H & _). rewrite Hz; [| done |].
  - unfold byte_of. by rewrite Z.shiftr_0_l.
  - pose proof (Z.div_mod i 4 ltac:(lia)). replace (i - i mod 4) with (i / 4 * 4) by lia. by apply Z.mod_mul.
Qed.

(** The frame [x] holds page [n] of [data], with zeros behind its end. *)
Definition page_of (data : list Z) (s n : Z) (m : gmap Z Z) (x : Z) : Prop :=
  forall i, 0 <= i < PAGE_SIZE -> page_byte m (x + i) = default 0 (zlookup data ((n - s) * PAGE_SIZE + i)).
Lemma page_of_frame data s n m m' x : frame x -> same_page m m' x -> page_of data s n m x -> page_of data s n m' x.
Proof. intros Hx Hs Hp i Hi. rewrite <- Hp by done. by apply same_page_byte. Qed.

Section load.
  Context (k : kstate) (c : Z) (p : process) (ps : list process) (A : gset Z) (T V : gmap Z Z) (s loc : Z) (data : list Z).
  Context (Hoff : k_paging k = None) (Hslot : slot_is k c p ps) (Hsp : space A (k_pages k) (p_pdir p) T V).
  Context (Hstart : p_text_start p = s * PAGE_SIZE) (Hs : 0 <= s) (Htop : s * PAGE_SIZE + Z.of_nat (length data) <= 2 ^ 32 - PAGE_SIZE).
  Context (Hdata : forall i x, data !! i = Some x -> fs_byte (e_filesystem (k_env k)) (loc + Z.of_nat i) = Some x)
    (Hbytes : Forall is_byte data).

Definition loaded : list Z -> gset Z -> pages -> gmap Z Z -> gmap Z Z -> Prop :=
  placed A (k_pages k) (p_pdir p) T V s (page_of data s).

(** The state while the file is loaded: the end of the segment moves. *)
Definition loading (te : Z) (pg : pages) : kstate :=
  k <| k_pages := pg |> <| k_processes := zinsert c (p <| p_text_end := te |>) ps |>.

(** The bytes of page [n]. *)
Definition page_data (n : Z) : list Z := take (Z.to_nat PAGE_SIZE) (drop (Z.to_nat (n * PAGE_SIZE)) data).
Lemma page_data_length n : 0 <= n -> n * PAGE_SIZE < Z.of_nat (length data) -> Z.of_nat (length (page_data n)) =
  if PAGE_SIZE <=? Z.of_nat (length data) - n * PAGE_SIZE then PAGE_SIZE else Z.of_nat (length data) - n * PAGE_SIZE.
Proof using.
  intros Hn Hlt. unfold page_data. rewrite length_take, length_drop. assert (0 < PAGE_SIZE) by done. destruct (Z.leb_spec PAGE_SIZE (Z.of_nat (length data) - n * PAGE_SIZE)); lia.
Qed.
Lemma page_data_lookup n i : 0 <= n -> 0 <= i < PAGE_SIZE -> zlookup (page_data n) i = zlookup data (n * PAGE_SIZE + i).
Proof using.
  intros Hn Hi. unfold zlookup, page_data. destruct (Z.ltb_spec i 0); [lia|]. destruct (Z.ltb_spec (n * PAGE_SIZE + i) 0); [unfold PAGE_SIZE in *; lia|].
  rewrite lookup_take_lt by lia. rewrite lookup_drop. f_equal. unfold PAGE_SIZE in *. lia.
Qed.

Lemma load_page_spec te L A' pg' T' V' : loaded L A' pg' T' V' -> Z.of_nat (length L) * PAGE_SIZE < Z.of_nat (length data) ->
  room A (2 * Z.of_nat (length L) + 2) ->
  wp (load_page c loc (Z.of_nat (length data)) (Z.of_nat (length L) * PAGE_SIZE)) (fun _ k' => exists te x A2 pg2 T2 V2,
    k' = loading te pg2 /\ loaded (L ++ [x]) A2 pg2 T2 V2) (loading te pg').
Proof using All.
  intros C Hlt Hr. set (n := Z.of_nat (length L)) in *. pose proof (pl_grows C) as Hg. pose proof (pl_size C) as Hsz.
  assert (Hn : 0 <= n) by lia. destruct Hslot as [Hps Hc]. unfold load_page.
  assert (Hsl : forall te pg, slot_is (loading te pg) c (p <| p_text_end := te |>) ps) by done.
  wp_step. eapply slot_upd; [apply Hsl|]. cbn [p_text_start set_field].
  match goal with |- wp _ _ ?K => assert (Hk : K = loading ((s + n) * PAGE_SIZE) pg') end.
  { unfold loading. rewrite Hstart, u32_small by (unfold PAGE_SIZE in *; lia). rewrite <- Z.mul_add_distr_r. done. }
  rewrite Hk. clear Hk. wp_step. apply wp_page_op; [done|].
  eapply wp_mono; [apply (alloc_page_wp A'); [apply (pl_space C) | unfold room in *; lia]|]. intros x pg1 Hfresh.
  destruct (space_alloc _ _ _ _ _ _ _ (pl_space C) Hfresh) as [Hsp1 Hg1]. destruct Hfresh as (Hx & HxA & Hz & _ & _).
  assert (Hsz1 : size ({[x]} ∪ A') = S (size A')) by (rewrite size_union, size_singleton by set_solver; done).
  wp_step. rewrite <- (page_data_length n) by done.
  eapply wp_mono; [apply (fill_frame_spec ({[x]} ∪ A') (loading ((s + n) * PAGE_SIZE) pg1) x (Image (loc + n * PAGE_SIZE)) (page_data n))|].
  { done. } { apply Hsp1. } { set_solver. } { unfold page_data. rewrite length_take. unfold PAGE_SIZE. lia. }
  { unfold page_data. by apply Forall_take, Forall_drop. }
  { intros j y pg Hj _. cbn [load padd]. wp_step. wp_step. eapply (wp_of_opt _ y); [|done].
    unfold page_data in Hj. apply lookup_take_Some in Hj as [Hj Hjl]. rewrite lookup_drop in Hj. apply Hdata in Hj. cbn.
    rewrite <- Hj. f_equal. unfold PAGE_SIZE in *. lia. }
  intros [] k' (pg2 & -> & Hp2 & Hb2 & Hs2). 
  match goal with |- wp _ _ ?K => assert (Hk : K = loading ((s + n) * PAGE_SIZE) pg2) by done end. rewrite Hk. clear Hk.
  assert (HxT : x ∉ foot (p_pdir p) T') by (intros Hin; apply HxA; by apply (sp_foot (pl_space C))).
  assert (Hsp2 : space ({[x]} ∪ A') pg2 (p_pdir p) T' V').
  { split; [done | | apply Hsp1]. eapply pagedir_frame; [apply Hsp1|]. intros y Hy. apply Hs2; [by apply (sp_foot Hsp1)|]. by intros ->. }
  wp_step. eapply wp_get_proc; [eapply slot_lookup, Hsl|]. cbn [p_pdir p_text_end set_field]. apply wp_page_op; [done|].
  eapply wp_mono; [apply (map_page_wp _ _ _ _ _ (s + n) x PAGE_USER PAGE_READ_WRITE Hsp2)|].
  { unfold pageno, PAGE_SIZE in *. lia. }
  { by apply frame_aligned. }
  { split; by left. }
  { unfold room in *. rewrite Hsz1. lia. }
  intros [] pg3 (A3 & T3 & Hsp3 & Hg3 & Hsz3 & Hall3). pose proof (gr_mono Hg3). pose proof (gr_new Hg3).
  assert (HxT3 : x ∉ foot (p_pdir p) T3) by set_solver.
  exists ((s + n) * PAGE_SIZE), x, A3, pg3, T3, (<[s + n := pte x PAGE_USER PAGE_READ_WRITE]> V'). split; [done|].
  apply (placed_snoc A (k_pages k) (p_pdir p) T V s (page_of data s) (page_of_frame data s) L A' pg' T' V' x A3 pg3 T3 C HxA);
    [set_solver | done | done | | lia | done |].
  - split; [set_solver | apply Hg3 | set_solver |]. intros b Hb HbT. assert (b <> x) by (by intros ->).
    eapply same_page_trans; [by apply (gr_frame Hg1)|]. eapply same_page_trans; [apply Hs2; [set_solver | done]|].
    apply (gr_frame Hg3); [set_solver | done].
  - eapply page_of_frame; [done | apply (gr_frame Hg3); [set_solver | done]|]. intros i Hi. rewrite Hb2 by done.
    fold n. replace (s + n - s) with n by lia. rewrite page_data_lookup by done. destruct (zlookup data _); [done|]. cbn.
    by apply zero_page_byte.
Qed.

(** The pages of the file. *)
Definition file_pages : Z := (Z.of_nat (length data) + PAGE_SIZE - 1) / PAGE_SIZE.
Lemma file_pages_bound : 0 <= file_pages /\ Z.of_nat (length data) <= file_pages * PAGE_SIZE < Z.of_nat (length data) + PAGE_SIZE.
Proof using.
  unfold file_pages. pose proof (Z.div_mod (Z.of_nat (length data) + PAGE_SIZE - 1) PAGE_SIZE ltac:(done)).
  pose proof (Z.mod_pos_bound (Z.of_nat (length data) + PAGE_SIZE - 1) PAGE_SIZE ltac:(done)). unfold PAGE_SIZE in *. lia.
Qed.

Lemma load_file_spec : room A (2 * file_pages) ->
  wp (for_pages 0 (Z.of_nat (length data)) (load_page c loc (Z.of_nat (length data)))) (fun _ k' => exists te L A' pg' T' V',
    k' = loading te pg' /\ Z.of_nat (length L) = file_pages /\ loaded L A' pg' T' V') k.
Proof using All.
  intros Hr. pose proof file_pages_bound as Hfp. change 0 with (0 * PAGE_SIZE).
  apply (wp_for_pages (fun n k' => n <= file_pages /\ exists te L A' pg' T' V', k' = loading te pg' /\ Z.of_nat (length L) = n /\ loaded L A' pg' T' V')).
  - done.
  - unfold PAGE_SIZE in *. lia.
  - split; [lia|]. exists (p_text_end p), [], A, (k_pages k), T, V. split; [|split; [done | by apply placed_nil]].
    unfold loading. replace (p <| p_text_end := p_text_end p |>) with p by (by destruct p). destruct Hslot as [<- _]. by destruct k.
  - intros n k' Hn Hlt (Hle & te & L & A' & pg' & T' & V' & -> & <- & C).
    assert (Hlt' : Z.of_nat (length L) < file_pages) by (unfold PAGE_SIZE in *; lia).
    eapply wp_mono; [apply (load_page_spec te L A' pg' T' V' C Hlt); unfold room in *; lia|].
    intros [] k' (te' & x & A2 & pg2 & T2 & V2 & -> & C2). split; [lia|]. exists te', (L ++ [x]), A2, pg2, T2, V2.
    split; [done|]. split; [|done]. rewrite length_app. cbn [length]. lia.
  - intros n k' Hn Hrange (Hle & te & L & A' & pg' & T' & V' & -> & <- & C). exists te, L, A', pg', T', V'. split; [done|]. split; [|done].
    destruct (decide (Z.of_nat (length L) = file_pages)) as [|Hne]; [done|]. exfalso. specialize (Hrange (Z.of_nat (length L))).
    unfold in_range in Hrange. destruct (Z.leb_spec 0 (Z.of_nat (length L))); [|lia].
    destruct (Z.ltb_spec (Z.of_nat (length L) * PAGE_SIZE) (Z.of_nat (length data))); cbn in Hrange; [lia|]. unfold PAGE_SIZE in *. lia.
Qed.
End load.

(** ** The memory behind an address space *)

Section view.
  Context (k : kstate) (A : gset Z) (d : Z) (T V : gmap Z Z) (Hon : k_paging k = Some d) (Hsp : space A (k_pages k) d T V).

Lemma space_pa n a i : pageno n -> V !! n = Some (pte a PAGE_USER PAGE_READ_WRITE) -> frame a -> 0 <= i < PAGE_SIZE ->
  user_pa k (n * PAGE_SIZE + i) = Some (a + i).
Proof using Hon Hsp.
  intros Hn HV Ha Hi. unfold user_pa, translate. rewrite Hon, (walk_spec A _ d T V n i Hsp Hn Hi), HV.
  destruct (pd_ent (sp_dir Hsp) HV) as (_ & t & -> & _). cbn.
  rewrite pte_phys by (try (by apply frame_aligned); split; by left). destruct (frame_word_of a i Ha Hi) as (-> & _ & ->). done.
Qed.
Lemma space_byte n a i : pageno n -> V !! n = Some (pte a PAGE_USER PAGE_READ_WRITE) -> frame a -> 0 <= i < PAGE_SIZE ->
  user_byte k (n * PAGE_SIZE + i) = Some (page_byte (pmem (k_pages k)) (a + i)).
Proof using Hon Hsp. intros Hn HV Ha Hi. unfold user_byte. by rewrite (space_pa n a i). Qed.

  Context (b : Z) (L : list Z) (Hb : 0 <= b) (Htop : (b + Z.of_nat (length L)) * PAGE_SIZE <= 2 ^ 32)
    (Hbk : PageTheorems.backed A d T V b L).

(** The frame behind an address of the segment. *)
Lemma backed_frame j : b * PAGE_SIZE <= j < (b + Z.of_nat (length L)) * PAGE_SIZE -> exists i x o,
  j = (b + Z.of_nat i) * PAGE_SIZE + o /\ 0 <= o < PAGE_SIZE /\ L !! i = Some x /\ frame x /\ (x ∉ foot d T) /\
  pageno (b + Z.of_nat i) /\ user_pa k j = Some (x + o).
Proof using All.
  intros Hj. set (q := j / PAGE_SIZE - b). pose proof (Z.div_mod j PAGE_SIZE ltac:(done)) as Hdm.
  pose proof (Z.mod_pos_bound j PAGE_SIZE ltac:(done)) as Hm. assert (Hq : 0 <= q < Z.of_nat (length L)) by (unfold q, PAGE_SIZE in *; lia).
  destruct (lookup_lt_is_Some_2 L (Z.to_nat q)) as [x Hx]; [lia|]. exists (Z.to_nat q), x, (j mod PAGE_SIZE).
  assert (Hj' : j = (b + Z.of_nat (Z.to_nat q)) * PAGE_SIZE + j mod PAGE_SIZE) by (unfold q, PAGE_SIZE in *; lia).
  destruct (bk_owned _ _ _ _ _ _ Hbk x) as [HxA HxT]; [by eapply list_elem_of_lookup_2|].
  assert (Hfx : frame x) by (by apply (pinv_frame _ _ _ (sp_inv Hsp))).
  assert (Hpn : pageno (b + Z.of_nat (Z.to_nat q))) by (unfold pageno, PAGE_SIZE in *; lia).
  repeat (split; [done|]). rewrite Hj' at 1. apply space_pa; [done | | done | done].
  apply (bk_entry _ _ _ _ _ _ Hbk). unfold zlookup. destruct (Z.ltb_spec (Z.of_nat (Z.to_nat q)) 0); [lia|]. by rewrite Nat2Z.id.
Qed.

(** The pages of a segment are memory the kernel can write to through the
    address space, and no part of the tables. *)
Lemma space_region a n : b * PAGE_SIZE <= a -> a + n <= (b + Z.of_nat (length L)) * PAGE_SIZE -> user_region k d a n.
Proof using All.
  intros Ha Hn. split; [done | unfold PAGE_SIZE in *; lia | | |].
  - intros i Hi. destruct (backed_frame i) as (? & x & o & _ & _ & _ & _ & _ & _ & Hpa); [lia|]. by exists (x + o).
  - intros i j pa Hi Hj. destruct (backed_frame i) as (n1 & x & o & -> & Ho & Hx & Fx & _ & _ & ->); [lia|].
    destruct (backed_frame j) as (n2 & y & o' & -> & Ho' & Hy & Fy & _ & _ & ->); [lia|]. intros [= <-] [= E].
    destruct (decide (x = y)) as [<- |Hxy]; [|by destruct (frame_distinct y x o' o)].
    pose proof (NoDup_lookup _ _ _ _ (bk_nodup _ _ _ _ _ _ Hbk) Hx Hy) as ->. lia.
  - intros i j pa Hi Hj. destruct (backed_frame i) as (n1 & x & o & _ & Ho & _ & Fx & HxT & _ & ->); [lia|]. intros [= <-]. cbv zeta.
    destruct (frame_word_of x o Fx Ho) as (-> & Hw & _).
    destruct (backed_frame j) as (n2 & y & o' & -> & Ho' & Hy & Fy & HyT & Hpn & _); [lia|]. rewrite dirindex_page, tblindex_page by done.
    destruct (pageno_index _ Hpn) as [Hd Ht].
    assert (HV : V !! (b + Z.of_nat n2) = Some (pte y PAGE_USER PAGE_READ_WRITE)).
    { apply (bk_entry _ _ _ _ _ _ Hbk). unfold zlookup. destruct (Z.ltb_spec (Z.of_nat n2) 0); [lia|]. by rewrite Nat2Z.id. }
    destruct (pd_ent (sp_dir Hsp) HV) as (_ & t & HT & _). destruct (pd_tbl (sp_dir Hsp) HT) as (_ & Ft & _ & ->).
    rewrite pte_phys by (try (by apply frame_aligned); split; by left). rewrite elem_of_foot in HxT. split.
    + apply frame_distinct; [done | apply (sp_dir Hsp) | intros ->; tauto | done | unfold PAGE_SIZE; lia].
    + apply frame_distinct; [done | done | | done | unfold PAGE_SIZE; lia]. intros ->. apply HxT. right. by eexists.
Qed.
End view.

(** ** replace_program *)

Definition TEXT_PAGE : Z := PROCESS_TEXT_BASE / PAGE_SIZE.
Lemma TEXT_PAGE_base : TEXT_PAGE * PAGE_SIZE = PROCESS_TEXT_BASE.
Proof. done. Qed.

(** The process once [n] pages of another program have been loaded. *)
Definition exec_process (n : Z) (p : process) : process :=
  p <| p_text_start := PROCESS_TEXT_BASE |> <| p_text_end := PROCESS_TEXT_BASE + n * PAGE_SIZE |>
    <| p_data_start := PROCESS_DATA_BASE |> <| p_data_end := PROCESS_DATA_BASE |>.

(** The memory of a process that has other frames [L] for its text than [L1]
    and none for its data, [L2]; of the frames of [A] that are left only those of
    the directory and of [W] may have changed. *)
Record replaced (A : gset Z) (pg : pages) (d : Z) (T : gmap Z Z) (L1 L2 W L : list Z) (data : list Z)
    (A' : gset Z) (pg' : pages) (T' V' : gmap Z Z) : Prop := {
  re_space : space A' pg' d T' V';
  re_all : A' = (A ∖ list_to_set (L1 ++ L2)) ∪ foot d T' ∪ list_to_set L;
  re_text : owned A' d T' V' PROCESS_TEXT_BASE (PROCESS_TEXT_BASE + file_pages data * PAGE_SIZE) TEXT_PAGE L;
  re_new x : x ∈ L -> (x ∉ A ∖ list_to_set (L1 ++ L2));
  re_data i x : L !! i = Some x -> page_of data TEXT_PAGE (TEXT_PAGE + Z.of_nat i) (pmem pg') x;
  re_frame x : x ∈ A -> (x ∉ foot d T) -> (x ∉ L1 ++ L2) -> (x ∉ W) -> same_page (pmem pg) (pmem pg') x
}.

Lemma placed_backed A pg d T V s P L A' pg' T' V' : placed A pg d T V s P L A' pg' T' V' -> PageTheorems.backed A' d T' V' s L.
Proof.
  intros C. split; [apply C| |].
  - intros i a Hi. rewrite (pl_backs C). by replace (s + i - s) with i by lia; rewrite Hi.
  - intros a Ha. apply list_elem_of_lookup in Ha as [i Hi]. by destruct (pl_new C i a Hi) as (_ & ? & ? & _).
Qed.
(** Pages behind the ones that have been placed stay. *)
Lemma placed_keeps A pg d T V s P L A' pg' T' V' b L' : placed A pg d T V s P L A' pg' T' V' -> PageTheorems.backed A d T V b L' ->
  s + Z.of_nat (length L) <= b -> PageTheorems.backed A' d T' V' b L'.
Proof.
  intros C [N E O] Hb. split; [done| |].
  - intros i a Hi. rewrite (pl_backs C). assert (0 <= i) by (unfold zlookup in Hi; destruct (Z.ltb_spec i 0); [done | lia]).
    replace (zlookup L (b + i - s)) with (@None Z); [by apply E|]. unfold zlookup. destruct (Z.ltb_spec (b + i - s) 0); [done|].
    symmetry. apply lookup_ge_None. lia.
  - intros a Ha. destruct (O a Ha) as [HA HT]. split; [by apply (gr_mono (pl_grows C))|].
    intros Hin. apply (gr_new (pl_grows C) a); [set_solver | done].
Qed.

Section replace.
  Context (k : kstate) (c : Z) (p : process) (A : gset Z) (T V : gmap Z Z) (b1 b2 b3 : Z) (L1 L2 L3 : list Z) (entry : Z) (data : list Z).
  Context (Hp : zlookup (k_processes k) c = Some p) (Hoff : k_paging k = None) (Hsp : space A (k_pages k) (p_pdir p) T V).
  Context (H1 : owned A (p_pdir p) T V (p_text_start p) (p_text_end p) b1 L1)
    (H2 : owned A (p_pdir p) T V (p_data_start p) (p_data_end p) b2 L2)
    (H3 : owned A (p_pdir p) T V (p_stack_start p) (p_stack_end p) b3 L3) (Hnd : NoDup (L1 ++ L2 ++ L3)).
  Context (Hfile : contents_of (e_filesystem (k_env k)) entry data) (Hbytes : Forall is_byte data)
    (Hfits : PROCESS_TEXT_BASE + Z.of_nat (length data) <= PROCESS_DATA_BASE) (Hstk : PROCESS_DATA_BASE <= p_stack_start p)
    (Hroom : room (A ∖ list_to_set (L1 ++ L2)) (2 * file_pages data)).

Lemma replace_program_spec : wp (replace_program c p entry) (fun _ k' => exists pg' A' T' V' L,
  k' = k <| k_pages := pg' |> <| k_processes := zinsert c (exec_process (file_pages data) p) (k_processes k) |> /\
  replaced A (k_pages k) (p_pdir p) T L1 L2 [] L data A' pg' T' V' /\
  owned A' (p_pdir p) T' V' (p_stack_start p) (p_stack_end p) b3 L3) k.
Proof using All.
  apply list.NoDup_app in Hnd as (N1 & D1 & Hnd'). apply list.NoDup_app in Hnd' as (N2 & D2 & N3).
  unfold replace_program. wp_step. eapply wp_mono; [by eapply unmap_segment_spec|]. intros [] k1 (pg1 & V1 & -> & Hsp1 & F1 & K1).
  assert (H2' := K1 _ _ _ _ H2 ltac:(set_solver)). assert (H3' := K1 _ _ _ _ H3 ltac:(set_solver)).
  wp_step. eapply wp_mono; [by eapply unmap_segment_spec|]. intros [] k2 (pg2 & V2 & -> & Hsp2 & F2 & K2).
  assert (H3'' := K2 _ _ _ _ H3' ltac:(set_solver)). cbn [k_pages set_field] in F2.
  replace (A ∖ list_to_set L1 ∖ list_to_set L2) with (A ∖ list_to_set (L1 ++ L2)) in * by (rewrite list_to_set_app_L; set_solver).
  set (A2 := A ∖ list_to_set (L1 ++ L2)) in *. clear K1 K2 H2' H3'.
  wp_step. eapply wp_upd_proc; [exact Hp|].
  match goal with |- wp _ _ ?K => set (k3 := K) end.
  destruct Hfile as (Esz & loc & Eloc & Hb).
  unfold entry_field, filesystem. wp_step. wp_step. wp_step. eapply wp_of_opt; [exact Eloc|].
  wp_step. wp_step. wp_step. eapply wp_of_opt; [exact Esz|].
  set (p3 := exec_process 0 p). assert (Hs3 : slot_is k3 c p3 (k_processes k)).
  { split; [done|]. by eapply zlookup_range. }
  wp_step. eapply wp_mono; [apply (load_file_spec k3 c p3 (k_processes k) A2 T V2 TEXT_PAGE loc data)|]; try done.
  { change (TEXT_PAGE * PAGE_SIZE) with 0x10000000. unfold PROCESS_TEXT_BASE, PROCESS_DATA_BASE in Hfits. unfold PAGE_SIZE. lia. }
  intros [] k4 (te & L & A' & pg' & T' & V' & -> & HL & C). pose proof (pl_grows C) as Hg. cbn [p_pdir set_field] in Hg.
  pose proof (file_pages_bound data) as Hfp.
  assert (Hlim : file_pages data <= 0x10000) by (unfold PROCESS_TEXT_BASE, PROCESS_DATA_BASE, PAGE_SIZE in *; lia).
  eapply slot_upd; [split; [reflexivity | apply Hs3]|]. change (p_text_start (p3 <| p_text_end := te |>)) with PROCESS_TEXT_BASE. fold (file_pages data).
  rewrite u32_small by (unfold PROCESS_TEXT_BASE, PAGE_SIZE in *; lia).
  exists pg', A', T', V', L. split; [by destruct p|]. clear Hs3. change (p_pdir p3) with (p_pdir p) in *.
  change (k_pages k3) with pg2 in C, Hg. split; [split|].
  - apply C.
  - apply C.
  - split; [done | by rewrite HL, Z.mul_add_distr_r, TEXT_PAGE_base | done
      | unfold PROCESS_TEXT_BASE, PAGE_SIZE; lia | by eapply placed_backed].
  - intros x Hx. apply list_elem_of_lookup in Hx as [i Hi]. by apply (pl_new C i x).
  - intros i x Hi. by apply (pl_new C i x).
  - intros x Hx HT HL12 _. assert (Hx2 : x ∈ A2) by set_solver.
    rewrite elem_of_app in HL12. eapply same_page_trans; [apply F1; tauto|]. eapply same_page_trans; [apply F2; set_solver|].
    by apply (gr_frame Hg).
  - destruct H3'' as [E1 E2 E3 E4 E5]. split; try done. eapply placed_keeps; [exact C | done |].
    rewrite HL. change TEXT_PAGE with 0x10000. rewrite E1 in Hstk. unfold PROCESS_DATA_BASE, PAGE_SIZE in Hstk. lia.
Qed.
End replace.

(** ** Writes through an address space *)

Lemma pinv_frames A p m : pinv A p -> (forall x, frame x -> x ∉ A -> same_page (pmem p) m x) -> pinv A (with_pmem (fun _ => m) p).
Proof.
  intros [He (F & Hc & Hnd & Hall & Hdis) Hn] Hs. split; cbn; try done. exists F. split; [|done].
  eapply free_chain_frame; [done|]. intros x Hx. destruct (proj2 (Hall x) (or_intror Hx)) as [Hf _].
  rewrite <- (Z.add_0_r x). apply Hs; [done | | done]. intros HA. by apply (Hdis x).
Qed.

Section written.
  Context (k k' : kstate) (A : gset Z) (d : Z) (T V : gmap Z Z) (b : Z) (L src : list Z) (a n : Z).
  Context (Hon : k_paging k = Some d) (Hsp : space A (k_pages k) d T V) (Hb : 0 <= b)
    (Htop : (b + Z.of_nat (length L)) * PAGE_SIZE <= 2 ^ 32) (Hbk : PageTheorems.backed A d T V b L).
  Context (Ha : b * PAGE_SIZE <= a) (Hn : a + Z.of_nat (length src) <= (b + Z.of_nat (length L)) * PAGE_SIZE)
    (W : user_written k d a n src k').

(** A write to a segment leaves every other frame alone. *)
Lemma written_same x : frame x -> x ∉ L -> same_page (pmem (k_pages k)) (pmem (k_pages k')) x.
Proof using All.
  intros Fx Hx i Hi. apply (uw_words W). intros j pa Hj Hpa.
  destruct (backed_frame k A d T V Hon Hsp b L Hb Htop Hbk j) as (q & y & o & _ & Ho & Hy & Fy & _ & _ & E); [lia|].
  assert (pa = y + o) as -> by congruence. destruct (frame_word_of y o Fy Ho) as (-> & Hw & _).
  apply frame_distinct; [done | done | | done | done]. intros ->. apply Hx. by eapply list_elem_of_lookup_2.
Qed.
Lemma written_space : space A (k_pages k') d T V.
Proof using All.
  split; [| | apply Hsp].
  - destruct (uw_frames W) as [m Hm]. rewrite Hm. apply pinv_frames; [apply Hsp|]. intros x Fx HxA.
    replace m with (pmem (k_pages k')) by (by rewrite Hm). apply written_same; [done|]. intros HxL. by apply HxA, (bk_owned _ _ _ _ _ _ Hbk).
  - eapply pagedir_frame; [apply Hsp|]. intros x Hx. apply written_same.
    + by apply (pinv_frame _ _ _ (sp_inv Hsp)), (sp_foot Hsp).
    + intros HxL. by destruct (bk_owned _ _ _ _ _ _ Hbk x HxL).
Qed.
End written.
