(* ===== verification/ExecTheorems.v ===== *)
(** * Theorems about execve *)

From S2P Require Import Prelude Constants Libc LibcProofs Page PageInv PageSpec Buddy BuddyInv BuddyTheorems PageTheorems Filesystem FilesystemProofs Kernel Process ProcessInv ProcessTheorems UserMemory KernelMem Pipe Allocator PipeProofs PipeTheorems Filedesc Syscall Lifecycle LifecycleProofs ForkProofs LifecycleTheorems HandleProofs DescProofs KillProofs DescTheorems FileProofs FileTheorems WaitProofs ExecProofs LoadProofs.

(** The invariant does not depend on how the heap holds the objects. *)
Lemma system_heap {Inv : gmap Z Z -> Buddy.memarea -> Prop} R S k k' : system (Inv := Inv) R S k -> k_objs k' = k_objs k ->
  k_processes k' = k_processes k -> k_ready k' = k_ready k -> k_suspended k' = k_suspended k -> heap_inv Inv k' -> system (Inv := Inv) R S k'.
Proof.
  intros H Eo Ep Er Es Hh. split; [by eapply sched_frame; [apply H|..] | done | | |].
  - rewrite Ep. eapply hinv_objs; [exact Eo | apply H].
  - intros a f. rewrite Eo, Ep. apply H.
  - intros x q. rewrite Ep. apply H.
Qed.

Section exec.
  Context {Inv : gmap Z Z -> Buddy.memarea -> Prop} `{!Allocator Buddy.kmalloc_ma Buddy.kfree_ma Inv}.
  Context (k : kstate) (R S : list Z) (c : Z) (p : process) (A : gset Z) (T V : gmap Z Z) (b1 b2 b3 : Z) (L1 L2 L3 : list Z).
  Context (Hsys : system (Inv := Inv) R S k) (Hca : caller k c p) (Hnull : null_unmapped p).
  Context (entry : Z) (data : list Z) (args : list (list Z)).

(** The program with the arguments [args] takes the place of the one that
    called. *)
Record executed (k' : kstate) : Prop := {
  ex_frame : exists h n pg, k' = k <| k_heap := h |> <| k_nallocs := n |> <| k_pages := pg |> <| k_paging := Some (p_pdir p) |>
    <| k_processes := zinsert c (exec_process (file_pages data) p) (k_processes k) |>;
  ex_system : system (Inv := Inv) R S k';
  ex_caller : caller k' c (exec_process (file_pages data) p);
  ex_memory : exists A' T' V' L, replaced A (k_pages k) (p_pdir p) T L1 L2 L3 L data A' (k_pages k') T' V' /\
    owned A' (p_pdir p) T' V' (p_stack_start p) (p_stack_end p) b3 L3;
  ex_text i : 0 <= i < file_pages data * PAGE_SIZE -> user_byte k' (PROCESS_TEXT_BASE + i) = Some (default 0 (zlookup data i));
  ex_args : received k' (arg_base args) args
}.

(** The memory of the caller: its segments are whole pages with frames of their
    own, the stack where every process has it. *)
Record exec_memory : Prop := {
  em_space : space A (k_pages k) (p_pdir p) T V;
  em_text : owned A (p_pdir p) T V (p_text_start p) (p_text_end p) b1 L1;
  em_data : owned A (p_pdir p) T V (p_data_start p) (p_data_end p) b2 L2;
  em_stack : owned A (p_pdir p) T V (p_stack_start p) (p_stack_end p) b3 L3;
  em_apart : NoDup (L1 ++ L2 ++ L3);
  em_base : p_stack_end p = PROCESS_STACK_BASE;
  em_low : PROCESS_DATA_BASE <= p_stack_start p
}.
(** The file and the arguments fit: in the text segment, on the stack, and in
    the frames that are left. *)
Record exec_fits : Prop := {
  ef_file : contents_of (e_filesystem (k_env k)) entry data;
  ef_bytes : Forall is_byte data;
  ef_text : PROCESS_TEXT_BASE + Z.of_nat (length data) <= PROCESS_DATA_BASE;
  ef_args : arg_size args <= p_stack_end p - p_stack_start p;
  ef_room : room (A ∖ list_to_set (L1 ++ L2)) (2 * file_pages data)
}.
  Context (HM : exec_memory) (HF : exec_fits).

Lemma segments_after : segments_ok (exec_process (file_pages data) p).
Proof using HM HF Hca.
  pose proof (ca_segments _ _ _ Hca) as Hok. intros s e. unfold segments. rewrite !elem_of_cons, elem_of_nil.
  pose proof (file_pages_bound data) as Hb. pose proof (ef_text HF) as Ht.
  intros [[= -> ->]|[[= -> ->]|[[= -> ->]|[]]]]; cbn.
  - apply Hok. unfold segments. rewrite !elem_of_cons. auto.
  - done.
  - unfold PROCESS_TEXT_BASE, PROCESS_DATA_BASE, PAGE_SIZE in *. lia.
Qed.

(** Writes to the stack keep the new text. *)
Lemma replaced_written pg' pg3 A' T' V' L : replaced A (k_pages k) (p_pdir p) T L1 L2 [] L data A' pg3 T' V' ->
  (forall x, frame x -> x ∉ L3 -> same_page (pmem pg3) (pmem pg') x) -> space A' pg' (p_pdir p) T' V' ->
  replaced A (k_pages k) (p_pdir p) T L1 L2 L3 L data A' pg' T' V'.
Proof using HM.
  intros [Q1 Q2 Q3 Q4 Q5 Q6] Hsame Hsp5. assert (Hfr : forall x, x ∈ A' -> frame x) by (intros x Hx; by apply (pinv_frame _ _ _ (sp_inv Q1))).
  pose proof (em_stack HM) as Hst0. pose proof (em_apart HM) as Hnd. apply list.NoDup_app in Hnd as (_ & D1 & Hnd).
  apply list.NoDup_app in Hnd as (_ & D2 & _).
  assert (HL : forall x, x ∈ L -> x ∉ L3).
  { intros x Hx Hx3. apply (Q4 x Hx). apply elem_of_difference. split; [by apply (bk_owned _ _ _ _ _ _ (ow_backed _ _ _ _ _ _ _ _ Hst0))|].
    rewrite elem_of_list_to_set, elem_of_app. intros [Hi|Hi]; [by apply (D1 x Hi), elem_of_app; right | by apply (D2 x Hi)]. }
  split; [done | done | done | done | |].
  - intros i x Hi. assert (HxL : x ∈ L) by (by eapply list_elem_of_lookup_2).
    assert (Hfx : frame x) by (apply Hfr; by apply (bk_owned _ _ _ _ _ _ (ow_backed _ _ _ _ _ _ _ _ Q3))).
    eapply page_of_frame; [done | apply Hsame; [done | by apply HL] | by apply Q5].
  - intros x Hx HxT H12 H3. eapply same_page_trans; [by apply Q6; [..|apply not_elem_of_nil]|]. apply Hsame; [|done].
    by apply (pinv_frame _ _ _ (sp_inv (em_space HM))).
Qed.

(** The end of the call: the block is copied to the stack and released. *)
Lemma exec_finish k3 d A' T' V' L : Forall (Forall (fun x => x <> 0)) args -> Forall is_byte (arg_block args) ->
  heap_inv Inv k3 -> k_objs k3 !! d = Some (OBytes (arg_block args)) -> k_current k3 = Some c ->
  zlookup (k_processes k3) c = Some (exec_process (file_pages data) p) ->
  replaced A (k_pages k) (p_pdir p) T L1 L2 [] L data A' (k_pages k3) T' V' ->
  owned A' (p_pdir p) T' V' (p_stack_start p) (p_stack_end p) b3 L3 ->
  wp (c <- cur; enable_paging (p_pdir c);;
      kmemmove (User (arg_base args)) (Obj d 0) (arg_size args);;
      kfree d;;
      c <- cur;
      ret (0, init_regs (arg_base args) (p_text_start c)))
    (fun r k' => r = (0, init_regs (arg_base args) PROCESS_TEXT_BASE) /\
       (exists h pg, k' = k3 <| k_paging := Some (p_pdir p) |> <| k_pages := pg |> <| k_heap := h |> <| k_objs ::= delete d |>) /\
       heap_inv Inv k' /\ replaced A (k_pages k) (p_pdir p) T L1 L2 L3 L data A' (k_pages k') T' V' /\
       received k' (arg_base args) args) k3.
Proof using All.
  intros Hnz Hblk Hheap Hd Hc Hp Hre Hst. set (p' := exec_process _ p) in *.
  wp_step. eapply wp_cur; [exact Hc | exact Hp|]. change (p_pdir p') with (p_pdir p). unfold enable_paging. wp_step. wp_step.
  assert (Hps : 0 < PAGE_SIZE) by done. set (k4 := k3 <| k_paging := Some (p_pdir p) |>). destruct Hst as [E1 E2 E3 E4 E5].
  pose proof (ef_args HF) as Hfit. pose proof (em_base HM) as Hbase. pose proof (arg_size_pos args).
  assert (Hrng : b3 * PAGE_SIZE <= arg_base args /\ arg_base args + arg_size args <= (b3 + Z.of_nat (length L3)) * PAGE_SIZE)
    by (unfold arg_base; lia).
  pose proof (space_region k4 A' (p_pdir p) T' V' eq_refl (re_space _ _ _ _ _ _ _ _ _ _ _ _ _ Hre) b3 L3 E3 ltac:(lia) E5
    (arg_base args) (arg_size args) ltac:(lia) ltac:(lia)) as Hreg.
  wp_step. rewrite <- (arg_block_length args).
  eapply wp_mono; [apply (kmemmove_user k4 (p_pdir p) (arg_base args) (arg_size args) (Obj d 0) (arg_block args) Hreg)|].
  { rewrite arg_block_length. lia. } { done. }
  { intros j x pg Hj. cbn [padd]. eapply (load_obj d _ x); [exact Hd | | done]. unfold zlookup.
    destruct (Z.ltb_spec (0 + Z.of_nat j) 0); [lia|]. rewrite <- Hj. f_equal. lia. }
  intros [] k5 W. destruct (uw_rest W) as [pg Hk5]. wp_step.
  eapply wp_mono; [apply (kfree_spec d (OBytes (arg_block args)) k5); [by rewrite Hk5 | by rewrite Hk5]|].
  intros [] k6 [[h ->] Hh6].
  assert (Hw := arg_block_length args).
  pose proof (written_same k4 k5 A' (p_pdir p) T' V' b3 L3 (arg_block args) (arg_base args) (arg_size args) eq_refl
    (re_space _ _ _ _ _ _ _ _ _ _ _ _ _ Hre) E3 ltac:(lia) E5 ltac:(lia) ltac:(lia) W) as Hsame.
  pose proof (written_space k4 k5 A' (p_pdir p) T' V' b3 L3 (arg_block args) (arg_base args) (arg_size args) eq_refl
    (re_space _ _ _ _ _ _ _ _ _ _ _ _ _ Hre) E3 ltac:(lia) E5 ltac:(lia) ltac:(lia) W) as Hsp5.
  wp_step. eapply wp_cur; [rewrite Hk5; exact Hc | rewrite Hk5; exact Hp|]. apply wp_ret. split; [done|].
  split; [exists h, pg; by rewrite Hk5|]. split; [done|]. cbn [k_pages set_field]. split.
  - by apply (replaced_written _ (k_pages k3)).
  - apply block_received; [done | unfold PROCESS_DATA_BASE in *; lia |]. split; [unfold arg_base; lia|].
    split; [rewrite Hw; unfold arg_base; lia|]. intros j x Hj. pose proof (lookup_lt_Some _ _ _ Hj) as Hjl.
    change (user_byte k5 (arg_base args + Z.of_nat j) = Some x). rewrite (uw_bytes W) by lia. rewrite decide_True by lia.
    rewrite <- Hj. f_equal. lia.
Qed.

(** What the processor reads from the text segment. *)
Lemma replaced_text k' W A' T' V' L i : k_paging k' = Some (p_pdir p) -> replaced A (k_pages k) (p_pdir p) T L1 L2 W L data A' (k_pages k') T' V' ->
  0 <= i < file_pages data * PAGE_SIZE -> user_byte k' (PROCESS_TEXT_BASE + i) = Some (default 0 (zlookup data i)).
Proof using.
  intros Hon [Q1 Q2 [E1 E2 E3 E4 E5] Q4 Q5 Q6] Hi. assert (Hps : 0 < PAGE_SIZE) by done.
  destruct (backed_frame k' A' (p_pdir p) T' V' Hon Q1 TEXT_PAGE L E3 ltac:(lia) E5 (PROCESS_TEXT_BASE + i)) as (q & x & o & Ej & Ho & Hx & Fx & _ & _ & Hpa); [lia|].
  unfold user_byte. rewrite Hpa. cbn [mbind option_bind]. f_equal. fold (page_byte (pmem (k_pages k')) (x + o)).
  rewrite (Q5 q x Hx o Ho). f_equal. f_equal. rewrite Z.mul_add_distr_r in Ej. rewrite TEXT_PAGE_base in Ej. lia.
Qed.
Lemma replaced_caller k' W A' T' V' L : k_paging k' = Some (p_pdir p) -> replaced A (k_pages k) (p_pdir p) T L1 L2 W L data A' (k_pages k') T' V' ->
  owned A' (p_pdir p) T' V' (p_stack_start p) (p_stack_end p) b3 L3 ->
  segments_mapped k' (exec_process (file_pages data) p).
Proof using.
  intros Hon [Q1 Q2 Q3 Q4 Q5 Q6] Q7 a Ha. assert (Hps : 0 < PAGE_SIZE) by done. apply in_segment_cases in Ha. cbn in Ha.
  assert (Hby : forall s e b L', owned A' (p_pdir p) T' V' s e b L' -> s <= a < e -> exists v, user_byte k' a = Some v).
  { intros s e b L' [-> -> E3 E4 E5] Hr.
    destruct (backed_frame k' A' (p_pdir p) T' V' Hon Q1 b L' E3 ltac:(lia) E5 a Hr) as (q & x & o & _ & _ & _ & _ & _ & _ & Hpa).
    unfold user_byte. rewrite Hpa. by eexists. }
  destruct Ha as [Ha|[Ha|Ha]]; [by eapply Hby; [exact Q7|]; lia | lia | by eapply Hby; [exact Q3|]; lia].
Qed.

(** The rest of the call, once the program has been replaced. *)
Lemma exec_complete d h1 pg3 A' T' V' L k3 : k_objs k !! d = None -> Forall (Forall (fun x => x <> 0)) args -> Forall is_byte (arg_block args) ->
  k3 = k <| k_heap := h1 |> <| k_objs := <[d := OBytes (arg_block args)]> (k_objs k) |> <| k_nallocs := 1 + k_nallocs k |>
    <| k_paging := None |> <| k_pages := pg3 |> <| k_processes := zinsert c (exec_process (file_pages data) p) (k_processes k) |> ->
  heap_inv Inv k3 -> replaced A (k_pages k) (p_pdir p) T L1 L2 [] L data A' (k_pages k3) T' V' ->
  owned A' (p_pdir p) T' V' (p_stack_start p) (p_stack_end p) b3 L3 ->
  wp (c <- cur; enable_paging (p_pdir c);;
      kmemmove (User (arg_base args)) (Obj d 0) (arg_size args);;
      kfree d;;
      c <- cur;
      ret (0, init_regs (arg_base args) (p_text_start c)))
    (fun r k' => r = (0, init_regs (arg_base args) PROCESS_TEXT_BASE) /\ executed k') k3.
Proof using All.
  intros Hnew Hnz Hbl F3 Hi3 Hre Hst.
  eapply wp_mono; [eapply (exec_finish k3 d A' T' V' L); try done|].
  - rewrite F3. apply lookup_insert_eq.
  - rewrite F3. apply Hca.
  - rewrite F3. cbn. apply zlookup_zinsert_eq. eapply zlookup_range, Hca.
  - intros ? k' (-> & (h & pg & Hk') & Hh & Hre' & Hrc). split; [done|].
    assert (Hob : k_objs k' = k_objs k).
    { rewrite Hk', F3. cbn. rewrite delete_insert_eq. by apply delete_id. }
    assert (Hon : k_paging k' = Some (p_pdir p)) by (by rewrite Hk').
    assert (E : k' = k <| k_heap := h |> <| k_nallocs := 1 + k_nallocs k |> <| k_pages := pg |> <| k_paging := Some (p_pdir p) |>
      <| k_processes := zinsert c (exec_process (file_pages data) p) (k_processes k) |>).
    { transitivity (k' <| k_objs := k_objs k |>); [rewrite <- Hob; by destruct k'|]. rewrite Hk', F3. by destruct k. }
    split.
    + by eexists _, _, _.
    + apply (system_heap R S (k <| k_processes := zinsert c (exec_process (file_pages data) p) (k_processes k) |>)); try done; try (by rewrite E).
      apply (system_proc R S k c p); [done | apply Hca | | done | done]. eapply sched_upd; [apply (sy_sched _ _ _ Hsys) | apply Hca | done].
    + split.
      * rewrite E. apply Hca.
      * rewrite E. apply zlookup_zinsert_eq. eapply zlookup_range, Hca.
      * apply Hca.
      * apply segments_after.
      * by eapply replaced_caller.
    + by exists A', T', V', L.
    + intros i Hi. by eapply replaced_text.
    + done.
Qed.

(** From the entry of the file on. *)
Lemma execve_entry_spec argv ptrs r ty : is_u32 argv -> given k p argv ptrs args ->
  de_type (e_filesystem (k_env k)) entry = Some ty -> ty <> TYPE_DIR ->
  wpx (execve_entry c entry argv r)
    (fun res k' => res = (0, init_regs (arg_base args) PROCESS_TEXT_BASE) /\ executed k') k.
Proof using All.
  intros Hu Hg Hty Hnd. unfold execve_entry. pose proof (arg_size_pos args) as Hpos. pose proof (strings_size_pos args) as Hss.
  assert (Hfit : arg_size args <= PROCESS_STACK_BASE).
  { pose proof (ef_args HF) as G1. pose proof (em_base HM) as G2. pose proof (em_low HM) as G3. unfold PROCESS_DATA_BASE in G3. lia. }
  assert (HB : PROCESS_STACK_BASE < 2 ^ 31) by done.
  assert (Hsz : u32 (strings_size args + Z.of_nat (length args) * 4 + 8) = arg_size args) by (apply u32_small; unfold arg_size in *; lia).
  apply wpx_wp_bind. unfold entry_field, filesystem. wp_step. wp_step. eapply wp_of_opt; [exact Hty|].
  destruct (Z.eqb_spec ty TYPE_DIR); [done|]. apply wpx_wp_bind. eapply wp_get_proc; [apply Hca|].
  apply wpx_wp_bind. eapply wp_mono; [apply (count_args_spec k c p Hca argv ptrs args); [done | done | unfold arg_size in *; lia]|].
  intros ? k' [-> ->]. cbv zeta. rewrite Hsz.
  assert (Hbase : u32 (PROCESS_STACK_BASE - arg_size args) = arg_base args) by (unfold arg_base; apply u32_small; lia). rewrite Hbase.
  apply wpx_bind. eapply wpx_mono; [apply (kmalloc_bytes_spec (Inv := Inv)); [apply (sy_heap _ _ _ Hsys) | lia]|].
  intros d k1 (Hnew & _ & _ & [h1 Hk1] & Hi1). apply wpx_wp.
  assert (Hlen := stale_bytes_length k (arg_size args) ltac:(lia)). set (l0 := stale_bytes k (arg_size args)) in *.
  assert (Hd1 : k_objs k1 !! d = Some (OBytes l0)) by (rewrite Hk1; apply lookup_insert_eq).
  eapply (gather_args_spec k1 c p argv ptrs args d l0); [by apply (caller_frame k); [rewrite Hk1..|] | done
    | by apply (given_frame k); [rewrite Hk1..|] | done | done | done |].
  set (k2 := with_buf d (arg_block args) k1).
  assert (Hi2 : heap_inv Inv k2).
  { apply (heap_inv_insert k1 d (OBytes l0)); [done | done |]. cbn [obj_size]. by rewrite arg_block_length. }
  unfold disable_paging. wp_step. wp_step. wp_step. set (k2' := k2 <| k_paging := None |>).
  assert (F : k2' = k <| k_heap := h1 |> <| k_objs := <[d := OBytes (arg_block args)]> (k_objs k) |> <| k_nallocs := 1 + k_nallocs k |>
    <| k_paging := None |>).
  { unfold k2', k2, with_buf. rewrite Hk1. destruct k. unfold set_field. cbn. by rewrite insert_insert_eq. }
  assert (Hi2' : heap_inv Inv k2') by done. clearbody k2'. clear Hk1 Hd1 k2 Hi2 Hi1.
  eapply wp_mono; [eapply (replace_program_spec k2' c p A T V b1 b2 b3 L1 L2 L3 entry data); rewrite ?F; first
    [exact (ca_lookup _ _ _ Hca) | reflexivity | apply HM | apply HF]|].
  intros [] k3 (pg3 & A' & T' & V' & L & Hk3 & Hre & Hst).
  assert (F3 : k3 = k <| k_heap := h1 |> <| k_objs := <[d := OBytes (arg_block args)]> (k_objs k) |> <| k_nallocs := 1 + k_nallocs k |>
    <| k_paging := None |> <| k_pages := pg3 |> <| k_processes := zinsert c (exec_process (file_pages data) p) (k_processes k) |>).
  { by rewrite Hk3, F. }
  assert (Hi3 : heap_inv Inv k3) by (rewrite Hk3; exact Hi2'). rewrite F in Hre. cbn [k_pages set_field] in Hre.
  assert (Hnz := given_nonzero _ _ _ _ _ Hg). assert (Hbl := arg_block_bytes _ _ _ _ (given_strings _ _ _ _ _ Hg)).
  eapply exec_complete; [exact Hnew | exact Hnz | exact Hbl | exact F3 | exact Hi3 | | exact Hst]. rewrite F3. exact Hre.
Qed.
End exec.

(** ** The call *)

(** The entry at the end of a path, from the root of the filesystem. *)
Definition exec_lookup (fs : list Z) (path : list Z) : option (Z + Z) := d ← de_location fs 0; resolve fs d 0 (parts [] path).

Lemma path_entry_spec k path v (Q : Z + Z -> kstate -> Prop) : Forall is_byte (e_filesystem (k_env k)) -> no_nul path ->
  Forall is_byte path -> exec_lookup (e_filesystem (k_env k)) path = Some v -> Q v k -> wp (path_entry (path ++ [0])) Q k.
Proof.
  intros Hfs Hn Hb Hv HQ. unfold exec_lookup in Hv. apply bind_Some in Hv as (d & Hd & Hv).
  unfold path_entry, filesystem. wp_step. wp_step. apply (wp_of_opt _ v); [|done]. by eapply get_directory_entry_correct.
Qed.

Lemma bind_run {S A B} (m : M S A) (f : A -> M S B) s a s' : m s = Ok a s' -> bind m f s = f a s'.
Proof. unfold bind. by intros ->. Qed.

(** Up to the point where the file has been found, nothing changes. *)
Lemma execve_found k c p filename argv r s ptrs args v : caller k c p -> null_unmapped p -> is_u32 filename -> is_u32 argv ->
  Forall is_byte (e_filesystem (k_env k)) -> path_at k p filename s -> given k p argv ptrs args ->
  exec_lookup (e_filesystem (k_env k)) s = Some v ->
  syscall_execve filename argv r k = (match v with inl e => ret (e, r) | inr entry => execve_entry c entry argv r end) k.
Proof.
  intros Hca Hnull Hf Ha Hfs Hs Hg Hv. pose proof Hca as [Hc Hp _ Hok Hm]. destruct (cstring_text _ _ _ (proj1 Hs)) as [Hn Hb].
  unfold syscall_execve. erewrite bind_run; [|apply wp_exact; by eapply wp_current].
  erewrite bind_run; [|apply (wp_exact _ _ true), (wp_mono _ _ _ _ (valid_string_spec k c p filename Hc Hp Hok Hm Hf));
    intros b k' [-> Eb]; split; [apply Eb; by exists s | done]].
  cbn [negb]. erewrite bind_run; [|apply (wp_exact _ _ true), (wp_mono _ _ _ _ (valid_argv_spec k c p Hca Hnull argv Ha));
    intros b k' [-> Eb]; split; [apply Eb; by exists ptrs, args | done]].
  cbn [negb]. erewrite bind_run; [|eapply wp_exact, wp_mono; [by eapply string_arg|]; intros s' k' [-> ->]; done].
  erewrite bind_run; [reflexivity|]. apply wp_exact. eapply path_entry_spec; [done | done | done | exact Hv | done].
Qed.

(** C15. execve: a file name or an argument vector that does not lie in the
    caller's segments gives -EFAULT, a path that leads nowhere the error of the
    search, a directory -EISDIR, and in these cases nothing changes.  Otherwise
    (unless the kernel heap is exhausted) the call succeeds: the frames of the old
    text and data are given back, the file's pages are the text segment, zeros
    behind its end, in frames of their own; the program starts at the beginning of
    the text with a stack on which it finds the number of its arguments, the array
    and the strings; descriptors, queues and every other object, process and frame
    are as before. *)
Theorem execve_correct k R S c p filename argv r :
  system (Inv := buddy_holds) R S k -> caller k c p -> null_unmapped p -> is_u32 filename -> is_u32 argv ->
  Forall is_byte (e_filesystem (k_env k)) ->
  (~ (exists s, path_at k p filename s) \/ ~ (exists ptrs args, given k p argv ptrs args) ->
     syscall_execve filename argv r k = Ok (- EFAULT, r) k) /\
  (forall s ptrs args v, path_at k p filename s -> given k p argv ptrs args ->
     exec_lookup (e_filesystem (k_env k)) s = Some v ->
     (forall e, v = inl e -> syscall_execve filename argv r k = Ok (e, r) k) /\
     (forall entry ty, v = inr entry -> de_type (e_filesystem (k_env k)) entry = Some ty ->
        if ty =? TYPE_DIR then syscall_execve filename argv r k = Ok (- EISDIR, r) k
        else forall A T V b1 b2 b3 L1 L2 L3 data, exec_memory k p A T V b1 b2 b3 L1 L2 L3 ->
          exec_fits k p A L1 L2 entry data args ->
          wpx (syscall_execve filename argv r) (fun res k' => res = (0, init_regs (arg_base args) PROCESS_TEXT_BASE) /\
            executed (Inv := buddy_holds) k R S c p A T b3 L1 L2 L3 data args k') k)).
Proof.
  intros Hsys Hca Hnull Hf Ha Hfs. pose proof Hca as [Hc Hp _ Hok Hm].
  assert (Hvs := valid_string_spec k c p filename Hc Hp Hok Hm Hf). assert (Hva := valid_argv_spec k c p Hca Hnull argv Ha). split.
  - intros Hno. apply wp_exact. unfold syscall_execve. wp_step. eapply wp_current; [exact Hc|]. wp_step.
    eapply wp_mono; [exact Hvs|]. intros b k' [-> Hb]. destruct b; cbn [negb]; [|by apply wp_ret].
    wp_step. eapply wp_mono; [exact Hva|]. intros b' k' [-> Hb']. destruct b'; cbn [negb]; [|by apply wp_ret].
    exfalso. destruct Hno as [[]|[]]; [by apply Hb | by apply Hb'].
  - intros s ptrs args v Hs Hg Hv. destruct (cstring_text _ _ _ (proj1 Hs)) as [Hn Hb].
    assert (Hrun := execve_found k c p filename argv r s ptrs args v Hca Hnull Hf Ha Hfs Hs Hg Hv). split.
    + by intros e ->.
    + intros entry ty -> Hty. destruct (Z.eqb_spec ty TYPE_DIR) as [-> |Hnd].
      * rewrite Hrun. unfold execve_entry, entry_field, filesystem. apply wp_exact. wp_step. wp_step. wp_step.
        eapply wp_of_opt; [exact Hty|]. by apply wp_ret.
      * intros A T V b1 b2 b3 L1 L2 L3 data HM HF. unfold wpx. rewrite Hrun. by eapply execve_entry_spec.
Qed.

(** ** A process that runs the file "/sh" *)

Definition EXEC_STACK : Z := 0x3ffff.
Definition exec_space : M pages Z := d <- alloc_page; map_new_pages d (EXEC_STACK * PAGE_SIZE) 1;; ret d.
Definition exec_demo_pages : pages := final exec_space (initial_pages ∅).
Definition exec_demo_process : process :=
  (demo_process 1 1) <| p_pdir := PAGE_START |>
    <| p_stack_start := 0x3ffff000 |> <| p_stack_end := PROCESS_STACK_BASE |>
    <| p_data_start := PROCESS_DATA_BASE |> <| p_data_end := PROCESS_DATA_BASE |>
    <| p_text_start := PROCESS_TEXT_BASE |> <| p_text_end := PROCESS_TEXT_BASE |>.
(** The array of arguments and the one string it refers to, at the top of the
    stack. *)
Definition EXEC_ARGV : Z := 0x3ffffff0.
Definition exec_block : list Z := le32 (EXEC_ARGV + 8) ++ le32 0 ++ zstr (bytes "/sh") ++ [0; 0; 0; 0].
Definition exec_demo0 : kstate :=
  start_demo <| k_processes := zinsert 1 exec_demo_process (k_processes (demo 1)) |>
    <| k_pages := exec_demo_pages |> <| k_paging := Some PAGE_START |>
    <| k_env := mkEnv small_image 0x100000 0x110000 0x100100 0x112000 0x100200 (fun _ _ => 0) |>.
Definition exec_setup : K unit := kmemmove (User EXEC_ARGV) (Const exec_block) (Z.of_nat (length exec_block)).
Definition exec_demo : kstate := final exec_setup exec_demo0.

Lemma exec_demo_pages_eq : exec_space (initial_pages ∅) = Ok PAGE_START exec_demo_pages.
Proof.
  assert (H : result exec_space (initial_pages ∅) = Some PAGE_START) by (vm_compute; reflexivity).
  exact (run_eq exec_space (initial_pages ∅) PAGE_START H).
Qed.
Lemma exec_demo_eq : exec_setup exec_demo0 = Ok tt exec_demo.
Proof.
  assert (H : result exec_setup exec_demo0 = Some tt) by (vm_compute; reflexivity).
  exact (run_eq exec_setup exec_demo0 tt H).
Qed.
#[local] Opaque exec_demo_pages exec_demo start_demo small_image.

Lemma exec_demo_frames : exists A T V L, space A exec_demo_pages PAGE_START T V /\ Z.of_nat (size A) <= 3 /\
  length L = 1%nat /\ PageTheorems.backed A PAGE_START T V EXEC_STACK L.
Proof.
  assert (H : wp exec_space (fun d pg => exists A T V L, space A pg d T V /\ Z.of_nat (size A) <= 3 /\
    length L = 1%nat /\ PageTheorems.backed A d T V EXEC_STACK L) (initial_pages ∅)).
  { unfold exec_space. wp_step. eapply wp_mono; [apply (alloc_page_wp ∅); [apply initial_pinv | done]|]. intros d pg Hf.
    pose proof (new_dir _ _ _ _ (initial_pinv ∅) Hf) as Hsp. wp_step.
    eapply wp_mono; [apply (map_new_pages_wp _ _ _ _ _ _ 1 Hsp); [done | done | done |]|].
    { unfold room. rewrite union_empty_r_L, size_singleton, MAX_FRAMES_eq. lia. }
    intros [] pg' (A' & T' & V' & L & Hsp' & _ & HL & Hb & [Hnd Hnew] & Hsz & _). apply wp_ret. exists A', T', V', L.
    split; [done|]. split; [rewrite union_empty_r_L, size_singleton in Hsz; lia|]. split; [lia|]. split.
    - done.
    - intros i a Hi. rewrite Hb. replace (EXEC_STACK + i - EXEC_STACK) with i by lia. by rewrite Hi.
    - intros a Ha. by destruct (Hnew a Ha) as (_ & ? & ? & _). }
  exact (wp_result _ _ _ _ _ H exec_demo_pages_eq).
Qed.

(** The frames of the process, and its arguments. *)
Lemma exec_demo_memory : exists A T V L, space A (k_pages exec_demo) PAGE_START T V /\ Z.of_nat (size A) <= 3 /\ length L = 1%nat /\
  PageTheorems.backed A PAGE_START T V EXEC_STACK L /\ user_bytes exec_demo EXEC_ARGV exec_block /\
  exists pg, exec_demo = exec_demo0 <| k_pages := pg |>.
Proof.
  destruct exec_demo_frames as (A & T & V & L & Hsp & Hsz & HL & Hb). exists A, T, V, L.
  assert (Htop : (EXEC_STACK + Z.of_nat (length L)) * PAGE_SIZE <= 2 ^ 32) by (rewrite HL; vm_compute; discriminate).
  assert (Hlo : EXEC_STACK * PAGE_SIZE <= EXEC_ARGV) by (vm_compute; discriminate).
  assert (Hhi : EXEC_ARGV + 16 <= (EXEC_STACK + Z.of_nat (length L)) * PAGE_SIZE) by (rewrite HL; vm_compute; discriminate).
  assert (Hreg : user_region exec_demo0 PAGE_START EXEC_ARGV 16).
  { exact (space_region exec_demo0 A PAGE_START T V eq_refl Hsp EXEC_STACK L ltac:(done) Htop Hb EXEC_ARGV 16 Hlo Hhi). }
  assert (W : user_written exec_demo0 PAGE_START EXEC_ARGV 16 exec_block exec_demo).
  { assert (Hw : wp exec_setup (fun _ k' => user_written exec_demo0 PAGE_START EXEC_ARGV 16 exec_block k') exec_demo0).
    { apply (kmemmove_user exec_demo0 PAGE_START EXEC_ARGV 16 (Const exec_block) exec_block Hreg); [done | by repeat constructor |].
      intros j x pg Hj. cbn [load padd]. rewrite Nat2Z.id. apply (wp_of_opt _ x); [|by split].
      unfold zlookup. rewrite <- Hj. cbn. by rewrite lookup_drop, Nat.add_0_r. }
    exact (wp_result _ _ _ _ _ Hw exec_demo_eq). }
  split; [exact (written_space exec_demo0 exec_demo A PAGE_START T V EXEC_STACK L exec_block EXEC_ARGV 16 eq_refl Hsp ltac:(done) Htop Hb Hlo Hhi W)|].
  split; [exact Hsz|]. split; [exact HL|]. split; [exact Hb|]. split; [|exact (uw_rest W)].
  split; [done|]. split; [vm_compute; discriminate|]. intros j x Hj. pose proof (lookup_lt_Some _ _ _ Hj) as Hjl.
  change (length exec_block) with 16%nat in Hjl. rewrite (uw_bytes W) by lia. change (length exec_block) with 16%nat.
  rewrite decide_True by lia. rewrite <- Hj. f_equal. lia.
Qed.

Lemma exec_demo_segment a b : 0x3ffff000 <= a -> b <= PROCESS_STACK_BASE -> in_segment exec_demo_process a b.
Proof. intros H1 H2. apply in_segment_cases. left. by split. Qed.
Lemma exec_demo_segments s e : (s, e) ∈ segments exec_demo_process -> 0x10000000 <= s /\ e <= 0x40000000.
Proof.
  unfold segments. rewrite !elem_of_cons, elem_of_nil.
  intros [Hin|[Hin|[Hin|[]]]]; vm_compute in Hin; injection Hin as -> ->; lia.
Qed.
Lemma exec_demo_lookup : zlookup (k_processes exec_demo0) 1 = Some exec_demo_process.
Proof. apply zlookup_zinsert_eq. by vm_compute. Qed.
Lemma exec_demo_caller : caller exec_demo 1 exec_demo_process.
Proof.
  destruct exec_demo_memory as (A & T & V & L & Hsp & _ & HL & Hb & _ & pg & E).
  split; [rewrite E; reflexivity | rewrite E; exact exec_demo_lookup | reflexivity | intros s e Hse; apply exec_demo_segments in Hse; lia |].
  intros a Ha. apply in_segment_cases in Ha. vm_compute p_stack_start in Ha. vm_compute p_stack_end in Ha.
  vm_compute p_data_start in Ha. vm_compute p_data_end in Ha. vm_compute p_text_start in Ha. vm_compute p_text_end in Ha.
  assert (Hon : k_paging exec_demo = Some PAGE_START) by (rewrite E; reflexivity).
  destruct (backed_frame exec_demo A PAGE_START T V Hon Hsp EXEC_STACK L ltac:(done)) with (j := a) as (i & x & o & _ & _ & _ & _ & _ & _ & Hpa).
  - rewrite HL. vm_compute. discriminate.
  - exact Hb.
  - rewrite HL. change (EXEC_STACK * PAGE_SIZE) with 0x3ffff000. change ((EXEC_STACK + Z.of_nat 1) * PAGE_SIZE) with 0x40000000. lia.
  - unfold user_byte. rewrite Hpa. by eexists.
Qed.
Lemma exec_demo_file : path_at exec_demo exec_demo_process (EXEC_ARGV + 8) (bytes "/sh").
Proof.
  destruct exec_demo_memory as (_ & _ & _ & _ & _ & _ & _ & _ & Hu & _). split; [|apply exec_demo_segment; vm_compute; discriminate].
  apply cstr_read; [by repeat constructor|]. unfold exec_block in Hu. rewrite app_assoc in Hu. apply user_bytes_part in Hu. exact Hu.
Qed.
Lemma exec_demo_args : given exec_demo exec_demo_process EXEC_ARGV [EXEC_ARGV + 8] [bytes "/sh"].
Proof.
  unfold given. rewrite decide_False by done. split.
  - destruct exec_demo_memory as (_ & _ & _ & _ & _ & _ & _ & _ & Hu & _). unfold exec_block in Hu. intros i a Hi.
    destruct i as [|[|i]]; cbn in Hi; [injection Hi as <-.. | done].
    + split; [by vm_compute|]. apply (user_bytes_part _ _ [] _ _) in Hu. exact Hu.
    + split; [by vm_compute|]. apply (user_bytes_part _ _ (le32 _) _ _) in Hu. exact Hu.
  - apply exec_demo_segment; vm_compute; discriminate.
  - by repeat constructor.
  - constructor; [apply exec_demo_file | constructor].
Qed.
Lemma exec_demo_system : system (Inv := buddy_holds) [1] [] exec_demo.
Proof.
  destruct exec_demo_memory as (_ & _ & _ & _ & _ & _ & _ & _ & _ & pg & E).
  apply (bare_system exec_demo exec_demo_process); rewrite ?E;
    [reflexivity | reflexivity | reflexivity | vm_compute; by repeat split | reflexivity | reflexivity |].
  exact (heap_inv_eq start_demo _ eq_refl eq_refl start_demo_inv).
Qed.

(** Empty segments, and the file of three bytes. *)
Lemma owned_nil A d T V b s : s = b * PAGE_SIZE -> 0 <= b -> s <= 2 ^ 32 - PAGE_SIZE -> owned A d T V s s b [].
Proof.
  intros -> H0 H1. split; [done | cbn; lia | done | done |]. split; [constructor | by intros i a Hi; unfold zlookup in Hi; destruct (i <? 0) |].
  by intros a Ha%elem_of_nil.
Qed.
Lemma exec_memory_demo k A T V L : space A (k_pages k) PAGE_START T V -> length L = 1%nat -> PageTheorems.backed A PAGE_START T V EXEC_STACK L ->
  exec_memory k exec_demo_process A T V 0x10000 0x20000 EXEC_STACK [] [] L.
Proof.
  intros Hsp HL Hb. split; [exact Hsp | apply owned_nil; by vm_compute | apply owned_nil; by vm_compute | | | reflexivity | vm_compute; discriminate].
  - split; [reflexivity | rewrite HL; reflexivity | done | vm_compute; discriminate | exact Hb].
  - exact (bk_nodup _ _ _ _ _ _ Hb).
Qed.
Lemma exec_fits_demo k A : e_filesystem (k_env k) = small_image -> Z.of_nat (size A) <= 3 ->
  exec_fits k exec_demo_process A [] [] 280 [1; 2; 3] [bytes "/sh"].
Proof.
  intros Hfs Hsz. split; [|by repeat constructor | vm_compute; discriminate | vm_compute; discriminate |].
  - rewrite Hfs. split; [vm_compute; reflexivity|]. exists 556. split; [vm_compute; reflexivity|].
    intros i x Hi. destruct i as [|[|[|i]]]; cbn in Hi; [injection Hi as <-; vm_compute; reflexivity.. | done].
  - change (file_pages [1; 2; 3]) with 1. unfold room. rewrite MAX_FRAMES_eq.
    assert (size (A ∖ list_to_set ([] ++ [])) <= size A)%nat by (apply subseteq_size; set_solver). lia.
Qed.

Lemma execve_correct_witness : exists A T b3 L3,
  wpx (syscall_execve (EXEC_ARGV + 8) EXEC_ARGV regs_zero) (fun res k' =>
    res = (0, init_regs (arg_base [bytes "/sh"]) PROCESS_TEXT_BASE) /\
    executed (Inv := buddy_holds) exec_demo [1] [] 1 exec_demo_process A T b3 [] [] L3 [1; 2; 3] [bytes "/sh"] k') exec_demo.
Proof.
  destruct exec_demo_memory as (A & T & V & L & Hsp & Hsz & HL & Hb & _ & pg & E).
  assert (Hfs : e_filesystem (k_env exec_demo) = small_image) by (rewrite E; reflexivity).
  exists A, T, EXEC_STACK, L.
  destruct (execve_correct exec_demo [1] [] 1 exec_demo_process (EXEC_ARGV + 8) EXEC_ARGV regs_zero) as [_ H].
  - exact exec_demo_system.
  - exact exec_demo_caller.
  - intros s e Hse. apply exec_demo_segments in Hse. unfold PAGE_SIZE. lia.
  - unfold is_u32, EXEC_ARGV. lia.
  - unfold is_u32, EXEC_ARGV. lia.
  - rewrite Hfs. by_bytes.
  - destruct (H (bytes "/sh") [EXEC_ARGV + 8] [bytes "/sh"] (inr 280) exec_demo_file exec_demo_args) as [_ H'].
    { rewrite Hfs. vm_compute. reflexivity. }
    apply (H' 280 TYPE_FILE eq_refl) with (V := V) (b1 := 0x10000) (b2 := 0x20000).
    + rewrite Hfs. vm_compute. reflexivity.
    + exact (exec_memory_demo exec_demo A T V L Hsp HL Hb).
    + exact (exec_fits_demo exec_demo A Hfs Hsz).
Defined.
