(* ===== verification/PipeCallProofs.v ===== *)
(** * The call pipe (source/pipe.c)

    syscall_pipe makes a pipe, a handle for each of its ends and two descriptors
    of the caller for them; the invariant of all handles is kept. *)

From S2P Require Import Prelude Constants Libc PrintProofs Page Kernel Process ProcessInv ProcessTheorems UserMemory KernelMem Pipe Allocator PipeProofs Filedesc Lifecycle LifecycleProofs ForkProofs HandleProofs DescProofs FileProofs WaitProofs.

(** ** The two descriptors *)

(** The lowest two free descriptors. *)
Definition two_free (l : list Z) (r w : Z) : Prop :=
  0 <= r < w /\ zlookup l r = Some 0 /\ zlookup l w = Some 0 /\
  forall j a, 0 <= j < w -> j <> r -> zlookup l j = Some a -> a <> 0.

Lemma find_fds_second l : forall i r, 0 <= i -> r <> -1 ->
  let w := first_free l i in
  find_fds l i r (-1) = (r, if decide (w < i + Z.of_nat (length l)) then w else -1).
Proof.
  induction l as [|a l IH]; intros i r Hi Hr; cbn [find_fds first_free length].
  { by rewrite decide_False by lia. }
  destruct (Z.eqb_spec a 0) as [-> |Ha]; cbn zeta; cbn [Z.eqb Pos.eqb].
  - destruct (Z.eqb_spec r (-1)); [done|]. rewrite decide_True by lia. destruct l; [done|]. cbn [find_fds].
    destruct (Z.eqb_spec i (-1)); [lia | done].
  - rewrite IH by (lia || done). f_equal. destruct (decide (first_free l (i + 1) < i + 1 + Z.of_nat (length l))).
    + by rewrite decide_True by lia.
    + by rewrite decide_False by lia.
Qed.
Lemma find_fds_spec l : forall i, 0 <= i ->
  (exists r w, two_free l (r - i) (w - i) /\ find_fds l i (-1) (-1) = (r, w)) \/
  ((forall r w, ~ two_free l r w) /\ (snd (find_fds l i (-1) (-1)) = -1)).
Proof.
  induction l as [|a l IH]; intros i Hi; cbn [find_fds].
  { right. split; [|done]. intros r w (_ & Hr & _). unfold zlookup in Hr. by destruct (r <? 0). }
  cbn [Z.eqb Pos.eqb]. destruct (Z.eqb_spec a 0) as [-> |Ha].
  - rewrite find_fds_second by lia. destruct (first_free_spec l (i + 1) ltac:(lia)) as (H1 & H2 & H3). cbn zeta.
    set (w := first_free l (i + 1)) in *. case_decide as D.
    + left. exists i, w. split; [|done]. rewrite Z.sub_diag. split; [lia|]. split; [done|]. split.
      * rewrite zlookup_cons. destruct (Z.eqb_spec (w - i) 0); [lia|]. replace (w - i - 1) with (w - (i + 1)) by lia. by apply H2.
      * intros j b Hj Hj0. rewrite zlookup_cons. destruct (Z.eqb_spec j 0); [done|]. apply H3. lia.
    + right. split; [|done]. intros r x (Hr & Hr0 & Hx & Hb). rewrite zlookup_cons in Hx. destruct (Z.eqb_spec x 0); [lia|].
      apply zlookup_range in Hx as Hxr. by destruct (H3 (x - 1) 0 ltac:(lia) Hx).
  - destruct (IH (i + 1) ltac:(lia)) as [(r & w & (Hr & Hr0 & Hw0 & Hb) & E)|[Hno E]].
    + left. exists r, w. split; [|done]. split; [lia|]. split; [|split].
      * rewrite zlookup_cons. destruct (Z.eqb_spec (r - i) 0); [lia|]. by replace (r - i - 1) with (r - (i + 1)) by lia.
      * rewrite zlookup_cons. destruct (Z.eqb_spec (w - i) 0); [lia|]. by replace (w - i - 1) with (w - (i + 1)) by lia.
      * intros j b Hj Hjr. rewrite zlookup_cons. destruct (Z.eqb_spec j 0); [by intros [= <-]|]. apply Hb; lia.
    + right. split; [|done]. intros r w (Hr & Hr0 & Hw0 & Hb). rewrite zlookup_cons in Hr0, Hw0.
      destruct (Z.eqb_spec r 0) as [-> |]; [congruence|]. destruct (Z.eqb_spec w 0); [lia|].
      apply (Hno (r - 1) (w - 1)). split; [lia|]. split; [done|]. split; [done|]. intros j b Hj Hjr Hb'.
      apply (Hb (j + 1) b); [lia | lia |]. rewrite zlookup_cons. destruct (Z.eqb_spec (j + 1) 0); [lia|]. by replace (j + 1 - 1) with j by lia.
Qed.

Lemma two_free_unique l r w r' w' : two_free l r w -> two_free l r' w' -> r = r' /\ w = w'.
Proof.
  intros (H1 & H2 & H3 & H4) (H1' & H2' & H3' & H4').
  assert (r = r').
  { destruct (Z.lt_trichotomy r r') as [|[|]]; [|done|].
    - by destruct (H4' r 0 ltac:(lia) ltac:(lia) H2).
    - by destruct (H4 r' 0 ltac:(lia) ltac:(lia) H2'). }
  subst r'. split; [done|]. destruct (Z.lt_trichotomy w w') as [|[|]]; [|done|].
  - by destruct (H4' w 0 ltac:(lia) ltac:(lia) H3).
  - by destruct (H4 w' 0 ltac:(lia) ltac:(lia) H3').
Qed.

(** ** A new pipe *)

Definition empty_pipe (data : Z) (bytes : list Z) : pipe_buffer :=
  mkPipe (Some 1) (Some 1) (Some (Z.of_nat (length bytes))) (Some 0) (Some (-1)) (Some data).
Definition reader_end (b : Z) : filehandle :=
  fh_undef <| fh_type := Some FH_PIPE_READER |> <| fh_p := Some b |> <| fh_refcount := Some 1 |>
    <| fh_write := Some pipe_reader_write_f |> <| fh_read := Some pipe_reader_read_f |> <| fh_destroy := Some pipe_reader_destroy_f |>.
Definition writer_end (b : Z) : filehandle :=
  fh_undef <| fh_type := Some FH_PIPE_WRITER |> <| fh_p := Some b |> <| fh_refcount := Some 1 |>
    <| fh_write := Some pipe_writer_write_f |> <| fh_read := Some pipe_writer_read_f |> <| fh_destroy := Some pipe_writer_destroy_f |>.

(** [k1] is [k] with an empty pipe [b]. *)
Record pipe_new (b data : Z) (bytes : list Z) (k k1 : kstate) : Prop := {
  pn_pipe : k_objs k !! b = None;
  pn_data : k_objs k !! data = None;
  pn_ne : b <> data;
  pn_size : Z.of_nat (length bytes) = BUFSIZE;
  pn_state : exists h n, k1 = heap_state k h (<[b := OPipe (empty_pipe data bytes)]> (<[data := OBytes bytes]> (k_objs k))) n
}.

Section pipe.
  Context {Inv : gmap Z Z -> Buddy.memarea -> Prop} `{!Allocator Buddy.kmalloc_ma Buddy.kfree_ma Inv}.

Lemma two_allocations (k : kstate) h1 h3 (b d : Z) (o1 o2 o3 od : obj) :
  k <| k_heap := h1 |> <| k_objs ::= insert b o1 |> <| k_nallocs ::= Z.add 1 |> <| k_objs ::= insert b o2 |>
    <| k_heap := h3 |> <| k_objs ::= insert d od |> <| k_nallocs ::= Z.add 1 |> <| k_objs ::= insert b o3 |> =
  heap_state k h3 (<[b := o3]> (<[d := od]> (<[b := o2]> (<[b := o1]> (k_objs k))))) (1 + (1 + k_nallocs k)).
Proof using. by destruct k. Qed.
Lemma new_pipe_exact k : heap_inv Inv k -> wpx new_pipe (fun b k1 => heap_inv Inv k1 /\ exists data bytes, pipe_new b data bytes k k1) k.
Proof using Allocator0.
  intros Hi. unfold new_pipe. apply wpx_bind.
  eapply wpx_mono; [apply (kmalloc_spec SIZEOF_PIPE_BUFFER (OPipe pipe_undef) k Hi); done|].
  intros b k1 (Hb & _ & _ & Hal & Hi1). pose proof (allocated_objs _ _ _ _ Hal) as Ho1.
  assert (Hk1 : k_objs k1 !! b = Some (OPipe pipe_undef)) by (rewrite Ho1; apply lookup_insert_eq).
  apply wpx_wp_bind. eapply wp_upd_pipe; [exact Hk1|]. set (k2 := k1 <| k_objs ::= insert b _ |>).
  assert (Hi2 : heap_inv Inv k2) by (by eapply heap_inv_insert; [exact Hi1 | exact Hk1 |]).
  apply wpx_bind. eapply wpx_mono; [apply (kmalloc_bytes_spec BUFSIZE k2 Hi2); done|].
  intros d k3 (Hd & _ & _ & Hal3 & Hi3). pose proof (stale_bytes_length k2 BUFSIZE ltac:(done)) as Hst. set (st := stale_bytes k2 BUFSIZE) in *.
  unfold k2 in Hd. cbn in Hd. rewrite lookup_insert_None, Ho1, lookup_insert_None in Hd. destruct Hd as [[Hd _] Hbd].
  eassert (Hk3 : k_objs k3 !! b = Some (OPipe _)).
  { rewrite (allocated_objs _ _ _ _ Hal3). cbn. rewrite lookup_insert_ne, lookup_insert_eq by congruence. reflexivity. }
  apply wpx_wp. wp_step. eapply wp_upd_pipe; [exact Hk3|]. apply wp_ret.
  split; [by eapply heap_inv_insert; [exact Hi3 | exact Hk3 |]|]. exists d, st. split; [done | done | done | done |].
  destruct Hal as [h1 E1], Hal3 as [h3 E3]. exists h3, (1 + (1 + k_nallocs k)). rewrite E3. unfold k2. rewrite E1.
  rewrite two_allocations. f_equal. unfold empty_pipe. rewrite Hst. apply map_eq. intros i. rewrite !lookup_insert.
  repeat case_decide; first [congruence | reflexivity].
Qed.

Lemma pipe_new_objs b data bytes k k1 : pipe_new b data bytes k k1 ->
  k_objs k1 = <[b := OPipe (empty_pipe data bytes)]> (<[data := OBytes bytes]> (k_objs k)).
Proof using. intros [_ _ _ _ (h & n & ->)]. done. Qed.
Lemma pipe_new_at b data bytes k k1 : pipe_new b data bytes k k1 -> pipe_at k1 b 1 1 (-1) [] data bytes.
Proof using.
  intros P. pose proof (pipe_new_objs _ _ _ _ _ P) as Ho. pose proof (pn_ne _ _ _ _ _ P). pose proof (pn_size _ _ _ _ _ P) as Hs. split.
  - rewrite Ho, lookup_insert_eq. done.
  - rewrite Ho, lookup_insert_ne, lookup_insert_eq by done. done.
  - cbn. lia.
  - done.
  - constructor.
  - rewrite Hs. done.
Qed.

Lemma hinv_pipe_new U S b data bytes k k1 : hinv U S k -> pipe_new b data bytes k k1 -> hinv U S k1.
Proof using.
  intros H P. pose proof (pipe_new_at _ _ _ _ _ P) as Hat. destruct P as [Hb Hd Hne Hs (h & n & ->)]. cbn [k_objs heap_state] in *.
  set (k1 := heap_state k h _ n) in *. set (o1 := <[b := _]> _) in k1. change (k_objs k1) with o1.
  assert (Hfh : forall x g, o1 !! x = Some (OFh g) <-> k_objs k !! x = Some (OFh g)).
  { intros x g. unfold o1. rewrite !lookup_insert. repeat case_decide; subst; rewrite ?Hb, ?Hd; split; done. }
  assert (Hpipe : forall x q, o1 !! x = Some (OPipe q) -> (x = b /\ q = empty_pipe data bytes) \/ (x <> b /\ k_objs k !! x = Some (OPipe q))).
  { intros x q. unfold o1. rewrite !lookup_insert. repeat case_decide; subst; [intros [= <-]; by left | done | by right]. }
  assert (Hkeep : forall x o, k_objs k !! x = Some o -> o1 !! x = Some o).
  { intros x o Hx. unfold o1. rewrite !lookup_insert_ne by congruence. done. }
  split; change (k_objs k1) with o1.
  - apply H.
  - intros a Ha. destruct (hv_handle H Ha) as (f & Hf & ?). exists f. by rewrite Hfh.
  - intros a f e x Ha Hf He. apply Hfh in Hf. destruct (hv_end H Ha Hf He) as (q & m & Hq & ?). exists q, m. split; [by apply Hkeep | done].
  - intros a a' f f' e Ha Ha' Hf Hf'. apply Hfh in Hf, Hf'. by apply H.
  - intros x q Hx. destruct (Hpipe x q Hx) as [[-> ->]|[Hxb Hq]].
    + exists 1, 1, (-1), [], data, bytes. split; [exact Hat|]. split; [by left | by left].
    + destruct (hv_pipe H Hq) as (r & w & pid & l & d & bs & P & HH). exists r, w, pid, l, d, bs. split; [|done].
      split; change (k_objs k1) with o1; try apply P; apply Hkeep, P.
  - intros x y q q' d Hx Hy Hqd Hqd'. destruct (Hpipe x q Hx) as [[-> ->]|[Hxb Hq]], (Hpipe y q' Hy) as [[-> ->]|[Hyb Hq']]; [done | | |].
    + injection Hqd as <-. destruct (hv_pipe H Hq') as (r & w & pid & l & d & bs & P & HH). rewrite (pa_pipe P) in Hq'. injection Hq' as <-.
      injection Hqd' as ->. pose proof (pa_data P). congruence.
    + injection Hqd' as <-. destruct (hv_pipe H Hq) as (r & w & pid & l & d & bs & P & HH). rewrite (pa_pipe P) in Hq. injection Hq as <-.
      injection Hqd as ->. pose proof (pa_data P). congruence.
    + exact (hv_data H Hq Hq' Hqd Hqd').
  - intros x y q q' pid Hx Hy Hqd Hqd' Hpid. destruct (Hpipe x q Hx) as [[-> ->]|[Hxb Hq]], (Hpipe y q' Hy) as [[-> ->]|[Hyb Hq']]; [done | | |].
    + by injection Hqd as <-.
    + by injection Hqd' as <-.
    + exact (hv_blocked H Hq Hq' Hqd Hqd' Hpid).
Qed.
Lemma system_pipe_new R S b data bytes k k1 : system (Inv := Inv) R S k -> pipe_new b data bytes k k1 -> heap_inv Inv k1 ->
  system (Inv := Inv) R S k1.
Proof using.
  intros H P Hi. pose proof (hinv_pipe_new _ _ _ _ _ _ _ (sy_handles _ _ _ H) P) as Hh. pose proof (pipe_new_objs _ _ _ _ _ P) as Ho.
  destruct P as [Hb Hd Hne Hs (h & n & E)].
  assert (Hps : k_processes k1 = k_processes k) by (by rewrite E). split.
  - eapply sched_frame; [apply (sy_sched _ _ _ H) | done | by rewrite E..].
  - done.
  - by rewrite Hps.
  - rewrite Hps. intros a f. rewrite Ho, !lookup_insert. repeat case_decide; [done | done |]. apply (sy_leak _ _ _ H).
  - rewrite Hps. apply (sy_fds _ _ _ H).
Qed.

(** A new handle, with exactly what it changes. *)
Lemma new_handle_exact k g : heap_inv Inv k ->
  wpx (fh <- kmalloc SIZEOF_FILEHANDLE (OFh fh_undef); upd_fh fh g;; ret fh) (fun fh k' =>
    k_objs k !! fh = None /\ fh <> 0 /\ allocated fh (OFh (g fh_undef)) k k' /\ heap_inv Inv k') k.
Proof using Allocator0.
  intros Hi. apply wpx_bind. eapply wpx_mono; [apply (kmalloc_spec SIZEOF_FILEHANDLE (OFh fh_undef) k Hi); done|].
  intros fh k1 (Hn & _ & H0 & Hal & Hi1). assert (Hk1 : k_objs k1 !! fh = Some (OFh fh_undef)).
  { rewrite (allocated_objs _ _ _ _ Hal). apply lookup_insert_eq. }
  apply wpx_wp. wp_step. eapply wp_upd_fh; [exact Hk1|]. apply wp_ret. split; [done|]. split; [done|].
  split; [by eapply allocated_again | by eapply heap_inv_insert; [exact Hi1 | exact Hk1 |]].
Qed.

(** ** syscall_pipe *)

(** [k1] is [k] with a pipe and a handle for each end in the descriptors [r]
    and [w] of [c]. *)
Record pipe_opened (c : Z) (p : process) (r w : Z) (k k1 : kstate) (b data : Z) (bytes : list Z) (rd wr : Z) : Prop := {
  po_pipe : k_objs k !! b = None;
  po_data : k_objs k !! data = None;
  po_reader : k_objs k !! rd = None;
  po_writer : k_objs k !! wr = None;
  po_distinct : NoDup [b; data; rd; wr];
  po_size : Z.of_nat (length bytes) = BUFSIZE;
  po_state : exists h n, k1 = with_table (heap_state k h (<[wr := OFh (writer_end b)]> (<[rd := OFh (reader_end b)]>
      (<[b := OPipe (empty_pipe data bytes)]> (<[data := OBytes bytes]> (k_objs k))))) n)
    (zinsert c (set_desc w wr (set_desc r rd p)) (k_processes k))
}.
Lemma pipe_states (k : kstate) ha oa na hb hd (rd wr : Z) (o1 o2 : obj) T1 T2 :
  with_table ((with_table ((heap_state k ha oa na) <| k_heap := hb |> <| k_objs ::= insert rd o1 |> <| k_nallocs ::= Z.add 1 |>) T1)
    <| k_heap := hd |> <| k_objs ::= insert wr o2 |> <| k_nallocs ::= Z.add 1 |>) T2 =
  with_table (heap_state k hd (<[wr := o2]> (<[rd := o1]> oa)) (1 + (1 + na))) T2.
Proof using. by destruct k. Qed.

Lemma caller_set_desc k k' c p fd a : caller k c p -> k_current k' = k_current k -> k_pages k' = k_pages k -> k_paging k' = k_paging k ->
  zlookup (k_processes k') c = Some (set_desc fd a p) -> caller k' c (set_desc fd a p).
Proof using.
  intros [H1 H2 H3 H4 H5] Ec Epg Epa Hl. split; [by rewrite Ec | done | done | done |].
  intros x Hx. rewrite (user_byte_frame k k') by done. by apply H5.
Qed.

(** No handle stands for an end of a pipe that is not there yet. *)
Lemma no_end U S k b a f e : hinv U S k -> k_objs k !! b = None -> U a <> 0 -> k_objs k !! a = Some (OFh f) -> pipe_end f <> Some (e, b).
Proof using. intros H Hb Ha Hf He. destruct (hv_end H Ha Hf He) as (q & n & Hq & _). congruence. Qed.

Lemma pipe_made R S k c p r w : system (Inv := Inv) R S k -> caller k c p -> two_free (p_filedesc p) r w ->
  wpx (b <- new_pipe; rd <- new_pipe_reader b; set_fd r rd;; wr <- new_pipe_writer b; set_fd w wr) (fun _ k1 =>
    system (Inv := Inv) R S k1 /\ exists b data bytes rd wr, pipe_opened c p r w k k1 b data bytes rd wr) k.
Proof using Allocator0.
  intros H C (Hrw & Hr & Hw & _). pose proof (zlookup_range _ _ _ (ca_lookup _ _ _ C)) as Hc.
  apply wpx_bind. eapply wpx_mono; [apply new_pipe_exact, H|]. intros b ka (Hia & data & bytes & P).
  pose proof (system_pipe_new _ _ _ _ _ _ _ H P Hia) as Ha. pose proof (pipe_new_objs _ _ _ _ _ P) as Hoa.
  pose proof (sy_handles _ _ _ H) as Hh. destruct P as [Pb Pd Pne Ps (ha & na & Ea)].
  assert (Ca : caller ka c p) by (rewrite Ea; destruct C; by split).
  assert (Hpsa : k_processes ka = k_processes k) by (by rewrite Ea).
  assert (Hold : forall x g, k_objs ka !! x = Some (OFh g) -> k_objs k !! x = Some (OFh g)).
  { intros x g. rewrite Hoa, !lookup_insert. by repeat case_decide. }
  apply wpx_bind. eapply wpx_mono; [by apply (new_handle_exact ka)|]. intros rd kb (Hrd & Hrd0 & Halb & Hib).
  apply wpx_wp_bind. eapply (set_fd_new R S ka kb c p r rd (reader_end b)); try done.
  { by eexists. }
  { intros e b' [= <- <-]. split; [exists (empty_pipe data bytes), 1; by rewrite Hoa, lookup_insert_eq|].
    intros x g Hx Hg. rewrite Hpsa in Hx. by eapply no_end; [exact Hh | done | exact Hx | apply Hold]. }
  intros kc Hc'. destruct Halb as [hb Eb].
  assert (Hoc : k_objs kc = <[rd := OFh (reader_end b)]> (k_objs ka)) by (unfold kc; by rewrite Eb).
  assert (Hpc : k_processes kc = zinsert c (set_desc r rd p) (k_processes k)) by (rewrite <- Hpsa; done).
  assert (Cc : caller kc c (set_desc r rd p)).
  { eapply (caller_set_desc ka); [done | unfold kc; by rewrite Eb.. |]. rewrite Hpc. by rewrite zlookup_zinsert_eq. }
  apply wpx_bind. eapply wpx_mono; [apply (new_handle_exact kc), Hc'|]. intros wr kd (Hwr & Hwr0 & Hald & Hid).
  rewrite Hoc, lookup_insert_None in Hwr. destruct Hwr as [Hwr Hrw'].
  apply wpx_wp. eapply (set_fd_new R S kc kd c (set_desc r rd p) w wr (writer_end b)); try done.
  { change (p_filedesc (set_desc r rd p)) with (zinsert r rd (p_filedesc p)). by rewrite zlookup_zinsert_ne by lia. }
  { rewrite Hoc, lookup_insert_None. done. }
  { by eexists. }
  { intros e b' [= <- <-]. split.
    - exists (empty_pipe data bytes), 1. rewrite Hoc, lookup_insert_ne, Hoa, lookup_insert_eq; [done|]. intros ->. by rewrite Hoa, lookup_insert_eq in Hrd.
    - intros x g Hx Hg. destruct (decide (x = rd)) as [-> |Hxr].
      + rewrite Hoc, lookup_insert_eq in Hg. by injection Hg as <-.
      + rewrite Hoc, lookup_insert_ne in Hg by done. eapply no_end; [exact Hh | done | | by apply Hold].
        rewrite Hpc in Hx. rewrite (refs_set_desc _ _ _ _ _ 0) in Hx by (done || apply C). rewrite !uses_single in Hx.
        rewrite (decide_False (P := x = 0 /\ x <> 0)) in Hx by tauto. rewrite decide_False in Hx by tauto. lia. }
  intros ke He. split; [done|]. exists b, data, bytes, rd, wr.
  rewrite Hoa, !lookup_insert_None in Hrd, Hwr. destruct Hrd as [[Hrd1 Hrd2] Hrd3], Hwr as [[Hwr1 Hwr2] Hwr3].
  split; [done | done | done | done | | done |].
  - clear - Pne Hrd2 Hrd3 Hwr2 Hwr3 Hrw'. repeat (apply list.NoDup_cons; split; [rewrite ?elem_of_cons, elem_of_nil; naive_solver|]). constructor.
  - destruct Hald as [hd Ed]. exists hd, (1 + (1 + na)). unfold ke. rewrite Hpc, zinsert_twice, Ed. unfold kc. rewrite Eb, Ea. apply pipe_states.
Qed.

Lemma wpx_pipe_assoc r w (f : K Z) (Q : Z -> kstate -> Prop) k :
  wpx (b <- new_pipe; rd <- new_pipe_reader b; set_fd r rd;; wr <- new_pipe_writer b; set_fd w wr) (fun _ k1 => wpx f Q k1) k ->
  wpx (b <- new_pipe; rd <- new_pipe_reader b; set_fd r rd;; wr <- new_pipe_writer b; set_fd w wr;; f) Q k.
Proof using.
  unfold wpx, bind. destruct (new_pipe k) as [b k1| | |]; [|done..]. destruct (new_pipe_reader b k1) as [rd k2| | |]; [|done..].
  destruct (set_fd r rd k2) as [[] k3| | |]; [|done..]. destruct (new_pipe_writer b k3) as [wr k4| | |]; [|done..].
  by destruct (set_fd w wr k4) as [[] k5| | |].
Qed.
Lemma syscall_pipe_spec R S k c p filedes pdir r w : system (Inv := Inv) R S k -> caller k c p -> is_u32 filedes ->
  in_segment p filedes (filedes + 8) -> two_free (p_filedesc p) r w -> user_region k pdir filedes 8 ->
  wpx (syscall_pipe filedes) (fun res k' => res = 0 /\ system (Inv := Inv) R S k' /\ exists k1 b data bytes rd wr,
    pipe_opened c p r w k k1 b data bytes rd wr /\ user_written k1 pdir filedes 8 (le32 r ++ le32 w) k') k.
Proof using Allocator0.
  intros H C Hf Hseg Hfree Hreg. unfold syscall_pipe. apply wpx_wp_bind.
  eapply wp_mono; [apply (valid_pointer_spec k c p); [apply C | apply C | apply C | done | done]|]. intros v k0 [-> Hv].
  destruct v; [|pose proof (proj2 Hv (or_intror Hseg)); done]. cbn [negb]. apply wpx_wp_bind. eapply wp_cur; [apply C | apply C |].
  destruct (find_fds_spec (p_filedesc p) 0 ltac:(done)) as [(r' & w' & Hfree' & E)|[Hno _]]; [|by destruct (Hno r w)].
  rewrite !Z.sub_0_r in Hfree'. destruct (two_free_unique _ _ _ _ _ Hfree Hfree') as [<- <-]. rewrite E. pose proof (proj1 Hfree) as Hrw.
  destruct (Z.eqb_spec r (-1)) as [|_]; [lia|]. destruct (Z.eqb_spec w (-1)) as [|_]; [lia|]. cbn [orb].
  apply (wpx_pipe_assoc r w). eapply wpx_mono; [by apply pipe_made|]. intros [] k1 (H1 & b & data & bytes & rd & wr & P).
  assert (Hreg1 : user_region k1 pdir filedes 8).
  { destruct (po_state _ _ _ _ _ _ _ _ _ _ _ P) as (h & na & ->). by eapply user_region_frame; [..|exact Hreg]. }
  apply wpx_wp. wp_step. replace filedes with (filedes + Z.of_nat (length (@nil Z))) at 1 by (cbn; lia).
  eapply store32_append; [by apply user_written_nil | done |]. intros k2 W2. wp_step.
  pose proof (ur_range Hreg). rewrite u32_small by (unfold is_u32 in *; lia). change 4 with (Z.of_nat (length ([] ++ le32 r))) at 1.
  eapply store32_append; [exact W2 | done |]. intros k3 W3. apply wp_ret. split; [done|].
  split; [destruct (uw_rest W3) as [pg ->]; by apply system_pages|]. by exists k1, b, data, bytes, rd, wr.
Qed.
End pipe.
