(* ===== verification/PipeCallTheorems.v ===== *)
(** * Theorems about the call pipe *)

From S2P Require Import Prelude Constants Libc Page Buddy BuddyInv BuddyTheorems Kernel Process ProcessInv ProcessTheorems UserMemory KernelMem Pipe Allocator PipeProofs PipeTheorems Filedesc Lifecycle LifecycleProofs ForkProofs LifecycleTheorems HandleProofs DescProofs DescTheorems FileProofs FileTheorems WaitProofs PipeCallProofs.

(** C10. pipe: an array outside of the segments gives -EFAULT, fewer than two
    free descriptors give -EMFILE, and nothing changes.  Otherwise the lowest
    two free descriptors of the caller refer to two new handles, the reading and
    the writing end of a new, empty pipe that nobody is blocked on; their numbers
    are in the array, the reading end first, and nothing else has changed in
    memory, in the heap or in any process.  The counts of all handles still
    agree with the descriptors, and each end of a pipe belongs to one handle; or
    the kernel's heap is exhausted. *)
Theorem pipe_call_correct k R S c p filedes :
  system (Inv := buddy_holds) R S k -> caller k c p -> is_u32 filedes ->
  let valid := in_segment p filedes (filedes + 8) in
  (~ valid -> syscall_pipe filedes k = Ok (- EFAULT) k) /\
  (valid -> (forall r w, ~ two_free (p_filedesc p) r w) -> syscall_pipe filedes k = Ok (- EMFILE) k) /\
  (forall r w pdir, valid -> two_free (p_filedesc p) r w -> user_region k pdir filedes 8 ->
    wpx (syscall_pipe filedes) (fun res k' => res = 0 /\ system (Inv := buddy_holds) R S k' /\ exists k1 b data bytes rd wr,
      pipe_opened c p r w k k1 b data bytes rd wr /\ user_written k1 pdir filedes 8 (le32 r ++ le32 w) k') k).
Proof.
  intros Hsys C Hf valid.
  assert (Hptr : wp (valid_pointer filedes 8) (fun v k' => k' = k /\ (v = true <-> 8 = 0 \/ valid)) k).
  { apply (valid_pointer_spec k c p); [apply C | apply C | apply C | done | done]. }
  split; [|split].
  - intros Hno. apply wp_exact. unfold syscall_pipe. wp_step. eapply wp_mono; [exact Hptr|]. intros v k' [-> Hv].
    destruct v; [|by apply wp_ret]. by destruct (proj1 Hv eq_refl).
  - intros Hval Hno. apply wp_exact. unfold syscall_pipe. wp_step. eapply wp_mono; [exact Hptr|]. intros v k' [-> Hv].
    destruct v; [|by pose proof (proj2 Hv (or_intror Hval))]. cbn [negb]. wp_step. eapply wp_cur; [apply C | apply C |].
    destruct (find_fds_spec (p_filedesc p) 0 ltac:(done)) as [(r & w & Hfree & _)|[_ E]]; [by destruct (Hno _ _ Hfree)|].
    destruct (find_fds _ _ _ _) as [r w]. cbn in E. subst w. rewrite orb_true_r. by apply wp_ret.
  - intros r w pdir Hval Hfree Hreg. by apply syscall_pipe_spec.
Qed.

Lemma file_process_fds : p_filedesc file_process = replicate 16 0.
Proof. vm_compute. reflexivity. Qed.
Lemma pipe_call_correct_witness :
  wpx (syscall_pipe 0x1000) (fun res k' => res = 0 /\ system (Inv := buddy_holds) [1] [] k' /\ exists k1 b data bytes rd wr,
    pipe_opened 1 file_process 0 1 file_demo k1 b data bytes rd wr /\ user_written k1 PAGE_START 0x1000 8 [0; 0; 0; 0; 1; 0; 0; 0] k') file_demo /\
  result (syscall_pipe 0x1000) file_demo = Some 0.
Proof.
  split; [|vm_compute; reflexivity].
  destruct (pipe_call_correct file_demo [1] [] 1 file_process 0x1000) as (_ & _ & H);
    [apply file_demo_system | apply file_demo_caller | by vm_compute |].
  apply (H 0 1 PAGE_START).
  - apply in_segment_cases. left. vm_compute. split; discriminate.
  - rewrite file_process_fds. split; [lia|]. split; [reflexivity|]. split; [reflexivity|]. intros j a Hj. lia.
  - apply (user_region_frame user_demo); [reflexivity | reflexivity | apply user_demo_region; lia].
Defined.
