(* ===== verification/TypeProofs.v ===== *)
(** * The kernel as a whole: what holds after every interrupt

    Well-typedness of the process table, kept by every routine of the kernel on
    every path, failed assertions and undefined accesses included: the slots and
    their arrays keep their sizes, a process sits in the slot of its id, and no
    saved context is privileged.  The proofs follow the structure of the code. *)

From S2P Require Import Prelude Constants Buddy Libc Screen Tables Page Filesystem Kernel Process Pipe Filedesc Lifecycle Syscall Main.

(** ** Arrays of characters keep their length *)

Create HintDb len discriminated.

(** [o] keeps the array [str] at its length. *)
Definition keeps_len {A} (f : A -> list Z) (n : nat) (o : option A) : Prop := forall a, o = Some a -> length (f a) = n.
Lemma len_bind {A B} (f : A -> list Z) (g : B -> list Z) n n' (o : option A) (k : A -> option B) :
  keeps_len f n o -> (forall a, length (f a) = n -> keeps_len g n' (k a)) -> keeps_len g n' (o ≫= k).
Proof. intros Ho Hk b Hb. apply bind_Some in Hb as (a & Ha & Hb). by eapply Hk; [apply Ho|]. Qed.
Lemma len_any {A B} (g : B -> list Z) n (o : option A) (k : A -> option B) :
  (forall a, keeps_len g n (k a)) -> keeps_len g n (o ≫= k).
Proof. intros Hk b Hb. apply bind_Some in Hb as (a & _ & Hb). by eapply Hk. Qed.
Lemma len_some {A} (f : A -> list Z) n a : length (f a) = n -> keeps_len f n (Some a).
Proof. by intros H b [= <-]. Qed.
Lemma len_none {A} (f : A -> list Z) n : keeps_len f n None.
Proof. done. Qed.

Abbreviation id_len := (fun s : list Z => s).
Lemma store_char_len str i c n : length str = n -> keeps_len id_len n (store_char str i c).
Proof. intros H. apply len_any. intros _. apply len_some. by rewrite zinsert_length. Qed.
#[export] Hint Resolve store_char_len len_some len_none : len.
Lemma addchar_len size c b n : length b.1 = n -> keeps_len (@fst (list Z) Z) n (addchar size c b).
Proof.
  destruct b as [str pos]. intros H. unfold addchar. eapply (len_bind id_len); [case_match; eauto with len|].
  intros s Hs. by apply len_some.
Qed.
#[export] Hint Resolve addchar_len : len.
Lemma digit_loop_len fuel : forall size val base x mult b n, length b.1 = n -> keeps_len (@fst (list Z) Z) n (digit_loop fuel size val base x mult b).
Proof.
  induction fuel as [|fuel IH]; intros size val base x mult b n H; cbn [digit_loop]; [done|]. case_match; [|by apply len_some].
  eapply len_bind; [by apply addchar_len|]. intros b' Hb. by apply IH.
Qed.
Lemma print_num_len size val base b n : length b.1 = n -> keeps_len (@fst (list Z) Z) n (print_num size val base b).
Proof.
  intros H. unfold print_num. apply len_any. intros mult. eapply len_bind; [by apply digit_loop_len|]. intros b' Hb. by apply addchar_len.
Qed.
Lemma print_str_len s : forall size b n, length b.1 = n -> keeps_len (@fst (list Z) Z) n (print_str size s b).
Proof.
  induction s as [|c s IH]; intros size b n H; cbn [print_str]; [done|]. case_match; [|by apply len_some].
  eapply len_bind; [by apply addchar_len|]. intros b' Hb. by apply IH.
Qed.
#[export] Hint Resolve print_num_len print_str_len : len.

(** The buffer of a field, of a conversion. *)
Abbreviation field_buf := (fun x : pbuf * list arg => x.1.1).
Lemma field_tail {A} (o : option pbuf) (ap : A) n : keeps_len (@fst (list Z) Z) n o ->
  keeps_len (fun x : pbuf * A => x.1.1) n (b ← o; Some (b, ap)).
Proof. intros H. eapply len_bind; [exact H|]. intros b Hb. by apply len_some. Qed.
Lemma print_field_len size c ap b n : length b.1 = n -> keeps_len field_buf n (print_field size c ap b).
Proof.
  intros H. unfold print_field. repeat case_match.
  - apply len_any. intros [s ap']. apply field_tail. by apply print_str_len.
  - apply len_any. intros [z ap']. apply field_tail. by apply addchar_len.
  - apply len_any. intros [z ap']. eapply (len_bind (fun x : Z * pbuf => x.2.1)).
    + case_match; [|by apply len_some]. eapply len_bind; [by apply addchar_len|]. intros b' Hb. by apply len_some.
    + intros [val b'] Hb. apply field_tail. by apply print_num_len.
  - apply len_any. intros [z ap']. apply field_tail. by apply print_num_len.
  - eapply len_bind; [by apply addchar_len|]. intros b1 Hb1. eapply len_bind; [by apply addchar_len|]. intros b2 Hb2.
    apply len_any. intros [z ap']. apply field_tail. by apply print_num_len.
  - apply len_any. intros [z ap']. apply field_tail. by apply print_num_len.
  - apply field_tail. by apply addchar_len.
Qed.
Lemma add_spaces_len k : forall size b n, length b.1 = n -> keeps_len (@fst (list Z) Z) n (add_spaces k size b).
Proof.
  induction k as [|k IH]; intros size b n H; cbn [add_spaces]; [by apply len_some|].
  eapply len_bind; [by apply addchar_len|]. intros b' Hb. by apply IH.
Qed.
Lemma conversion_len size c ap b n : length b.1 = n -> keeps_len (fun x => x.2.1) n (conversion size c ap b).
Proof.
  intros H. unfold conversion. destruct (match c with d :: c' => _ | [] => _ end) as [ra c1]. destruct (read_pad c1 0) as [pad [|letter c2]]; [done|].
  eapply len_bind; [by apply print_field_len|]. intros [b1 ap1] H1. destruct ra.
  - eapply len_bind; [by apply add_spaces_len|]. intros b2 H2. eapply len_bind; [by apply print_field_len|]. intros [b3 ap3] H3. by apply len_some.
  - eapply len_bind; [by apply add_spaces_len|]. intros b2 H2. by apply len_some.
Qed.
Lemma format_loop_len fuel : forall size c ap b n, length b.1 = n -> keeps_len (@fst (list Z) Z) n (format_loop fuel size c ap b).
Proof.
  induction fuel as [|fuel IH]; intros size c ap b n H; cbn [format_loop]; [done|]. destruct c as [|ch c]; [done|].
  case_match; [|by apply len_some]. case_match.
  - eapply len_bind; [by apply conversion_len|]. intros [[c' ap'] b'] Hb. by apply IH.
  - eapply len_bind; [by apply addchar_len|]. intros b' Hb. by apply IH.
Qed.
Lemma snprintf_len str size format ap n : length str = n -> keeps_len (@fst (list Z) Z) n (snprintf str size format ap).
Proof.
  intros H. unfold snprintf, vsnprintf. eapply len_bind; [by apply format_loop_len|]. intros [s pos] Hs. cbn in Hs.
  eapply (len_bind id_len); [repeat case_match; eauto with len|]. intros s' Hs'. by apply len_some.
Qed.

Lemma chop_loop_len k : forall abs l n, length abs = n -> keeps_len (@fst (list Z) Z) n (chop_loop k abs l).
Proof.
  induction k as [|k IH]; intros abs l n H; cbn [chop_loop]; [by apply len_some|]. case_match; [|by apply len_some].
  apply len_any. intros c. case_match; [|by apply len_some]. eapply len_bind; [by apply store_char_len|]. intros s Hs. by apply IH.
Qed.
Lemma append_loop_len k : forall max component abs l n, length abs = n -> keeps_len (@fst (list Z) Z) n (append_loop k max component abs l).
Proof.
  induction k as [|k IH]; intros max component abs l n H; cbn [append_loop]; [by apply len_some|]. case_match; [|by apply len_some].
  destruct component as [|c component]; [done|]. eapply len_bind; [by apply store_char_len|]. intros s Hs. by apply IH.
Qed.
Lemma apply_component_len max component namelen abs l n : length abs = n ->
  keeps_len (@fst (list Z) Z) n (apply_component max component namelen abs l).
Proof.
  intros H. unfold apply_component. apply len_any. intros [|]; [by apply len_some|]. apply len_any. intros [|].
  - eapply len_bind; [by apply chop_loop_len|]. intros [s l'] Hs. case_match; [|by apply len_some].
    eapply (len_bind id_len); [by apply store_char_len|]. intros s' Hs'. by apply len_some.
  - eapply (len_bind (@fst (list Z) Z)).
    + case_match; [|by apply len_some]. apply len_any. intros c. case_match; [|by apply len_some].
      eapply (len_bind id_len); [by apply store_char_len|]. intros s Hs. by apply len_some.
    + intros [s l'] Hs. eapply len_bind; [by apply append_loop_len|]. intros [s2 l2] Hs2.
      eapply (len_bind id_len); [by apply store_char_len|]. intros s' Hs'. by apply len_some.
Qed.
Lemma components_loop_len k : forall max rel rel_len pos start abs l n, length abs = n ->
  keeps_len id_len n (components_loop k max rel rel_len pos start abs l).
Proof.
  induction k as [|k IH]; intros max rel rel_len pos start abs l n H; cbn [components_loop]; [by apply len_some|].
  apply len_any. intros c. case_match; [|by apply IH]. eapply (len_bind (@fst (list Z) Z)).
  - case_match; [by apply apply_component_len | by apply len_some].
  - intros [s l'] Hs. by apply IH.
Qed.
Lemma relative_to_absolute_len abs base rel max n : length abs = n -> keeps_len id_len n (relative_to_absolute abs base rel max).
Proof.
  intros H. unfold relative_to_absolute. apply len_any. intros c. eapply (len_bind (@fst (list Z) Z)); [case_match; by apply snprintf_len|].
  intros [s l] Hs. apply len_any. intros rl. apply len_any. intros al. by apply components_loop_len.
Qed.

(** ** The invariant *)

(** A selector a context may have: that of a user segment, or none yet (which
    the processor refuses to load). *)
Definition user_selector (s : Z) : Prop := s = 0 \/ Z.land s 3 = RING_3.
Definition unprivileged (r : regs) : Prop := user_selector (r_cs r) /\ user_selector (r_ss r).
(** The slot [x] of the table. *)
Record slot_ok (x : Z) (p : process) : Prop := {
  sl_pid : p_exists p <> 0 -> p_pid p = x;
  sl_fds : length (p_filedesc p) = Z.to_nat MAX_FDS;
  sl_cwd : length (p_cwd p) = Z.to_nat PATH_MAX;
  sl_regs : unprivileged (p_saved_regs p)
}.
Record typed (k : kstate) : Prop := {
  ty_count : length (k_processes k) = Z.to_nat MAX_PROCESSES;
  ty_slot x p : zlookup (k_processes k) x = Some p -> slot_ok x p
}.

Lemma init_regs_unprivileged stack start : unprivileged (init_regs stack start).
Proof. split; by right. Qed.
Lemma typed_frame k k' : k_processes k' = k_processes k -> typed k -> typed k'.
Proof. intros E [H1 H2]. split; by rewrite E. Qed.
Lemma typed_upd k x p q : typed k -> zlookup (k_processes k) x = Some p -> slot_ok x q ->
  typed (k <| k_processes := zinsert x q (k_processes k) |>).
Proof.
  intros [H1 H2] Hp Hq. split; cbn; [by rewrite zinsert_length|]. intros y r. destruct (decide (y = x)) as [-> |Hne].
  - rewrite zlookup_zinsert_eq by (by eapply zlookup_range). by intros [= <-].
  - rewrite zlookup_zinsert_ne by done. apply H2.
Qed.

(** ** Routines that keep it *)

(** [m] keeps the invariant however it ends, and its results satisfy [Q]. *)
Definition safe {A} (Q : A -> Prop) (m : K A) : Prop := forall k, typed k ->
  match m k with Ok a k' => typed k' /\ Q a | Halt _ k' | Fault _ k' => typed k' | Spin => True end.
Arguments safe {A} _ _ : simpl never.
Abbreviation keeps := (safe (fun _ => True)).

Create HintDb safe discriminated.
(** Routines whose results are needed. *)
Create HintDb result discriminated.
#[export] Hint Constants Opaque : safe result.

Lemma safe_mono {A} (P Q : A -> Prop) m : safe P m -> (forall a, P a -> Q a) -> safe Q m.
Proof. intros H HPQ k Hk. specialize (H k Hk). destruct (m k); [naive_solver | done..]. Qed.
Lemma safe_ret {A} (Q : A -> Prop) a : Q a -> safe Q (ret a).
Proof. by intros HQ k Hk. Qed.
Lemma safe_bind {A B} (P : A -> Prop) (Q : B -> Prop) m f : safe P m -> (forall a, P a -> safe Q (f a)) -> safe Q (bind m f).
Proof. intros Hm Hf k Hk. unfold bind. specialize (Hm k Hk). destruct (m k); [|done..]. destruct Hm as [Hk' Ha]. by apply Hf. Qed.
Lemma safe_get Q : (forall k, Q k) -> safe Q get.
Proof. by intros HQ k Hk. Qed.
Lemma safe_gets {A} (f : kstate -> A) : keeps (gets f).
Proof. by intros k Hk. Qed.
Lemma safe_modify f : (forall k, k_processes (f k) = k_processes k) -> keeps (modify f).
Proof. intros Hf k Hk. split; [|done]. by apply (typed_frame k); [apply Hf|]. Qed.
Lemma safe_zoom {T A} (proj : kstate -> T) upd (m : M T A) : (forall t k, k_processes (upd t k) = k_processes k) -> keeps (zoom proj upd m).
Proof.
  intros Hu k Hk. unfold zoom. destruct (m (proj k)); [split; [|done] | | | done]; by apply (typed_frame k); [apply Hu|].
Qed.
Lemma safe_halt {A} (Q : A -> Prop) msg : safe Q (halt msg).
Proof. by intros k Hk. Qed.
Lemma safe_fault {A} (Q : A -> Prop) msg : safe Q (fault msg).
Proof. by intros k Hk. Qed.
Lemma safe_spin {A} (Q : A -> Prop) : safe Q spin.
Proof. by intros k Hk. Qed.
Lemma safe_assert b msg : keeps (assert_ b msg).
Proof. unfold assert_. destruct b; [by apply safe_ret | apply safe_halt]. Qed.
Lemma safe_check b msg : keeps (check_ b msg).
Proof. unfold check_. destruct b; [by apply safe_ret | apply safe_fault]. Qed.
Lemma safe_of_opt {A} (Q : A -> Prop) (o : option A) msg : (forall a, o = Some a -> Q a) -> safe Q (of_opt o msg).
Proof. intros H. unfold of_opt. destruct o; [by apply safe_ret, H | apply safe_fault]. Qed.
Lemma safe_when b m : keeps m -> keeps (when_ b m).
Proof. intros H. unfold when_. destruct b; [done | by apply safe_ret]. Qed.
Lemma safe_for n f : (forall i, keeps (f i)) -> forall i, keeps (for_ n i f).
Proof.
  intros H. induction n as [|n IH]; intros i; cbn [for_]; [by apply safe_ret|]. eapply safe_bind; [apply H|]. intros [] _. apply IH.
Qed.
Lemma safe_for_pages start end_ f : (forall a, keeps (f a)) -> keeps (for_pages start end_ f).
Proof.
  intros H. unfold for_pages. generalize (Z.to_nat ((end_ - start + PAGE_SIZE - 1) / PAGE_SIZE)). intros n. revert start.
  induction n as [|n IH]; intros start; cbn [page_loop]; (destruct (start <? end_); [|by apply safe_ret]); [apply safe_spin|].
  eapply safe_bind; [apply H|]. intros [] _. apply IH.
Qed.
#[export] Hint Resolve safe_halt safe_fault safe_spin safe_assert safe_check safe_gets : safe.

Lemma safe_get_proc x : safe (slot_ok x) (get_proc x).
Proof.
  intros k Hk. unfold get_proc, bind, get. destruct (zlookup (k_processes k) x) eqn:E; cbn; [|done]. split; [done|]. by apply (ty_slot _ Hk).
Qed.
Lemma safe_upd_proc x f : (forall p, slot_ok x p -> slot_ok x (f p)) -> keeps (upd_proc x f).
Proof.
  intros Hf k Hk. unfold upd_proc, bind, get. destruct (zlookup (k_processes k) x) as [p|] eqn:E; cbn; [|done]. split; [|done].
  eapply typed_upd; [done | exact E |]. by apply Hf, (ty_slot _ Hk).
Qed.
Lemma safe_current : keeps current.
Proof. apply safe_bind with (fun _ => True); [by apply safe_get|]. intros k _. by apply safe_of_opt. Qed.
Lemma safe_cur : safe (fun p => exists x, slot_ok x p) cur.
Proof. eapply safe_bind; [apply safe_current|]. intros x _. eapply safe_mono; [apply safe_get_proc|]. intros p Hp. by exists x. Qed.
Lemma safe_upd_cur f : (forall x p, slot_ok x p -> slot_ok x (f p)) -> keeps (upd_cur f).
Proof. intros Hf. eapply safe_bind; [apply safe_current|]. intros x _. apply safe_upd_proc, Hf. Qed.
#[export] Hint Resolve safe_get_proc safe_cur : result.
#[export] Hint Resolve safe_current safe_upd_proc safe_upd_cur : safe.

(** A slot after an update of other fields, or of these fields to good values. *)
Ltac slot_tac := intros; repeat match goal with H : slot_ok _ _ |- _ => destruct H end; split; cbn; rewrite ?zinsert_length; first [assumption | done | apply init_regs_unprivileged | (split; by left)].
#[export] Hint Extern 1 (forall p, slot_ok _ p -> slot_ok _ _) => slot_tac : safe.
#[export] Hint Extern 1 (forall x p, slot_ok x p -> slot_ok x _) => slot_tac : safe.

#[local] Opaque safe.
(** Follows the code: routines with a lemma of their own are used by it. *)
Ltac safe_leaf := solve [eauto 2 with safe | eapply safe_mono; [solve [eauto 2 with result]|done]].
Ltac safe_step :=
  lazymatch goal with
  | |- safe _ (bind get _) => apply safe_bind with (fun _ => True); [by apply safe_get | intros ? _]
  | |- safe _ (bind _ _) =>
      first [eapply safe_bind; [solve [eauto 2 with result] | intros ? ?]
            | apply safe_bind with (fun _ => True); [| intros ? _]]
  | |- safe _ (ret _) => apply safe_ret
  | |- safe _ (when_ _ _) => apply safe_when
  | |- safe _ (of_opt _ _) => apply safe_of_opt; intros ? ?
  | |- safe _ (modify _) => apply safe_modify; intros ?
  | |- safe _ (zoom _ _ _) => apply safe_zoom; intros ? ?
  | |- safe _ (for_ _ _ _) => apply safe_for; intros ?
  | |- safe _ (for_pages _ _ _) => apply safe_for_pages; intros ?
  | |- safe _ (match ?x with _ => _ end) => destruct x
  | |- _ => safe_leaf
  end.
Ltac safe_tac := repeat (safe_step; try done).

(** *** kernel.h, process.c *)

Lemma safe_kmalloc size o : keeps (kmalloc size o).
Proof. unfold kmalloc. safe_tac. Qed.
Lemma safe_kmalloc_bytes size : keeps (kmalloc_bytes size).
Proof. unfold kmalloc_bytes. apply safe_bind with (fun _ => True); [by apply safe_get|]. intros. apply safe_kmalloc. Qed.
Lemma safe_kfree a : keeps (kfree a).
Proof. unfold kfree. safe_tac. Qed.
Lemma safe_get_fh a : keeps (get_fh a).
Proof. unfold get_fh. safe_tac. Qed.
Lemma safe_get_pipe a : keeps (get_pipe a).
Proof. unfold get_pipe. safe_tac. Qed.
Lemma safe_get_bytes a : keeps (get_bytes a).
Proof. unfold get_bytes. safe_tac. Qed.
Lemma safe_fld {A} (o : option A) : keeps (fld o).
Proof. by apply safe_of_opt. Qed.
#[export] Hint Resolve safe_kmalloc safe_kmalloc_bytes safe_kfree safe_get_fh safe_get_pipe safe_get_bytes safe_fld : safe.
Lemma safe_upd_fh a f : keeps (upd_fh a f).
Proof. unfold upd_fh. safe_tac. Qed.
Lemma safe_upd_pipe a f : keeps (upd_pipe a f).
Proof. unfold upd_pipe. safe_tac. Qed.
Lemma safe_enable pdir : keeps (enable_paging pdir).
Proof. unfold enable_paging. safe_tac. Qed.
Lemma safe_disable : keeps disable_paging.
Proof. unfold disable_paging. safe_tac. Qed.
Lemma safe_page_op {A} (m : M pages A) : keeps (page_op m).
Proof. unfold page_op. safe_tac. Qed.
Lemma safe_screen_op {A} (m : M screen A) : keeps (screen_op m).
Proof. unfold screen_op. safe_tac. Qed.
Lemma safe_user_address va : keeps (user_address va).
Proof. unfold user_address, page_fault. safe_tac. Qed.
#[export] Hint Resolve safe_upd_fh safe_upd_pipe safe_enable safe_disable safe_page_op safe_screen_op safe_user_address : safe.
Lemma safe_load p : keeps (load p).
Proof. unfold load. safe_tac. Qed.
Lemma safe_store p v : keeps (store p v).
Proof. unfold store. safe_tac. Qed.
#[export] Hint Resolve safe_load safe_store : safe.
Lemma safe_load32 p : keeps (load32 p).
Proof. unfold load32. safe_tac. Qed.
Lemma safe_store32 p v : keeps (store32 p v).
Proof. unfold store32. safe_tac. Qed.
Lemma safe_kmemmove dst src len : keeps (kmemmove dst src len).
Proof. unfold kmemmove, memmove. safe_tac. Qed.
Lemma safe_read_bytes n : forall p, keeps (read_bytes n p).
Proof. induction n as [|n IH]; intros p; cbn [read_bytes]; safe_tac. Qed.
Lemma safe_write_bytes l : forall p, keeps (write_bytes p l).
Proof. induction l as [|c l IH]; intros p; cbn [write_bytes]; safe_tac. Qed.
Lemma safe_read_string n : forall p, keeps (read_string n p).
Proof. induction n as [|n IH]; intros p; cbn [read_string]; safe_tac. Qed.
Lemma safe_valid_pointer ptr size : keeps (valid_pointer ptr size).
Proof. unfold valid_pointer. safe_tac. Qed.
#[export] Hint Resolve safe_load32 safe_store32 safe_kmemmove safe_read_bytes safe_write_bytes safe_read_string safe_valid_pointer : safe.
Lemma safe_valid_string_loop n : forall str len, keeps (valid_string_loop n str len).
Proof. induction n as [|n IH]; intros str len; cbn [valid_string_loop]; safe_tac. Qed.
#[export] Hint Resolve safe_valid_string_loop : safe.
Lemma safe_valid_string str : keeps (valid_string str).
Proof. unfold valid_string. safe_tac. Qed.
Lemma safe_user_string str : keeps (user_string str).
Proof. unfold user_string. safe_tac. Qed.
Lemma safe_put_list w l : keeps (put_list w l).
Proof. unfold put_list. apply safe_modify. intros k. by destruct w. Qed.
Lemma safe_get_list w : keeps (get_list w).
Proof. apply safe_gets. Qed.
#[export] Hint Resolve safe_valid_string safe_user_string safe_put_list safe_get_list : safe.
Lemma safe_list_add w x : keeps (list_add w x).
Proof. unfold list_add. safe_tac. Qed.
Lemma safe_list_remove w x : keeps (list_remove w x).
Proof. unfold list_remove. safe_tac. Qed.
#[export] Hint Resolve safe_list_add safe_list_remove : safe.
Lemma safe_suspend x : keeps (suspend_process x).
Proof. unfold suspend_process. safe_tac. Qed.
Lemma safe_resume x : keeps (resume_process x).
Proof. unfold resume_process. safe_tac. Qed.
Lemma safe_free_pid_loop n : forall pid, keeps (free_pid_loop n pid).
Proof. induction n as [|n IH]; intros pid; cbn [free_pid_loop]; safe_tac. Qed.
#[export] Hint Resolve safe_suspend safe_resume safe_free_pid_loop : safe.
Lemma safe_get_free_pid : keeps get_free_pid.
Proof. unfold get_free_pid. safe_tac. Qed.
#[export] Hint Resolve safe_get_free_pid : safe.

(** *** pipe.c *)

Lemma safe_new_pipe : keeps new_pipe.
Proof. unfold new_pipe. safe_tac. Qed.
Lemma safe_wake_up_reader p : keeps (wake_up_reader p).
Proof. unfold wake_up_reader. safe_tac. Qed.
Lemma safe_grow_pipe b need : keeps (grow_pipe b need).
Proof. unfold grow_pipe. safe_tac. Qed.
#[export] Hint Resolve safe_new_pipe safe_wake_up_reader safe_grow_pipe : safe.
Lemma safe_write_to_pipe b buf count : keeps (write_to_pipe b buf count).
Proof. unfold write_to_pipe. safe_tac. Qed.
Lemma safe_check_buffer_free b : keeps (check_buffer_free b).
Proof. unfold check_buffer_free. safe_tac. Qed.
#[export] Hint Resolve safe_write_to_pipe safe_check_buffer_free : safe.
Lemma safe_new_pipe_reader b : keeps (new_pipe_reader b).
Proof. unfold new_pipe_reader. safe_tac. Qed.
Lemma safe_new_pipe_writer b : keeps (new_pipe_writer b).
Proof. unfold new_pipe_writer. safe_tac. Qed.
Lemma safe_set_fd fd fh : keeps (set_fd fd fh).
Proof. unfold set_fd. safe_tac. Qed.
#[export] Hint Resolve safe_new_pipe_reader safe_new_pipe_writer safe_set_fd : safe.
Lemma safe_pipe filedes : keeps (syscall_pipe filedes).
Proof. unfold syscall_pipe. safe_tac. Qed.

(** *** filedesc.c, fscalls.c *)

Lemma safe_write_to_screen data count : keeps (Filedesc.write_to_screen data count).
Proof. unfold Filedesc.write_to_screen. safe_tac. Qed.
#[export] Hint Resolve safe_write_to_screen : safe.
Lemma safe_kprintf format ap : keeps (kprintf format ap).
Proof. unfold kprintf. safe_tac. Qed.
Lemma safe_new_screen_handle : keeps new_screen_handle.
Proof. unfold new_screen_handle. safe_tac. Qed.
Lemma safe_filesystem : keeps filesystem.
Proof. apply safe_gets. Qed.
#[export] Hint Resolve safe_kprintf safe_new_screen_handle safe_filesystem : safe.
Lemma safe_entry_field g e : keeps (entry_field g e).
Proof. unfold entry_field. safe_tac. Qed.
#[export] Hint Resolve safe_entry_field : safe.
Lemma safe_new_file t : keeps (new_file t).
Proof. unfold new_file. safe_tac. Qed.
Lemma safe_call_write fh buf count : keeps (call_write fh buf count).
Proof. unfold call_write, screen_write, pipe_writer_write, pipe_reader_write, file_write. safe_tac. Qed.
Lemma safe_call_read fh buf count : keeps (call_read fh buf count).
Proof. unfold call_read, screen_read, pipe_writer_read, pipe_reader_read, file_read. safe_tac. Qed.
Lemma safe_call_destroy fh : keeps (call_destroy fh).
Proof. unfold call_destroy, screen_destroy, pipe_writer_destroy, pipe_reader_destroy, file_destroy. safe_tac. Qed.
#[export] Hint Resolve safe_new_file safe_call_write safe_call_read safe_call_destroy : safe.
Lemma safe_close_filehandle fh : keeps (close_filehandle fh).
Proof. unfold close_filehandle. safe_tac. Qed.
Lemma safe_fd_handle fd : keeps (fd_handle fd).
Proof. unfold fd_handle. safe_tac. Qed.
#[export] Hint Resolve safe_close_filehandle safe_fd_handle : safe.
Lemma safe_close fd : keeps (syscall_close fd).
Proof. unfold syscall_close. safe_tac. Qed.
Lemma safe_dup2 a b : keeps (syscall_dup2 a b).
Proof. unfold syscall_dup2. safe_tac. Qed.
Lemma safe_absolute_path path : safe (fun s => length s = Z.to_nat PATH_MAX) (absolute_path path).
Proof.
  unfold absolute_path. safe_step. apply safe_of_opt. intros s Hs.
  eapply relative_to_absolute_len; [|exact Hs]. apply length_replicate.
Qed.
Lemma safe_path_entry path : keeps (path_entry path).
Proof. unfold path_entry. safe_tac. Qed.
#[export] Hint Resolve safe_absolute_path : result.
#[export] Hint Resolve safe_path_entry safe_pipe safe_close safe_dup2 : safe.
Lemma safe_stat path buf : keeps (syscall_stat path buf).
Proof. unfold syscall_stat. safe_tac. Qed.
Lemma safe_open path flags : keeps (syscall_open path flags).
Proof. unfold syscall_open. safe_tac. Qed.
Lemma safe_user_snprintf buf size format ap : keeps (user_snprintf buf size format ap).
Proof. unfold user_snprintf. safe_tac. Qed.
#[export] Hint Resolve safe_stat safe_open safe_user_snprintf : safe.
Lemma safe_getdent fd entry : keeps (syscall_getdent fd entry).
Proof. unfold syscall_getdent. safe_tac. Qed.
Lemma safe_chdir path : keeps (syscall_chdir path).
Proof. unfold syscall_chdir. safe_tac. Qed.
Lemma safe_getcwd buf size : keeps (syscall_getcwd buf size).
Proof. unfold syscall_getcwd. safe_tac. Qed.
#[export] Hint Resolve safe_getdent safe_chdir safe_getcwd : safe.

(** *** process.c, unixproc.c *)

Lemma safe_set_filedesc x fd fh : keeps (set_filedesc x fd fh).
Proof. unfold set_filedesc. safe_tac. Qed.
#[export] Hint Resolve safe_set_filedesc : safe.
Lemma safe_snprintf_cwd x p msg : slot_ok x p ->
  safe (fun y => length y.1 = Z.to_nat PATH_MAX) (of_opt (snprintf (p_cwd p) PATH_MAX (cstr "/") []) msg).
Proof. intros H. apply safe_of_opt. intros y Hy. eapply snprintf_len; [apply (sl_cwd _ _ H) | exact Hy]. Qed.
#[export] Hint Resolve safe_snprintf_cwd : result.
Lemma safe_start_process start : keeps (start_process start).
Proof. unfold start_process. safe_tac. Qed.
Lemma safe_unmap_segment pdir a b : keeps (unmap_segment pdir a b).
Proof. unfold unmap_segment. safe_tac. Qed.
Lemma safe_close_all x : keeps (close_all x).
Proof. unfold close_all. safe_tac. Qed.
Lemma safe_orphan_children pid : keeps (orphan_children pid).
Proof. unfold orphan_children. safe_tac. Qed.
#[export] Hint Resolve safe_start_process safe_unmap_segment safe_close_all safe_orphan_children : safe.
Lemma safe_kill_process x : keeps (kill_process x).
Proof. unfold kill_process. safe_tac. Qed.
Lemma safe_map_and_copy src dest a b : keeps (map_and_copy src dest a b).
Proof. unfold map_and_copy. safe_tac. Qed.
Lemma safe_copy_filedesc parent child : keeps (copy_filedesc parent child).
Proof. unfold copy_filedesc. safe_tac. Qed.
#[export] Hint Resolve safe_kill_process safe_map_and_copy safe_copy_filedesc : safe.
Lemma safe_fork r : unprivileged r -> keeps (syscall_fork r).
Proof. intros Hr. unfold syscall_fork. safe_tac. Qed.
Lemma safe_user_argv argv i : keeps (user_argv argv i).
Proof. unfold user_argv. safe_tac. Qed.
#[export] Hint Resolve safe_fork safe_user_argv : safe.
Lemma safe_valid_argv_loop n : forall argv i, keeps (valid_argv_loop n argv i).
Proof. induction n as [|n IH]; intros argv i; cbn [valid_argv_loop]; safe_tac. Qed.
Lemma safe_count_args n : forall argv c l, keeps (count_args n argv c l).
Proof. induction n as [|n IH]; intros argv c l; cbn [count_args]; safe_tac. Qed.
Lemma safe_copy_args n : forall argv d size i pos, keeps (copy_args n argv d size i pos).
Proof. induction n as [|n IH]; intros argv d size i pos; cbn [copy_args]; safe_tac. Qed.
#[export] Hint Resolve safe_valid_argv_loop safe_count_args safe_copy_args : safe.
Lemma safe_valid_argv argv : keeps (valid_argv argv).
Proof. unfold valid_argv. safe_tac. Qed.
Lemma safe_load_page x data size pos : keeps (load_page x data size pos).
Proof. unfold load_page. safe_tac. Qed.
#[export] Hint Resolve safe_valid_argv safe_load_page : safe.
Lemma safe_replace_program x p entry : keeps (replace_program x p entry).
Proof. unfold replace_program. safe_tac. Qed.
#[export] Hint Resolve safe_replace_program : safe.
Ltac regs_tac := repeat (safe_step; try done; try (cbn [snd]; first [assumption | apply init_regs_unprivileged])).
Lemma safe_execve_entry x entry argv r : unprivileged r -> safe (fun y => unprivileged y.2) (execve_entry x entry argv r).
Proof. intros Hr. unfold execve_entry. regs_tac. Qed.
#[export] Hint Resolve safe_execve_entry : result.
Lemma safe_execve filename argv r : unprivileged r -> safe (fun y => unprivileged y.2) (syscall_execve filename argv r).
Proof. intros Hr. unfold syscall_execve. regs_tac. Qed.
#[export] Hint Resolve safe_execve : result.
Lemma safe_waitpid pid status options : keeps (syscall_waitpid pid status options).
Proof. unfold syscall_waitpid. safe_tac. Qed.

(** *** syscall.c *)

Lemma safe_getpid : keeps syscall_getpid.
Proof. unfold syscall_getpid. safe_tac. Qed.
Lemma safe_exit status : keeps (syscall_exit status).
Proof. unfold syscall_exit. safe_tac. Qed.
Lemma safe_write fd buf count : keeps (syscall_write fd buf count).
Proof. unfold syscall_write. safe_tac. Qed.
Lemma safe_read fd buf count : keeps (syscall_read fd buf count).
Proof. unfold syscall_read. safe_tac. Qed.
Lemma safe_geterrno : keeps syscall_geterrno.
Proof. unfold syscall_geterrno. safe_tac. Qed.
Lemma safe_brk a : keeps (syscall_brk a).
Proof. unfold syscall_brk. cbn zeta. safe_tac. Qed.
Lemma safe_process_exists pid : keeps (process_exists pid).
Proof. unfold process_exists. safe_tac. Qed.
#[export] Hint Resolve safe_waitpid safe_getpid safe_exit safe_write safe_read safe_geterrno safe_brk safe_process_exists : safe.
Lemma safe_kill pid : keeps (syscall_kill pid).
Proof. unfold syscall_kill. safe_tac. Qed.
Lemma safe_mailbox_slot to : keeps (mailbox_slot to).
Proof. unfold mailbox_slot. safe_tac. Qed.
Lemma safe_put_message mb msg from tag data size : keeps (put_message mb msg from tag data size).
Proof. unfold put_message. safe_tac. Qed.
#[export] Hint Resolve safe_kill safe_mailbox_slot safe_put_message : safe.
Lemma safe_send to tag data size : keeps (syscall_send to tag data size).
Proof. unfold syscall_send. safe_tac. Qed.
Lemma safe_receive msg block : keeps (syscall_receive msg block).
Proof. unfold syscall_receive. safe_tac. Qed.
Lemma safe_sarg r i : keeps (sarg r i).
Proof. unfold sarg. safe_tac. Qed.
Lemma safe_uarg r i : keeps (uarg r i).
Proof. unfold uarg. safe_tac. Qed.
#[export] Hint Resolve safe_send safe_receive safe_sarg safe_uarg : safe.
Lemma safe_dispatch call_no r : unprivileged r -> safe (fun y => unprivileged y.2) (dispatch call_no r).
Proof.
  intros Hr. unfold dispatch. cbn zeta.
  assert (Hplain : forall m : K Z, keeps m -> safe (fun y => unprivileged y.2) (res <- m; ret (res, r))).
  { intros m Hm. eapply safe_bind; [exact Hm|]. intros res _. by apply safe_ret. }
  repeat lazymatch goal with |- safe _ (if ?b then _ else _) => destruct b; [try (apply Hplain; safe_tac)|] end.
  - safe_step; [safe_tac|]. safe_step; [safe_tac|]. safe_step; [safe_tac|]. by apply safe_execve.
  - safe_step; [safe_tac|]. by apply safe_ret.
Qed.
Lemma safe_store_errno call_no res : keeps (store_errno call_no res).
Proof. unfold store_errno. safe_tac. Qed.
Lemma safe_schedule : keeps schedule.
Proof. unfold schedule. safe_tac. Qed.
#[export] Hint Resolve safe_dispatch : result.
#[export] Hint Resolve safe_store_errno safe_schedule : safe.

Section switch.
  Context (f : regs -> K regs) (Hf : forall r, unprivileged r -> safe unprivileged (f r)).
Lemma safe_syscall_body r : unprivileged r -> safe unprivileged (syscall_body f r).
Proof using Hf.
  intros Hr. unfold syscall_body. cbn zeta. safe_step. do 3 (safe_step; [safe_tac|]). eapply safe_bind; [by apply safe_dispatch|]. intros [res r'] Hr'. cbn [snd] in Hr'.
  apply safe_bind with (fun _ => True); [apply safe_store_errno|]. intros res' _. case_match; [by apply Hf|].
  safe_step; [safe_tac|]. safe_step. case_match; [by apply safe_ret | by apply Hf].
Qed.
Lemma safe_switch_body r : unprivileged r -> safe unprivileged (context_switch_body f r).
Proof using Hf.
  intros Hr. unfold context_switch_body. safe_step. safe_step; [safe_tac|]. apply safe_bind with (fun _ => True); [apply safe_schedule|]. intros next _.
  safe_step; [safe_tac|]. destruct next as [c|].
  - eapply safe_bind; [apply safe_get_proc|]. intros p Hp. safe_step; [safe_tac|]. pose proof (sl_regs _ _ Hp) as Hpr.
    case_match; [by apply Hf | by apply safe_ret].
  - safe_step; [safe_tac|]. apply safe_ret, init_regs_unprivileged.
Qed.
End switch.
Lemma safe_syscall_loop n : forall r, unprivileged r -> safe unprivileged (syscall_loop n r).
Proof.
  induction n as [|n IH]; intros r Hr; cbn [syscall_loop]; [apply safe_spin|]. apply safe_syscall_body; [|done]. intros r' Hr'. by apply safe_switch_body.
Qed.
Lemma safe_syscall r : unprivileged r -> safe unprivileged (syscall r).
Proof. apply safe_syscall_loop. Qed.
Lemma safe_context_switch r : unprivileged r -> safe unprivileged (context_switch r).
Proof. apply safe_switch_body. intros r' Hr'. by apply safe_syscall. Qed.

(** *** interrupts.c, main.c *)

Lemma safe_timer r : unprivileged r -> safe unprivileged (timer_handler r).
Proof. intros Hr. unfold timer_handler. safe_step; [safe_tac|]. by apply safe_context_switch. Qed.
Lemma safe_keyboard r code : unprivileged r -> safe unprivileged (keyboard_handler r code).
Proof. intros Hr. unfold keyboard_handler. cbn zeta. safe_step; [safe_tac|]. by apply safe_context_switch. Qed.
Lemma safe_print_regs r cr2 : keeps (print_regs r cr2).
Proof. unfold print_regs. cbn zeta. safe_tac. Qed.
#[export] Hint Resolve safe_print_regs : safe.
Lemma safe_system_halted r cr2 : keeps (system_halted r cr2).
Proof. unfold system_halted. safe_tac. Qed.
Lemma safe_user_page_fault n : keeps (user_page_fault n).
Proof. unfold user_page_fault. safe_tac. Qed.
#[export] Hint Resolve safe_system_halted safe_user_page_fault : safe.

(** What an interrupt does once the registers are saved, and its end. *)
Lemma safe_interrupt r code cr2 : unprivileged r -> safe unprivileged (interrupt_handler r code cr2).
Proof.
  intros Hr. unfold interrupt_handler. cbn zeta. safe_step. set (r1 := r <| r_fstate := _ |>). assert (H1 : unprivileged r1) by done. clearbody r1.
  apply safe_bind with unprivileged.
  - case_match; [by apply safe_timer|]. case_match; [by apply safe_keyboard|]. case_match; [by apply safe_syscall|].
    safe_step; [safe_tac|]. case_match.
    + safe_step; [safe_tac|]. safe_step. do 2 (safe_step; [safe_tac|]). by apply safe_context_switch.
    + case_match; [safe_step; [safe_tac|] |]; by apply safe_ret.
  - intros r2 H2. safe_step; [safe_tac|]. safe_step; [safe_tac|]. by apply safe_ret.
Qed.

(** An interrupt of the idle kernel, which has no process to save. *)
Lemma switch_idle f r k : k_current k = None -> context_switch_body f r k = context_switch_body f regs_zero k.
Proof. intros E. unfold context_switch_body, bind, get. by rewrite E. Qed.
Lemma timer_idle r1 r2 k : k_current k = None -> timer_handler r1 k = timer_handler r2 k.
Proof.
  intros E. unfold timer_handler, bind, modify, context_switch. set (k' := k <| k_timer_ticks := _ |>).
  assert (E' : k_current k' = None) by done. by rewrite (switch_idle _ r1 k' E'), (switch_idle _ r2 k' E').
Qed.
Lemma interrupt_idle r code cr2 k : k_current k = None -> r_int_no r = INTERRUPT_TIMER ->
  interrupt_handler r code cr2 k = interrupt_handler (regs_zero <| r_int_no := INTERRUPT_TIMER |>) code cr2 k.
Proof.
  intros E Hi. unfold interrupt_handler. cbn zeta. rewrite Hi.
  change (r_int_no (regs_zero <| r_int_no := INTERRUPT_TIMER |>)) with INTERRUPT_TIMER. rewrite Z.eqb_refl. unfold bind at 1 2 5 6, get at 1 2.
  by rewrite (timer_idle (r <| r_fstate := k_fpustate k |>) (regs_zero <| r_int_no := INTERRUPT_TIMER |> <| r_fstate := k_fpustate k |>) k E).
Qed.

(** *** Start-up *)

Lemma safe_table_op {A} (m : M tables A) : keeps (table_op m).
Proof. unfold table_op. safe_tac. Qed.
#[export] Hint Resolve safe_table_op : safe.
Lemma safe_kernel_main bt mb : keeps (kernel_main bt mb).
Proof. unfold kernel_main, setup_interrupts. safe_tac. Qed.
Lemma kernel_zero_typed e cells0 m : typed (kernel_zero e cells0 m).
Proof.
  split; [by cbn; rewrite length_replicate|]. intros x p Hp. unfold kernel_zero in Hp. cbn [k_processes] in Hp.
  unfold zlookup in Hp. case_match; [done|]. apply lookup_replicate in Hp as [-> _]. split; [done | reflexivity | reflexivity | split; by left].
Qed.
