(* ===== verification/TypeTheorems.v ===== *)
(** * The invariant of the running system *)

From S2P Require Import Prelude Constants Buddy Libc Screen Tables Page Kernel Process ProcessInv ProcessTheorems UserMemory KernelMem Pipe Filedesc Lifecycle Syscall Main TypeProofs.

(** How an interrupt is entered: from code in ring 3, whatever its registers
    hold, or, before there is a process, by the timer from the loop at the end of
    kernel_main. *)
Definition entered (k : kstate) (r : regs) : Prop :=
  unprivileged r \/ (k_current k = None /\ r_int_no r = INTERRUPT_TIMER).

(** The machine between interrupts: the kernel waits in a state; it has stopped
    in a failed assertion or a fatal exception; or it has made an access that the
    model gives no meaning to.  Of [Wild] nothing is said.  It is not always a
    stop: the kernel's memory below 6 MB is mapped in every address space and
    the processor lets ring 0 write to it, so a pointer into it that a process
    passes and the kernel does not check (the status of waitpid, the stack
    pointer behind the arguments of a call) is followed by the machine, and
    what it finds or overwrites there are the variables of the kernel. *)
Inductive machine := Running (k : kstate) | Halted (k : kstate) | Wild.
Definition after {A} (o : outcome kstate A) : machine :=
  match o with Ok _ k => Running k | Halt _ k => Halted k | Fault _ _ | Spin => Wild end.
(** What the machine reaches: the kernel is started, user code runs, whatever
    it does to its memory and to the floating point unit, or an interrupt is
    handled. *)
Inductive reaches : machine -> Prop :=
  | re_boot e cells0 m bt mb : reaches (after (kernel_main bt mb (kernel_zero e cells0 m)))
  | re_user k pg fpu : reaches (Running k) -> reaches (Running (k <| k_pages := pg |> <| k_fpustate := fpu |>))
  | re_interrupt k r code cr2 : reaches (Running k) -> entered k r -> reaches (after (interrupt_handler r code cr2 k)).

Lemma interrupt_typed k r code cr2 : typed k -> entered k r ->
  match interrupt_handler r code cr2 k with Ok r' k' => typed k' /\ unprivileged r' | Halt _ k' | Fault _ k' => typed k' | Spin => True end.
Proof.
  intros Hk [Hr|[Hc Hi]]; [by apply (safe_interrupt r code cr2 Hr)|]. rewrite interrupt_idle by done.
  apply safe_interrupt; [split; by left | done].
Qed.

(** C1. The kernel keeps its process table well-typed, from power-on through any
    sequence of interrupts, exceptions and system calls with any arguments, as
    long as it makes no wild access (see [machine]): whenever it waits for an
    interrupt, and where a failed assertion stops it, the table has its number
    of slots, every process sits in the slot of its id, the descriptor tables
    and the current directories have their lengths, and every saved context has
    the selectors of user mode (or none yet); and what a handler returns to has
    them too. *)
Theorem machine_typed m : reaches m ->
  match m with
  | Running k => typed k /\
      forall r code cr2 r' k', entered k r -> interrupt_handler r code cr2 k = Ok r' k' -> unprivileged r'
  | Halted k => typed k
  | Wild => True
  end.
Proof.
  assert (Hrun : forall k, typed k -> typed k /\
    forall r code cr2 r' k', entered k r -> interrupt_handler r code cr2 k = Ok r' k' -> unprivileged r').
  { intros k Hk. split; [done|]. intros r code cr2 r' k' Hr E. pose proof (interrupt_typed k r code cr2 Hk Hr) as H.
    rewrite E in H. apply H. }
  induction 1 as [e cells0 m bt mb | k pg fpu _ [IH _] | k r code cr2 _ [IH _] Hr].
  - pose proof (safe_kernel_main bt mb _ (kernel_zero_typed e cells0 m)) as H. unfold safe in H.
    destruct (kernel_main _ _ _); cbn; [apply Hrun, H | done..].
  - by apply Hrun, (typed_frame k).
  - pose proof (interrupt_typed k r code cr2 IH Hr) as H. destruct (interrupt_handler _ _ _ _); cbn; [apply Hrun, H | done..].
Qed.

(** The wild access of waitpid: with a status pointer into the kernel's memory
    the store of the exit status of a child leaves the model. *)
Lemma waitpid_wild k c p pid child status options pdir pa : k_current k = Some c -> zlookup (k_processes k) c = Some p ->
  zlookup (k_processes k) pid = Some child -> pid <> c -> 0 <= pid < MAX_PROCESSES ->
  p_exists child <> 0 -> p_parent_pid child = p_pid p -> p_exited child <> 0 -> status <> 0 ->
  k_paging k = Some pdir -> translate (pmem (k_pages k)) pdir status = Some pa -> pa < PAGE_START ->
  exists msg k', syscall_waitpid pid status options k = Fault msg k'.
Proof.
  intros Hc Hp Hq Hne Hr He Hpar Hex Hst Hpg Htr Hpa. unfold syscall_waitpid.
  destruct (Z.ltb_spec pid 0); [lia|]. destruct (Z.leb_spec MAX_PROCESSES pid); [lia|]. cbn [orb].
  set (k1 := k <| k_processes := zinsert c (p <| p_waiting_on := -1 |>) (k_processes k) |>).
  assert (E1 : upd_cur (fun p => p <| p_waiting_on := -1 |>) k = Ok tt k1).
  { apply wp_exact. by eapply wp_upd_cur. }
  assert (E2 : get_proc pid k1 = Ok child k1).
  { apply wp_exact. eapply wp_get_proc; [|done]. cbn. by rewrite zlookup_zinsert_ne. }
  assert (E3 : cur k1 = Ok (p <| p_waiting_on := -1 |>) k1).
  { apply wp_exact. eapply wp_cur; [exact Hc | | done]. apply zlookup_zinsert_eq. by eapply zlookup_range. }
  assert (E4 : exists msg k', store (User status) (p_exit_status child) k1 = Fault msg k').
  { unfold store, user_address, bind, get, ret. cbn. rewrite Hpg, Htr. unfold zoom, pwrite8, pread, bind, check_, page_word. cbn.
    pose proof (Z.mod_pos_bound pa 4 ltac:(lia)). destruct (Z.leb_spec PAGE_START (pa - pa mod 4)); [lia|]. cbn. eauto. }
  destruct E4 as (msg & k' & E4). exists msg, k'. unfold bind at 1. rewrite E1. unfold bind at 1. rewrite E2. unfold bind at 1. rewrite E3.
  unfold truthy. destruct (Z.eqb_spec (p_exists child) 0); [done|]. change (p_pid (p <| p_waiting_on := -1 |>)) with (p_pid p).
  rewrite Hpar, Z.eqb_refl. destruct (Z.eqb_spec (p_exited child) 0); [done|]. destruct (Z.eqb_spec status 0); [done|].
  cbn [negb orb when_]. unfold bind at 1, store32. unfold bind at 1. by rewrite E4.
Qed.

(** The machine after start-up. *)
Definition demo_env : env := mkEnv [] 0x100000 0x110000 0x100100 0x112000 0x100200 (fun _ _ => 0).
Definition demo_bt : boot := mkBoot 0x1000 0x2000 0x3000 0x4000 (replicate 49 0x100500) ∅.
Definition demo_mb : multiboot := mkMultiboot 1 0x120000 0x130000.
Definition demo_cells : list screenchar := replicate 2000 (mkChar 0 0 0).
Definition boot_demo : kstate := final (kernel_main demo_bt demo_mb) (kernel_zero demo_env demo_cells ∅).
Lemma boot_demo_eq : kernel_main demo_bt demo_mb (kernel_zero demo_env demo_cells ∅) = Ok tt boot_demo.
Proof.
  assert (H : result (kernel_main demo_bt demo_mb) (kernel_zero demo_env demo_cells ∅) = Some tt) by (vm_compute; reflexivity).
  exact (run_eq (kernel_main demo_bt demo_mb) (kernel_zero demo_env demo_cells ∅) tt H).
Qed.
#[local] Opaque boot_demo.
Lemma boot_demo_reached : reaches (Running boot_demo).
Proof. pose proof (re_boot demo_env demo_cells ∅ demo_bt demo_mb) as H. rewrite boot_demo_eq in H. exact H. Qed.
Definition first_tick : regs := regs_zero <| r_int_no := INTERRUPT_TIMER |> <| r_cs := 8 |>.
Definition ticked_demo : kstate := final (interrupt_handler first_tick 0 0) boot_demo.
Lemma first_tick_returns : exists r', interrupt_handler first_tick 0 0 boot_demo = Ok r' ticked_demo.
Proof.
  assert (H : exists r', result (interrupt_handler first_tick 0 0) boot_demo = Some r') by (eexists; vm_compute; reflexivity).
  destruct H as [r' H]. exists r'. exact (run_eq (interrupt_handler first_tick 0 0) boot_demo r' H).
Qed.
Lemma first_tick_entered : entered boot_demo first_tick.
Proof. right. split; [vm_compute; reflexivity | reflexivity]. Qed.
#[local] Opaque ticked_demo first_tick.
Lemma machine_typed_witness :
  reaches (Running boot_demo) /\ typed boot_demo /\ typed ticked_demo /\
  exists r', interrupt_handler first_tick 0 0 boot_demo = Ok r' ticked_demo /\ unprivileged r'.
Proof.
  destruct first_tick_returns as [r' E]. pose proof (re_interrupt boot_demo first_tick 0 0 boot_demo_reached first_tick_entered) as H2.
  rewrite E in H2. destruct (machine_typed (Running boot_demo) boot_demo_reached) as [T1 U1].
  destruct (machine_typed (Running ticked_demo) H2) as [T2 _].
  split; [exact boot_demo_reached|]. split; [exact T1|]. split; [exact T2|]. exists r'. split; [exact E|].
  exact (U1 first_tick 0 0 r' ticked_demo first_tick_entered E).
Defined.
