(* ===== verification/User.v ===== *)
(** * User programs (source/libc.c, buddy.c, main.c, cat.c, ls.c, find.c, sh.c)

    A program that runs in user mode is an interaction tree: its events are the
    system calls it makes, with their arguments and results as the program
    sees them (buffers as lists of bytes, the return value of a call after the
    dispatcher has turned errors into -1).  What the calls do is left to the
    handler of the events. *)

From Stdlib Require Import Ascii.
From ITree Require Import ITree Interp.Recursion.
From S2P Require Import Prelude Constants Libc Buddy.

(** ** System calls *)

Record ustat := mkUstat { us_mode : Z; us_uid : Z; us_gid : Z; us_size : Z; us_mtime : Z }.
Record message := mkMsg { msg_from : Z; msg_tag : Z; msg_size : Z; msg_data : list Z }.

(** A buffer passed to a call: bytes of the program's own memory, or an
    address that does not belong to it. *)
Inductive buffer := Mem (l : list Z) | Addr (a : Z).

Inductive sysE : Type -> Type :=
  | Getpid : sysE Z
  | Exit (status : Z) : sysE Empty_set
  | Write (fd : Z) (buf : list Z) : sysE Z
  | Read (fd count : Z) : sysE (Z * list Z)
  | Geterrno : sysE Z
  | Brk (end_ : Z) : sysE Z
  | Send (to tag : Z) (data : buffer) (size : Z) : sysE Z
  | Receive (msg : option Z) (block : Z) : sysE (Z * message)
  | Close (fd : Z) : sysE Z
  | Fork : sysE Z
  | Execve (filename : list Z) (argv : option (list (list Z))) : sysE Z
  | Waitpid (pid : Z) : sysE Z
  | Stat (path : list Z) : sysE (Z * ustat)
  | Open (path : list Z) (flags : Z) : sysE Z
  | Getdent (fd : Z) : sysE (Z * list Z)
  | Chdir (path : list Z) : sysE Z
  | Getcwd (size : Z) : sysE (option (list Z))
  | Kill (pid : Z) : sysE Z
  (** malloc and free of buddy.c, on the heap of the process. *)
  | Malloc (nbytes : Z) : sysE Z
  | Free (ptr : Z) : sysE unit
  (** The C code has no defined behaviour. *)
  | Undefined : sysE Empty_set.

Declare Scope user_scope.
Delimit Scope user_scope with user.
Notation "x <- m ; k" := (ITree.bind m (fun x => k))
  (at level 20, m at level 100, k at level 200, right associativity) : user_scope.
Notation "' p <- m ; k" := (ITree.bind m (fun x => match x with p => k end))
  (at level 20, p pattern, m at level 100, k at level 200, right associativity) : user_scope.
Notation "m ;; k" := (ITree.bind m (fun _ => k))
  (at level 100, k at level 200, right associativity) : user_scope.
#[global] Open Scope user_scope.

Section programs.
  Context {E : Type -> Type} `{HE : sysE -< E}.

Definition sys {A} (e : sysE A) : itree E A := trigger e.
Definition exit {A} (status : Z) : itree E A := v <- sys (Exit status); match v : Empty_set with end.
Definition undefined {A} : itree E A := v <- sys Undefined; match v : Empty_set with end.
Definition of_option {A} (o : option A) : itree E A := match o with Some a => Ret a | None => undefined end.

(** Strings are lists of bytes without the terminator; [c_str] is what a pointer
    to one points to, and [string_at] the string at a pointer. *)
Definition c_str (s : list Z) : list Z := s ++ [0].
Definition string_at (buf : list Z) : itree E (list Z) := n <- of_option (strlen buf); Ret (take (Z.to_nat n) buf).

(** [while (1) body]. *)
Definition forever {A} (body : itree E unit) : itree E A := ITree.iter (fun _ : unit => body;; Ret (inl tt)) tt.

(** ** libc.c

    The checks of in_user_mode hold, since these programs run in user mode. *)

(** The buffer has 4096 bytes, and the length that is written is the one the
    text would have had in a larger one. *)
Definition printf (format : list Z) (ap : list arg) : itree E Z :=
  '(buf, len) <- of_option (vsnprintf (replicate 4096 0) 4096 format ap);
  (if len <=? 4096 then sys (Write STDOUT_FILENO (take (Z.to_nat len) buf)) else undefined);;
  Ret len.
(** A format that ends in a newline. *)
Definition fmt (s : string) : list Z := bytes s ++ [10; 0].
(** [snprintf(buf,size,...)] into a local array of [size] bytes. *)
Definition snprintf_local (size : Z) (format : list Z) (ap : list arg) : itree E (list Z) :=
  '(buf, _) <- of_option (snprintf (replicate (Z.to_nat size) 0) size format ap); string_at buf.

(** [s] is NULL or a string. *)
Definition perror (s : option (list Z)) : itree E unit :=
  e <- sys Geterrno; m <- of_option (strerror e);
  match s with
  | Some (c :: s') => printf (fmt "%s: %s") [AStr (c_str (c :: s')); AStr (cstr m)];; Ret tt
  | Some [] => printf (fmt "%s") [AStr (c_str []); AStr (cstr m)];; Ret tt
  | None => undefined
  end.

Definition user_mode_assert {A} (str function : list Z) : itree E A :=
  printf (fmt "Assertion failure in %s: %s") [AStr (c_str function); AStr (c_str str)];; exit 1.
Definition assert_user (b : bool) (str function : string) : itree E unit :=
  if b then Ret tt else user_mode_assert (bytes str) (bytes function).

(** [struct DIR]: where it is and its descriptor; the entry it holds is the
    result of readdir. *)
Record DIR := mkDIR { dir_at : Z; dir_fd : Z }.
Definition SIZEOF_DIR : Z := 1036.

Definition opendir (filename : list Z) : itree E (option DIR) :=
  fd <- sys (Open filename OPEN_DIRECTORY);
  if fd <? 0 then Ret None
  else p <- sys (Malloc SIZEOF_DIR); Ret (Some (mkDIR p fd)).
Definition readdir (dirp : DIR) : itree E (option (list Z)) :=
  '(r, name) <- sys (Getdent (dir_fd dirp));
  Ret (if r =? 1 then Some name else None).
Definition closedir (dirp : DIR) : itree E Z :=
  sys (Close (dir_fd dirp));; sys (Free (dir_at dirp));; Ret 0.

(** ** buddy.c *)

(** sizeof(memarea): four words and 32 free lists; a blockinfo is one byte. *)
Definition SIZEOF_MEMAREA : Z := 144.

(** [h] is what the new memory holds. *)
Definition init_userspace_malloc (h : gmap Z Z) : itree E memarea :=
  let heap_sizep2 := 20 in
  let heap_size := shl1 heap_sizep2 in
  let memarea_size := SIZEOF_MEMAREA in
  let blocks_size := u32 (buddy_nblocks heap_sizep2 * 1) in
  let total_size := u32 (heap_size + memarea_size + blocks_size) in
  let data_end := u32 (PROCESS_DATA_BASE + total_size) in
  r <- sys (Brk data_end);
  (if negb (r =? 0) then printf (fmt "brk failed") [];; exit 1 else Ret tt);;
  let memarea_start := PROCESS_DATA_BASE in
  let heap_start := u32 (memarea_start + memarea_size) in
  Ret (buddy_init heap_sizep2 heap_start h).

(** ** Processes in the kernel image (main.c)

    The delay loops of process_a and process_b have no effect. *)

Definition process_loop (name : string) : itree E unit :=
  ITree.iter (fun iterations : Z =>
    pid <- sys Getpid;
    printf (fmt name) [AInt pid; AInt iterations];;
    Ret (inl (s32 (iterations + 1)))) 0.
Definition process_a : itree E unit := process_loop "I am process A (pid %d), iterations = %d".
Definition process_b : itree E unit := process_loop "I am process B (pid %d), iterations = %d".

Definition to_upper (c : Z) : Z := if (chr "a" <=? c) && (c <=? chr "z") then u8 (c + (chr "A" - chr "a")) else c.
(** The inner loop: until read returns 0 or an error. *)
Definition uppercase_pass : itree E unit :=
  ITree.iter (fun _ : unit =>
    '(r, buf) <- sys (Read 0 BUFSIZE);
    if 0 <? r then sys (Write STDOUT_FILENO (to_upper <$> take (Z.to_nat r) buf));; Ret (inl tt)
    else Ret (inr tt)) tt.
Definition uppercase : itree E unit := forever uppercase_pass.

(** The bytes of one read, with the number of the line. *)
Fixpoint number_bytes (l : list Z) (lineno : Z) : itree E Z :=
  match l with
  | [] => Ret lineno
  | c :: l' =>
      sys (Write STDOUT_FILENO [c]);;
      if c =? 10 then printf (cstr "%3d ") [AInt (s32 (lineno + 1))];; number_bytes l' (s32 (lineno + 1))
      else number_bytes l' lineno
  end.
Definition number_lines_pass : itree E unit :=
  printf (cstr "%3d ") [AInt 0];;
  ITree.iter (fun lineno : Z =>
    '(r, buf) <- sys (Read 0 BUFSIZE);
    if 0 <? r then n <- number_bytes (take (Z.to_nat r) buf) lineno; Ret (inl n) else Ret (inr tt)) 0.
Definition number_lines : itree E unit := forever number_lines_pass.

Definition launch_shell : itree E unit :=
  program <- snprintf_local 100 (cstr "/bin/sh") [];
  sys (Execve program None);;
  e <- sys Geterrno;
  printf (fmt "/bin/sh: execve failed: %d") [AInt e];;
  exit 1.

(** ** cat.c *)

(** The loop, with the last result of read. *)
Definition cat_loop (fd : Z) : itree E Z :=
  ITree.iter (fun _ : unit =>
    '(r, buf) <- sys (Read fd 20);
    if 0 <? r then sys (Write STDOUT_FILENO (take (Z.to_nat r) buf));; Ret (inl tt) else Ret (inr r)) tt.
Definition cat_main (argv : list (list Z)) : itree E Z :=
  match argv with
  | _ :: path :: _ =>
      fd <- sys (Open path 0);
      if fd <? 0 then perror (Some path);; Ret (-1)
      else
        r <- cat_loop fd;
        if r <? 0 then perror (Some (bytes "read"));; Ret (-1)
        else sys (Close fd);; Ret 0
  | _ => printf (fmt "Usage: cat <filename>") [];; Ret (-1)
  end.

(** ** ls.c *)

Definition S_IFDIR : Z := 0x4000.
Definition path_arg (argv : list (list Z)) : list Z := match argv with _ :: path :: _ => path | _ => bytes "." end.
(** [(statbuf.st_mode & mask) ? c : '-']. *)
Definition mode_char (mode mask : Z) (c : ascii) : arg := AInt (if truthy (Z.land mode mask) then chr c else chr "-").

Definition ls_entry (path name : list Z) : itree E unit :=
  fullpath <- snprintf_local PATH_MAX (cstr "%s/%s") [AStr (c_str path); AStr (c_str name)];
  '(r, st) <- sys (Stat fullpath);
  if r <? 0 then perror (Some fullpath)
  else
    let m := us_mode st in
    printf (cstr "%c%c%c%c%c%c%c%c%c%c ")
      [mode_char m S_IFDIR "d"; mode_char m 0x100 "r"; mode_char m 0x80 "w"; mode_char m 0x40 "x";
       mode_char m 0x20 "r"; mode_char m 0x10 "w"; mode_char m 0x8 "x";
       mode_char m 0x4 "r"; mode_char m 0x2 "w"; mode_char m 0x1 "x"];;
    (if truthy (Z.land m S_IFDIR) then printf (fmt "DIR  %-8d %s/") [AInt (us_size st); AStr (c_str name)]
     else printf (fmt "FILE %-8d %s") [AInt (us_size st); AStr (c_str name)]);;
    Ret tt.
Definition ls_main (argv : list (list Z)) : itree E Z :=
  let path := path_arg argv in
  d <- opendir path;
  match d with
  | None => perror (Some path);; Ret (-1)
  | Some dir =>
      ITree.iter (fun _ : unit =>
        entry <- readdir dir;
        match entry with
        | Some name => ls_entry path name;; Ret (inl tt)
        | None => Ret (inr tt)
        end) tt;;
      closedir dir;; Ret 0
  end.

(** ** find.c *)

(** The loop over the entries of [dir], with [find] for the recursive call; the
    result is -1 when the call below failed. *)
Definition find_loop (find : list Z -> itree E Z) (path : list Z) (dir : DIR) : itree E Z :=
  ITree.iter (fun _ : unit =>
    entry <- readdir dir;
    match entry with
    | None => Ret (inr 0)
    | Some name =>
        fullpath <- snprintf_local PATH_MAX (cstr "%s/%s") [AStr (c_str path); AStr (c_str name)];
        printf (fmt "%s") [AStr (c_str fullpath)];;
        '(r, st) <- sys (Stat fullpath);
        if r <? 0 then perror (Some fullpath);; Ret (inl tt)
        else if truthy (Z.land (us_mode st) S_IFDIR) then
          f <- find fullpath;
          Ret (if negb (f =? 0) then inr (-1) else inl tt)
        else Ret (inl tt)
    end) tt.
(** The recursion descends the directory tree; [depth] bounds it, and each level
    keeps a descriptor open. *)
Fixpoint find (depth : nat) (path : list Z) : itree E Z :=
  match depth with
  | O => ITree.spin
  | S depth' =>
      d <- opendir path;
      match d with
      | None => perror (Some path);; Ret (-1)
      | Some dir =>
          r <- find_loop (find depth') path dir;
          (* an error below returns at once, without closedir *)
          if r <? 0 then Ret (-1) else closedir dir;; Ret 0
      end
  end.
Definition find_main (depth : nat) (argv : list (list Z)) : itree E Z := find depth (path_arg argv).
End programs.
