(* ===== verification/Shell.v ===== *)
(** * The shell (source/sh.c)

    The command line is parsed in place: parse_command overwrites separators
    with terminators and returns offsets into the line. *)

From Stdlib Require Import Ascii.
From ITree Require Import ITree.
From S2P Require Import Prelude Constants Libc User.

Definition MAX_ARGS : Z := 32.
Definition SPACE : Z := chr " ".

(** ** parse_command *)

(** [n] rounds are left; [argv] holds the offsets of the tokens so far. *)
Fixpoint parse_loop (n : nat) (line : list Z) (len pos start : Z) (argv : list Z) (max : Z) : option (list Z * list Z) :=
  match n with
  | O => Some (line, argv)
  | S n' =>
      c ← zlookup line pos;
      if (c =? 10) || (c =? SPACE) || (pos =? len) then
        let line := zinsert pos 0 line in
        let argv := if (start <? pos) && (Z.of_nat (length argv) + 1 <? max) then argv ++ [start] else argv in
        parse_loop n' line len (pos + 1) (pos + 1) argv max
      else parse_loop n' line len (pos + 1) start argv max
  end.
(** The line afterwards, and [argv]. *)
Definition parse_command (line : list Z) (max : Z) : option (list Z * list Z) :=
  len ← strlen line;
  parse_loop (Z.to_nat (len + 1)) line len 0 0 [] max.

(** The string at an offset. *)
Definition string_from (line : list Z) (off : Z) : option (list Z) :=
  let s := drop (Z.to_nat off) line in n ← strlen s; Some (take (Z.to_nat n) s).

Section shell.
  Context {E : Type -> Type} `{HE : sysE -< E}.

(** ** Commands *)

Definition run_program (filename : list Z) (argv : list (list Z)) : itree E unit :=
  pid <- sys Fork;
  if pid <? 0 then perror (Some (bytes "fork"))
  else if pid =? 0 then
    sys (Execve filename (Some argv));;
    perror (Some (bytes "execve"));;
    exit 1
  else
    r <- sys (Waitpid pid);
    if r <? 0 then perror (Some (bytes "waitpid")) else Ret tt.

Definition is_command (s : list Z) (name : string) : itree E bool :=
  r <- of_option (strcmp (c_str s) (cstr name)); Ret (negb (truthy r)).

(** The command with its arguments; the result is the new value of [done]. *)
Definition run_command (argv : list (list Z)) (done_ : bool) : itree E bool :=
  match argv with
  | [] => Ret done_
  | cmd :: args =>
      is_cd <- is_command cmd "cd";
      if (is_cd : bool) then
        match args with
        | [] => printf (fmt "Usage: cd <path>") [];; Ret done_
        | path :: _ => r <- sys (Chdir path); (if r <? 0 then perror (Some path) else Ret tt);; Ret done_
        end
      else
        is_pwd <- is_command cmd "pwd";
        if (is_pwd : bool) then
          p <- sys (Getcwd PATH_MAX);
          match p with
          | None => perror (Some (bytes "getcwd"))
          | Some path => printf (fmt "%s") [AStr (c_str path)];; Ret tt
          end;;
          Ret done_
        else
          is_exit <- is_command cmd "exit";
          if (is_exit : bool) then Ret true
          else
            cmdpath <- snprintf_local PATH_MAX (cstr "/bin/%s") [AStr (c_str cmd)];
            '(r, _) <- sys (Stat cmdpath);
            if r =? 0 then run_program cmdpath argv;; Ret done_
            else printf (fmt "%s: command not found") [AStr (c_str cmd)];; Ret done_
  end.

(** [line] is the memory the pointer points to; it is returned as
    parse_command leaves it, with the new value of [done]. *)
Definition process_line (line : list Z) (done_ : bool) : itree E (list Z * bool) :=
  '(line', offs) <- of_option (parse_command line MAX_ARGS);
  argv <- of_option (mapM (string_from line') offs);
  d <- run_command argv done_;
  Ret (line', d).

(** ** The main loop *)

(** [input[i..i+length l) = l]. *)
Definition store_at (i : nat) (l input : list Z) : list Z := take i input ++ l ++ drop (i + length l) input.

Section main.
  Context (process_line : list Z -> bool -> itree E (list Z * bool)).

(** [while (pos < end)]: [n] rounds are left.  The state is the buffer, [pos],
    [linestart] and [done]. *)
Fixpoint scan_lines (n : nat) (input : list Z) (pos linestart : nat) (done_ : bool) : itree E (list Z * nat * bool) :=
  match n with
  | O => Ret (input, linestart, done_)
  | S n' =>
      c <- of_option (input !! pos);
      if c =? 10 then
        let input := <[pos := 0]> input in
        '(line, d) <- process_line (drop linestart input) done_;
        let input := store_at linestart line input in
        printf (cstr "$ ") [];;
        scan_lines n' input (S pos) (S pos) d
      else scan_lines n' input (S pos) linestart done_
  end.

(** One round, after a read of [r] bytes to [&input[pos]]; returns the buffer
    and the new [pos]. *)
Definition shell_round (input : list Z) (pos : nat) (r : Z) (buf : list Z) : itree E (list Z * nat * bool) :=
  let data := take (Z.to_nat r) buf in
  let input := <[(pos + length data)%nat := 0]> (store_at pos data input) in
  sys (Write STDOUT_FILENO data);;
  '(input, linestart, d) <- scan_lines (length data) input pos 0 false;
  let n := (pos + length data - linestart)%nat in
  let input := store_at 0 (take n (drop linestart input)) input in
  if (Z.of_nat n) <? BUFSIZE then Ret (input, n, d)
  else printf (cstr "Line too long; ignored") [];; Ret (input, O, d).

(** The state between rounds: the buffer, [pos] and [done]; the result is the
    last result of read, which is not set when [done] ends the loop. *)
Definition shell_loop : itree E (option Z) :=
  ITree.iter (fun '(input, pos, done_) =>
    if done_ : bool then Ret (inr None)
    else
      '(r, buf) <- sys (Read 0 BUFSIZE);
      if 0 <? r then '(input, pos, d) <- shell_round input pos r buf; Ret (inl (input, pos, d))
      else Ret (inr (Some r))) (replicate (Z.to_nat (2 * BUFSIZE + 1)) 0, O, false).
End main.

(** When [exit] has ended the loop, [r] is the positive result of the last
    read. *)
Definition sh_main : itree E Z :=
  pid <- sys Getpid;
  printf (fmt "Shell started, pid = %d") [AInt pid];;
  printf (cstr "$ ") [];;
  r <- shell_loop process_line;
  match r with
  | Some r => if r <? 0 then perror (Some (bytes "read")) else Ret tt
  | None => Ret tt
  end;;
  Ret 0.
End shell.
