(* ===== verification/Mptest.v ===== *)
(** * The message passing tests (source/mptest.c) *)

From Stdlib Require Import Ascii.
From ITree Require Import ITree.
From S2P Require Import Prelude Constants Libc User.

Definition TAG_TEST : Z := 1.
Definition TAG_PING : Z := 2.
Definition TAG_PONG : Z := 3.
Definition TAG_COMMAND : Z := 4.
Definition TAG_RESPONSE : Z := 5.
Definition TAG_NEIGHBOUR : Z := 6.
Definition TAG_TOKEN : Z := 7.
Definition NSLAVES : nat := 6.
Definition RING_SIZE : Z := 4.
Definition RING_MAX_PASSES : Z := 100.
Definition KEY_Q : Z := chr "q".

(** An [int] in memory. *)
Definition int_bytes (x : Z) : list Z := let u := u32 x in [u mod 256; u / 256 mod 256; u / 65536 mod 256; u / 16777216].
Definition bytes_int (l : list Z) : option Z :=
  match l with a :: b :: c :: d :: _ => Some (s32 (a + 256 * b + 65536 * c + 16777216 * d)) | _ => None end.
(** [((char* )msg.data)[0]]. *)
Definition first_char (m : message) : option Z := s8 <$> head (msg_data m).

Section tests.
  Context {E : Type -> Type} `{HE : sysE -< E}.

(** The macro [try]; [str] is the text of the expression. *)
Definition try_ (str : string) (m : itree E Z) : itree E Z :=
  r <- m; (if r <? 0 then perror (Some (bytes str));; exit 1 else Ret tt);; Ret r.
(** [try(receive(&msg,block))]. *)
Definition try_receive (str : string) (block : Z) : itree E message :=
  '(r, m) <- sys (Receive None block);
  (if r <? 0 then perror (Some (bytes str));; exit 1 else Ret tt);; Ret m.
Definition int_at (m : message) : itree E Z := of_option (bytes_int (msg_data m)).
Definition say (s : string) : itree E unit := printf (fmt s) [];; Ret tt.

(** ** Keys sent to a child *)

(** [while ((1 == read(0,&c,1)) && ('q' != c)) send(child_pid,TAG_TEST,&c,1)]. *)
Definition send_keys (child_pid : Z) : itree E unit :=
  ITree.iter (fun _ : unit =>
    '(r, buf) <- sys (Read 0 1);
    if r =? 1 then
      c <- of_option (head buf);
      if c =? KEY_Q then Ret (inr tt) else sys (Send child_pid TAG_TEST (Mem [c]) 1);; Ret (inl tt)
    else Ret (inr tt)) tt.
Definition stop_child (child_pid : Z) : itree E unit :=
  try_ "kill(child_pid)" (sys (Kill child_pid));; try_ "waitpid(child_pid,NULL,0)" (sys (Waitpid child_pid));; Ret tt.

Definition nb_child : itree E unit :=
  ITree.iter (fun counter : Z =>
    let counter := s32 (counter + 1) in
    '(r, msg) <- sys (Receive None 0);
    if r =? 0 then
      c <- of_option (first_char msg);
      printf (fmt "Non-blocking receive: tag %d, size %d, char %d, counter = %d")
        [AInt (msg_tag msg); AInt (msg_size msg); AInt c; AInt counter];;
      Ret (inl 0)
    else Ret (inl counter)) 0.
Definition test_nb_receive_simple : itree E unit :=
  child_pid <- try_ "fork()" (sys Fork);
  (if child_pid =? 0 then nb_child
   else
     say "Press a key to send a message to the child; q to finish";;
     send_keys child_pid;;
     stop_child child_pid);;
  say "Non-blocking receive - simple test: finished".

Definition b_child : itree E unit :=
  forever
    (msg <- try_receive "receive(&msg,1)" 1;
     c <- of_option (first_char msg);
     printf (fmt "Blocking receive: tag %d, size %d, char %d") [AInt (msg_tag msg); AInt (msg_size msg); AInt c];;
     Ret tt).
Definition test_b_receive_simple : itree E unit :=
  child_pid <- try_ "fork()" (sys Fork);
  (if child_pid =? 0 then b_child
   else
     say "Press a key to send a message to the child; q to finish";;
     send_keys child_pid;;
     stop_child child_pid);;
  say "Blocking receive - simple test: finished".

(** ** Messages to oneself *)

Definition test_nb_receive_advanced : itree E unit :=
  let testval := 1234 in
  '(res, _) <- sys (Receive None 0);
  err <- sys Geterrno;
  printf (fmt "First receive(): res = %d, errno = %d; should be -1 and %d (EAGAIN)") [AInt res; AInt err; AInt EAGAIN];;
  me <- sys Getpid;
  res <- sys (Send me TAG_TEST (Mem (int_bytes testval)) 4);
  printf (fmt "First send(): res = %d; should be 0") [AInt res];;
  '(res, msg) <- sys (Receive None 0);
  printf (fmt "Second receive(): res = %d; should be 0") [AInt res];;
  (if res =? 0 then
     printf (fmt "tag = %d (should be %d)") [AInt (msg_tag msg); AInt TAG_TEST];;
     printf (fmt "size = %d (should be %d)") [AInt (msg_size msg); AInt 4];;
     r_testval <- int_at msg;
     printf (fmt "r_testval = %d (should be %d)") [AInt r_testval; AInt testval];; Ret tt
   else Ret tt);;
  say "Non-blocking receive - advanced test: finished".

(** [while (nsent < 10000)]: [n] rounds are left; the result is [nsent]. *)
Fixpoint send_all (n : nat) (nsent : Z) : itree E Z :=
  match n with
  | O => Ret nsent
  | S n' =>
      me <- sys Getpid;
      r <- sys (Send me TAG_TEST (Mem (int_bytes nsent)) 4);
      if negb (r =? 0) then Ret nsent else send_all n' (nsent + 1)
  end.
(** [for (i = 0; i < nsent; i++)]. *)
Fixpoint receive_all (n : nat) (i : Z) : itree E unit :=
  match n with
  | O => Ret tt
  | S n' =>
      msg <- try_receive "receive(&msg,0)" 0;
      assert_user (TAG_TEST =? msg_tag msg) "TAG_TEST == msg.tag" "test_nb_multiple_messages";;
      assert_user (4 =? msg_size msg) "sizeof(int) == msg.size" "test_nb_multiple_messages";;
      v <- int_at msg;
      assert_user (v =? i) ("*(int*" +:+ ")msg.data == i") "test_nb_multiple_messages";;
      receive_all n' (i + 1)
  end.
Definition test_nb_multiple_messages : itree E unit :=
  say "Checking how many messages can be outstanding...";;
  nsent <- send_all (Z.to_nat 10000) 0;
  err <- sys Geterrno;
  printf (fmt "send() returned error after %d messages") [AInt nsent];;
  printf (fmt "errno = %d; should be %d (ENOMEM)") [AInt err; AInt ENOMEM];;
  receive_all (Z.to_nat nsent) 0;;
  say "Received all messages ok";;
  '(res, _) <- sys (Receive None 0);
  err <- sys Geterrno;
  printf (fmt "Final receive() returned %d, errno %d; should be -1 and %d (EAGAIN)") [AInt res; AInt err; AInt EAGAIN];;
  say "Non-blocking receive with multiple messages: finished".

(** ** Ping-pong *)

(** [n] rounds are left; the count is printed. *)
Fixpoint ping (n : nat) (count : Z) (pong_pid : Z) : itree E unit :=
  match n with
  | O => Ret tt
  | S n' =>
      try_ "send(pong_pid,TAG_PING,NULL,0)" (sys (Send pong_pid TAG_PING (Addr 0) 0));;
      try_receive "receive(&msg,1)" 1;;
      printf (fmt "ping: received pong %d") [AInt count];;
      ping n' (count + 1) pong_pid
  end.
Fixpoint pong (n : nat) (count : Z) : itree E unit :=
  match n with
  | O => Ret tt
  | S n' =>
      msg <- try_receive "receive(&msg,1)" 1;
      printf (fmt "pong: received ping %d") [AInt count];;
      try_ "send(msg.from,TAG_PONG,NULL,0)" (sys (Send (msg_from msg) TAG_PONG (Addr 0) 0));;
      pong n' (count + 1)
  end.
Definition test_ping_pong : itree E unit :=
  pong_pid <- try_ "fork()" (sys Fork);
  if pong_pid =? 0 then pong 100 1;; exit 0
  else
    ping_pid <- try_ "fork()" (sys Fork);
    if ping_pid =? 0 then ping 100 1 pong_pid;; exit 0
    else
      try_ "waitpid(pong_pid,NULL,0)" (sys (Waitpid pong_pid));;
      try_ "waitpid(ping_pid,NULL,0)" (sys (Waitpid ping_pid));;
      say "Ping-pong: finished".

(** ** Broadcast *)

(** A string in a message, as the length and bytes send takes. *)
Definition send_string (to tag : Z) (s : list Z) : itree E Z := sys (Send to tag (Mem (c_str s)) (Z.of_nat (length s) + 1)).

Definition slave : itree E unit :=
  msg <- try_receive "receive(&msg,1)" 1;
  pid <- sys Getpid;
  str <- snprintf_local 100 (bytes "I am process %d, and got " ++ [34; 37; 115; 34; 0]) [AInt pid; AStr (msg_data msg)];
  send_string (msg_from msg) TAG_RESPONSE str;; Ret tt.

(** Forking [n] processes that run [child i]; the result is their ids. *)
Fixpoint fork_all (n : nat) (i : Z) (child : Z -> itree E unit) : itree E (list Z) :=
  match n with
  | O => Ret []
  | S n' =>
      pid <- try_ "fork()" (sys Fork);
      if pid =? 0 then child i;; exit 0
      else pids <- fork_all n' (i + 1) child; Ret (pid :: pids)
  end.
Fixpoint each (l : list Z) (f : Z -> itree E unit) : itree E unit :=
  match l with [] => Ret tt | x :: l' => f x;; each l' f end.
Fixpoint responses (n : nat) : itree E unit :=
  match n with
  | O => Ret tt
  | S n' =>
      msg <- try_receive "receive(&msg,1)" 1;
      printf (fmt "Slave %d said: %s") [AInt (msg_from msg); AStr (msg_data msg)];;
      responses n'
  end.
Definition test_broadcast : itree E unit :=
  pids <- fork_all NSLAVES 0 (fun _ => slave);
  each pids (fun pid =>
    str <- snprintf_local 100 (cstr "You are process %d") [AInt pid];
    send_string pid TAG_COMMAND str;; Ret tt);;
  responses NSLAVES;;
  each pids (fun pid => try_ "waitpid(slave_pids[i],NULL,0)" (sys (Waitpid pid));; Ret tt);;
  say "Broadcast: finished".

(** ** Ring *)

(** What a process does with a token. *)
Definition pass_token (my_index main_pid next token : Z) : itree E unit :=
  let token := s32 (token + 1) in
  let next_index := (my_index + 1) mod RING_SIZE in
  if token <? RING_MAX_PASSES then
    printf (fmt "%d: got token (value = %d), passing to %d") [AInt my_index; AInt token; AInt next_index];;
    try_ ("send(next,TAG_TOKEN,(void*" +:+ ")&token,sizeof(int))") (sys (Send next TAG_TOKEN (Mem (int_bytes token)) 4));; Ret tt
  else
    printf (fmt "%d: got token (value = %d), passing back to main process") [AInt my_index; AInt token];;
    sys (Send main_pid TAG_TOKEN (Mem (int_bytes token)) 4);; Ret tt.
Definition expect_int (tag : Z) (tag_text size_text function : string) : itree E Z :=
  msg <- try_receive "receive(&msg,1)" 1;
  assert_user (tag =? msg_tag msg) tag_text function;;
  assert_user (4 =? msg_size msg) size_text function;;
  int_at msg.
Definition ring (my_index main_pid : Z) : itree E unit :=
  next <- expect_int TAG_NEIGHBOUR "TAG_NEIGHBOUR == msg.tag" "sizeof(pid_t) == msg.size" "ring";
  forever
    (token <- expect_int TAG_TOKEN "TAG_TOKEN == msg.tag" "sizeof(int) == msg.size" "ring";
     pass_token my_index main_pid next token).
(** The list rotated by one: the neighbours. *)
Definition rotate1 (l : list Z) : list Z := match l with [] => [] | x :: l' => l' ++ [x] end.
Fixpoint send_neighbours (pids nexts : list Z) : itree E unit :=
  match pids, nexts with
  | p :: pids', n :: nexts' => sys (Send p TAG_NEIGHBOUR (Mem (int_bytes n)) 4);; send_neighbours pids' nexts'
  | _, _ => Ret tt
  end.
Definition test_ring : itree E unit :=
  main_pid <- sys Getpid;
  pids <- fork_all (Z.to_nat RING_SIZE) 0 (fun i => ring i main_pid);
  send_neighbours pids (rotate1 pids);;
  first <- of_option (head pids);
  sys (Send first TAG_TOKEN (Mem (int_bytes 0)) 4);;
  token <- expect_int TAG_TOKEN "TAG_TOKEN == msg.tag" "sizeof(int) == msg.size" "test_ring";
  printf (fmt "Main process received token: value = %d") [AInt token];;
  each pids (fun pid =>
    try_ "kill(pids[i])" (sys (Kill pid));; try_ "waitpid(pids[i],NULL,0)" (sys (Waitpid pid));; Ret tt);;
  say "Ring: finished".

(** ** Errors *)

Definition BAD_ADDRESS : Z := 0xD12F301A.
(** [data] holds whatever the stack held. *)
Definition test_error_handling (data : list Z) : itree E unit :=
  let report (res err : Z) (expected : Z) (name : string) :=
    printf (bytes "res = %d, err = %d; should be -1 and %d (" ++ bytes name ++ [41; 10; 0]) [AInt res; AInt err; AInt expected];; Ret tt in
  say "Testing send() with invalid size...";;
  me <- sys Getpid;
  res <- sys (Send me TAG_TEST (Mem data) (MAX_MESSAGE_SIZE + 1));
  err <- sys Geterrno;
  report res err EINVAL "EINVAL"%string;;
  say "Testing send() with invalid pointer...";;
  me <- sys Getpid;
  res <- sys (Send me TAG_TEST (Addr BAD_ADDRESS) 20);
  err <- sys Geterrno;
  report res err EFAULT "EFAULT"%string;;
  say "Testing send() with non-existant process...";;
  res <- sys (Send 99 TAG_TEST (Mem data) 1);
  err <- sys Geterrno;
  report res err ESRCH "ESRCH"%string;;
  say "Testing receive() with invalid pointer...";;
  '(res, _) <- sys (Receive (Some BAD_ADDRESS) 0);
  err <- sys Geterrno;
  report res err EFAULT "EFAULT"%string.

(** ** The menu *)

Definition mptest_command (stale : list Z) (c : Z) : itree E unit :=
  if c =? chr "1" then test_nb_receive_simple
  else if c =? chr "2" then test_nb_receive_advanced
  else if c =? chr "3" then test_nb_multiple_messages
  else if c =? chr "4" then test_b_receive_simple
  else if c =? chr "5" then test_ping_pong
  else if c =? chr "6" then test_broadcast
  else if c =? chr "7" then test_ring
  else if c =? chr "8" then test_error_handling stale
  else if c =? chr "q" then exit 0
  else Ret tt.
Definition mptest_main (stale : list Z) : itree E Z :=
  say "";; say "Message passing tests";; say "---------------------";;
  forever
    (say "";;
     say "Enter test to run:";;
     say "1. Non-blocking receive - simple test";;
     say "2. Non-blocking receive - advanced test";;
     say "3. Non-blocking receive with multiple messages";;
     say "4. Blocking receive - simple test";;
     say "5. Ping-pong";;
     say "6. Broadcast";;
     say "7. Ring";;
     say "8. Error handling";;
     say "q. Quit test program";;
     '(r, buf) <- sys (Read 0 1);
     if r =? 1 then say "";; c <- of_option (head buf); mptest_command stale c else Ret tt).
End tests.
