(* ===== verification/UserLogic.v ===== *)
(** * Total correctness of user programs

    [uwp env H Q t w]: in the world [w] and against every behaviour that [env]
    allows, the program [t] makes finitely many calls, and returns with [Q] or is
    ended by a call with [H]. *)

From ITree Require Import ITree.
From S2P Require Import Prelude Constants Libc LibcProofs PrintProofs User.

Lemma observe_bind {A B} (t : itree sysE A) (k : A -> itree sysE B) : observe (ITree.bind t k) =
  match observe t with
  | RetF r => observe (k r)
  | TauF t' => TauF (ITree.bind t' k)
  | VisF e h => VisF e (fun x => ITree.bind (h x) k)
  end.
Proof.
  change (observe (ITree.bind t k)) with (observe (match observe t with
    | RetF r => k r | TauF t' => Tau (ITree.bind t' k) | VisF e h => Vis e (fun x => ITree.bind (h x) k) end)).
  destruct (observe t); reflexivity.
Qed.

(** An environment of a program: [answers e w a w']: the call [e] made in [w]
    may return [a] and lead to [w']; [stops e w w']: it may end the program
    instead (exit, or an execve that succeeds) and leave [w']. *)
Record environment (W : Type) := mkEnv {
  answers : forall A, sysE A -> W -> A -> W -> Prop;
  stops : forall A, sysE A -> W -> W -> Prop }.
Arguments mkEnv {W} _ _.
Arguments answers {W} _ {A} _ _ _ _.
Arguments stops {W} _ {A} _ _ _.

Section uwp.
  Context {W : Type} (env : environment W) (H : W -> Prop).

(** Against every behaviour of the environment [t] makes finitely many calls, and
    then returns with [Q] or is ended by a call with [H]. *)
Inductive uwp {A} (Q : A -> W -> Prop) (t : itree sysE A) (w : W) : Prop :=
  | uwp_ret_ a : observe t = RetF a -> Q a w -> uwp Q t w
  | uwp_tau_ t' : observe t = TauF t' -> uwp Q t' w -> uwp Q t w
  | uwp_vis_ {B} (e : sysE B) k : observe t = VisF e k ->
      ((exists a w', answers env e w a w') \/ (exists w', stops env e w w')) ->
      (forall a w', answers env e w a w' -> uwp Q (k a) w') ->
      (forall w', stops env e w w' -> H w') -> uwp Q t w.

Lemma uwp_ret {A} (Q : A -> W -> Prop) a w : Q a w -> uwp Q (Ret a) w.
Proof using. intros HQ. by eapply uwp_ret_. Qed.
Lemma uwp_observe {A} (Q : A -> W -> Prop) t t' w : observe t = observe t' -> uwp Q t w -> uwp Q t' w.
Proof using.
  intros E Ht. destruct Ht as [a Ea HQ|t1 Et Ht|B e k Ee He Hk Hs].
  - eapply uwp_ret_; [by rewrite <- E | done].
  - eapply uwp_tau_; [by rewrite <- E | done].
  - eapply uwp_vis_; [by rewrite <- E | done | done | done].
Qed.
Lemma uwp_mono {A} (P Q : A -> W -> Prop) t w : uwp P t w -> (forall a w', P a w' -> Q a w') -> uwp Q t w.
Proof using.
  intros Ht HPQ. induction Ht as [t w a Ea HP|t w t' Et Ht IH|t w B e k Ee He Hk IH Hs].
  - eapply uwp_ret_; eauto.
  - eapply uwp_tau_; eauto.
  - eapply uwp_vis_; eauto.
Qed.
Lemma uwp_bind {A B} (m : itree sysE A) (k : A -> itree sysE B) (Q : B -> W -> Prop) w :
  uwp (fun a w' => uwp Q (k a) w') m w -> uwp Q (ITree.bind m k) w.
Proof using.
  intros Hm. induction Hm as [t w a Ea HP|t w t' Et Ht IH|t w X e h Ee He Hk IH Hs].
  - eapply uwp_observe; [|exact HP]. by rewrite observe_bind, Ea.
  - eapply uwp_tau_; [by rewrite observe_bind, Et | exact IH].
  - eapply uwp_vis_; [by rewrite observe_bind, Ee | exact He | exact IH | exact Hs].
Qed.
Lemma uwp_sys {A} (e : sysE A) (Q : A -> W -> Prop) w :
  ((exists a w', answers env e w a w') \/ (exists w', stops env e w w')) ->
  (forall a w', answers env e w a w' -> Q a w') -> (forall w', stops env e w w' -> H w') -> uwp Q (sys e) w.
Proof using.
  intros He Ha Hs. eapply uwp_vis_; [reflexivity | exact He | | exact Hs].
  intros a w' Hw. apply uwp_ret. by apply Ha.
Qed.
(** One round of a loop. *)
Lemma uwp_iter {I R} (body : I -> itree sysE (I + R)) i (Q : R -> W -> Prop) w :
  uwp (fun lr w' => match lr with inl j => uwp Q (ITree.iter body j) w' | inr r => Q r w' end) (body i) w ->
  uwp Q (ITree.iter body i) w.
Proof using.
  intros Hb. apply (uwp_observe Q (ITree.bind (body i) (fun lr => ITree.on_left lr l (Tau (ITree.iter body l))))
    (ITree.iter body i)); [reflexivity|].
  apply uwp_bind. eapply uwp_mono; [exact Hb|]. intros [j|r] w' Hr; [by eapply uwp_tau_ | by apply uwp_ret].
Qed.
Lemma uwp_of_option {A} (o : option A) a (Q : A -> W -> Prop) w : o = Some a -> Q a w -> uwp Q (of_option o) w.
Proof using. intros -> HQ. by apply uwp_ret. Qed.
End uwp.
