(* ===== verification/UserWorld.v ===== *)
(** * What system calls do, as a user program sees it

    The environment the theorems about user programs are stated against: files
    and directories, descriptors, the heap of the process, its mailbox and its
    children.  A read may return any nonempty prefix of what is left, calls that
    depend on other processes may fail, and a call that is not described here has
    no answer, so a verified program never makes it.  errno is what the last call
    that failed left; that a call that succeeds sets it to 0 is described for the
    message calls only, as no program here looks at it then. *)

From Stdlib Require Import Ascii.
From ITree Require Import ITree.
From S2P Require Import Prelude Constants Libc LibcProofs PrintProofs User UserLogic.

Inductive node := NFile (st : ustat) (contents : list Z) | NDir (st : ustat) (names : list (list Z)).
Definition node_stat (n : node) : ustat := match n with NFile st _ | NDir st _ => st end.
(** What a descriptor has not returned yet. *)
Inductive stream := Bytes (rest : list Z) | Names (rest : list (list Z)).
(** The calls that act on other processes or end the program. *)
Inductive action :=
  | AChdir (path : list Z) | AGetcwd
  | AFork | AForkFailed | AChild | AWait
  | AExec (filename : list Z) (argv : option (list (list Z))) | AExit (status : Z).

Record uworld := mkWorld {
  w_out : list Z;
  w_view : list Z -> option node;
  w_fds : gmap Z stream;
  w_heap : gset Z;
  w_mail : list message;
  w_pid : Z;
  w_errno : Z;
  w_children : gset Z;
  w_log : list action }.

Definition with_out (f : list Z -> list Z) (w : uworld) : uworld :=
  mkWorld (f (w_out w)) (w_view w) (w_fds w) (w_heap w) (w_mail w) (w_pid w) (w_errno w) (w_children w) (w_log w).
Definition with_view v (w : uworld) : uworld :=
  mkWorld (w_out w) v (w_fds w) (w_heap w) (w_mail w) (w_pid w) (w_errno w) (w_children w) (w_log w).
Definition with_fds f (w : uworld) : uworld :=
  mkWorld (w_out w) (w_view w) (f (w_fds w)) (w_heap w) (w_mail w) (w_pid w) (w_errno w) (w_children w) (w_log w).
Definition with_heap f (w : uworld) : uworld :=
  mkWorld (w_out w) (w_view w) (w_fds w) (f (w_heap w)) (w_mail w) (w_pid w) (w_errno w) (w_children w) (w_log w).
Definition with_mail f (w : uworld) : uworld :=
  mkWorld (w_out w) (w_view w) (w_fds w) (w_heap w) (f (w_mail w)) (w_pid w) (w_errno w) (w_children w) (w_log w).
Definition with_errno e (w : uworld) : uworld :=
  mkWorld (w_out w) (w_view w) (w_fds w) (w_heap w) (w_mail w) (w_pid w) e (w_children w) (w_log w).
Definition with_children f (w : uworld) : uworld :=
  mkWorld (w_out w) (w_view w) (w_fds w) (w_heap w) (w_mail w) (w_pid w) (w_errno w) (f (w_children w)) (w_log w).
Definition with_log (l : list action) (w : uworld) : uworld :=
  mkWorld (w_out w) (w_view w) (w_fds w) (w_heap w) (w_mail w) (w_pid w) (w_errno w) (w_children w) (w_log w ++ l).
Definition put_out (l : list Z) : uworld -> uworld := with_out (fun o => o ++ l).

Definition fails (e : Z) (w : uworld) (r : Z) (w' : uworld) : Prop := r = -1 /\ w' = with_errno e w.
Definition absolute (path : list Z) : Prop := head path = Some (chr "/"%char).

Definition unix_read (fd count : Z) (w : uworld) (x : Z * list Z) (w' : uworld) : Prop :=
  exists rest data junk, w_fds w !! fd = Some (Bytes rest) /\ data `prefix_of` rest /\
    Z.of_nat (length data) <= count /\ (data = [] -> rest = []) /\ x = (Z.of_nat (length data), data ++ junk) /\
    w' = with_fds <[fd := Bytes (drop (length data) rest)]> w.
Definition unix_open (path : list Z) (flags : Z) (w : uworld) (r : Z) (w' : uworld) : Prop :=
  if (MAX_FDS <=? Z.of_nat (size (w_fds w))) then fails EMFILE w r w'
  else match w_view w path with
       | None => fails ENOENT w r w'
       | Some (NFile _ contents) =>
           if flags =? OPEN_DIRECTORY then fails ENOTDIR w r w'
           else 0 <= r /\ w_fds w !! r = None /\ w' = with_fds <[r := Bytes contents]> w
       | Some (NDir _ names) =>
           if flags =? OPEN_DIRECTORY then 0 <= r /\ w_fds w !! r = None /\ w' = with_fds <[r := Names names]> w
           else fails EISDIR w r w'
       end.
(** The messages a process sends to itself.  That the kernel's calls answer like
    this is [messages_refine] of MailRefinement.v. *)
Definition MAILBOX : nat := 8.
Definition unix_send (to tag : Z) (data : buffer) (size : Z) (w : uworld) (r : Z) (w' : uworld) : Prop :=
  exists d, data = Mem d /\ to = w_pid w /\ 0 <= size <= Z.of_nat (length d) /\ size <= MAX_MESSAGE_SIZE /\
    if decide (length (w_mail w) < MAILBOX)%nat then
      r = 0 /\ w' = with_errno 0 (with_mail (fun m => m ++ [mkMsg to tag size (take (Z.to_nat size) d)]) w)
    else fails ENOMEM w r w'.
Definition unix_receive (x : Z * message) (w w' : uworld) : Prop :=
  match w_mail w with
  | [] => fails EAGAIN w (x.1) w'
  | m :: rest => exists junk, x = (0, mkMsg (msg_from m) (msg_tag m) (msg_size m) (msg_data m ++ junk)) /\
      w' = with_errno 0 (with_mail (fun _ => rest) w)
  end.

Definition unix_answers (A : Type) (e : sysE A) : uworld -> A -> uworld -> Prop :=
  match e in sysE A return uworld -> A -> uworld -> Prop with
  | Getpid => fun w r w' => r = w_pid w /\ w' = w
  | Write fd buf => fun w r w' => fd = STDOUT_FILENO /\ r = Z.of_nat (length buf) /\ w' = put_out buf w
  | Read fd count => fun w x w' => unix_read fd count w x w'
  | Geterrno => fun w r w' => r = w_errno w /\ w' = w
  | Send to tag data size => fun w r w' => unix_send to tag data size w r w'
  | Receive None block => fun w x w' => block = 0 /\ unix_receive x w w'
  | Close fd => fun w r w' => is_Some (w_fds w !! fd) /\ r = 0 /\ w' = with_fds (delete fd) w
  | Fork => fun w r w' =>
      (r = -1 /\ w' = with_log [AForkFailed] (with_errno EAGAIN w)) \/
      (r = 0 /\ w' = with_log [AChild] w) \/
      (0 < r /\ (r ∉ w_children w) /\ w' = with_log [AFork] (with_children (fun c => {[ r ]} ∪ c) w))
  | Execve filename argv => fun w r w' =>
      match w_view w filename with
      | None => fails ENOENT w r w'
      | Some (NDir _ _) => fails EISDIR w r w'
      | Some (NFile _ _) => False
      end
  | Waitpid pid => fun w r w' =>
      pid ∈ w_children w /\ r = pid /\ w' = with_log [AWait] (with_children (fun c => c ∖ {[ pid ]}) w)
  | Stat path => fun w x w' =>
      match w_view w path with
      | Some n => x = (0, node_stat n) /\ w' = w
      | None => fails ENOENT w (x.1) w'
      end
  | Open path flags => fun w r w' => unix_open path flags w r w'
  | Getdent fd => fun w x w' =>
      exists names, w_fds w !! fd = Some (Names names) /\
        match names with
        | n :: rest => x = (1, n) /\ w' = with_fds <[fd := Names rest]> w
        | [] => x.1 = 0 /\ w' = w
        end
  | Chdir path => fun w r w' =>
      (r = -1 /\ exists e, w' = with_log [AChdir path] (with_errno e w)) \/
      (r = 0 /\ exists v, (forall p, absolute p -> v p = w_view w p) /\ w' = with_log [AChdir path] (with_view v w))
  | Getcwd size => fun w x w' => w' = with_log [AGetcwd] w /\
      exists path, x = Some path /\ no_nul path /\ Z.of_nat (length path) < size
  | Malloc n => fun w r w' => 0 < r /\ (r ∉ w_heap w) /\ w' = with_heap (fun h => {[ r ]} ∪ h) w
  | Free ptr => fun w r w' => ptr ∈ w_heap w /\ w' = with_heap (fun h => h ∖ {[ ptr ]}) w
  | _ => fun _ _ _ => False
  end.
Definition unix_stops (A : Type) (e : sysE A) (w w' : uworld) : Prop :=
  match e with
  | Exit status => w' = with_log [AExit status] w
  | Execve filename argv =>
      match w_view w filename with Some (NFile _ _) => w' = with_log [AExec filename argv] w | _ => False end
  | _ => False
  end.
Definition unix : environment uworld := mkEnv unix_answers unix_stops.

(** ** Rules for the calls *)

(** A call that returns in every case. *)
Ltac ucall := apply uwp_sys; [left | | intros ? []].

(** The steps of the reference renderer on a concrete format. *)
Lemma render_end fuel ap : render (S fuel) [0] ap = Some [].
Proof. done. Qed.
Lemma string_of_c_str s : no_nul s -> string_of (c_str s) = Some s.
Proof. apply string_of_app. Qed.
(** The two conversions with the characters as numbers. *)
Lemma render_37_115 fuel c s ap : no_nul s -> Z.of_nat (length s) < 2 ^ 31 ->
  render (S fuel) (37 :: 115 :: c) (AStr (c_str s) :: ap) = rest ← render fuel c ap; Some (s ++ rest).
Proof. intros Hn Hl. apply (render_str fuel c (c_str s) ap s); [by apply string_of_c_str | done]. Qed.
Lemma render_37_100 fuel c z ap :
  render (S fuel) (37 :: 100 :: c) (AInt z :: ap) = rest ← render fuel c ap; Some (signed_digits z ++ rest).
Proof. apply render_int. pose proof (signed_digits_length z). lia. Qed.
Ltac render_steps :=
  lazymatch goal with |- render ?n ?f ?ap = ?r =>
    let n' := eval vm_compute in n in let f' := eval vm_compute in f in
    change (render n' f' ap = r) end;
  repeat first
    [ rewrite render_end | rewrite render_char by reflexivity
    | rewrite render_37_115 by (assumption || lia) | rewrite render_37_100 ];
  cbn [mbind option_bind fmap option_fmap option_map];
  rewrite <- ?app_assoc, ?app_nil_r; try reflexivity.

(** Lengths of concrete concatenations. *)
Ltac lens := repeat (rewrite ?length_app, ?length_cons, ?length_nil in *); lia.

Section rules.
  Context (H : uworld -> Prop).
  #[local] Abbreviation uwp := (uwp unix H).

Lemma uwp_write buf (Q : Z -> uworld -> Prop) w : Q (Z.of_nat (length buf)) (put_out buf w) ->
  uwp Q (sys (Write STDOUT_FILENO buf)) w.
Proof using. intros HQ. ucall; [by eexists _, _|]. by intros a w' (_ & -> & ->). Qed.
Lemma uwp_geterrno (Q : Z -> uworld -> Prop) w : Q (w_errno w) w -> uwp Q (sys Geterrno) w.
Proof using. intros HQ. ucall; [by eexists _, _|]. by intros a w' (-> & ->). Qed.
Lemma uwp_getpid (Q : Z -> uworld -> Prop) w : Q (w_pid w) w -> uwp Q (sys Getpid) w.
Proof using. intros HQ. ucall; [by eexists _, _|]. by intros a w' (-> & ->). Qed.
Lemma uwp_read fd count rest (Q : Z * list Z -> uworld -> Prop) w : w_fds w !! fd = Some (Bytes rest) -> 0 < count ->
  (forall data more junk, rest = data ++ more -> Z.of_nat (length data) <= count -> (data = [] -> more = []) ->
    Q (Z.of_nat (length data), data ++ junk) (with_fds <[fd := Bytes more]> w)) ->
  uwp Q (sys (Read fd count)) w.
Proof using.
  intros Hfd Hc HQ. ucall.
  - exists (Z.of_nat (length (take 1 rest)), take 1 rest), (with_fds <[fd := Bytes (drop (length (take 1 rest)) rest)]> w).
    exists rest, (take 1 rest), []. rewrite app_nil_r. repeat split; [done | apply prefix_take | | by destruct rest].
    rewrite length_take. lia.
  - intros a w' (rest' & data & junk & Hfd' & [more ->] & Hl & He & -> & ->). simplify_eq.
    rewrite drop_app_length. apply HQ; [done | done |]. intros ->. by apply He.
Qed.
Lemma uwp_close fd s (Q : Z -> uworld -> Prop) w : w_fds w !! fd = Some s -> Q 0 (with_fds (delete fd) w) ->
  uwp Q (sys (Close fd)) w.
Proof using. intros Hfd HQ. ucall; [by eexists _, _|]. by intros a w' (_ & -> & ->). Qed.
Lemma uwp_fail e (Q : Z -> uworld -> Prop) w : Q (-1) (with_errno e w) -> forall r w', fails e w r w' -> Q r w'.
Proof using. by intros HQ r w' [-> ->]. Qed.
Lemma uwp_exit {A} status (Q : A -> uworld -> Prop) w : H (with_log [AExit status] w) -> uwp Q (exit status) w.
Proof using. intros HH. apply uwp_bind, uwp_sys; [right; by eexists | by intros []|]. by intros w' ->. Qed.

(** *** Printing *)

Lemma uwp_printf format ap out (Q : Z -> uworld -> Prop) w :
  render (S (length format)) format ap = Some out -> Z.of_nat (length out) < 4096 ->
  Q (Z.of_nat (length out)) (put_out out w) -> uwp Q (printf format ap) w.
Proof using.
  intros Hr Hl HQ. unfold printf. apply uwp_bind. eapply uwp_of_option.
  { apply (vsnprintf_prints (replicate 4096 0) 4096 format ap out); [rewrite length_replicate; lia | done | lia]. }
  assert (Ht : take (length out) (printed 4096 out (replicate 4096 0)) = out).
  { unfold printed. replace (0 <? 4096) with true by done. rewrite (take_ge out) by lia. apply take_app_length'. lia. }
  apply uwp_bind. destruct (Z.leb_spec (Z.of_nat (length out)) 4096); [|lia].
  rewrite Nat2Z.id, Ht. apply uwp_write. by apply uwp_ret.
Qed.
Lemma uwp_snprintf size format ap out (Q : list Z -> uworld -> Prop) w : 0 < size < 2 ^ 20 ->
  render (S (length format)) format ap = Some out -> no_nul out -> Z.of_nat (length out) < 2 ^ 31 - 1 ->
  Q (take (Z.to_nat (size - 1)) out) w -> uwp Q (snprintf_local size format ap) w.
Proof using.
  intros Hs Hr Hn Hl HQ. unfold snprintf_local. apply uwp_bind. eapply uwp_of_option.
  { apply (vsnprintf_prints _ size format ap out); [rewrite length_replicate; lia | done | lia]. }
  unfold string_at, printed. destruct (Z.ltb_spec 0 size); [|lia].
  rewrite Nat.min_comm, <- take_take, (take_ge out (length out)) by lia. set (s := take _ out) in *.
  apply uwp_bind. eapply uwp_of_option; [apply strlen_spec; by apply Forall_take|].
  apply uwp_ret. rewrite Nat2Z.id, take_app_length. exact HQ.
Qed.

Lemma strerror_short e : exists m, strerror e = Some m /\ no_nul (bytes m) /\ (length (bytes m) <= 32)%nat.
Proof using.
  unfold strerror. destruct (_ || _) eqn:E; [exists "Unknown error"%string; repeat split; [by_bytes | vm_compute; lia]|].
  apply orb_false_iff in E as [E1 E2]. apply Z.ltb_ge in E1, E2. unfold ERRNO_MAX in E2.
  assert (Hall : Forall (fun m => no_nul (bytes m) /\ (length (bytes m) <= 32)%nat) error_names).
  { apply (bool_decide_unpack _). vm_compute. exact I. }
  destruct (lookup_lt_is_Some_2 error_names (Z.to_nat e)) as [m Hm]; [cbn; lia|].
  exists m. split; [|exact (Forall_lookup_1 _ _ _ _ Hall Hm)]. unfold zlookup. case_test; [lia | done].
Qed.
(** What perror prints. *)
Definition error_text (s : list Z) (e : Z) : list Z :=
  s ++ bytes ": " ++ match strerror e with Some m => bytes m | None => [] end ++ [10].
Lemma uwp_perror s (Q : unit -> uworld -> Prop) w : s <> [] -> no_nul s -> Z.of_nat (length s) < 4000 ->
  Q tt (put_out (error_text s (w_errno w)) w) -> uwp Q (perror (Some s)) w.
Proof using.
  intros Hs Hn Hl HQ. destruct (strerror_short (w_errno w)) as (m & Em & Hm & Hml).
  unfold perror. apply uwp_bind, uwp_geterrno, uwp_bind. eapply uwp_of_option; [exact Em|].
  destruct s as [|c s]; [done|]. apply uwp_bind. eapply uwp_printf.
  - change (cstr m) with (c_str (bytes m)). set (cs := c :: s) in *. render_steps.
  - lens.
  - apply uwp_ret. revert HQ. unfold error_text. by rewrite Em.
Qed.
End rules.
