(* ===== verification/UserProofs.v ===== *)
(** * Theorems about user programs: cat, find and the message tests *)

From Stdlib Require Import Ascii.
From ITree Require Import ITree.
From S2P Require Import Prelude Constants Libc LibcProofs PrintProofs User Mptest UserLogic UserWorld.

(** Two worlds are equal when their parts are. *)
Ltac weq := unfold put_out, with_out, with_view, with_fds, with_heap, with_mail, with_errno, with_children, with_log;
  simpl; f_equal; rewrite ?app_nil_r, <- ?app_assoc, ?insert_insert_eq; try done.

Lemma with_fds_id w : with_fds (fun f => f) w = w.
Proof. by destruct w. Qed.
Lemma put_out_nil w : put_out [] w = w.
Proof. destruct w. weq. Qed.
Lemma put_out_app l l' w : put_out l' (put_out l w) = put_out (l ++ l') w.
Proof. weq. Qed.

(** ** cat.c *)

Section cat.
  Context (H : uworld -> Prop).
  #[local] Abbreviation uwp := (uwp unix H).

(** However the reads are cut, the loop copies the rest of the file. *)
Lemma cat_loop_copies n fd rest (Q : Z -> uworld -> Prop) : forall w, (length rest <= n)%nat ->
  w_fds w !! fd = Some (Bytes rest) -> Q 0 (put_out rest (with_fds <[fd := Bytes []]> w)) -> uwp Q (cat_loop fd) w.
Proof using.
  revert rest. induction n as [n IH] using lt_wf_ind. intros rest w Hn Hfd HQ.
  unfold cat_loop. apply uwp_iter, uwp_bind. eapply uwp_read; [exact Hfd | lia |].
  intros data more junk -> Hl He. destruct data as [|c data].
  - rewrite (He eq_refl) in HQ |- *. cbn. apply uwp_ret. revert HQ. by rewrite put_out_nil.
  - destruct (Z.ltb_spec 0 (Z.of_nat (length (c :: data)))) as [_|Hz]; [|cbn in Hz; lia].
    rewrite Nat2Z.id, take_app_length. apply uwp_bind, uwp_write, uwp_ret.
    rewrite length_app in Hn. cbn in Hn.
    apply (IH (length more) ltac:(lia) more); [done | apply lookup_insert_eq |].
    replace (put_out more _) with (put_out ((c :: data) ++ more) (with_fds <[fd := Bytes []]> w)); [done|]. weq.
Qed.

(** What cat does with a path. *)
Definition cat_result (path : list Z) (w : uworld) : Z * uworld :=
  let failed e := (-1, put_out (error_text path e) (with_errno e w)) in
  if MAX_FDS <=? Z.of_nat (size (w_fds w)) then failed EMFILE
  else match w_view w path with
       | None => failed ENOENT
       | Some (NDir _ _) => failed EISDIR
       | Some (NFile _ contents) => (0, put_out contents w)
       end.

Lemma uwp_open path flags (Q : Z -> uworld -> Prop) w :
  (forall r w', unix_open path flags w r w' -> Q r w') -> uwp Q (sys (Open path flags)) w.
Proof using.
  intros HQ. ucall; [|exact HQ]. cbn. unfold unix_open, fails.
  set (fd := fresh (dom (w_fds w) ∪ set_map Z.opp (dom (w_fds w)) : gset Z)).
  assert (Hfd : w_fds w !! Z.abs fd = None).
  { apply not_elem_of_dom. pose proof (is_fresh (dom (w_fds w) ∪ set_map Z.opp (dom (w_fds w)) : gset Z)) as Hf.
    fold fd in Hf. intros Hin. apply Hf, elem_of_union.
    destruct (Z.abs_spec fd) as [[_ E]|[_ E]]; rewrite E in Hin; [by left|]. right.
    apply elem_of_map. exists (- fd). split; [lia | done]. }
  case_match; [by eexists _, _|]. case_match; [case_match; case_match|]; try (by eexists _, _);
    exists (Z.abs fd); eexists; repeat split; (done || lia).
Qed.
End cat.

(** C28. cat: a file is copied to the standard output byte for byte and in order,
    whatever the pieces in which read returns it, its descriptor is closed
    again and the result is 0; a path that cannot be opened is reported with the
    text of the error and the result is -1.  In every case cat ends. *)
Theorem cat_correct prog path args w : path <> [] -> no_nul path -> Z.of_nat (length path) < 4000 ->
  uwp unix (fun _ => False) (fun r w' => (r, w') = cat_result path w) (cat_main (prog :: path :: args)) w.
Proof.
  intros Hp Hn Hl. unfold cat_main. apply uwp_bind, uwp_open. intros fd w' Ho. unfold unix_open in Ho.
  assert (Herr : forall e, uwp unix (fun _ => False)
    (fun r w'' => (r, w'') = (-1, put_out (error_text path e) (with_errno e w))) (perror (Some path);; Ret (-1)) (with_errno e w)).
  { intros e. apply uwp_bind, uwp_perror; [done..|]. by apply uwp_ret. }
  unfold cat_result. case_match; [destruct Ho as [-> ->]; apply Herr|].
  case_match; [case_match|]; try (destruct Ho as [-> ->]; apply Herr).
  destruct Ho as (Hfd & Hnone & ->). destruct (Z.ltb_spec fd 0); [lia|].
  apply uwp_bind. eapply cat_loop_copies; [done | apply lookup_insert_eq |]. cbn.
  apply uwp_bind. eapply uwp_close; [apply lookup_insert_eq|]. apply uwp_ret.
  f_equal. destruct w. weq. cbn in *. rewrite delete_insert_id; done.
Qed.

Lemma cat_correct_witness :
  let w := mkWorld [] (fun p => if decide (p = bytes "motd") then Some (NFile (mkUstat 0 0 0 5 0) (bytes "hello")) else None)
    ∅ ∅ [] 3 0 ∅ [] in
  uwp unix (fun _ => False) (fun r w' => r = 0 /\ w_out w' = bytes "hello") (cat_main [bytes "cat"; bytes "motd"]) w.
Proof.
  intros w. eapply uwp_mono; [apply (cat_correct (bytes "cat") (bytes "motd") [] w); [done | by_bytes | vm_compute; done]|].
  intros r w' E. vm_compute in E. by simplify_eq.
Defined.

(** ** find.c *)

Definition is_dir (n : node) : bool := match n with NDir _ _ => true | NFile _ _ => false end.
(** The path of an entry. *)
Definition below (path name : list Z) : list Z := path ++ chr "/" :: name.
(** The mode of a node tells its type. *)
Definition mode_ok (n : node) : bool := Bool.eqb (truthy (Z.land (us_mode (node_stat n)) S_IFDIR)) (is_dir n).
Definition printable (path : list Z) : bool := bool_decide (no_nul path) && (Z.of_nat (length path) <? PATH_MAX).

(** What find prints for the directory [path]: each entry, and behind a directory
    its contents.  [None] when the tree is deeper than [depth] or has a path
    that does not fit. *)
Definition walk_entry (view : list Z -> option node) (walk : list Z -> option (list Z)) (path name : list Z) :
    option (list Z) :=
  let full := below path name in
  n ← view full;
  if mode_ok n && printable full && printable name then
    if is_dir n then app (full ++ [10]) <$> walk full else Some (full ++ [10])
  else None.
Fixpoint walk (view : list Z -> option node) (depth : nat) (path : list Z) : option (list Z) :=
  match depth with
  | O => None
  | S depth' =>
      match view path with
      | Some (NDir _ names) => mjoin <$> mapM (walk_entry view (walk view depth') path) names
      | _ => None
      end
  end.

Section find.
  Context (H : uworld -> Prop).
  #[local] Abbreviation uwp := (uwp unix H).

Lemma uwp_stat path n (Q : Z * ustat -> uworld -> Prop) w : w_view w path = Some n -> Q (0, node_stat n) w ->
  uwp Q (sys (Stat path)) w.
Proof using.
  intros Hv HQ. ucall; cbn; rewrite Hv; [by eexists _, _|]. by intros a w' [-> ->].
Qed.
Lemma uwp_opendir path st names (Q : option DIR -> uworld -> Prop) w : w_view w path = Some (NDir st names) ->
  Z.of_nat (size (w_fds w)) < MAX_FDS ->
  (forall p fd, w_fds w !! fd = None -> p ∉ w_heap w ->
    Q (Some (mkDIR p fd)) (with_heap (fun h => {[ p ]} ∪ h) (with_fds <[fd := Names names]> w))) ->
  uwp Q (opendir path) w.
Proof using.
  intros Hv Hs HQ. unfold opendir. apply uwp_bind, uwp_open. intros fd w' Ho. unfold unix_open in Ho.
  destruct (Z.leb_spec MAX_FDS (Z.of_nat (size (w_fds w)))); [lia|]. rewrite Hv, Z.eqb_refl in Ho.
  destruct Ho as (Hfd & Hnone & ->). destruct (Z.ltb_spec fd 0); [lia|].
  apply uwp_bind. ucall.
  - set (X := w_heap w ∪ set_map Z.opp (w_heap w) ∪ {[ 0 ]}). exists (Z.abs (fresh X)). eexists.
    pose proof (is_fresh X) as Hf. unfold X at 2 in Hf. cbn. repeat split.
    + destruct (decide (fresh X = 0)) as [E|]; [|lia]. set_solver.
    + intros Hin. apply Hf. rewrite !elem_of_union, elem_of_map. left.
      destruct (Z.abs_spec (fresh X)) as [[_ E]|[_ E]]; rewrite E in Hin; [by left | right].
      exists (- fresh X). split; [lia | done].
  - intros p w' (Hp & Hh & ->). apply uwp_ret. by apply HQ.
Qed.
Lemma uwp_readdir p fd names (Q : option (list Z) -> uworld -> Prop) w : w_fds w !! fd = Some (Names names) ->
  match names with
  | [] => Q None w
  | n :: rest => Q (Some n) (with_fds <[fd := Names rest]> w)
  end -> uwp Q (readdir (mkDIR p fd)) w.
Proof using.
  intros Hfd HQ. unfold readdir. apply uwp_bind. ucall.
  - cbn. destruct names as [|n rest]; [exists (0, []), w | eexists _, _]; by eexists; split.
  - intros [r name] w' (names' & Hfd' & Hr). cbn [dir_fd] in *. simplify_eq. destruct names as [|n rest].
    + destruct Hr as [E ->]. cbn in E. subst r. by apply uwp_ret.
    + destruct Hr as [E ->]. simplify_eq. by apply uwp_ret.
Qed.
Lemma uwp_closedir p fd s (Q : Z -> uworld -> Prop) w : w_fds w !! fd = Some s -> p ∈ w_heap w ->
  Q 0 (with_heap (fun h => h ∖ {[ p ]}) (with_fds (delete fd) w)) -> uwp Q (closedir (mkDIR p fd)) w.
Proof using.
  intros Hfd Hp HQ. unfold closedir. apply uwp_bind. eapply uwp_close; [exact Hfd|].
  apply uwp_bind. ucall; [by eexists tt, _|]. intros a w' (_ & ->). by apply uwp_ret.
Qed.
Lemma uwp_fullpath path name (Q : list Z -> uworld -> Prop) w : no_nul path -> printable name = true ->
  printable (below path name) = true -> Q (below path name) w ->
  uwp Q (snprintf_local PATH_MAX (cstr "%s/%s") [AStr (c_str path); AStr (c_str name)]) w.
Proof using.
  unfold printable. intros Hn [Hnn Hnl]%andb_true_iff [Hbn Hbl]%andb_true_iff HQ.
  apply bool_decide_eq_true in Hnn, Hbn. apply Z.ltb_lt in Hnl, Hbl. unfold below in *. rewrite length_app in Hbl.
  unfold PATH_MAX in *. cbn [length] in Hbl.
  eapply uwp_snprintf; [lia | | exact Hbn | lens |].
  - render_steps.
  - rewrite take_ge by (rewrite length_app; cbn [length]; lia). exact HQ.
Qed.

Lemma uwp_print_line s (Q : Z -> uworld -> Prop) w : printable s = true -> (forall r, Q r (put_out (s ++ [10]) w)) ->
  uwp Q (printf (fmt "%s") [AStr (c_str s)]) w.
Proof using.
  unfold printable. intros [Hn Hl]%andb_true_iff HQ. apply bool_decide_eq_true in Hn. apply Z.ltb_lt in Hl.
  unfold PATH_MAX in Hl. eapply uwp_printf; [render_steps | lens | apply HQ].
Qed.
Lemma printable_no_nul s : printable s = true -> no_nul s.
Proof using. unfold printable. intros [Hn _]%andb_true_iff. by apply bool_decide_eq_true in Hn. Qed.

(** The loop prints the walk through the entries that are left. *)
Lemma find_loop_prints find walk path p fd (Q : Z -> uworld -> Prop) room names : no_nul path ->
  (forall full out (Q : Z -> uworld -> Prop) w, walk (w_view w) full = Some out -> no_nul full ->
    Z.of_nat (size (w_fds w)) <= room -> Q 0 (put_out out w) -> uwp Q (find full) w) ->
  forall outs w, mapM (walk_entry (w_view w) (walk (w_view w)) path) names = Some outs ->
    w_fds w !! fd = Some (Names names) -> Z.of_nat (size (w_fds w)) <= room ->
    Q 0 (put_out (mjoin outs) (with_fds <[fd := Names []]> w)) -> uwp Q (find_loop find path (mkDIR p fd)) w.
Proof using.
  intros Hn Hfind. unfold find_loop. induction names as [|name names IHn]; intros outs w Hm Hf Hs HQ.
  { injection Hm as <-. apply uwp_iter, uwp_bind. eapply uwp_readdir; [exact Hf|]. cbn. apply uwp_ret.
    revert HQ. change (mjoin []) with (@nil Z). rewrite put_out_nil. destruct w. unfold with_fds. cbn in *. by rewrite insert_id. }
  apply mapM_Some in Hm. apply Forall2_cons_inv_l in Hm as (o & outs' & Ho & Hm & ->). apply mapM_Some in Hm.
  unfold walk_entry in Ho. apply bind_Some in Ho as (n & Hvn & Ho).
  destruct (mode_ok n && printable (below path name) && printable name) eqn:Hok; [|done].
  apply andb_true_iff in Hok as [[Hmode Hfull]%andb_true_iff Hname].
  apply uwp_iter, uwp_bind. eapply uwp_readdir; [exact Hf|]. cbn iota beta.
  apply uwp_bind, uwp_fullpath; [done..|]. apply uwp_bind, uwp_print_line; [done|]. intros _.
  apply uwp_bind. eapply uwp_stat; [exact Hvn|]. cbn [Z.ltb Z.compare].
  unfold mode_ok in Hmode. apply eqb_prop in Hmode. rewrite Hmode.
  assert (Hsize : size (<[fd := Names names]> (w_fds w)) = size (w_fds w)) by (by rewrite map_size_insert, Hf).
  destruct (is_dir n).
  - apply fmap_Some in Ho as (o' & Ho & ->). apply uwp_bind.
    eapply Hfind; [exact Ho | by apply printable_no_nul | cbn; lia |]. cbn [negb Z.eqb]. apply uwp_ret.
    apply (IHn outs'); [exact Hm | apply lookup_insert_eq | cbn; lia |]. revert HQ.
    match goal with |- Q 0 ?a -> Q 0 ?b => replace b with a; [done|] end. cbn. weq.
  - simplify_eq. apply uwp_ret. apply (IHn outs'); [exact Hm | apply lookup_insert_eq | cbn; lia |]. revert HQ.
    match goal with |- Q 0 ?a -> Q 0 ?b => replace b with a; [done|] end. cbn. weq.
Qed.

(** [find depth] prints the walk and leaves descriptors and heap as they were. *)
Lemma find_prints depth : forall path out (Q : Z -> uworld -> Prop) w, walk (w_view w) depth path = Some out -> no_nul path ->
  Z.of_nat (size (w_fds w)) + Z.of_nat depth <= MAX_FDS -> Q 0 (put_out out w) -> uwp Q (find depth path) w.
Proof using.
  induction depth as [|depth IH]; intros path out Q w Hw Hn Hs HQ; [done|].
  cbn [walk] in Hw. destruct (w_view w path) as [[|st names]|] eqn:Hv; [done| |done].
  apply fmap_Some in Hw as (outs & Hm & ->).
  cbn [find]. apply uwp_bind. eapply uwp_opendir; [exact Hv | lia |]. intros p fd Hfd Hp.
  apply uwp_bind. apply (find_loop_prints _ (fun view => walk view depth) _ _ _ _ (MAX_FDS - Z.of_nat depth) names) with outs;
    [done | | exact Hm | apply lookup_insert_eq | cbn; rewrite map_size_insert_None by done; lia |].
  { intros full out Q' w' Hw Hnf Hs' HQ'. eapply IH; [exact Hw | done | lia | done]. }
  cbn [Z.ltb Z.compare]. apply uwp_bind. eapply uwp_closedir; [apply lookup_insert_eq | cbn; set_solver |].
  apply uwp_ret. match goal with H : Q 0 ?a |- Q 0 ?b => replace b with a; [done|] end.
  destruct w. cbn in *. weq; [by rewrite delete_insert_id | set_solver].
Qed.
End find.

(** C29. find: on a directory tree whose paths fit and which is no deeper than the
    descriptors that are left, find ends with 0, prints every path below the
    directory, each directory before its contents, and leaves no descriptor
    open and no memory allocated. *)
Theorem find_correct depth prog path args out w : walk (w_view w) depth path = Some out -> no_nul path ->
  Z.of_nat (size (w_fds w)) + Z.of_nat depth <= MAX_FDS ->
  uwp unix (fun _ => False) (fun r w' => r = 0 /\ w' = put_out out w) (find_main depth (prog :: path :: args)) w.
Proof. intros Hw Hn Hs. by eapply find_prints. Qed.

(** A directory with a file and a directory with a file. *)
Definition small_tree (p : list Z) : option node :=
  if decide (p = bytes "d") then Some (NDir (mkUstat S_IFDIR 0 0 0 0) [bytes "a"; bytes "b"])
  else if decide (p = bytes "d/b") then Some (NDir (mkUstat S_IFDIR 0 0 0 0) [bytes "c"])
  else if decide (p = bytes "d/a") then Some (NFile (mkUstat 0 0 0 0 0) [])
  else if decide (p = bytes "d/b/c") then Some (NFile (mkUstat 0 0 0 0 0) [])
  else None.
Lemma find_correct_witness :
  uwp unix (fun _ => False)
    (fun r w' => r = 0 /\ w' = mkWorld (bytes "d/a" ++ [10] ++ bytes "d/b" ++ [10] ++ bytes "d/b/c" ++ [10]) small_tree ∅ ∅ [] 3 0 ∅ [])
    (find_main 5 [bytes "find"; bytes "d"]) (mkWorld [] small_tree ∅ ∅ [] 3 0 ∅ []).
Proof.
  refine (find_correct 5 (bytes "find") (bytes "d") []
    (bytes "d/a" ++ [10] ++ bytes "d/b" ++ [10] ++ bytes "d/b/c" ++ [10])
    (mkWorld [] small_tree ∅ ∅ [] 3 0 ∅ []) _ _ _); [vm_compute; reflexivity | by_bytes | vm_compute; done].
Defined.

(** ** mptest.c: messages to oneself *)

(** The messages with the numbers from [i] on. *)
Definition numbered (pid i : Z) (n : nat) : list message :=
  (fun v => mkMsg pid TAG_TEST 4 (int_bytes v)) <$> seqZ i (Z.of_nat n).

Lemma bytes_int_roundtrip v junk : - 2 ^ 31 <= v < 2 ^ 31 -> bytes_int (int_bytes v ++ junk) = Some v.
Proof.
  intros Hv. unfold bytes_int, int_bytes. cbn [app]. f_equal.
  assert (Hu : 0 <= u32 v < 2 ^ 32) by apply u32_range.
  replace (u32 v mod 256 + 256 * (u32 v / 256 mod 256) + 65536 * (u32 v / 65536 mod 256) + 16777216 * (u32 v / 16777216))
    with (u32 v).
  - unfold s32, u32. rewrite Z.mod_mod by lia. fold (u32 v) (s32 v). by apply s32_small.
  - pose proof (Z.div_mod (u32 v) 256). pose proof (Z.div_mod (u32 v / 256) 256). pose proof (Z.div_mod (u32 v / 65536) 256).
    rewrite !Z.div_div in * by lia. change (256 * 256) with 65536 in *. change (65536 * 256) with 16777216 in *. lia.
Qed.
Lemma numbered_snoc pid i n : numbered pid i n ++ [mkMsg pid TAG_TEST 4 (int_bytes (i + Z.of_nat n))] = numbered pid i (S n).
Proof. unfold numbered. by rewrite seqZ_S, fmap_app. Qed.
Lemma numbered_length pid i n : length (numbered pid i n) = n.
Proof. unfold numbered. rewrite length_fmap, length_seqZ. lia. Qed.

Section messages.
  Context (H : uworld -> Prop).
  #[local] Abbreviation uwp := (uwp unix H).

Lemma uwp_send tag d size (Q : Z -> uworld -> Prop) w : 0 <= size <= Z.of_nat (length d) -> size <= MAX_MESSAGE_SIZE ->
  (if decide (length (w_mail w) < MAILBOX)%nat then
     Q 0 (with_errno 0 (with_mail (fun m => m ++ [mkMsg (w_pid w) tag size (take (Z.to_nat size) d)]) w))
   else Q (-1) (with_errno ENOMEM w)) ->
  uwp Q (sys (Send (w_pid w) tag (Mem d) size)) w.
Proof using.
  intros Hs Hm HQ. ucall.
  - change (exists r w', unix_send (w_pid w) tag (Mem d) size w r w'). unfold unix_send.
    destruct (decide (length (w_mail w) < MAILBOX)%nat); eexists _, _, d; do 4 (split; [done|]); by split.
  - intros r w' (d' & [= <-] & _ & _ & _ & Hr). destruct (decide _); destruct Hr as [-> ->]; done.
Qed.
Lemma uwp_receive (Q : Z * message -> uworld -> Prop) w :
  match w_mail w with
  | [] => forall m, Q (-1, m) (with_errno EAGAIN w)
  | m :: rest => forall junk, Q (0, mkMsg (msg_from m) (msg_tag m) (msg_size m) (msg_data m ++ junk)) (with_errno 0 (with_mail (fun _ => rest) w))
  end -> uwp Q (sys (Receive None 0)) w.
Proof using.
  intros HQ. ucall; cbn; unfold unix_receive; destruct (w_mail w) as [|m rest].
  - exists (-1, mkMsg 0 0 0 []). by eexists.
  - eexists _, _. split; [done|]. by exists [].
  - intros [r m] w' [_ [E ->]]. cbn in E. subst r. apply HQ.
  - intros x w' (_ & junk & -> & ->). apply HQ.
Qed.

Lemma send_all_fills rest : forall k n (Q : Z -> uworld -> Prop) w, (k + rest = MAILBOX)%nat -> (rest < n)%nat ->
  w_mail w = numbered (w_pid w) 0 k ->
  Q (Z.of_nat MAILBOX) (with_errno ENOMEM (with_mail (fun _ => numbered (w_pid w) 0 MAILBOX) w)) ->
  uwp Q (send_all n (Z.of_nat k)) w.
Proof using.
  induction rest as [|rest IH]; intros k n Q w Hk Hn Hm HQ; (destruct n as [|n]; [lia|]); cbn [send_all];
    (apply uwp_bind, uwp_getpid, uwp_bind, uwp_send; [unfold int_bytes; cbn [length]; lia | unfold MAX_MESSAGE_SIZE; lia |]);
    rewrite Hm, numbered_length.
  - rewrite decide_False by lia. cbn. apply uwp_ret. replace k with MAILBOX in * by lia.
    match goal with H : Q _ ?a |- Q _ ?b => replace b with a; [done|] end. destruct w. cbn in *. subst. weq.
  - rewrite decide_True by lia. cbn. replace (Z.of_nat k + 1) with (Z.of_nat (S k)) by lia.
    apply IH; [lia | lia | |].
    + cbn. rewrite Hm. change (firstn ?a ?b) with (take a b). apply (numbered_snoc (w_pid w) 0 k).
    + cbn. match goal with H : Q _ ?a |- Q _ ?b => replace b with a; [done|] end. weq.
Qed.
Lemma receive_all_numbered n : forall i (Q : unit -> uworld -> Prop) w, w_mail w = numbered (w_pid w) i n ->
  0 <= i -> i + Z.of_nat n < 2 ^ 31 -> (forall e, Q tt (with_errno e (with_mail (fun _ => []) w))) -> uwp Q (receive_all n i) w.
Proof using.
  induction n as [|n IH]; intros i Q w Hm Hi Hb HQ; cbn [receive_all].
  - apply uwp_ret. replace w with (with_errno (w_errno w) (with_mail (fun _ => []) w)); [done|]. destruct w. cbn in *. subst. weq.
  - unfold numbered in Hm. rewrite seqZ_cons in Hm by lia. cbn [fmap list_fmap] in Hm.
    apply uwp_bind. unfold try_receive. apply uwp_bind, uwp_receive. rewrite Hm. intros junk. cbn [fst].
    apply uwp_bind, uwp_ret, uwp_ret. apply uwp_bind, uwp_ret, uwp_bind, uwp_ret, uwp_bind.
    eapply uwp_of_option; [apply bytes_int_roundtrip; lia|]. unfold assert_user. rewrite Z.eqb_refl.
    apply uwp_bind, uwp_ret. apply IH; [|lia | lia | done].
    cbn. unfold numbered. do 2 f_equal; lia.
Qed.
Lemma uwp_say s (Q : unit -> uworld -> Prop) w out : render (S (length (fmt s))) (fmt s) [] = Some out ->
  Z.of_nat (length out) < 4096 -> Q tt (put_out out w) -> uwp Q (say s) w.
Proof using. intros Hr Hl HQ. apply uwp_bind. eapply uwp_printf; [done | done |]. by apply uwp_ret. Qed.
End messages.

Lemma put_out_errno l e w : put_out l (with_errno e w) = with_errno e (put_out l w).
Proof. reflexivity. Qed.
Lemma put_out_mail l f w : put_out l (with_mail f w) = with_mail f (put_out l w).
Proof. reflexivity. Qed.
Lemma mail_errno f e w : with_mail f (with_errno e w) = with_errno e (with_mail f w).
Proof. reflexivity. Qed.
Lemma mail_mail l f w : with_mail (fun _ => l) (with_mail f w) = with_mail (fun _ => l) w.
Proof. reflexivity. Qed.
Lemma errno_errno e e' w : with_errno e (with_errno e' w) = with_errno e w.
Proof. reflexivity. Qed.

(** What the test prints. *)
Definition multiple_text : list Z :=
  bytes "Checking how many messages can be outstanding..." ++ [10] ++
  bytes "send() returned error after 8 messages" ++ [10] ++
  bytes "errno = 11; should be 11 (ENOMEM)" ++ [10] ++
  bytes "Received all messages ok" ++ [10] ++
  bytes "Final receive() returned -1, errno 13; should be -1 and 13 (EAGAIN)" ++ [10] ++
  bytes "Non-blocking receive with multiple messages: finished" ++ [10].

Lemma multiple_world a b c d e f m n w : w_mail w = [] ->
  put_out f (put_out e (with_errno EAGAIN (put_out d (with_errno n (with_mail (fun _ => []) (put_out c (put_out b
    (with_errno ENOMEM (with_mail (fun _ => m) (put_out a w)))))))))) =
  put_out (a ++ b ++ c ++ d ++ e ++ f) (with_errno EAGAIN w).
Proof.
  intros Hm. repeat first [rewrite put_out_errno | rewrite put_out_mail | rewrite put_out_app
    | rewrite mail_errno | rewrite mail_mail | rewrite errno_errno].
  rewrite <- ?app_assoc. destruct w. cbn in Hm. by subst.
Qed.

(** The test of several outstanding messages succeeds when it starts with an
    empty mailbox: it ends, no assertion fails and no call that it checks
    fails, it reports 8 messages, the errors it expects, and leaves an empty
    mailbox. *)
Theorem multiple_messages_correct w : w_mail w = [] ->
  uwp unix (fun _ => False) (fun _ w' => w' = put_out multiple_text (with_errno EAGAIN w)) test_nb_multiple_messages w.
Proof.
  intros Hm. unfold test_nb_multiple_messages.
  apply uwp_bind. eapply uwp_say; [vm_compute; reflexivity | vm_compute; reflexivity |].
  apply uwp_bind. eapply (send_all_fills _ MAILBOX 0); [done | unfold MAILBOX; lia | exact Hm |].
  apply uwp_bind, uwp_geterrno.
  apply uwp_bind. eapply uwp_printf; [vm_compute; reflexivity | vm_compute; reflexivity |].
  apply uwp_bind. eapply uwp_printf; [vm_compute; reflexivity | vm_compute; reflexivity |].
  apply uwp_bind. rewrite Nat2Z.id. apply receive_all_numbered; [done | lia | unfold MAILBOX; lia |]. intros e.
  apply uwp_bind. eapply uwp_say; [vm_compute; reflexivity | vm_compute; reflexivity |].
  apply uwp_bind, uwp_receive. cbn [w_mail with_mail put_out with_out with_errno]. intros m.
  apply uwp_bind, uwp_geterrno.
  apply uwp_bind. eapply uwp_printf; [vm_compute; reflexivity | vm_compute; reflexivity |].
  eapply uwp_say; [vm_compute; reflexivity | vm_compute; reflexivity |].
  by rewrite multiple_world by done.
Qed.

Lemma multiple_messages_correct_witness :
  uwp unix (fun _ => False) (fun _ w' => w_out w' = multiple_text) test_nb_multiple_messages
    (mkWorld [] (fun _ => None) ∅ ∅ [] 3 0 ∅ []).
Proof.
  eapply uwp_mono; [apply (multiple_messages_correct (mkWorld [] (fun _ => None) ∅ ∅ [] 3 0 ∅ [])); reflexivity|].
  intros a w' ->. reflexivity.
Defined.
