(* ===== verification/MailRefinement.v ===== *)
(** * The kernel's message calls answer as user programs assume

    The theorems about mptest.c are stated against [unix_send] and
    [unix_receive] of UserWorld.v.  Here the calls of the kernel, with the errno
    the dispatcher stores behind them, are shown to refine those two for a
    process that sends messages to itself. *)

From S2P Require Import Prelude Constants Libc BuddyInv BuddyTheorems Page Kernel Process ProcessInv ProcessTheorems UserMemory KernelMem Pipe Allocator PipeProofs PipeTheorems Syscall MessageProofs.
From S2P Require Import User Mptest UserLogic UserWorld UserProofs.

(** ** What a program reads from its buffer *)

(** The message behind the pointer passed to receive. *)
Definition message_of (l : list Z) : option message :=
  from ← bytes_int l; tag ← bytes_int (drop 4 l); size ← bytes_int (drop 8 l); Some (mkMsg from tag size (drop 12 l)).
Definition is_int (v : Z) : Prop := - 2 ^ 31 <= v < 2 ^ 31.

Lemma le32_int_bytes v : le32 v = int_bytes v.
Proof.
  unfold le32, int_bytes, u8, u32. rewrite !Z.shiftr_div_pow2 by lia.
  change (2 ^ 8) with 256. change (2 ^ 16) with 65536. change (2 ^ 24) with 16777216. change (2 ^ 32) with 4294967296.
  f_equal; [|f_equal; [|f_equal; [|f_equal]]]; Z.to_euclidean_division_equations; lia.
Qed.
Lemma bytes_int_le32 v r : is_int v -> bytes_int (le32 v ++ r) = Some v.
Proof. rewrite le32_int_bytes. apply bytes_int_roundtrip. Qed.
Lemma message_of_bytes from tag size r : is_int from -> is_int tag -> is_int size ->
  message_of (le32 from ++ le32 tag ++ le32 size ++ r) = Some (mkMsg from tag size r).
Proof.
  intros H1 H2 H3. unfold message_of. rewrite bytes_int_le32 by done. cbn [mbind option_bind].
  change (drop 4 (le32 from ++ le32 tag ++ le32 size ++ r)) with (le32 tag ++ le32 size ++ r). rewrite bytes_int_le32 by done.
  change (drop 8 (le32 from ++ le32 tag ++ le32 size ++ r)) with (le32 size ++ r). cbn [mbind option_bind].
  by rewrite bytes_int_le32.
Qed.

(** ** The relation *)

(** The slot of a mailbox holds the message. *)
Definition delivers (slot : list Z) (m : message) : Prop :=
  slot_of (msg_from m) (msg_tag m) (msg_data m) slot /\ msg_size m = Z.of_nat (length (msg_data m)) /\
  is_int (msg_from m) /\ is_int (msg_tag m) /\ is_int (msg_size m).
Lemma delivers_read slot m : delivers slot m -> exists junk,
  message_of slot = Some (mkMsg (msg_from m) (msg_tag m) (msg_size m) (msg_data m ++ junk)).
Proof. intros ((junk & -> & _) & E & H1 & H2 & H3). exists junk. rewrite <- E. by apply message_of_bytes. Qed.

(** The process [c] runs, with the record [p], and the messages [ms] wait for
    it. *)
Record mail_rep (k : kstate) (c : Z) (p : process) (ms : list message) : Prop := {
  mr_heap : heap_inv buddy_holds k;
  mr_current : k_current k = Some c;
  mr_process : zlookup (k_processes k) c = Some p;
  mr_exists : p_exists p <> 0;
  mr_pid : p_pid p = c;
  mr_segments : segments_ok p;
  mr_awake : p_receive_blocked p = 0;
  mr_sched : exists R S, sched R S k;
  mr_mail : exists slots, mail k p slots /\ Forall2 delivers slots ms
}.
(** The state [k] of the kernel is the world [w] of the process [c]. *)
Definition mail_world (k : kstate) (c : Z) (w : uworld) : Prop :=
  w_pid w = c /\ exists p, mail_rep k c p (w_mail w) /\ p_last_errno p = w_errno w.

(** The errno stored behind a call. *)
Lemma store_errno_spec k c p ms call res w : mail_rep k c p ms -> call <> SYSCALL_GETERRNO -> res <> - ESUSPEND ->
  w_pid w = c -> w_mail w = ms ->
  wp (store_errno call res) (fun r k' => r = (if res <? 0 then -1 else res) /\
    mail_world k' c (with_errno (if res <? 0 then - res else 0) w) /\ k_pages k' = k_pages k /\ k_paging k' = k_paging k) k.
Proof.
  intros M Hcall Hres Hw <-. destruct M as [Hi Hc Hp He Hpid Hok Hb [R [S Hs]] (slots & Hm & Hd)].
  assert (Hgoal : forall n, mail_world (k <| k_processes := zinsert c (p <| p_last_errno := n |>) (k_processes k) |>) c (with_errno n w)).
  { intros n. split; [done|]. exists (p <| p_last_errno := n |>). split; [|done]. split; try done.
    - apply zlookup_zinsert_eq. by eapply zlookup_range.
    - exists R, S. by apply (sched_upd R S k c p).
    - exists slots. split; [|done]. destruct Hm as [Hn [[H0 ->]|(H0 & Ha & l & M)]]; (split; [exact Hn|]).
      + by left.
      + right. split; [done|]. split; [done|]. exists l. by destruct M. }
  unfold store_errno. wp_step. wp_step. rewrite Hc. destruct (Z.eqb_spec call SYSCALL_GETERRNO); [done|].
  destruct (Z.eqb_spec res (- ESUSPEND)); [done|]. cbn [negb andb]. rewrite bool_decide_eq_true_2 by eauto.
  destruct (res <? 0); wp_step; (eapply wp_upd_cur; [exact Hc | exact Hp|]); apply wp_ret; by split.
Qed.

Section calls.
  Context (k : kstate) (c : Z) (w : uworld) (M : mail_world k c w).

(** *** send *)

(** The first [size] bytes of [d] are at [a], in memory of the process. *)
Definition sends (a : Z) (d : list Z) (size : Z) : Prop :=
  is_u32 a /\ 0 <= size <= Z.of_nat (length d) /\ size <= MAX_MESSAGE_SIZE /\ Forall is_byte d /\
  user_bytes k a (take (Z.to_nat size) d) /\
  forall p, zlookup (k_processes k) c = Some p -> size = 0 \/ in_segment p a (a + size).

Lemma send_refines tag a d size : is_int tag -> sends a d size ->
  wpx (bind (syscall_send c tag a size) (store_errno SYSCALL_SEND))
    (fun r k' => exists w', unix_send c tag (Mem d) size w r w' /\ mail_world k' c w') k.
Proof using M.
  intros Htag (Ha & Hsz & Hmax & Hb & Hub & Hseg). destruct M as [Hw (p & MR & Herr)].
  destruct (MR) as [Hi Hc Hp He Hpid Hok Hbl [R [S Hs]] (slots & Hm & Hd)]. specialize (Hseg p Hp).
  set (data := take (Z.to_nat size) d) in *. assert (Hlen : Z.of_nat (length data) = size) by (unfold data; rewrite length_take; lia).
  assert (Hbd : Forall is_byte data) by (by apply Forall_take). unfold MAX_MESSAGE_SIZE in Hmax.
  assert (Hn : length slots = length (w_mail w)) by (by eapply Forall2_length).
  assert (Hfits : (length slots <= CAPACITY)%nat).
  { destruct Hm as [_ [[_ ->]|(_ & _ & l & Hbox)]]; [cbn; lia | apply Hbox]. }
  unfold unix_send. destruct (decide (length (w_mail w) < MAILBOX)%nat) as [Hlt|Hge].
  - assert (Hci : is_int c). { pose proof (zlookup_range _ _ _ Hp) as Hr. rewrite (sc_table Hs) in Hr. unfold is_int, MAX_PROCESSES in *. lia. }
    apply wpx_bind. rewrite <- Hlen. eapply wpx_mono.
    { apply (send_spec (Inv := buddy_holds) k c p c p slots tag a data R S); try done.
      - unfold CAPACITY, MAILBOX in *. lia.
      - rewrite Hlen. destruct Hseg as [H0|?]; [left | by right]. apply nil_length_inv. lia.
      - unfold MAX_MESSAGE_SIZE. lia.
      - by left. }
    intros res k' (-> & slot & Hslot & [Hi' (Hpg & Hpt & Hcu) _ Hsc (p' & Hp' & Hb' & Hm') (p0 & p0' & mb & Hp0 & Hp0' & Eset)]).
    rewrite Hp in Hp0. injection Hp0 as <-. rewrite Hp' in Hp0'. injection Hp0' as <-.
    assert (MR' : mail_rep k' c p' (w_mail w ++ [mkMsg c tag size data])).
    { split; try done.
      - congruence.
      - by rewrite (f_equal p_exists Eset : p_exists p' = p_exists p).
      - by rewrite (f_equal p_pid Eset : p_pid p' = p_pid p).
      - unfold segments_ok. rewrite (f_equal segments Eset : segments p' = segments p). exact Hok.
      - destruct Hsc as [[_ Hs']|[? _]]; [by exists R, S | done].
      - exists (slots ++ [slot]). split; [done|]. apply Forall2_app; [done|]. repeat constructor; cbn; rewrite ?Hpid in *; try done.
        all: unfold is_int in *; lia. }
    apply wpx_wp. eapply wp_mono; [apply (store_errno_spec k' c p' (w_mail w ++ [mkMsg c tag size data]) SYSCALL_SEND 0
      (with_mail (fun m => m ++ [mkMsg c tag size data]) w)); done|].
    intros r k2 (-> & HW & _). eexists. split; [|exact HW]. exists d. unfold MAX_MESSAGE_SIZE. rewrite Hlen. by repeat split; try lia.
  - destruct (send_refused k c p Hc Hp Hok c tag a size p slots Ha) as [_ Href]; [unfold is_u32; lia | apply Hs |].
    destruct (Href Hseg) as (_ & _ & Hfull).
    assert (E : syscall_send c tag a size k = Ok (- ENOMEM) k).
    { apply Hfull; [by exists p | unfold MAX_MESSAGE_SIZE; lia | done | done | unfold CAPACITY, MAILBOX in *; lia]. }
    unfold wpx, bind. rewrite E.
    pose proof (store_errno_spec k c p (w_mail w) SYSCALL_SEND (- ENOMEM) w MR ltac:(done) ltac:(done) Hw eq_refl) as W.
    apply wp_ok in W as (r & k2 & -> & -> & HW & _). eexists. split; [|exact HW]. exists d. unfold MAX_MESSAGE_SIZE. by repeat split; try lia.
Qed.

(** *** receive *)

(** There is room for a message at [msg], in memory of the process. *)
Definition receives (pdir msg : Z) : Prop :=
  is_u32 msg /\ user_region k pdir msg SIZEOF_MESSAGE /\
  forall p, zlookup (k_processes k) c = Some p -> in_segment p msg (msg + SIZEOF_MESSAGE).
(** The message at [msg]. *)
Definition received (k' : kstate) (msg : Z) (m : message) : Prop := exists slot, user_bytes k' msg slot /\ message_of slot = Some m.

Lemma written_bytes pdir msg slot k1 k2 : user_region k pdir msg SIZEOF_MESSAGE -> user_written k pdir msg SIZEOF_MESSAGE slot k1 ->
  length slot = SLOT -> k_pages k2 = k_pages k1 -> k_paging k2 = k_paging k1 -> user_bytes k2 msg slot.
Proof using.
  intros Hr W Hl E1 E2. split; [apply Hr|]. split.
  - pose proof (ur_range Hr). rewrite Hl. unfold SLOT. rewrite Z2Nat.id by done. lia.
  - intros j x Hj. pose proof (lookup_lt_Some _ _ _ Hj) as Hlt. rewrite (user_byte_frame k1) by done.
    assert (HS : Z.of_nat (length slot) = SIZEOF_MESSAGE) by (rewrite Hl; unfold SLOT; by rewrite Z2Nat.id).
    rewrite (uw_bytes W) by lia. rewrite decide_True by lia. rewrite <- Hj. f_equal. lia.
Qed.

Lemma receive_refines pdir msg : receives pdir msg ->
  wp (bind (syscall_receive msg 0) (store_errno SYSCALL_RECEIVE)) (fun r k' => exists m w', unix_receive (r, m) w w' /\
    mail_world k' c w' /\ (r = 0 -> received k' msg m)) k.
Proof using M.
  intros (Hmsg & Hr & Hseg). destruct M as [Hw (p & MR & Herr)].
  destruct (MR) as [Hi Hc Hp He Hpid Hok Hbl [R [S Hs]] (slots & Hm & Hd)]. specialize (Hseg p Hp).
  unfold unix_receive. remember (w_mail w) as ms eqn:Ems. destruct Hd as [|slot m rest ms' Hsl Hrest].
  - destruct (receive_empty k c p Hc Hp Hok msg 0 Hmsg Hseg Hm) as [E _]. wp_step. apply wp_ok. exists (- EAGAIN), k. split; [by apply E|].
    eapply wp_mono; [by apply (store_errno_spec k c p [] SYSCALL_RECEIVE (- EAGAIN) w MR)|].
    intros r k' (-> & HW & _). exists (mkMsg 0 0 0 []), (with_errno EAGAIN w). by split.
  - wp_step. eapply wp_mono; [by apply (receive_first k c p Hc Hp Hok (Inv := buddy_holds) pdir msg 0 slot rest)|].
    intros res k' (-> & Hi' & k1 & p' & l' & W & -> & Ek' & Hm'). destruct (uw_rest W) as [pg Hk1].
    assert (F : k_current k' = k_current k /\ k_ready k' = k_ready k /\ k_suspended k' = k_suspended k /\ k_pages k' = k_pages k1 /\
      k_paging k' = k_paging k1) by (rewrite Ek', Hk1; done).
    destruct F as (F1 & F2 & F3 & F4 & F5). set (p' := p <| p_mailbox_size := Z.of_nat (length rest) |>) in *.
    assert (Eps : k_processes k' = zinsert c p' (k_processes k)) by (by rewrite Ek').
    assert (MR' : mail_rep k' c p' ms').
    { split; try done.
      - congruence.
      - rewrite Eps. apply zlookup_zinsert_eq. by eapply zlookup_range.
      - exists R, S. apply (sched_frame R S (k <| k_processes := zinsert c p' (k_processes k) |>)); [|done..]. by apply (sched_upd R S k c p).
      - by exists rest. }
    eapply wp_mono; [by apply (store_errno_spec k' c p' ms' SYSCALL_RECEIVE 0 (with_mail (fun _ => ms') w) MR')|].
    intros r k2 (-> & HW & G1 & G2). destruct (delivers_read _ _ Hsl) as [junk Hread].
    eexists _, _. split; [by exists junk|]. split; [exact HW|]. intros _. exists slot. split; [|exact Hread].
    destruct Hsl as ((j' & _ & Hl) & _). eapply (written_bytes pdir msg slot k1); try done; congruence.
Qed.
End calls.

(** C30. For a process that sends messages to itself, the kernel's send and
    receive, with the errno the dispatcher stores, do what the theorems about
    user programs assume of them.  Whatever messages wait for the process: a
    message at any address of its memory is appended with its pid, its tag and
    its bytes and errno is 0, or, when 8 messages wait already, the call fails
    with ENOMEM and nothing changes; a receive that does not block takes the
    first message, and what the program then finds in its buffer is that
    message, or it fails with EAGAIN when there is none.  The states stay
    related, so this holds for any sequence of such calls.  The only other
    outcome of send is that the kernel heap is exhausted. *)
Theorem messages_refine k c w : mail_world k c w ->
  (forall tag a d size, is_int tag -> sends k c a d size ->
    wpx (bind (syscall_send c tag a size) (store_errno SYSCALL_SEND))
      (fun r k' => exists w', unix_send c tag (Mem d) size w r w' /\ mail_world k' c w') k) /\
  (forall pdir msg, receives k c pdir msg ->
    wp (bind (syscall_receive msg 0) (store_errno SYSCALL_RECEIVE)) (fun r k' => exists m w', unix_receive (r, m) w w' /\
      mail_world k' c w' /\ (r = 0 -> received k' msg m)) k).
Proof. intros M. split; intros *; [by apply send_refines | by apply receive_refines]. Qed.

(** The process of [mail_demo] sends itself two bytes, and reads its mailbox. *)
Definition mail_demo_world : uworld := mkWorld [] (fun _ => None) ∅ ∅ [] 1 0 ∅ [].
Lemma mail_demo_related : mail_world mail_demo 1 mail_demo_world.
Proof.
  split; [reflexivity|]. exists mail_demo_process. split; [|reflexivity]. split.
  - exact mail_demo_inv.
  - reflexivity.
  - exact mail_demo_lookup.
  - discriminate.
  - reflexivity.
  - exact mail_demo_segments_ok.
  - reflexivity.
  - exists [1], []. exact mail_demo_sched.
  - exists []. split; [exact mail_demo_mail | constructor].
Qed.
Lemma mail_demo_sends : sends mail_demo 1 0x1000 [65; 66] 2.
Proof.
  split; [exact u32_1000|]. split; [split; [discriminate | vm_compute; discriminate]|]. split; [vm_compute; discriminate|].
  split; [exact bytes_AB|]. split; [exact mail_demo_bytes|]. intros p Hp. rewrite mail_demo_lookup in Hp. injection Hp as <-.
  right. apply mail_demo_segment. split; vm_compute; discriminate.
Qed.
(** ... after which the message waits for it. *)
Definition send_demo : K Z := bind (syscall_send 1 7 0x1000 2) (store_errno SYSCALL_SEND).
Definition mailed_demo : kstate := final send_demo mail_demo.
Definition mailed_demo_world : uworld := mkWorld [] (fun _ => None) ∅ ∅ [mkMsg 1 7 2 [65; 66]] 1 0 ∅ [].
Lemma tag_7 : is_int 7.
Proof. split; vm_compute; [discriminate | reflexivity]. Qed.
Lemma mailed_demo_eq : send_demo mail_demo = Ok 0 mailed_demo.
Proof.
  assert (H : result send_demo mail_demo = Some 0) by (vm_compute; reflexivity).
  exact (run_eq send_demo mail_demo 0 H).
Qed.
Lemma mailed_demo_frame : k_pages mailed_demo = k_pages mail_demo /\ k_paging mailed_demo = k_paging mail_demo /\
  (segments <$> zlookup (k_processes mailed_demo) 1) = Some (segments mail_demo_process).
Proof. split; [|split]; vm_compute; reflexivity. Qed.
#[local] Opaque mailed_demo.
Lemma mailed_demo_related : mail_world mailed_demo 1 mailed_demo_world.
Proof.
  destruct (wpx_run _ _ _ _ _ (send_refines mail_demo 1 mail_demo_world mail_demo_related 7 0x1000 [65; 66] 2 tag_7 mail_demo_sends)
    mailed_demo_eq) as (w' & (d & [= <-] & _ & _ & _ & Hw) & H).
  destruct (decide _) as [_|Hn]; [|by destruct Hn; apply Nat.lt_0_succ]. destruct Hw as [_ ->]. exact H.
Qed.
Lemma mailed_demo_receives : receives mailed_demo 1 PAGE_START 0x1000.
Proof.
  destruct mailed_demo_frame as (E1 & E2 & E3). split; [exact u32_1000|].
  split; [exact (user_region_frame mail_demo mailed_demo _ _ _ E1 E2 mail_demo_region)|]. intros p Hp. rewrite Hp in E3.
  apply (inj Some) in E3. destruct mail_demo_buffer as (a & e & Hin & H). exists a, e. rewrite E3. exact (conj Hin H).
Qed.
Lemma messages_refine_witness :
  wpx (bind (syscall_send 1 7 0x1000 2) (store_errno SYSCALL_SEND))
    (fun r k' => exists w', unix_send 1 7 (Mem [65; 66]) 2 mail_demo_world r w' /\ mail_world k' 1 w') mail_demo /\
  wp (bind (syscall_receive 0x1000 0) (store_errno SYSCALL_RECEIVE)) (fun r k' => exists m w', unix_receive (r, m) mailed_demo_world w' /\
    mail_world k' 1 w' /\ (r = 0 -> received k' 0x1000 m)) mailed_demo.
Proof.
  split.
  - exact (proj1 (messages_refine mail_demo 1 mail_demo_world mail_demo_related) 7 0x1000 [65; 66] 2 tag_7 mail_demo_sends).
  - exact (proj2 (messages_refine mailed_demo 1 mailed_demo_world mailed_demo_related) PAGE_START 0x1000 mailed_demo_receives).
Defined.
