(* ===== verification/ShellProofs.v ===== *)
(** * Theorems about the shell: the words of a line, the lines of the input *)

From Stdlib Require Import Ascii.
From ITree Require Import ITree.
From S2P Require Import Prelude Constants Libc LibcProofs PrintProofs User Shell UserLogic UserWorld UserProofs.

(** ** parse_command *)

Definition separator (c : Z) : bool := (c =? 10) || (c =? SPACE).
(** The words of a line; [cur] is the part of a word that was seen already. *)
Fixpoint words_from (cur s : list Z) : list (list Z) :=
  match s with
  | [] => if decide (cur = []) then [] else [cur]
  | c :: s' =>
      if separator c then (if decide (cur = []) then [] else [cur]) ++ words_from [] s'
      else words_from (cur ++ [c]) s'
  end.
Definition words : list Z -> list (list Z) := words_from [].

(** A line with terminators for separators. *)
Definition cut (s : list Z) : list Z := (fun c => if separator c then 0 else c) <$> s.

(** The offsets parse_command finds in the rest [s] of a line. *)
Fixpoint offsets (s : list Z) (pos start : Z) : list Z :=
  match s with
  | [] => if start <? pos then [start] else []
  | c :: s' =>
      if separator c then (if start <? pos then [start] else []) ++ offsets s' (pos + 1) (pos + 1)
      else offsets s' (pos + 1) start
  end.

Lemma zlookup_between (a b : list Z) x i : Z.of_nat (length a) = i -> zlookup (a ++ x :: b) i = Some x.
Proof. intros <-. unfold zlookup. case_test; [lia|]. rewrite Nat2Z.id. by apply list_lookup_middle. Qed.
Lemma cut_app a b : cut (a ++ b) = cut a ++ cut b.
Proof. apply fmap_app. Qed.
Lemma cut_length a : length (cut a) = length a.
Proof. apply length_fmap. Qed.
Lemma take_app_take {A} n (a b : list A) : take n (take n a ++ b) = take n (a ++ b).
Proof.
  destruct (decide (length a <= n)%nat); [by rewrite (take_ge a n) by lia|].
  rewrite !take_app_le; [by rewrite take_take, Nat.min_id | lia | rewrite length_take; lia].
Qed.
(** Storing one more offset while there is room. *)
Lemma store_offset (argv : list Z) pos start max : Z.of_nat (length argv) < max ->
  (if (start <? pos) && (Z.of_nat (length argv) + 1 <? max) then argv ++ [start] else argv) =
  take (Z.to_nat (max - 1)) (argv ++ if start <? pos then [start] else []).
Proof.
  intros Hm. destruct (start <? pos); cbn [andb].
  - case_test; [rewrite take_ge; [done | rewrite length_app; cbn; lia]|].
    rewrite take_app_le, take_ge by lia. done.
  - by rewrite app_nil_r, take_ge by lia.
Qed.

Lemma parse_loop_spec rest : forall pre tail pos start argv max,
  no_nul rest -> pos = Z.of_nat (length pre) -> Z.of_nat (length argv) < max ->
  parse_loop (S (length rest)) (cut pre ++ rest ++ 0 :: tail) (Z.of_nat (length (pre ++ rest))) pos start argv max =
  Some (cut (pre ++ rest) ++ 0 :: tail, take (Z.to_nat (max - 1)) (argv ++ offsets rest pos start)).
Proof.
  induction rest as [|c rest IH]; intros pre tail pos start argv max Hn -> Hmax.
  - cbn [parse_loop length app]. rewrite zlookup_between by (by rewrite cut_length).
    cbn [mbind option_bind]. rewrite app_nil_r, Z.eqb_refl, orb_true_r.
    rewrite (zinsert_split _ (cut pre) tail 0 0) by (by rewrite ?cut_length). rewrite store_offset by done. done.
  - apply no_nul_cons in Hn as [Hc Hn]. cbn [length app]. remember (S (length rest)) as n eqn:En.
    cbn [parse_loop]. rewrite zlookup_between by (by rewrite cut_length). cbn [mbind option_bind].
    destruct (Z.eqb_spec (Z.of_nat (length pre)) (Z.of_nat (length (pre ++ c :: rest)))) as [E|_];
      [rewrite length_app in E; cbn in E; lia|]. rewrite orb_false_r. fold (separator c).
    assert (Hpre : pre ++ c :: rest = (pre ++ [c]) ++ rest) by (by rewrite <- app_assoc).
    assert (Hlen : Z.of_nat (length pre) + 1 = Z.of_nat (length (pre ++ [c]))) by (rewrite length_app; cbn; lia).
    rewrite Hpre, Hlen. subst n. cbn [offsets]. destruct (separator c) eqn:Es.
    + rewrite (zinsert_split _ (cut pre) (rest ++ 0 :: tail) 0 c) by (by rewrite ?cut_length).
      rewrite store_offset by done.
      replace (cut pre ++ 0 :: rest ++ 0 :: tail) with (cut (pre ++ [c]) ++ rest ++ 0 :: tail)
        by (by rewrite cut_app, <- app_assoc; cbn; rewrite Es).
      rewrite IH; [|done | done | rewrite length_take; lia]. by rewrite Hlen, take_app_take, <- (app_assoc argv).
    + replace (cut pre ++ c :: rest ++ 0 :: tail) with (cut (pre ++ [c]) ++ rest ++ 0 :: tail)
        by (by rewrite cut_app, <- app_assoc; cbn; rewrite Es).
      rewrite IH by done. by rewrite Hlen.
Qed.

(** The strings at the offsets are the words. *)
Lemma string_from_spec pre s rest : no_nul s -> string_from (pre ++ s ++ 0 :: rest) (Z.of_nat (length pre)) = Some s.
Proof.
  intros Hs. unfold string_from. rewrite Nat2Z.id, drop_app_length, strlen_spec by done.
  cbn [mbind option_bind]. by rewrite Nat2Z.id, take_app_length.
Qed.
Lemma offsets_words tail s : forall pre cur, no_nul cur -> no_nul s -> Forall (fun c => separator c = false) cur ->
  Forall2 (fun off word => string_from (cut (pre ++ cur ++ s) ++ 0 :: tail) off = Some word)
    (offsets s (Z.of_nat (length pre + length cur)) (Z.of_nat (length pre))) (words_from cur s).
Proof.
  assert (Hword : forall pre cur rest, no_nul cur -> Forall (fun c => separator c = false) cur ->
    Forall2 (fun off word => string_from (cut (pre ++ cur) ++ 0 :: rest) off = Some word)
      (if Z.of_nat (length pre) <? Z.of_nat (length pre + length cur) then [Z.of_nat (length pre)] else [])
      (if decide (cur = []) then [] else [cur])).
  { intros pre cur rest Hn Hs. destruct (decide (cur = [])) as [->|Hc]; [cbn; case_test; [lia | done]|].
    case_test; [|destruct cur; [done | cbn in *; lia]]. constructor; [|done].
    replace (cut (pre ++ cur) ++ 0 :: rest) with (cut pre ++ cur ++ 0 :: rest).
    - rewrite <- (cut_length pre). by apply string_from_spec.
    - rewrite cut_app, <- app_assoc. do 2 f_equal. unfold cut. symmetry. rewrite <- (list_fmap_id cur) at 2.
      apply list_fmap_ext. intros i x Hx. by rewrite (Forall_lookup_1 _ _ _ _ Hs Hx). }
  induction s as [|c s IH]; intros pre cur Hn Hs Hsep; cbn [offsets words_from]; [rewrite app_nil_r; by apply Hword|].
  apply no_nul_cons in Hs as [Hc Hs].
  replace (Z.of_nat (length pre + length cur) + 1) with (Z.of_nat (length (pre ++ cur ++ [c]) + length (@nil Z)))
    by (rewrite !length_app; cbn; lia).
  destruct (separator c) eqn:Ec.
  - apply Forall2_app.
    + assert (E : cut (pre ++ cur ++ c :: s) = cut (pre ++ cur) ++ 0 :: cut s).
      { rewrite (app_assoc pre), (cut_app (pre ++ cur)). f_equal. unfold cut. rewrite fmap_cons, Ec. done. }
      rewrite E, <- app_assoc. by apply Hword.
    + specialize (IH (pre ++ cur ++ [c]) [] no_nul_nil Hs (Forall_nil_2 _)). rewrite <- !app_assoc in IH. cbn in IH.
      rewrite Nat.add_0_r in IH |- *. exact IH.
  - specialize (IH pre (cur ++ [c])). rewrite <- !app_assoc in IH.
    replace (length (pre ++ cur ++ [c]) + length (@nil Z))%nat with (length pre + length (cur ++ [c]))%nat
      by (rewrite !length_app; cbn; lia).
    apply IH; [|done|]; apply Forall_app; (split; [done | by apply Forall_singleton]).
Qed.

(** parse_command leaves the words of the line, cut off after [max - 1], behind
    the offsets it returns, and changes nothing behind the line. *)
Lemma parse_words s tail max : no_nul s -> 0 < max ->
  exists offs, parse_command (s ++ 0 :: tail) max = Some (cut s ++ 0 :: tail, offs) /\
    mapM (string_from (cut s ++ 0 :: tail)) offs = Some (take (Z.to_nat (max - 1)) (words s)).
Proof.
  intros Hs Hm. unfold parse_command. rewrite strlen_spec by done. cbn [mbind option_bind].
  replace (Z.to_nat (Z.of_nat (length s) + 1)) with (S (length s)) by lia.
  eexists. split; [exact (parse_loop_spec s [] tail 0 0 [] max Hs eq_refl Hm)|].
  apply mapM_Some, Forall2_take, (offsets_words tail s [] []); [constructor | done | constructor].
Qed.

Lemma words_from_ok P s : forall cur, Forall P cur -> Forall P s -> 
  Forall (fun w => w <> [] /\ Forall P w /\ (length w <= length cur + length s)%nat) (words_from cur s).
Proof.
  induction s as [|c s IH]; intros cur Hc Hs; cbn [words_from].
  - case_decide; constructor; [|done]. repeat split; [done..|cbn; lia].
  - apply list.Forall_cons in Hs as [Hx Hs]. case_match.
    + apply Forall_app. split; [case_decide; constructor; [|done]; repeat split; [done..|lia]|].
      eapply list.Forall_impl; [exact (IH [] (Forall_nil_2 _) Hs)|]. intros w (? & ? & ?). repeat split; [done..|cbn in *; lia].
    + assert (Hcx : Forall P (cur ++ [c])) by (apply Forall_app; split; [done | by constructor]).
      eapply list.Forall_impl; [exact (IH _ Hcx Hs)|].
      intros w (? & ? & ?). rewrite length_app in *. repeat split; [done..|cbn in *; lia].
Qed.

(** ** Commands *)

(** The words the shell uses. *)
Definition command (line : list Z) : list (list Z) := take (Z.to_nat (MAX_ARGS - 1)) (words line).
Definition command_path (cmd : list Z) : list Z := take (Z.to_nat (PATH_MAX - 1)) (bytes "/bin/" ++ cmd).
Definition is_exit (line : list Z) : bool :=
  match command line with cmd :: _ => bool_decide (cmd = bytes "exit") | [] => false end.

(** What a line makes the shell do. *)
Definition line_effect (view : list Z -> option node) (line : list Z) (acts : list action) : Prop :=
  match command line with
  | [] => acts = []
  | cmd :: args =>
      if decide (cmd = bytes "cd") then acts = match args with [] => [] | path :: _ => [AChdir path] end
      else if decide (cmd = bytes "pwd") then acts = [AGetcwd]
      else if decide (cmd = bytes "exit") then acts = []
      else match view (command_path cmd) with
           | None => acts = []
           | Some _ => acts = [AForkFailed] \/ acts = [AFork; AWait]
           end
  end.
(** What the child of the shell does for it. *)
Definition child_effect (view : list Z -> option node) (line : list Z) (acts : list action) : Prop :=
  match command line with
  | [] => False
  | cmd :: _ =>
      cmd <> bytes "cd" /\ cmd <> bytes "pwd" /\ cmd <> bytes "exit" /\
      match view (command_path cmd) with
      | Some (NFile _ _) => acts = [AChild; AExec (command_path cmd) (Some (command line))]
      | Some (NDir _ _) => acts = [AChild; AExit 1]
      | None => False
      end
  end.

(** The parts of the world a command of the shell leaves alone. *)
Definition kept (w w' : uworld) : Prop :=
  w_fds w' = w_fds w /\ w_children w' = w_children w /\ (forall p, absolute p -> w_view w' p = w_view w p).
Lemma kept_refl w : kept w w.
Proof. by repeat split. Qed.
Lemma kept_trans w1 w2 w3 : kept w1 w2 -> kept w2 w3 -> kept w1 w3.
Proof.
  intros (F1 & C1 & V1) (F2 & C2 & V2). repeat split; [by rewrite F2 | by rewrite C2 |].
  intros p Hp. by rewrite V2, V1.
Qed.

Section commands.
  Context (H : uworld -> Prop).
  #[local] Abbreviation uwp := (uwp unix H).

(** The postcondition of a command: its actions, and what it leaves alone. *)
Definition did (P : list action -> Prop) (w w' : uworld) : Prop :=
  exists acts, P acts /\ w_log w' = w_log w ++ acts /\ kept w w'.
Lemma did_nothing (P : list action -> Prop) w w' : P [] -> w_log w' = w_log w -> kept w w' -> did P w w'.
Proof using. intros HP Hl Hk. exists []. by rewrite app_nil_r. Qed.

Lemma uwp_is_command s name (Q : bool -> uworld -> Prop) w : no_nul s -> Forall is_byte s ->
  no_nul (bytes name) -> Forall is_byte (bytes name) -> Q (bool_decide (s = bytes name)) w -> uwp Q (is_command s name) w.
Proof using.
  intros Hs Hb Hn Hnb HQ. unfold is_command. apply uwp_bind.
  destruct (strcmp_decides s (bytes name) [] [] Hs Hn Hb Hnb) as (v & Ev & Hv).
  eapply uwp_of_option; [exact Ev|]. apply uwp_ret.
  assert (E : negb (truthy v) = bool_decide (s = bytes name)); [|by rewrite E].
  unfold truthy. rewrite negb_involutive. destruct (Z.eqb_spec v 0) as [Ez|Ez]; symmetry.
  - apply bool_decide_eq_true. by apply Hv.
  - apply bool_decide_eq_false. intros Es. by apply Ez, Hv.
Qed.

Lemma uwp_fork (Q : Z -> uworld -> Prop) w :
  Q (-1) (with_log [AForkFailed] (with_errno EAGAIN w)) -> Q 0 (with_log [AChild] w) ->
  (forall pid, 0 < pid -> pid ∉ w_children w -> Q pid (with_log [AFork] (with_children (fun c => {[ pid ]} ∪ c) w))) ->
  uwp Q (sys Fork) w.
Proof using.
  intros Hf Hc Hp. ucall.
  - exists (-1). eexists. by left.
  - intros r w' [[-> ->]|[[-> ->]|(Hr & Hn & ->)]]; [done | done | by apply Hp].
Qed.
Lemma uwp_waitpid pid (Q : Z -> uworld -> Prop) w : pid ∈ w_children w ->
  Q pid (with_log [AWait] (with_children (fun c => c ∖ {[ pid ]}) w)) -> uwp Q (sys (Waitpid pid)) w.
Proof using. intros Hp HQ. ucall; [by eexists _, _|]. by intros r w' (_ & -> & ->). Qed.

Lemma run_program_did path argv n w : w_view w path = Some n ->
  (forall w', w_log w' = w_log w ++ [AChild; match n with NFile _ _ => AExec path (Some argv) | NDir _ _ => AExit 1 end] ->
    H w') ->
  uwp (fun _ => did (fun acts => acts = [AForkFailed] \/ acts = [AFork; AWait]) w) (run_program path argv) w.
Proof using.
  intros Hv Hchild. unfold run_program. apply uwp_bind, uwp_fork.
  - cbn. apply uwp_perror; [done | by_bytes | done |]. exists [AForkFailed]. repeat split; by left.
  - cbn. destruct n as [st c|st names].
    + apply uwp_bind, uwp_sys; cbn; rewrite Hv; [right; by eexists | done |].
      intros w' ->. apply Hchild. cbn. by rewrite <- app_assoc.
    + apply uwp_bind, uwp_sys; cbn; rewrite Hv; [left; by eexists _, _ | | done]. intros r w' [-> ->].
      apply uwp_bind, uwp_perror; [done | by_bytes | done |]. apply uwp_exit. apply Hchild. cbn. by rewrite <- app_assoc.
  - intros pid Hpid Hnew. destruct (Z.ltb_spec pid 0); [lia|]. destruct (Z.eqb_spec pid 0); [lia|].
    apply uwp_bind, uwp_waitpid; [cbn; set_solver|]. destruct (Z.ltb_spec pid 0); [lia|]. apply uwp_ret.
    exists [AFork; AWait]. cbn. rewrite <- app_assoc. repeat split; [by right|]. cbn. set_solver.
Qed.

(** A text of a command line. *)
Definition plain (s : list Z) : Prop := no_nul s /\ Forall is_byte s /\ Z.of_nat (length s) < BUFSIZE.
Lemma command_plain line : plain line -> Forall (fun w => w <> [] /\ plain w) (command line).
Proof using.
  intros (Hn & Hb & Hl). apply Forall_take. apply list.Forall_forall. intros w Hw.
  assert (H1 := words_from_ok (fun c => c <> 0) line [] (Forall_nil_2 _) Hn).
  assert (H2 := words_from_ok is_byte line [] (Forall_nil_2 _) Hb).
  rewrite list.Forall_forall in H1, H2. destruct (H1 w Hw) as (? & ? & Hle). destruct (H2 w Hw) as (_ & ? & _).
  cbn in Hle. repeat split; [done..|lia].
Qed.
Lemma command_path_absolute cmd : absolute (command_path cmd).
Proof using. done. Qed.

Lemma cd_did args (d : bool) w : Forall (fun w => w <> [] /\ plain w) args ->
  uwp (fun d' w' => d' = d /\ did (fun acts => acts = match args with [] => [] | path :: _ => [AChdir path] end) w w')
    (match args with
     | [] => printf (fmt "Usage: cd <path>") [];; Ret d
     | path :: _ => r <- sys (Chdir path); (if r <? 0 then perror (Some path) else Ret tt);; Ret d
     end) w.
Proof using.
  intros Ha. destruct args as [|path args].
  - apply uwp_bind. eapply uwp_printf; [vm_compute; reflexivity | done |]. apply uwp_ret. split; [done|].
    by apply did_nothing.
  - apply list.Forall_cons in Ha as [(Hne & Hn & _ & Hl) _]. unfold BUFSIZE in Hl.
    apply uwp_bind. ucall.
    + exists (-1). eexists. left. split; [done|]. by exists 0.
    + intros r w' [[-> (e & ->)]|[-> (v & Hv & ->)]]; cbn.
      * apply uwp_bind, uwp_perror; [done | done | lia |]. apply uwp_ret. split; [done|]. by exists [AChdir path].
      * apply uwp_bind, uwp_ret, uwp_ret. split; [done|]. exists [AChdir path]. by repeat split.
Qed.
Lemma pwd_did (d : bool) w :
  uwp (fun d' w' => d' = d /\ did (fun acts => acts = [AGetcwd]) w w')
    (p <- sys (Getcwd PATH_MAX);
     match p with
     | None => perror (Some (bytes "getcwd"))
     | Some path => printf (fmt "%s") [AStr (c_str path)];; Ret tt
     end;; Ret d) w.
Proof using.
  apply uwp_bind. ucall; [exists (Some []); eexists; split; [done|]; exists []; by split_and!; [|apply no_nul_nil|]|].
  intros p w' (-> & path & -> & Hn & Hl). unfold PATH_MAX in Hl. apply uwp_bind, uwp_bind.
  eapply uwp_printf; [render_steps | lens |]. apply uwp_ret, uwp_ret. split; [done|]. by exists [AGetcwd].
Qed.
Lemma program_did cmd argv (d : bool) w : plain cmd ->
  (forall n w', w_view w (command_path cmd) = Some n -> w_log w' = w_log w ++
     [AChild; match n with NFile _ _ => AExec (command_path cmd) (Some argv) | NDir _ _ => AExit 1 end] -> H w') ->
  uwp (fun d' w' => d' = d /\ did (fun acts => match w_view w (command_path cmd) with
      | None => acts = [] | Some _ => acts = [AForkFailed] \/ acts = [AFork; AWait] end) w w')
    (cmdpath <- snprintf_local PATH_MAX (cstr "/bin/%s") [AStr (c_str cmd)];
     '(r, _) <- sys (Stat cmdpath);
     if r =? 0 then run_program cmdpath argv;; Ret d
     else printf (fmt "%s: command not found") [AStr (c_str cmd)];; Ret d) w.
Proof using.
  intros (Hn & _ & Hl) Hchild. unfold BUFSIZE in Hl. apply uwp_bind.
  eapply (uwp_snprintf _ _ _ _ (bytes "/bin/" ++ cmd)); [done | render_steps | |
    rewrite length_app; change (length (bytes "/bin/")) with 5%nat; lia |].
  { apply Forall_app. split; [by_bytes | done]. }
  fold (command_path cmd). apply uwp_bind. destruct (w_view w (command_path cmd)) as [n|] eqn:Hv.
  - eapply uwp_stat; [exact Hv|]. apply uwp_bind. eapply uwp_mono.
    { apply (run_program_did _ _ n); [done|]. intros w' Hw'. by eapply Hchild. }
    intros a w' Hd. by apply uwp_ret.
  - ucall; cbn; rewrite Hv; [exists (-1, mkUstat 0 0 0 0 0); by eexists|]. intros [r st] w' [E ->]. cbn in E. subst r. cbn.
    apply uwp_bind. eapply uwp_printf; [render_steps | lens |]. apply uwp_ret. split; [done|]. by apply did_nothing.
Qed.

Lemma did_mono (P P' : list action -> Prop) w w' : did P w w' -> (forall acts, P acts -> P' acts) -> did P' w w'.
Proof using. intros (acts & HP & Hl & Hk) HPP. exists acts. auto. Qed.

Lemma run_command_did line d w : plain line ->
  (forall acts w', child_effect (w_view w) line acts -> w_log w' = w_log w ++ acts -> H w') ->
  uwp (fun d' w' => d' = d || is_exit line /\ did (line_effect (w_view w) line) w w') (run_command (command line) d) w.
Proof using.
  intros Hp Hchild. apply command_plain in Hp. unfold is_exit, line_effect. unfold child_effect in Hchild.
  destruct (command line) as [|cmd args]; cbn [run_command].
  { apply uwp_ret. rewrite orb_false_r. split; [done|]. by apply did_nothing. }
  apply list.Forall_cons in Hp as [[Hne Hcmd] Hargs]. pose proof Hcmd as (Hn & Hb & Hl).
  apply uwp_bind, uwp_is_command; [done | done | by_bytes | by_bytes |]. cbv beta.
  destruct (bool_decide_reflect (cmd = bytes "cd")) as [Hcd|Hcd].
  { eapply uwp_mono; [by apply cd_did|]. intros d' w' [-> Hd].
    rewrite bool_decide_eq_false_2, orb_false_r by (by subst). split; [done|].
    eapply did_mono; [exact Hd|]. intros acts Ha. by rewrite decide_True. }
  apply uwp_bind, uwp_is_command; [done | done | by_bytes | by_bytes |]. cbv beta.
  destruct (bool_decide_reflect (cmd = bytes "pwd")) as [Hpwd|Hpwd].
  { eapply uwp_mono; [by apply pwd_did|]. intros d' w' [-> Hd].
    rewrite bool_decide_eq_false_2, orb_false_r by (by subst). split; [done|].
    eapply did_mono; [exact Hd|]. intros acts Ha. by rewrite decide_False, decide_True. }
  apply uwp_bind, uwp_is_command; [done | done | by_bytes | by_bytes |]. cbv beta.
  destruct (bool_decide_reflect (cmd = bytes "exit")) as [Hexit|Hexit].
  { apply uwp_ret. rewrite orb_true_r. split; [done|].
    apply did_nothing; [by rewrite decide_False, decide_False, decide_True | done | apply kept_refl]. }
  rewrite orb_false_r. eapply uwp_mono; [apply program_did; [done|]|].
  { intros n w' Hv Hw'. eapply Hchild; [|exact Hw']. rewrite Hv. by destruct n. }
  intros d' w' [-> Hd]. split; [done|]. eapply did_mono; [exact Hd|]. intros acts Ha. by rewrite !decide_False.
Qed.

(** A line with whatever follows it in the buffer. *)
Lemma process_line_did line tail d w : plain line ->
  (forall acts w', child_effect (w_view w) line acts -> w_log w' = w_log w ++ acts -> H w') ->
  uwp (fun x w' => x = (cut line ++ 0 :: tail, d || is_exit line) /\ did (line_effect (w_view w) line) w w')
    (process_line (line ++ 0 :: tail) d) w.
Proof using.
  intros Hp Hchild. destruct (parse_words line tail MAX_ARGS) as (offs & E1 & E2); [apply Hp | done|].
  unfold process_line. apply uwp_bind. eapply uwp_of_option; [exact E1|].
  apply uwp_bind. eapply uwp_of_option; [exact E2|]. fold (command line).
  apply uwp_bind. eapply uwp_mono; [by apply run_command_did|]. intros d' w' [-> Hd]. by apply uwp_ret.
Qed.
End commands.

(** ** The lines of the input *)

(** The complete lines of a text, and what follows the last one; [cur] is the
    part of the first line that was seen already. *)
Fixpoint feed (cur s : list Z) : list (list Z) * list Z :=
  match s with
  | [] => ([], cur)
  | c :: s' => if c =? 10 then (cur :: (feed [] s').1, (feed [] s').2) else feed (cur ++ [c]) s'
  end.
Definition lines (s : list Z) : list (list Z) := (feed [] s).1.

(** The lines do not depend on how the text is cut into pieces. *)
Lemma feed_app a : forall cur b,
  feed cur (a ++ b) = ((feed cur a).1 ++ (feed (feed cur a).2 b).1, (feed (feed cur a).2 b).2).
Proof.
  induction a as [|c a IH]; intros cur b; cbn [feed app]; [cbn [fst snd app]; by destruct (feed cur b)|].
  destruct (c =? 10); cbn [fst snd]; by rewrite IH.
Qed.
(** The part of a line that was seen is where the next line starts. *)
Lemma feed_starts s : forall cur, exists x more, (feed cur s).1 ++ [(feed cur s).2] = (cur ++ x) :: more.
Proof.
  induction s as [|c s IH]; intros cur; cbn [feed]; [exists [], []; by rewrite app_nil_r|].
  destruct (c =? 10); [exists []; eexists; by rewrite app_nil_r|].
  destruct (IH (cur ++ [c])) as (x & more & ->). exists (c :: x), more. by rewrite <- app_assoc.
Qed.

(** ** Sessions *)

(** What the lines make the shell do, one after the other. *)
Definition session (view : list Z -> option node) (ls : list (list Z)) (acts : list action) : Prop :=
  exists accs, Forall2 (line_effect view) ls accs /\ acts = concat accs.
(** What a child of the shell has in its history: the session so far, and its
    own line. *)
Definition child_session (view : list Z -> option node) (ls : list (list Z)) (acts : list action) : Prop :=
  exists k line before own, ls !! k = Some line /\ session view (take k ls) before /\
    child_effect view line own /\ acts = before ++ own.

Lemma session_nil view : session view [] [].
Proof. exists []. by split. Qed.
Lemma session_app view l1 l2 a1 a2 : session view l1 a1 -> session view l2 a2 -> session view (l1 ++ l2) (a1 ++ a2).
Proof.
  intros (c1 & H1 & ->) (c2 & H2 & ->). exists (c1 ++ c2). split; [by apply Forall2_app | by rewrite concat_app].
Qed.
Lemma session_one view l a : line_effect view l a -> session view [l] a.
Proof. intros Ha. exists [a]. split; [by constructor | cbn; by rewrite app_nil_r]. Qed.
Lemma child_session_first view l ls a : child_effect view l a -> child_session view (l :: ls) a.
Proof. intros Ha. exists O, l, [], a. by repeat split; [apply session_nil|]. Qed.
Lemma child_session_app_l view l1 l2 a : child_session view l1 a -> child_session view (l1 ++ l2) a.
Proof.
  intros (k & line & b & o & Hk & Hb & Ho & ->). exists k, line, b, o. repeat split; [by apply lookup_app_l_Some | |done].
  rewrite take_app_le; [done|]. apply lookup_lt_Some in Hk. lia.
Qed.
Lemma child_session_app_r view l1 l2 a1 a2 : session view l1 a1 -> child_session view l2 a2 ->
  child_session view (l1 ++ l2) (a1 ++ a2).
Proof.
  intros H1 (k & line & b & o & Hk & Hb & Ho & ->). exists (length l1 + k)%nat, line, (a1 ++ b), o. repeat split.
  - rewrite lookup_app_r by lia. by replace (length l1 + k - length l1)%nat with k by lia.
  - rewrite take_app_add'; [by apply session_app | done].
  - done.
  - by rewrite app_assoc.
Qed.
(** Only absolute paths matter. *)
Definition same_root (view view' : list Z -> option node) : Prop := forall p, absolute p -> view p = view' p.
Lemma line_effect_root view view' l a : same_root view view' -> line_effect view l a -> line_effect view' l a.
Proof.
  intros Hv. unfold line_effect. destruct (command l) as [|cmd args]; [done|].
  by rewrite (Hv (command_path cmd)) by apply command_path_absolute.
Qed.
Lemma child_effect_root view view' l a : same_root view view' -> child_effect view l a -> child_effect view' l a.
Proof.
  intros Hv. unfold child_effect. destruct (command l) as [|cmd args]; [done|].
  by rewrite (Hv (command_path cmd)) by apply command_path_absolute.
Qed.

Section main.
  Context (H : uworld -> Prop) (view : list Z -> option node).
  #[local] Abbreviation uwp := (uwp unix H).

(** The children started by [ls] from [w] on are as they should be. *)
Definition children_ok (ls : list (list Z)) (w : uworld) : Prop :=
  forall acts w', child_session view ls acts -> w_log w' = w_log w ++ acts -> H w'.
Lemma children_ok_prefix l1 l2 w : children_ok (l1 ++ l2) w -> children_ok l1 w.
Proof using. intros Hc acts w' Ha. apply Hc. by apply child_session_app_l. Qed.
Lemma children_ok_suffix l1 l2 w w' a : children_ok (l1 ++ l2) w -> session view l1 a -> w_log w' = w_log w ++ a ->
  children_ok l2 w'.
Proof using.
  intros Hc Hs Hw acts w'' Ha Hw''. apply (Hc (a ++ acts)); [by apply child_session_app_r|].
  by rewrite Hw'', Hw, app_assoc.
Qed.

(** The lines [ls] have been run since [w]. *)
Definition ran (ls : list (list Z)) (w w' : uworld) : Prop := did (session view ls) w w'.
Lemma ran_app l1 l2 w1 w2 w3 : ran l1 w1 w2 -> ran l2 w2 w3 -> ran (l1 ++ l2) w1 w3.
Proof using.
  intros (a1 & S1 & L1 & K1) (a2 & S2 & L2 & K2). exists (a1 ++ a2). repeat split; [by apply session_app | | by eapply kept_trans..].
  by rewrite L2, L1, app_assoc.
Qed.
Lemma ran_put_out ls l w w' : ran ls w w' -> ran ls w (put_out l w').
Proof using. intros (a & Hs & Hl & Hk). by exists a. Qed.
Lemma ran_root ls w w' : same_root (w_view w) view -> ran ls w w' -> same_root (w_view w') view.
Proof using. intros Hr (a & _ & _ & (_ & _ & Hv)) p Hp. by rewrite Hv, Hr. Qed.

Lemma uwp_prompt (Q : Z -> uworld -> Prop) w : (forall r, Q r (put_out (bytes "$ ") w)) -> uwp Q (printf (cstr "$ ") []) w.
Proof using. intros HQ. eapply uwp_printf; [vm_compute; reflexivity | done | apply HQ]. Qed.

Lemma process_line_ran line tail d w : plain line -> same_root (w_view w) view -> children_ok [line] w ->
  uwp (fun x w' => x = (cut line ++ 0 :: tail, d || is_exit line) /\ ran [line] w w') (process_line (line ++ 0 :: tail) d) w.
Proof using.
  intros Hp Hr Hc. eapply uwp_mono; [apply process_line_did; [done|]|].
  - intros acts w' Ha. apply Hc, child_session_first. by eapply child_effect_root.
  - intros x w' [-> Hd]. split; [done|]. eapply did_mono; [exact Hd|]. intros acts Ha.
    by apply session_one; eapply line_effect_root.
Qed.

Lemma scan_lines_ran data : forall pre cur tail d w, Forall plain (feed cur data).1 ->
  same_root (w_view w) view -> children_ok (feed cur data).1 w ->
  uwp (fun x w' => exists pre', x = (pre' ++ (feed cur data).2 ++ 0 :: tail, length pre', d || existsb is_exit (feed cur data).1) /\
      length (pre' ++ (feed cur data).2) = length (pre ++ cur ++ data) /\ ran (feed cur data).1 w w')
    (scan_lines process_line (length data) (pre ++ cur ++ data ++ 0 :: tail) (length pre + length cur) (length pre) d) w.
Proof using.
  induction data as [|c data IH]; intros pre cur tail d w Hp Hr Hc; cbn [length scan_lines].
  { apply uwp_ret. exists pre. cbn [feed fst snd existsb]. rewrite orb_false_r. split; [done|].
    split; [by rewrite app_nil_r|]. apply did_nothing; [apply session_nil | done | apply kept_refl]. }
  assert (Hpos : (pre ++ cur ++ (c :: data) ++ 0 :: tail) !! (length pre + length cur)%nat = Some c).
  { rewrite app_assoc. apply list_lookup_middle. by rewrite length_app. }
  apply uwp_bind. eapply uwp_of_option; [exact Hpos|]. cbn [feed] in *. destruct (c =? 10) eqn:Ec; cbn [fst snd] in *.
  - apply list.Forall_cons in Hp as [Hline Hp].
    assert (Hins : <[(length pre + length cur)%nat := 0]> (pre ++ cur ++ (c :: data) ++ 0 :: tail) =
      pre ++ cur ++ 0 :: data ++ 0 :: tail).
    { rewrite !app_assoc. rewrite <- length_app. rewrite <- (app_assoc (pre ++ cur)). by rewrite insert_app_r_alt, Nat.sub_diag by lia. }
    rewrite Hins, drop_app_length. apply uwp_bind.
    eapply uwp_mono; [apply process_line_ran; [done | done | exact (children_ok_prefix [cur] _ _ Hc)]|].
    intros x w' [-> Hran]. apply uwp_bind, uwp_prompt. intros _.
    assert (Hstore : store_at (length pre) (cut cur ++ 0 :: data ++ 0 :: tail) (pre ++ cur ++ 0 :: data ++ 0 :: tail) =
      (pre ++ cut cur ++ [0]) ++ [] ++ data ++ 0 :: tail).
    { unfold store_at. rewrite take_app_length, drop_ge by (rewrite !length_app, cut_length; cbn; lia).
      rewrite app_nil_r, <- !app_assoc. done. }
    rewrite Hstore. replace (S (length pre + length cur)) with (length (pre ++ cut cur ++ [0])) at 2
      by (rewrite !length_app, cut_length; cbn; lia).
    replace (S (length pre + length cur)) with (length (pre ++ cut cur ++ [0%Z]) + length (@nil Z))%nat
      by (rewrite !length_app, cut_length; cbn; lia).
    eapply uwp_mono; [apply IH; [done | eapply ran_root; [exact Hr | exact Hran] |]|].
    + destruct Hran as (a & Hs & Hl & _). exact (children_ok_suffix [cur] _ _ (put_out _ _) a Hc Hs Hl).
    + intros x w'' (pre' & -> & Hlen & Hran'). exists pre'. cbn [existsb]. rewrite orb_assoc. split; [done|].
      split; [rewrite Hlen, !length_app, cut_length; cbn; lia|].
      eapply (ran_app [cur]); [exact Hran | exact Hran'].
  - specialize (IH pre (cur ++ [c]) tail d w Hp Hr Hc). rewrite <- !(app_assoc cur), (length_app cur) in IH. cbn [app length] in IH.
    replace (S (length pre + length cur)) with (length pre + (length cur + 1))%nat by lia. exact IH.
Qed.

(** The buffer of the shell: the unfinished line in front. *)
Definition shell_buffer (partial input : list Z) : Prop :=
  length input = Z.to_nat (2 * BUFSIZE + 1) /\ exists tail, input = partial ++ tail.

Lemma shell_round_ran partial data junk input w : shell_buffer partial input -> Z.of_nat (length partial) < BUFSIZE ->
  Z.of_nat (length data) <= BUFSIZE -> Forall plain (feed partial data).1 -> plain (feed partial data).2 ->
  same_root (w_view w) view -> children_ok (feed partial data).1 w ->
  uwp (fun x w' => exists input', x = (input', length (feed partial data).2, existsb is_exit (feed partial data).1) /\
      shell_buffer (feed partial data).2 input' /\ ran (feed partial data).1 w w')
    (shell_round process_line input (length partial) (Z.of_nat (length data)) (data ++ junk)) w.
Proof using.
  intros [Hlen [tail ->]] Hpart Hdata Hp (_ & _ & Hlast) Hr Hc. rewrite length_app in Hlen. unfold BUFSIZE in *.
  unfold shell_round. rewrite Nat2Z.id, take_app_length.
  destruct (drop (length data) tail) as [|x tail2] eqn:Et; [apply (f_equal length) in Et; rewrite length_drop in Et; cbn in Et; lia|].
  assert (Hl2 : (length partial + length data + S (length tail2))%nat = Z.to_nat (2 * 1024 + 1)).
  { apply (f_equal length) in Et. rewrite length_drop in Et. cbn in Et. lia. }
  assert (Hin : <[(length partial + length data)%nat := 0]> (store_at (length partial) data (partial ++ tail)) =
    [] ++ partial ++ data ++ 0 :: tail2).
  { unfold store_at. rewrite take_app_length, drop_app_add, Et, app_assoc, <- length_app, insert_app_r_alt by lia.
    by rewrite Nat.sub_diag, <- app_assoc. }
  rewrite Hin. apply uwp_bind, uwp_write, uwp_bind. eapply uwp_mono.
  { apply (scan_lines_ran data [] partial tail2 false); done. }
  intros x' w' (pre' & -> & Hlen' & Hran). rewrite !length_app in Hlen'. cbn [length plus] in Hlen'.
  replace (length partial + length data - length pre')%nat with (length (feed partial data).2) by lia.
  set (last := (feed partial data).2) in *.
  rewrite drop_app_length, take_app_length. destruct (Z.ltb_spec (Z.of_nat (length last)) BUFSIZE); [|unfold BUFSIZE in *; lia].
  apply uwp_ret. eexists. split; [done|]. split; [|done]. unfold store_at. rewrite take_0, app_nil_l. split.
  - rewrite length_app, length_drop, !length_app. cbn [length]. unfold BUFSIZE. lia.
  - by eexists.
Qed.

(** A prefix of the lines [ls] has been run: all of them, or up to one that is an
    [exit] (with what came in the same read). *)
Definition finished (ls : list (list Z)) (w w' : uworld) : Prop :=
  exists k acts, session view (take k ls) acts /\ w_log w' = w_log w ++ acts /\
    (k = length ls \/ existsb is_exit (take k ls) = true).
Lemma finished_app l1 l2 w1 w2 w3 a : session view l1 a -> w_log w2 = w_log w1 ++ a -> finished l2 w2 w3 ->
  finished (l1 ++ l2) w1 w3.
Proof using.
  intros Ha Hw (k & acts & Hs & Hl & Hk). exists (length l1 + k)%nat, (a ++ acts).
  rewrite take_app_add' by done. split_and!; [by apply session_app | by rewrite Hl, Hw, app_assoc |].
  rewrite length_app, existsb_app. destruct Hk as [-> |Hk]; [by left|]. right. by rewrite Hk, orb_true_r.
Qed.

Lemma plain_prefix a b : plain (a ++ b) -> plain a.
Proof using.
  intros (Hn & Hb & Hl). apply Forall_app in Hn as [Hn _]. apply Forall_app in Hb as [Hb _].
  rewrite length_app in Hl. repeat split; [done | done | lia].
Qed.
(** All lines are plain, the unfinished one included. *)
Definition all_plain (partial s : list Z) : Prop := Forall plain ((feed partial s).1 ++ [(feed partial s).2]).
Lemma all_plain_partial partial s : all_plain partial s -> plain partial.
Proof using.
  unfold all_plain. destruct (feed_starts s partial) as (x & more & ->). intros [Hp _]%list.Forall_cons.
  by eapply plain_prefix.
Qed.
Lemma all_plain_app partial a b : all_plain partial (a ++ b) ->
  Forall plain (feed partial a).1 /\ all_plain (feed partial a).2 b.
Proof using. unfold all_plain. rewrite feed_app. cbn [fst snd]. rewrite <- app_assoc. apply Forall_app. Qed.

Lemma feed_forall P s : forall cur, Forall P cur -> Forall P s -> Forall (Forall P) ((feed cur s).1 ++ [(feed cur s).2]).
Proof using.
  induction s as [|c s IH]; intros cur Hc Hs; cbn [feed]; [by constructor|].
  apply list.Forall_cons in Hs as [Hx Hs]. destruct (c =? 10); cbn [fst snd app].
  - constructor; [done|]. by apply IH.
  - apply IH; [|done]. apply Forall_app. split; [done | by constructor].
Qed.
Lemma all_plain_intro s : Forall is_byte s -> no_nul s ->
  Forall (fun l => Z.of_nat (length l) < BUFSIZE) ((feed [] s).1 ++ [(feed [] s).2]) -> all_plain [] s.
Proof using.
  intros Hb Hn Hl. pose proof (feed_forall _ s [] (Forall_nil_2 _) Hb) as Hb'.
  pose proof (feed_forall _ s [] (Forall_nil_2 _) Hn) as Hn'. unfold all_plain.
  rewrite list.Forall_forall in Hb', Hn', Hl |- *. intros l Hin. repeat split; [by apply Hn' | by apply Hb' | by apply Hl].
Qed.

Lemma shell_loop_finished n : forall rest partial input w, (length rest < n)%nat -> shell_buffer partial input ->
  w_fds w !! 0 = Some (Bytes rest) -> all_plain partial rest -> same_root (w_view w) view ->
  children_ok (feed partial rest).1 w ->
  uwp (fun r w' => (r = Some 0 \/ r = None) /\ finished (feed partial rest).1 w w')
    (ITree.iter (fun '(input, pos, done_) =>
      if done_ : bool then Ret (inr None)
      else
        '(r, buf) <- sys (Read 0 BUFSIZE);
        if 0 <? r then '(input, pos, d) <- shell_round process_line input pos r buf; Ret (inl (input, pos, d))
        else Ret (inr (Some r))) (input, length partial, false)) w.
Proof using.
  induction n as [|n IH]; intros rest partial input w Hn Hb Hfd Hp Hr Hc; [lia|].
  apply uwp_iter, uwp_bind. eapply uwp_read; [exact Hfd | done|].
  intros data more junk -> Hl He. cbv beta iota. destruct data as [|c data].
  { rewrite (He eq_refl). cbn. apply uwp_ret. split; [by left|]. exists O, []. cbn. split_and!; [apply session_nil | |by left].
    by rewrite app_nil_r. }
  set (data0 := c :: data) in *. destruct (Z.ltb_spec 0 (Z.of_nat (length data0))); [|cbn in *; lia].
  pose proof (all_plain_partial _ _ Hp) as (_ & _ & Hpl). apply all_plain_app in Hp as [Hp1 Hp2].
  rewrite feed_app in Hc |- *. cbn [fst snd] in *.
  apply uwp_bind. eapply uwp_mono; [apply shell_round_ran; [done | done | done | done | by eapply all_plain_partial | done |]|].
  { intros acts w' Ha. by apply (children_ok_prefix _ _ _ Hc). }
  intros x w' (input' & -> & Hb' & (acts & Hs & Hlog & Hk)). apply uwp_ret. cbv beta iota. cbn in Hlog.
  destruct (existsb is_exit (feed partial data0).1) eqn:Ex.
  - apply uwp_iter, uwp_ret. split; [by right|]. exists (length (feed partial data0).1), acts.
    rewrite take_app_length. split_and!; [done | done | by right].
  - eapply uwp_mono; [apply IH; [| done | | done | |]|].
    + rewrite length_app in Hn. cbn in Hn. lia.
    + destruct Hk as (-> & _). apply lookup_insert_eq.
    + destruct Hk as (_ & _ & Hv). intros p Hp. by rewrite Hv, <- Hr.
    + by eapply children_ok_suffix.
    + intros r w'' [Hrr Hf]. split; [done|]. by eapply finished_app.
Qed.
End main.

(** C27. The shell runs the lines of its input: however read cuts the input into
    pieces, the shell ends with 0 after it has run the lines one after the other
    and in order, all of them or up to an [exit]; running a line is to change
    the directory, to print it, or to fork and wait for the child exactly when
    the program is in /bin; each child it forks executes the program of one of
    the lines with the words of the line as arguments, with the lines before it
    run.  Lines of [BUFSIZE] characters and more and terminators are excluded. *)
Theorem shell_correct input w : w_fds w !! 0 = Some (Bytes input) -> Forall is_byte input -> no_nul input ->
  Forall (fun l => Z.of_nat (length l) < BUFSIZE) ((feed [] input).1 ++ [(feed [] input).2]) ->
  uwp unix (fun w' => exists acts, child_session (w_view w) (lines input) acts /\ w_log w' = w_log w ++ acts)
    (fun r w' => r = 0 /\ finished (w_view w) (lines input) w w') sh_main w.
Proof.
  intros Hfd Hb Hn Hl. unfold sh_main. apply uwp_bind, uwp_getpid, uwp_bind.
  eapply uwp_printf; [render_steps | pose proof (signed_digits_length (w_pid w)); lens |].
  apply uwp_bind, uwp_prompt. intros _. apply uwp_bind.
  eapply uwp_mono; [apply (shell_loop_finished _ (w_view w) (S (length input)) input []); [lia | | done | | done |]|].
  - split; [by rewrite length_replicate | by eexists].
  - by apply all_plain_intro.
  - intros acts w' Ha Hw'. by exists acts.
  - intros r w' [[-> | ->] Hf]; cbn; apply uwp_bind, uwp_ret, uwp_ret; done.
Qed.

Lemma shell_correct_witness :
  let input := bytes "ls -l" ++ [10] ++ bytes "exit" ++ [10] in
  let view p := if decide (p = bytes "/bin/ls") then Some (NFile (mkUstat 0 0 0 0 0) []) else None in
  let w := mkWorld [] view {[ 0 := Bytes input ]} ∅ [] 3 0 ∅ [] in
  lines input = [bytes "ls -l"; bytes "exit"] /\
  child_effect view (bytes "ls -l") [AChild; AExec (bytes "/bin/ls") (Some [bytes "ls"; bytes "-l"])] /\
  uwp unix (fun w' => exists acts, child_session view (lines input) acts /\ w_log w' = acts)
    (fun r w' => r = 0 /\ finished view (lines input) w w') sh_main w.
Proof.
  intros input view w. split; [vm_compute; reflexivity|]. split.
  - vm_compute. repeat split; discriminate.
  - apply (shell_correct input w); [reflexivity | by_bytes | by_bytes |]. vm_compute. repeat constructor.
Defined.
