(* ===== verification/Imgtool.v ===== *)
(** * The filesystem image tool: reading images (source/fstool.c)

    [fstool -dump], [-get] and [-shell] work on an image that has been read into
    memory, with the lookup and path routines of the kernel (filesystem.c).  The
    host is a parameter: the files of [Fstool.host], the texts of strerror and
    whether a file can be created.  What printf prints is the reference
    [PrintProofs.render]; the error numbers are those of constants.h, of which
    only the text is seen. *)

From Stdlib Require Import Ascii.
From S2P Require Import Prelude Constants Libc PrintProofs Filesystem Fstool Shell.

(** The standard input that is left, what has been printed, and the file that
    [-build] has written. *)
Record console := mkConsole { c_in : list Z; c_out : list Z; c_file : option (list Z * list Z) }.

Definition tool_put (s : list Z) : M console unit :=
  modify (fun c => mkConsole (c_in c) (c_out c ++ s) (c_file c)).
Definition tool_printf (format : string) (ap : list arg) : M console unit :=
  let f := bytes format in s <- of_opt (render (S (length f)) (f ++ [0]) ap) "tool_printf"; tool_put s.
(** A string as an argument of printf. *)
Definition str (s : list Z) : arg := AStr (s ++ [0]).

(** [fgets(line,n,stdin)]: the line with its newline, at most [n - 1] bytes. *)
Fixpoint line_of (n : nat) (s : list Z) : list Z * list Z :=
  match n, s with
  | O, _ => ([], s)
  | _, [] => ([], [])
  | S n', c :: s' => if c =? 10 then ([c], s') else let '(l, r) := line_of n' s' in (c :: l, r)
  end.
Definition fgets (n : Z) : M console (option (list Z)) :=
  c <- get;
  match c_in c with
  | [] => ret None
  | _ => let '(l, r) := line_of (Z.to_nat (n - 1)) (c_in c) in
         put (mkConsole r (c_out c) (c_file c));; ret (Some l)
  end.

(** A field of the image. *)
Definition field_of {A} (o : option A) : M console A := of_opt o "read outside of the image".

Section tool.
  Context (h : host) (strerror : Z -> list Z) (create : list Z -> bool).

(** The loop of read_file: [data] holds what has been read, in a buffer of
    [allocated] bytes. *)
Fixpoint read_loop (chunks : list (list Z)) (data : list Z) (allocated : Z) : M console (list Z) :=
  match chunks with
  | [] => ret data
  | r :: chunks' =>
      check_ (Z.of_nat (length data) + Z.of_nat (length r) <=? allocated) "(*data)[size]";;
      read_loop chunks' (data ++ r) (allocated + Z.of_nat (length r))
  end.
Definition read_file (filename : list Z) : M console (list Z) :=
  match h_open h filename with
  | None => halt "exit"
  | Some chunks => read_loop chunks [] BUFSIZE
  end.

(** ** -dump *)

Fixpoint dump_entries (dump_dir : list Z -> Z -> M console unit) (data path : list Z) (dir : Z) (n : nat) (i : Z) : M console unit :=
  match n with
  | O => ret tt
  | S n' =>
      let e := dir_entry dir i in
      name <- field_of (string_of (de_name data e));
      let full := fullpath h path name in
      type <- field_of (de_type data e);
      size <- field_of (de_size data e);
      tool_printf "%c %-8d %s
" [AInt (if type =? TYPE_DIR then chr "D" else chr "F"); AInt size; str full];;
      when_ (type =? TYPE_DIR) (dump_dir full e);;
      dump_entries dump_dir data path dir n' (i + 1)
  end.
(** The recursion follows the directories of the image, whose depth [fuel]
    bounds. *)
Fixpoint dump_dir (fuel : nat) (data path : list Z) (entry : Z) : M console unit :=
  match fuel with
  | O => spin
  | S fuel' =>
      dir <- field_of (de_location data entry);
      count <- field_of (dir_count data dir);
      dump_entries (dump_dir fuel' data) data path dir (Z.to_nat count) 0
  end.
Definition dump_image (fuel : nat) (data : list Z) : M console unit := dump_dir fuel data [] 0.

(** ** -shell *)

(** The entry of a directory, or of a file, or an error. *)
Definition getdir (data path : list Z) : M console (Z + Z) :=
  r <- field_of (get_directory_entry data path);
  match r with
  | inl e => ret (inl e)
  | inr out => type <- field_of (de_type data out); ret (if type =? TYPE_DIR then inr out else inl (- ENOTDIR))
  end.
Definition getfile (data path : list Z) : M console (Z + Z) :=
  r <- field_of (get_directory_entry data path);
  match r with
  | inl e => ret (inl e)
  | inr out => type <- field_of (de_type data out); ret (if type =? TYPE_FILE then inr out else inl (- EISDIR))
  end.

Definition permission (mode bit : Z) (c : ascii) : arg := AInt (if truthy (Z.land mode bit) then chr c else chr "-").
(** One line of [ls]. *)
Definition ls_line (data : list Z) (e : Z) : M console unit :=
  type <- field_of (de_type data e);
  mode <- field_of (de_mode data e);
  tool_printf "%c%c%c%c%c%c%c%c%c%c " [AInt (if type =? TYPE_DIR then chr "d" else chr "-");
    permission mode 256 "r"; permission mode 128 "w"; permission mode 64 "x"; permission mode 32 "r"; permission mode 16 "w";
    permission mode 8 "x"; permission mode 4 "r"; permission mode 2 "w"; permission mode 1 "x"];;
  size <- field_of (de_size data e);
  name <- field_of (string_of (de_name data e));
  if type =? TYPE_DIR then tool_printf "DIR  %-8d %s/
" [AInt size; str name]
  else tool_printf "FILE %-8d %s
" [AInt size; str name].
Fixpoint ls_loop (data : list Z) (dir : Z) (n : nat) (i : Z) : M console unit :=
  match n with
  | O => ret tt
  | S n' => ls_line data (dir_entry dir i);; ls_loop data dir n' (i + 1)
  end.
Definition ls_dir (data : list Z) (entry : Z) : M console unit :=
  dir <- field_of (de_location data entry);
  count <- field_of (dir_count data dir);
  ls_loop data dir (Z.to_nat count) 0.

(** [fwrite(data+entry->location,1,entry->size,stdout)]. *)
Definition cat_file (data : list Z) (entry : Z) : M console unit :=
  location <- field_of (de_location data entry);
  size <- field_of (de_size data entry);
  check_ ((size =? 0) || (location + size <=? Z.of_nat (length data))) "read outside of the image";;
  tool_put (take (Z.to_nat size) (drop (Z.to_nat location) data)).

Definition print_error (r : Z) : M console unit := tool_printf "%s
" [str (strerror (- r))].
Definition is_action (s : string) (w : list Z) : bool := bool_decide (w = bytes s).

(** A buffer of [PATH_MAX] bytes on the stack, whatever it holds. *)
Context (abspath : list Z).

(** [relative_to_absolute(abspath,cwd,argv[1],PATH_MAX)], with [cwd] and the
    argument as strings. *)
Definition to_absolute (cwd rel : list Z) : M console (list Z) :=
  field_of (relative_to_absolute abspath (cwd ++ [0]) (rel ++ [0]) (h_path_max h)).

(** The commands; the directory afterwards, or [None] to quit. *)
Definition tool_command (data cwd : list Z) (argv : list (list Z)) : M console (option (list Z)) :=
  match argv with
  | [] => tool_printf "Invalid command
" [];; ret (Some cwd)
  | c :: args =>
      if is_action "ls" c then
        path <- (match args with
                 | a :: _ => to_absolute cwd a
                 | [] => ret (take (Z.to_nat (h_path_max h - 1)) cwd ++ [0])
                 end);
        r <- getdir data path;
        match r with inl e => print_error e | inr entry => ls_dir data entry end;;
        ret (Some cwd)
      else
        match args with
        | [a] =>
            if is_action "cat" c then
              path <- to_absolute cwd a;
              r <- getfile data path;
              match r with inl e => print_error e | inr entry => cat_file data entry end;;
              ret (Some cwd)
            else if is_action "cd" c then
              path <- to_absolute cwd a;
              r <- getdir data path;
              match r with
              | inl e => print_error e;; ret (Some cwd)
              | inr entry => s <- field_of (string_of path); ret (Some (take (Z.to_nat (h_path_max h - 1)) s))
              end
            else tool_printf "Invalid command
" [];; ret (Some cwd)
        | [] =>
            if is_action "pwd" c then tool_printf "%s
" [str cwd];; ret (Some cwd)
            else if is_action "q" c then ret None
            else if is_action "help" c then
              tool_printf "Commands:
" [];;
              tool_printf "ls [path]  - list directory contents (or . if no path)
" [];;
              tool_printf "cat <path> - display contents of a file
" [];;
              tool_printf "cd <path>  - change current working directory
" [];;
              tool_printf "pwd        - print current working directory
" [];;
              tool_printf "q          - quit fstool
" [];; ret (Some cwd)
            else tool_printf "Invalid command
" [];; ret (Some cwd)
        | _ => tool_printf "Invalid command
" [];; ret (Some cwd)
        end
  end.

Definition prompt (cwd : list Z) : M console unit := tool_printf "%s > " [str cwd].
(** The loop: every round takes at least a byte from the input, so [fuel] is
    the length of the input. *)
Fixpoint tool_loop (fuel : nat) (data cwd : list Z) : M console unit :=
  line <- fgets 1024;
  match line with
  | None => ret tt
  | Some l =>
      match fuel with
      | O => spin
      | S fuel' =>
          '(line', offs) <- of_opt (parse_command (l ++ [0]) 8) "line[]";
          argv <- of_opt (mapM (string_from line') offs) "argv[]";
          next <- tool_command data cwd argv;
          match next with
          | None => ret tt
          | Some cwd => prompt cwd;; tool_loop fuel' data cwd
          end
      end
  end.
Definition shell (data : list Z) : M console unit :=
  let cwd := [SLASH] in prompt cwd;; c <- get; tool_loop (length (c_in c)) data cwd.

(** ** main *)

(** [-get]. *)
Definition get_entry (data path : list Z) : M console unit :=
  r <- field_of (get_directory_entry data (path ++ [0]));
  match r with
  | inl e => tool_printf "Error: %s
" [str (strerror (- e))]
  | inr entry =>
      type <- field_of (de_type data entry);
      size <- field_of (de_size data entry);
      location <- field_of (de_location data entry);
      tool_printf "Type %d Size %d Location %d
" [AInt type; AInt size; AInt location]
  end.

(** [-build]: the image is written to the file [image]. *)
Definition build_image (fuel : nat) (image dir : list Z) : M console unit :=
  match (output_append (entry_bytes (root_entry h));; process_dir h fuel dir) (mkTool OUTPUT_INIT []) with
  | Ok _ t =>
      tool_put (t_stdout t);;
      (if create image then modify (fun c => mkConsole (c_in c) (c_out c) (Some (image, o_data (t_out t)))) else halt "exit")
  | Halt msg t => tool_put (t_stdout t);; halt msg
  | Fault msg t => tool_put (t_stdout t);; fault msg
  | Spin => spin
  end.

(** The arguments behind the name of the tool. *)
Definition main (fuel : nat) (argv : list (list Z)) : M console unit :=
  match argv with
  | [action; image; arg] =>
      if is_action "-build" action then build_image fuel image arg
      else if is_action "-get" action then data <- read_file image; get_entry data arg
      else halt "exit"
  | [action; image] =>
      if is_action "-dump" action then data <- read_file image; dump_image fuel data
      else if is_action "-shell" action then data <- read_file image; shell data
      else halt "exit"
  | _ => halt "exit"
  end.
End tool.
