(* ===== verification/ImgtoolProofs.v ===== *)
(** * The filesystem image tool: theorems about reading images

    [-dump] and the commands of [-shell] against the directory tree the image was
    made from. *)

From Stdlib Require Import Ascii.
From S2P Require Import Prelude Constants Libc LibcProofs PrintProofs Filesystem FilesystemProofs FileProofs Fstool FstoolProofs Shell ShellProofs Imgtool.

(** ** Output *)

(** The console with [s] printed. *)
Definition shown (s : list Z) (c : console) : console := mkConsole (c_in c) (c_out c ++ s) (c_file c).
Lemma shown_app s t c : shown t (shown s c) = shown (s ++ t) c.
Proof. unfold shown. cbn. by rewrite app_assoc. Qed.
Lemma shown_nil c : shown [] c = c.
Proof. unfold shown. rewrite app_nil_r. by destruct c. Qed.

(** One conversion of a format: [37] is the percent sign. *)
Lemma render_conv fuel c ap ra pad l c' o ap' : directive c = (ra, pad, l :: c') -> field l ap = Some (o, ap') ->
  render (S fuel) (37 :: c) ap = rest ← render fuel c' ap'; Some (align ra pad o ++ rest).
Proof. intros Hd Hf. cbn [render]. change (37 =? chr "%") with true. change (truthy 37) with true. cbv iota. by rewrite Hd, Hf. Qed.
Lemma render_stop fuel ap : render (S fuel) [0] ap = Some [].
Proof. done. Qed.
Lemma wp_printf format ap s c (Q : unit -> console -> Prop) : render (S (length (bytes format))) (bytes format ++ [0]) ap = Some s ->
  Q tt (shown s c) -> wp (tool_printf format ap) Q c.
Proof. intros Hr HQ. unfold tool_printf. wp_step. eapply wp_of_opt; [exact Hr|]. unfold tool_put. by wp_step. Qed.
Lemma wp_field {A} (o : option A) a c (Q : A -> console -> Prop) : o = Some a -> Q a c -> wp (field_of o) Q c.
Proof. intros Ho HQ. unfold field_of. by eapply wp_of_opt. Qed.

(** Left-justified in eight columns. *)
Definition left8 (z : Z) : list Z := align false 8 (signed_digits z).
Definition line_end : list Z := [10].

(** The fields of [%d], [%c] and [%s]. *)
Lemma field_d z ap : field 100 (AInt z :: ap) = Some (signed_digits z, ap).
Proof. done. Qed.
Lemma field_c z ap : is_byte z -> field 99 (AInt z :: ap) = Some ([z], ap).
Proof. intros Hz. unfold field. cbn. unfold u8. by rewrite Z.mod_small. Qed.
Lemma field_s s ap : no_nul s -> field 115 (str s :: ap) = Some (s, ap).
Proof. intros Hs. unfold field, str. change (115 =? chr "s") with true. cbv iota. cbn [va_str mbind option_bind]. by rewrite string_of_app. Qed.

Lemma digits_short fuel base v : (length (digits fuel base v) <= fuel)%nat.
Proof. revert v. induction fuel as [|fuel IH]; intros v; cbn [digits]; [done|]. case_match; cbn [length]; [lia|]. rewrite length_app. cbn. specialize (IH (v / base)). lia. Qed.
Lemma align_digits base v : align true 0 (digits 33 base v) = digits 33 base v.
Proof. apply align_none. pose proof (digits_short 33 base v). lia. Qed.
Lemma field_u z ap : field 117 (AInt z :: ap) = Some (digits 33 10 (u32 z), ap).
Proof. done. Qed.
Lemma field_x z ap : field 120 (AInt z :: ap) = Some (digits 33 16 (u32 z), ap).
Proof. done. Qed.

(** Renders a concrete format: every step is a character or a conversion. *)
Ltac render_field :=
  lazymatch goal with
  | |- field 100 _ = _ => apply field_d
  | |- field 99 _ = _ => apply field_c; assumption
  | |- field 115 _ = _ => apply field_s; assumption
  | |- field 117 _ = _ => apply field_u
  | |- field 120 _ = _ => apply field_x
  end.
Ltac rendered :=
  lazymatch goal with |- render ?n ?f ?ap = ?r =>
    let n' := eval vm_compute in n in let f' := eval vm_compute in f in change (render n' f' ap = r) end;
  repeat lazymatch goal with
    | |- context [render (S _) [0] _] => rewrite render_stop
    | |- context [render (S _) (37 :: _) _] => erewrite render_conv; [| vm_compute; reflexivity | render_field]
    | |- context [render (S _) (_ :: _) _] => rewrite render_char by reflexivity
    end;
  cbn [mbind option_bind fmap option_fmap option_map];
  repeat match goal with |- context [align true 0 [?x]] => rewrite (align_none [x]) by done end;
  rewrite ?align_digits; rewrite ?align_none by assumption; rewrite ?app_nil_r; try reflexivity.

Example rendered_line z s : no_nul s -> Z.of_nat (length s) < 2 ^ 31 ->
  render 20 (bytes "a %-8d %s" ++ [0]) [AInt z; str s] = Some (bytes "a " ++ left8 z ++ bytes " " ++ s).
Proof. intros Hs Hl. rendered. Qed.

(** ** -dump *)

Lemma string_of_no_nul s n : string_of s = Some n -> no_nul n.
Proof.
  revert n. induction s as [|x s IH]; intros n; cbn; [done|]. unfold truthy. destruct (Z.eqb_spec x 0) as [|Hx]; cbn.
  - intros [= <-]. constructor.
  - destruct (string_of s) as [n'|]; [|done]. intros [= <-]. constructor; [done|]. by apply IH.
Qed.

Lemma string_of_length s n : string_of s = Some n -> (length n < length s)%nat.
Proof.
  revert n. induction s as [|x s IH]; intros n; cbn; [done|]. destruct (truthy x); cbn; [|intros [= <-]; cbn; lia].
  destruct (string_of s) as [n'|]; [|done]. intros [= <-]. cbn. specialize (IH n' eq_refl). lia.
Qed.

Section dump.
  Context (h : host) (Hmax : h_path_max h < 2 ^ 31) (data : list Z).

Lemma fullpath_ok path n : no_nul path -> no_nul n -> no_nul (fullpath h path n) /\ Z.of_nat (length (fullpath h path n)) < 2 ^ 31.
Proof using Hmax.
  intros Hp Hn. unfold fullpath. split.
  - apply Forall_take. apply Forall_app. split; [done|]. by constructor.
  - rewrite length_take. lia.
Qed.

(** The line of an entry. *)
Definition dump_line (full : list Z) (T : tree) : list Z :=
  (if is_dir T then chr "D" else chr "F") :: bytes " " ++ left8 (u32 (st_size (tstat T))) ++ bytes " " ++ full ++ line_end.
(** The lines of a tree: every entry is followed by what it contains. *)
Fixpoint dump_text (path : list Z) (T : tree) : list Z :=
  match T with
  | File _ _ => []
  | Dir _ es =>
      (fix go (es : list (list Z * tree)) : list Z :=
         match es with
         | [] => []
         | (n, T') :: es' => dump_line (fullpath h path n) T' ++ dump_text (fullpath h path n) T' ++ go es'
         end) es
  end.
Definition dump_texts (path : list Z) (es : list (list Z * tree)) : list Z :=
  es ≫= (fun x => dump_line (fullpath h path x.1) x.2 ++ dump_text (fullpath h path x.1) x.2).
Lemma dump_text_dir path st es : dump_text path (Dir st es) = dump_texts path es.
Proof using.
  cbn [dump_text]. unfold dump_texts. induction es as [|[n T] es IH]; [done|]. cbn [mbind list_bind fst snd]. by rewrite IH, <- app_assoc.
Qed.

Lemma dump_entries_spec dump path loc es : forall i c, no_nul path -> imgs data loc i es ->
  Forall (fun x => forall st es', x.2 = Dir st es' -> forall path e l c, no_nul path -> de_location data e = Some l ->
    img data l x.2 -> wp (dump path e) (fun _ c' => c' = shown (dump_text path x.2) c) c) es ->
  wp (dump_entries h dump data path loc (length es) i) (fun _ c' => c' = shown (dump_texts path es) c) c.
Proof using Hmax.
  induction es as [|[n T] es IH]; intros i c Hp Him Hall; cbn [dump_entries length].
  { apply wp_ret. by rewrite shown_nil. }
  destruct Him as [(l & He & Hi) Him]. apply list.Forall_cons in Hall as [HT Hall]. cbn [fst snd] in HT.
  assert (Hn : no_nul n) by (eapply string_of_no_nul, (ea_name He)). destruct (fullpath_ok path n Hp Hn) as [Hfn Hfl].
  wp_step. eapply wp_field; [apply (ea_name He)|]. wp_step. eapply wp_field; [apply (ea_type He)|].
  wp_step. eapply wp_field; [apply (ea_size He)|].
  replace ((if is_dir T then TYPE_DIR else TYPE_FILE) =? TYPE_DIR) with (is_dir T) by (by destruct T).
  assert (Hb : is_byte (if is_dir T then chr "D" else chr "F")) by (by destruct T).
  set (full := fullpath h path n) in *. wp_step. eapply (wp_printf _ _ (dump_line full T)); [rendered|].
  wp_step. eapply wp_mono with (P := fun _ c' => c' = shown (dump_line full T ++ dump_text full T) c).
  - apply wp_when; intros Hd.
    + destruct T as [|st es']; [done|]. eapply wp_mono; [apply (HT st es' eq_refl full _ l); [done | apply (ea_location He) | done]|]. intros [] c' ->. by rewrite shown_app.
    + destruct T; [|done]. cbn [dump_text]. by rewrite app_nil_r.
  - intros [] c' ->. eapply wp_mono; [by apply IH|]. intros [] c' ->. by rewrite shown_app.
Qed.

Lemma dump_dir_spec T : is_dir T = true -> forall fuel path e loc c, (depth T <= fuel)%nat -> no_nul path ->
  de_location data e = Some loc -> img data loc T ->
  wp (dump_dir h fuel data path e) (fun _ c' => c' = shown (dump_text path T) c) c.
Proof using Hmax.
  induction T as [|st es IH] using tree_rect'; [done|]. intros _ fuel path e loc c Hf Hp Hloc Him.
  destruct fuel as [|fuel]; [cbn in Hf; lia|]. cbn [dump_dir]. apply img_dir in Him as (Hc & Hl & Him).
  wp_step. eapply wp_field; [exact Hloc|]. wp_step. eapply wp_field; [exact Hc|]. rewrite Nat2Z.id, dump_text_dir.
  apply (dump_entries_spec (dump_dir h fuel data) path loc es 0 c Hp Him).
  cbn [depth] in Hf. clear Him Hc. revert IH Hf. generalize es. intros l HI. induction HI as [|[n T] l IHT _ IHl]; intros Hf; [constructor|].
  cbn in Hf. constructor; [|apply IHl; lia]. intros st' es' E path' e' l' c' Hp' He' Hi'. cbn in E, IHT. subst T.
  apply (IHT eq_refl fuel path' e' l' c'); [cbn in *; lia | done | done | done].
Qed.
End dump.

(** ** -shell: the reference *)

Definition perm (mode bit : Z) (c : ascii) : Z := if truthy (Z.land mode bit) then chr c else chr "-".
Definition perms_text (mode : Z) : list Z :=
  [perm mode 256 "r"; perm mode 128 "w"; perm mode 64 "x"; perm mode 32 "r"; perm mode 16 "w"; perm mode 8 "x";
   perm mode 4 "r"; perm mode 2 "w"; perm mode 1 "x"].
Definition ls_text (x : list Z * tree) : list Z :=
  let st := tstat x.2 in
  (if is_dir x.2 then chr "d" else chr "-") :: perms_text (u32 (st_mode st)) ++ bytes " " ++
  (if is_dir x.2 then bytes "DIR  " ++ left8 (u32 (st_size st)) ++ bytes " " ++ x.1 ++ bytes "/" ++ line_end
   else bytes "FILE " ++ left8 (u32 (st_size st)) ++ bytes " " ++ x.1 ++ line_end).
Definition help_text : list Z :=
  bytes "Commands:
ls [path]  - list directory contents (or . if no path)
cat <path> - display contents of a file
cd <path>  - change current working directory
pwd        - print current working directory
q          - quit fstool
".
Definition invalid_text : list Z := bytes "Invalid command
".

Section reference.
  Context (strerror : Z -> list Z) (T : tree).

(** The tree behind a list of names. *)
Definition tree_at (ns : list (list Z)) : option tree := tree_walk T ns.
Definition error_text (e : Z) : list Z := strerror e ++ line_end.

(** What a command prints in the directory [cs], and where it leads; [None] ends
    the session. *)
Definition tree_command (cs : list (list Z)) (argv : list (list Z)) : list Z * option (list (list Z)) :=
  match argv with
  | [] => (invalid_text, Some cs)
  | c :: args =>
      if is_action "ls" c then
        (match tree_at (match args with a :: _ => names_of cs a | [] => cs end) with
         | None => error_text ENOENT
         | Some (File _ _) => error_text ENOTDIR
         | Some (Dir _ es) => es ≫= ls_text
         end, Some cs)
      else
        match args with
        | [a] =>
            if is_action "cat" c then
              (match tree_at (names_of cs a) with
               | None => error_text ENOENT
               | Some (File _ ch) => concat ch
               | Some (Dir _ _) => error_text EISDIR
               end, Some cs)
            else if is_action "cd" c then
              match tree_at (names_of cs a) with
              | None => (error_text ENOENT, Some cs)
              | Some (File _ _) => (error_text ENOTDIR, Some cs)
              | Some (Dir _ _) => ([], Some (names_of cs a))
              end
            else (invalid_text, Some cs)
        | [] =>
            if is_action "pwd" c then (join cs ++ line_end, Some cs)
            else if is_action "q" c then ([], None)
            else if is_action "help" c then (help_text, Some cs)
            else (invalid_text, Some cs)
        | _ => (invalid_text, Some cs)
        end
  end.

Definition prompt_text (cs : list (list Z)) : list Z := join cs ++ bytes " > ".
(** A session: the lines of the input, at most [n] of them. *)
Fixpoint session (n : nat) (cs : list (list Z)) (input : list Z) : list Z :=
  match n, input with
  | S n', _ :: _ =>
      let '(l, rest) := line_of 1023 input in
      let '(o, next) := tree_command cs (take 7 (words l)) in
      match next with
      | None => o
      | Some cs' => o ++ prompt_text cs' ++ session n' cs' rest
      end
  | _, _ => []
  end.
End reference.

(** ** -shell: the proof *)

(** The sizes the host reports are the sizes of the contents, and no path to a
    directory leaves less than a line of room in a path buffer. *)
Fixpoint fits (room : Z) (T : tree) : bool :=
  match T with
  | File st ch => (st_size st =? Z.of_nat (length (concat ch))) && (st_size st <? 2 ^ 32)
  | Dir _ es => (1025 <? room) && forallb (fun x => fits (room - (1 + Z.of_nat (length x.1))) x.2) es
  end.
Lemma fits_assoc room c es T' : forallb (fun x => fits (room - (1 + Z.of_nat (length x.1))) x.2) es = true ->
  tassoc c es = Some T' -> fits (room - (1 + Z.of_nat (length c))) T' = true.
Proof.
  induction es as [|[n T] es IH]; [done|]. cbn [forallb tassoc fst snd]. intros [H1 H2]%andb_prop. case_decide as Hn; [|by apply IH].
  intros [= <-]. by rewrite <- Hn.
Qed.
Lemma fits_walk ns : forall room T T', Forall name ns -> fits room T = true -> tree_walk T ns = Some T' ->
  fits (room - Z.of_nat (length (ns ≫= (fun c => SLASH :: c)))) T' = true.
Proof.
  induction ns as [|c ns IH]; intros room T T' Hns Hf Hw; cbn [mbind list_bind length].
  { destruct T; injection Hw as <-; by rewrite Z.sub_0_r. }
  apply list.Forall_cons in Hns as [[Hc _] Hns]. destruct T as [|st es]; [done|]. cbn [tree_walk] in Hw. rewrite decide_False in Hw by done.
  apply bind_Some in Hw as (T1 & H1 & Hw). cbn [fits] in Hf. apply andb_prop in Hf as [_ Hf].
  pose proof (IH _ _ _ Hns (fits_assoc _ _ _ _ Hf H1) Hw) as H. cbn [app length]. rewrite length_app.
  replace (room - _) with (room - (1 + Z.of_nat (length c)) - Z.of_nat (length (ns ≫= (fun c => SLASH :: c)))) by lia. exact H.
Qed.

(** The parts of a canonical path. *)
Lemma parts_name c : forall cur rest, Forall (fun x => x <> SLASH) c -> parts cur (c ++ rest) = parts (cur ++ c) rest.
Proof.
  induction c as [|x c IH]; intros cur rest Hc; cbn [app parts]; [by rewrite app_nil_r|]. apply list.Forall_cons in Hc as [Hx Hc].
  destruct (Z.eqb_spec x SLASH); [done|]. by rewrite IH, <- app_assoc.
Qed.
Lemma parts_names ns : forall cur, Forall name ns -> parts cur (ns ≫= (fun c => SLASH :: c)) = cur :: ns.
Proof.
  induction ns as [|c ns IH]; intros cur Hns; cbn [mbind list_bind app parts]; [done|]. apply list.Forall_cons in Hns as [(_ & _ & Hc) Hns].
  rewrite Z.eqb_refl, parts_name by done. by rewrite IH.
Qed.
Lemma walk_join st es ns : Forall name ns -> tree_walk (Dir st es) (parts [] (join ns)) = tree_walk (Dir st es) ns.
Proof. intros Hns. destruct ns as [|c ns]; [done|]. unfold join. by rewrite parts_names. Qed.

(** A line of the input. *)
Lemma line_of_spec n : forall s, let '(l, r) := line_of n s in s = l ++ r /\ (length l <= n)%nat /\ (n <> O -> s <> [] -> l <> []).
Proof.
  induction n as [|n IH]; intros s; cbn [line_of].
  { split; [done|]. split; [cbn; lia|]. by intros []. }
  destruct s as [|x s]; [split; [done|]; split; [cbn; lia | by intros _ []]|]. destruct (x =? 10); [cbn; split; [done|]; split; [lia|done]|].
  specialize (IH s). destruct (line_of n s) as [l r]. destruct IH as (-> & Hl & _). cbn. split; [done|]. split; [lia|done].
Qed.

Section shell.
  Context (h : host) (strerror : Z -> list Z) (abspath : list Z) (fs : list Z) (st : hstat) (es : list (list Z * tree)).
  Abbreviation T := (Dir st es).
  Context (Hmax : h_path_max h < 2 ^ 31) (Habs : Z.of_nat (length abspath) = h_path_max h)
    (Herr : forall e, no_nul (strerror e) /\ Z.of_nat (length (strerror e)) < 2 ^ 31) (Him : image_of fs T).

  Context (Hfit : fits (h_path_max h) T = true).

(** A path of the image. *)
Lemma join_text ns : Forall good_name ns -> no_nul (join ns) /\ Forall is_byte (join ns).
Proof using.
  intros H. split.
  - destruct ns as [|n ns]; [by constructor|]. unfold join. apply Forall_bind. eapply list.Forall_impl; [exact H|].
    intros x [(_ & Hx & _) _]. by constructor.
  - apply join_bytes. eapply list.Forall_impl; [exact H|]. by intros x [_ ?].
Qed.
Lemma image_find ns rest : Forall good_name ns ->
  match tree_at T ns with
  | None => get_directory_entry fs (join ns ++ 0 :: rest) = Some (inl (- ENOENT))
  | Some T' => exists e l, get_directory_entry fs (join ns ++ 0 :: rest) = Some (inr e) /\
      de_type fs e = Some (if is_dir T' then TYPE_DIR else TYPE_FILE) /\ de_location fs e = Some l /\ img fs l T' /\
      (is_dir T' = false -> de_size fs e = Some (u32 (st_size (tstat T'))))
  end.
Proof using Him.
  intros Hns. destruct (join_text ns Hns) as [Hn Hb]. pose proof (image_lookup fs st es (join ns) rest Him Hn Hb) as H.
  unfold tree_at. rewrite <- walk_join by (eapply list.Forall_impl; [exact Hns | by intros x [? _]]).
  destruct (tree_walk T (parts [] (join ns))) as [T'|] eqn:Ew; [|done]. destruct H as (e & He & [[Hall ->]|Hf]).
  - assert (T' = T) as ->.
    { revert Ew. induction Hall as [|x ps -> _ IH]; cbn; [by intros [= <-]|]. exact IH. }
    exists 0, SIZEOF_DIRECTORY_ENTRY. destruct Him as [_ _ Ht Hl Hi]. done.
  - destruct Hf as (n & l & Hea & Hi). exists e, l. split; [done|]. split; [apply (ea_type Hea)|]. split; [apply (ea_location Hea)|].
    split; [done|]. intros _. apply (ea_size Hea).
Qed.

(** to_absolute gives the canonical path. *)
Lemma to_absolute_spec cs a c (Q : list Z -> console -> Prop) : Forall good_name cs -> no_nul a -> Forall is_byte a ->
  Z.of_nat (length (join cs)) + 1024 < h_path_max h -> (length a <= 1023)%nat ->
  (forall rest, Z.of_nat (length (join (names_of cs a))) < h_path_max h -> Q (join (names_of cs a) ++ 0 :: rest) c) ->
  wp (to_absolute h abspath (join cs) a) Q c.
Proof using Hmax Habs.
  intros Hcs Hn Hb Hs Hl HQ. unfold to_absolute.
  destruct (relative_to_absolute_correct abspath cs a [] [] (h_path_max h)) as (abs' & E & Hh); [done | done | done | done | done | lia |].
  eapply wp_field; [exact E|]. destruct Hh as (_ & Hlen & rest & ->). apply HQ. unfold names_of.
  rewrite length_app in Hlen. cbn [length] in Hlen. lia.
Qed.

Lemma getdir_spec ns rest c (Q : Z + Z -> console -> Prop) : Forall good_name ns ->
  (match tree_at T ns with
   | None => Q (inl (- ENOENT)) c
   | Some (File _ _) => Q (inl (- ENOTDIR)) c
   | Some (Dir st' es') => forall e l, de_location fs e = Some l -> img fs l (Dir st' es') -> Q (inr e) c
   end) -> wp (getdir fs (join ns ++ 0 :: rest)) Q c.
Proof using Him.
  intros Hns HQ. unfold getdir. wp_step. pose proof (image_find ns rest Hns) as H. destruct (tree_at T ns) as [T'|].
  - destruct H as (e & l & He & Ht & Hl & Hi & _). eapply wp_field; [exact He|]. cbv beta iota. wp_step. eapply wp_field; [exact Ht|]. apply wp_ret.
    destruct T'; [done|]. cbn [is_dir]. rewrite Z.eqb_refl. by apply (HQ e l).
  - eapply wp_field; [exact H|]. by apply wp_ret.
Qed.
Lemma getfile_spec ns rest c (Q : Z + Z -> console -> Prop) : Forall good_name ns ->
  (match tree_at T ns with
   | None => Q (inl (- ENOENT)) c
   | Some (Dir _ _) => Q (inl (- EISDIR)) c
   | Some (File st' ch) => forall e l, de_location fs e = Some l -> img fs l (File st' ch) ->
       de_size fs e = Some (u32 (st_size st')) -> Q (inr e) c
   end) -> wp (getfile fs (join ns ++ 0 :: rest)) Q c.
Proof using Him.
  intros Hns HQ. unfold getfile. wp_step. pose proof (image_find ns rest Hns) as H. destruct (tree_at T ns) as [T'|].
  - destruct H as (e & l & He & Ht & Hl & Hi & Hsz). eapply wp_field; [exact He|]. cbv beta iota. wp_step. eapply wp_field; [exact Ht|]. apply wp_ret.
    destruct T'; [|done]. cbn [is_dir]. rewrite Z.eqb_refl. apply (HQ e l); [done | done | by apply Hsz].
  - eapply wp_field; [exact H|]. by apply wp_ret.
Qed.

Lemma print_error_spec e c (Q : unit -> console -> Prop) : Q tt (shown (error_text strerror e) c) -> wp (print_error strerror (- e)) Q c.
Proof using Herr.
  intros HQ. unfold print_error. rewrite Z.opp_involutive. destruct (Herr e) as [Hn Hl]. eapply (wp_printf _ _ (error_text strerror e)); [rendered | exact HQ].
Qed.

(** One line of ls. *)
Lemma permission_byte mode bit c0 : is_byte (chr c0) -> is_byte (perm mode bit c0).
Proof using. intros H. unfold perm. by destruct (truthy _). Qed.
Lemma permission_perm mode bit c0 : permission mode bit c0 = AInt (perm mode bit c0).
Proof using. done. Qed.
Lemma ten_chars a b d e f g i j k l : Forall is_byte [a; b; d; e; f; g; i; j; k; l] ->
  render (S (length (bytes "%c%c%c%c%c%c%c%c%c%c "))) (bytes "%c%c%c%c%c%c%c%c%c%c " ++ [0])
    [AInt a; AInt b; AInt d; AInt e; AInt f; AInt g; AInt i; AInt j; AInt k; AInt l] = Some [a; b; d; e; f; g; i; j; k; l; 32].
Proof using.
  intros H. repeat (apply list.Forall_cons in H as [? H]). rendered.
Qed.
Lemma perms_render d mode : is_byte d ->
  render (S (length (bytes "%c%c%c%c%c%c%c%c%c%c "))) (bytes "%c%c%c%c%c%c%c%c%c%c " ++ [0])
    [AInt d; permission mode 256 "r"; permission mode 128 "w"; permission mode 64 "x"; permission mode 32 "r"; permission mode 16 "w";
     permission mode 8 "x"; permission mode 4 "r"; permission mode 2 "w"; permission mode 1 "x"] = Some (d :: perms_text mode ++ bytes " ").
Proof using.
  intros Hd. rewrite !permission_perm. apply ten_chars. apply list.Forall_cons; split; [exact Hd|].
  repeat (apply list.Forall_cons; split; [apply permission_byte; done|]). constructor.
Qed.
Lemma ls_line_spec e n T' l c (Q : unit -> console -> Prop) : entry_at fs e n T' l -> Z.of_nat (length n) < 2 ^ 31 ->
  Q tt (shown (ls_text (n, T')) c) -> wp (ls_line fs e) Q c.
Proof using.
  intros He Hl HQ. unfold ls_line. wp_step. eapply wp_field; [apply (ea_type He)|]. wp_step. eapply wp_field; [apply (ea_mode He)|].
  assert (Hn : no_nul n) by (eapply string_of_no_nul, (ea_name He)). set (mode := u32 (st_mode (tstat T'))).
  replace ((if is_dir T' then TYPE_DIR else TYPE_FILE) =? TYPE_DIR) with (is_dir T') by (by destruct T').
  assert (Hb : is_byte (if is_dir T' then chr "d" else chr "-")) by (by destruct T').
  wp_step. eapply (wp_printf _ _ ((if is_dir T' then chr "d" else chr "-") :: perms_text mode ++ bytes " ")).
  { apply perms_render. exact Hb. }
  wp_step. eapply wp_field; [apply (ea_size He)|]. wp_step. eapply wp_field; [apply (ea_name He)|].
  unfold ls_text in HQ. cbn [fst snd] in HQ. fold mode in HQ. clearbody mode.
  destruct (is_dir T').
  - eapply (wp_printf _ _ (bytes "DIR  " ++ left8 (u32 (st_size (tstat T'))) ++ bytes " " ++ n ++ bytes "/" ++ line_end)); [rendered|].
    rewrite shown_app, <- app_comm_cons, <- !app_assoc. exact HQ.
  - eapply (wp_printf _ _ (bytes "FILE " ++ left8 (u32 (st_size (tstat T'))) ++ bytes " " ++ n ++ line_end)); [rendered|].
    rewrite shown_app, <- app_comm_cons, <- !app_assoc. exact HQ.
Qed.

Lemma ls_loop_spec loc es' : forall i c, imgs fs loc i es' ->
  wp (ls_loop fs loc (length es') i) (fun _ c' => c' = shown (es' ≫= ls_text) c) c.
Proof using Him.
  induction es' as [|[n T'] es' IH]; intros i c Hi; cbn [ls_loop length]; [apply wp_ret; by rewrite shown_nil|].
  destruct Hi as [(l & He & _) Hi]. wp_step. eapply ls_line_spec; [exact He | |].
  - pose proof (string_of_length _ _ (ea_name He)) as H. unfold de_name in H. rewrite length_drop in H. pose proof (io_size _ _ Him) as Hsz. clear - H Hsz. lia.
  - eapply wp_mono; [by apply IH|]. intros [] c' ->. by rewrite shown_app.
Qed.
Lemma ls_dir_spec e l st' es' c : de_location fs e = Some l -> img fs l (Dir st' es') ->
  wp (ls_dir fs e) (fun _ c' => c' = shown (es' ≫= ls_text) c) c.
Proof using Him.
  intros He (Hc & _ & Hi)%img_dir. unfold ls_dir. wp_step. eapply wp_field; [exact He|]. wp_step. eapply wp_field; [exact Hc|].
  rewrite Nat2Z.id. by apply ls_loop_spec.
Qed.
Lemma cat_file_spec ns e l st' ch c : Forall good_name ns -> tree_at T ns = Some (File st' ch) ->
  de_location fs e = Some l -> img fs l (File st' ch) -> de_size fs e = Some (u32 (st_size st')) ->
  wp (cat_file fs e) (fun _ c' => c' = shown (concat ch) c) c.
Proof using Hfit.
  intros Hns Ht He Hi Hs. pose proof (fits_walk ns _ _ _ ltac:(eapply list.Forall_impl; [exact Hns | by intros x [? _]]) Hfit Ht) as Hf.
  cbn [fits] in Hf. apply andb_prop in Hf as [Hz Hb]. apply Z.eqb_eq in Hz. apply Z.ltb_lt in Hb.
  assert (Hu : u32 (st_size st') = Z.of_nat (length (concat ch))) by (clear - Hz Hb; unfold u32; rewrite Z.mod_small; lia). rewrite Hu in Hs.
  unfold cat_file. wp_step. eapply wp_field; [exact He|]. wp_step. eapply wp_field; [exact Hs|]. cbn [img] in Hi. rewrite Nat2Z.id, Hi.
  wp_step. apply wp_check.
  { apply (f_equal (@length Z)) in Hi. rewrite length_take, length_drop in Hi. clear - Hi. destruct (Z.eqb_spec (Z.of_nat (length (concat ch))) 0); [done|].
    apply Z.leb_le. lia. }
  unfold tool_put. by wp_step.
Qed.

(** A directory of the tree, and a word of a line. *)
Definition at_dir (cs : list (list Z)) : Prop := Forall good_name cs /\ exists st' es', tree_at T cs = Some (Dir st' es').
Definition word (a : list Z) : Prop := no_nul a /\ Forall is_byte a /\ (length a <= 1023)%nat.
Lemma at_dir_short cs : at_dir cs -> Z.of_nat (length (join cs)) + 1024 < h_path_max h.
Proof using Hfit.
  intros [Hcs (st' & es' & Ht)].
  pose proof (fits_walk cs _ _ _ ltac:(eapply list.Forall_impl; [exact Hcs | by intros x [? _]]) Hfit Ht) as Hf.
  cbn [fits] in Hf. apply andb_prop in Hf as [Hf _]. apply Z.ltb_lt in Hf. clear - Hf. destruct cs; cbn [join length mbind list_bind] in *; lia.
Qed.

(** What a command does: what it prints and where it leads. *)
Definition does (r : list Z * option (list (list Z))) (c : console) (next : option (list Z)) (c' : console) : Prop :=
  c' = shown r.1 c /\ next = join <$> r.2 /\ (forall cs', r.2 = Some cs' -> at_dir cs').
Lemma does_stay cs o c c' : at_dir cs -> c' = shown o c -> does (o, Some cs) c (Some (join cs)) c'.
Proof using. intros Hd ->. split; [done|]. split; [done|]. by intros cs' [= <-]. Qed.
Lemma wp_stay cs o (m : M console unit) c : at_dir cs -> wp m (fun _ c' => c' = shown o c) c ->
  wp (m;; ret (Some (join cs))) (does (o, Some cs) c) c.
Proof using. intros Hd Hm. wp_step. eapply wp_mono; [exact Hm|]. intros [] c' ->. apply wp_ret. by apply does_stay. Qed.

Lemma ls_spec cs ns rest c : at_dir cs -> Forall good_name ns ->
  wp (r <- getdir fs (join ns ++ 0 :: rest);
      match r with inl e => print_error strerror e | inr entry => ls_dir fs entry end;; ret (Some (join cs)))
    (does (match tree_at T ns with
           | None => error_text strerror ENOENT
           | Some (File _ _) => error_text strerror ENOTDIR
           | Some (Dir _ es') => es' ≫= ls_text
           end, Some cs) c) c.
Proof using Him Herr.
  intros Hd Hns. wp_step. apply getdir_spec; [done|].
  destruct (tree_at T ns) as [[st' ch|st' es']|]; [| intros e l He Hi |]; cbv beta iota; apply wp_stay; try done.
  - by apply print_error_spec.
  - by eapply ls_dir_spec.
  - by apply print_error_spec.
Qed.
Lemma cat_spec cs ns rest c : at_dir cs -> Forall good_name ns ->
  wp (r <- getfile fs (join ns ++ 0 :: rest);
      match r with inl e => print_error strerror e | inr entry => cat_file fs entry end;; ret (Some (join cs)))
    (does (match tree_at T ns with
           | None => error_text strerror ENOENT
           | Some (File _ ch) => concat ch
           | Some (Dir _ _) => error_text strerror EISDIR
           end, Some cs) c) c.
Proof using Him Herr Hfit.
  intros Hd Hns. wp_step. apply getfile_spec; [done|].
  destruct (tree_at T ns) as [[st' ch|st' es']|] eqn:Et; [intros e l He Hi Hs | |]; cbv beta iota; apply wp_stay; try done.
  - by eapply cat_file_spec.
  - by apply print_error_spec.
  - by apply print_error_spec.
Qed.
Lemma cd_spec cs ns rest c : at_dir cs -> Forall good_name ns -> Z.of_nat (length (join ns)) < h_path_max h ->
  wp (r <- getdir fs (join ns ++ 0 :: rest);
      match r with
      | inl e => print_error strerror e;; ret (Some (join cs))
      | inr entry => s <- field_of (string_of (join ns ++ 0 :: rest)); ret (Some (take (Z.to_nat (h_path_max h - 1)) s))
      end)
    (does (match tree_at T ns with
           | None => (error_text strerror ENOENT, Some cs)
           | Some (File _ _) => (error_text strerror ENOTDIR, Some cs)
           | Some (Dir _ _) => ([], Some ns)
           end) c) c.
Proof using Him Herr.
  intros Hd Hns Hl. wp_step. apply getdir_spec; [done|].
  destruct (tree_at T ns) as [[st' ch|st' es']|] eqn:Et; [| intros e l He Hi |]; cbv beta iota.
  - apply wp_stay; [done|]. by apply print_error_spec.
  - wp_step. eapply wp_field; [apply string_of_app; by apply join_text|]. apply wp_ret. rewrite take_ge by (clear - Hl; lia).
    apply does_stay; [|by rewrite shown_nil]. split; [done|]. by exists st', es'.
  - apply wp_stay; [done|]. by apply print_error_spec.
Qed.

Lemma with_absolute cs a c (f : list Z -> M console (option (list Z))) Q : at_dir cs -> word a ->
  (forall rest, Forall good_name (names_of cs a) -> Z.of_nat (length (join (names_of cs a))) < h_path_max h ->
     wp (f (join (names_of cs a) ++ 0 :: rest)) Q c) ->
  wp (path <- to_absolute h abspath (join cs) a; f path) Q c.
Proof using Hmax Habs Hfit.
  intros Hd (Hn & Hb & Hl) Hf. wp_step. apply to_absolute_spec; [apply Hd | done | done | by apply at_dir_short | done |].
  intros rest Hlen. apply Hf; [|done]. apply names_of_good; [apply Hd | done | done].
Qed.
Lemma invalid_spec cs c : at_dir cs -> wp (tool_printf "Invalid command
" [];; ret (Some (join cs))) (does (invalid_text, Some cs) c) c.
Proof using. intros Hd. apply wp_stay; [done|]. eapply wp_printf; [vm_compute; reflexivity | reflexivity]. Qed.
Lemma help_spec cs c : at_dir cs ->
  wp (tool_printf "Commands:
" [];; tool_printf "ls [path]  - list directory contents (or . if no path)
" [];; tool_printf "cat <path> - display contents of a file
" [];; tool_printf "cd <path>  - change current working directory
" [];; tool_printf "pwd        - print current working directory
" [];; tool_printf "q          - quit fstool
" [];; ret (Some (join cs))) (does (help_text, Some cs) c) c.
Proof using.
  intros Hd. do 6 (wp_step; eapply wp_printf; [vm_compute; reflexivity|]; rewrite ?shown_app). apply wp_ret. apply does_stay; [done|].
  f_equal.
Qed.
Lemma pwd_spec cs c : at_dir cs -> wp (tool_printf "%s
" [str (join cs)];; ret (Some (join cs))) (does (join cs ++ line_end, Some cs) c) c.
Proof using Hfit Hmax.
  intros Hd. apply wp_stay; [done|]. destruct (join_text cs ltac:(apply Hd)) as [Hn _]. pose proof (at_dir_short cs Hd) as Hs.
  assert (Hl : Z.of_nat (length (join cs)) < 2 ^ 31) by (clear - Hs Hmax; lia). eapply (wp_printf _ _ (join cs ++ line_end)); [rendered | reflexivity].
Qed.
Lemma prompt_spec cs c (Q : unit -> console -> Prop) : at_dir cs -> Q tt (shown (prompt_text cs) c) -> wp (prompt (join cs)) Q c.
Proof using Hfit Hmax.
  intros Hd HQ. destruct (join_text cs ltac:(apply Hd)) as [Hn _]. pose proof (at_dir_short cs Hd) as Hs.
  assert (Hl : Z.of_nat (length (join cs)) < 2 ^ 31) by (clear - Hs Hmax; lia). eapply (wp_printf _ _ (prompt_text cs)); [rendered | exact HQ].
Qed.

Lemma command_spec cs argv c : at_dir cs -> Forall word argv ->
  wp (tool_command h strerror abspath fs (join cs) argv) (does (tree_command strerror T cs argv) c) c.
Proof using Him Herr Hfit Hmax Habs.
  intros Hd Hw. unfold tool_command, tree_command. destruct argv as [|w args]; [by apply invalid_spec|].
  apply list.Forall_cons in Hw as [_ Hw]. destruct (is_action "ls" w).
  { destruct args as [|a args].
    - wp_step. apply wp_ret. rewrite take_ge by (pose proof (at_dir_short cs Hd); lia). apply ls_spec; [done | apply Hd].
    - apply list.Forall_cons in Hw as [Ha _]. apply with_absolute; [done | done |]. intros rest Hg _. by apply ls_spec. }
  destruct args as [|a [|b args]].
  - destruct (is_action "pwd" w); [by apply pwd_spec|]. destruct (is_action "q" w); [apply wp_ret; unfold does; cbn [fst snd]; by rewrite shown_nil|].
    destruct (is_action "help" w); [by apply help_spec | by apply invalid_spec].
  - apply list.Forall_cons in Hw as [Ha _].
    destruct (is_action "cat" w); [apply with_absolute; [done | done |]; intros rest Hg _; by apply cat_spec|].
    destruct (is_action "cd" w); [apply with_absolute; [done | done |]; intros rest Hg Hl; by apply cd_spec | by apply invalid_spec].
  - by apply invalid_spec.
Qed.

Lemma line_words l : no_nul l -> Forall is_byte l -> (length l <= 1023)%nat -> Forall word (take 7 (words l)).
Proof using.
  clear Habs. intros Hn Hb Hl. apply Forall_take, list.Forall_forall. intros w Hw.
  assert (H1 := words_from_ok (fun c => c <> 0) l [] (Forall_nil_2 _) Hn).
  assert (H2 := words_from_ok is_byte l [] (Forall_nil_2 _) Hb).
  rewrite list.Forall_forall in H1, H2. destruct (H1 w Hw) as (_ & ? & Hle). destruct (H2 w Hw) as (_ & ? & _).
  split; [done|]. split; [done|]. cbn in Hle. lia.
Qed.

Lemma shell_loop_spec n : forall cs c, at_dir cs -> no_nul (c_in c) -> Forall is_byte (c_in c) -> (length (c_in c) <= n)%nat ->
  wp (tool_loop h strerror abspath n fs (join cs))
    (fun _ c' => c_out c' = c_out c ++ session strerror T n cs (c_in c)) c.
Proof using Him Herr Hfit Hmax Habs.
  induction n as [|n IH]; intros cs c Hd Hn Hb Hl; cbn [tool_loop]; unfold fgets; wp_step; wp_step; wp_step.
  { destruct c as [[|x inp] out file]; [|cbn in Hl; lia]. cbn [c_in]. apply wp_ret, wp_ret. cbn. by rewrite app_nil_r. }
  destruct c as [[|x inp] out file]; cbn [c_in c_out c_file] in *; [apply wp_ret, wp_ret; cbn; by rewrite app_nil_r|].
  change (Z.to_nat (1024 - 1)) with 1023%nat. cbn [session]. pose proof (line_of_spec 1023 (x :: inp)) as Hline.
  destruct (line_of 1023 (x :: inp)) as [l r]. destruct Hline as (E & Hl1 & Hl2). rewrite E in Hn, Hb, Hl.
  apply Forall_app in Hn as [Hnl Hnr]. apply Forall_app in Hb as [Hbl Hbr].
  assert (Hlen : (length r <= n)%nat).
  { rewrite length_app in Hl. specialize (Hl2 ltac:(done) ltac:(done)). destruct l; [done|]. cbn in Hl. lia. }
  wp_step. wp_step. apply wp_ret. cbv beta iota.
  destruct (parse_words l [] 8 Hnl ltac:(done)) as (offs & E1 & E2). change (Z.to_nat (8 - 1)) with 7%nat in E2.
  wp_step. eapply wp_of_opt; [exact E1|]. cbv beta iota. wp_step. eapply wp_of_opt; [exact E2|]. wp_step.
  eapply wp_mono; [apply command_spec; [done | by apply line_words]|]. intros next c' (-> & -> & Hnext).
  destruct (tree_command strerror T cs (take 7 (words l))) as [o [cs'|]]; cbn [fst snd fmap option_fmap option_map] in *; [|by apply wp_ret].
  specialize (Hnext cs' eq_refl). wp_step. apply prompt_spec; [done|]. eapply wp_mono; [by apply IH|].
  intros [] c' ->. cbn. by rewrite <- !app_assoc.
Qed.
Lemma shell_spec c : no_nul (c_in c) -> Forall is_byte (c_in c) ->
  wp (shell h strerror abspath fs)
    (fun _ c' => c_out c' = c_out c ++ prompt_text [] ++ session strerror T (length (c_in c)) [] (c_in c)) c.
Proof using Him Herr Hfit Hmax Habs.
  intros Hn Hb. assert (Hd : at_dir []) by (split; [constructor | by exists st, es]). unfold shell. wp_step. apply (prompt_spec []); [done|].
  wp_step. wp_step. eapply wp_mono; [by apply (shell_loop_spec _ [])|]. intros [] c' ->. cbn. by rewrite <- app_assoc.
Qed.
End shell.

(** ** main *)

(** A file of the host reads as [data], in pieces of at most a buffer. *)
Definition reads (h : host) (filename data : list Z) : Prop :=
  exists chunks, h_open h filename = Some chunks /\ concat chunks = data /\ Forall (fun r => Z.of_nat (length r) <= BUFSIZE) chunks.
Lemma read_loop_spec chunks : forall data allocated c, allocated = Z.of_nat (length data) + BUFSIZE ->
  Forall (fun r => Z.of_nat (length r) <= BUFSIZE) chunks ->
  wp (read_loop chunks data allocated) (fun d c' => d = data ++ concat chunks /\ c' = c) c.
Proof.
  induction chunks as [|r chunks IH]; intros data allocated c Ha Hc; cbn [read_loop concat]; [apply wp_ret; by rewrite app_nil_r|].
  apply list.Forall_cons in Hc as [Hr Hc]. wp_step. apply wp_check; [apply Z.leb_le; lia|].
  eapply wp_mono; [apply IH; [rewrite length_app; lia | done]|]. intros d c' [-> ->]. by rewrite <- app_assoc.
Qed.
Lemma wp_read_file h filename data c Q : reads h filename data -> Q data c -> wp (read_file h filename) Q c.
Proof.
  intros (chunks & Ho & <- & Hc) HQ. unfold read_file. rewrite Ho. eapply wp_mono; [by apply read_loop_spec|]. by intros d c' [-> ->].
Qed.

(** The host after [-build]: the image can be read. *)
Lemma main_build h strerror create abspath fuel image dir c fs : build h fuel dir = Some fs -> create image = true ->
  exists c1, main h strerror create abspath fuel [bytes "-build"; image; dir] c = Ok tt c1 /\ c_file c1 = Some (image, fs).
Proof.
  intros Hb Hc. unfold main. change (is_action "-build" (bytes "-build")) with true. cbv iota. unfold build_image, build in *.
  destruct ((output_append (entry_bytes (root_entry h));; process_dir h fuel dir) (mkTool OUTPUT_INIT [])) as [[] t| | |]; [|done..]. injection Hb as <-. rewrite Hc. eexists. split; reflexivity.
Qed.

(** [fstool -dump] shows what [fstool -build] packed.  For a directory of
    the host, of any depth, [-build] writes an image; whenever that image is
    read back, [-dump] prints one line for every file and directory in it, in
    the order of the directories and every directory before what it contains,
    with its kind, its size and its path, and ends. *)
Theorem image_dump_correct h strerror create abspath dir st es fuel image c :
  represents h dir (Dir st es) -> (depth (Dir st es) <= fuel)%nat -> SIZEOF_DIRECTORY_ENTRY + tsize (Dir st es) < 2 ^ 30 ->
  create image = true ->
  exists c1 fs, main h strerror create abspath fuel [bytes "-build"; image; dir] c = Ok tt c1 /\ c_file c1 = Some (image, fs) /\
    forall h' c2, reads h' image fs -> h_path_max h' < 2 ^ 31 ->
      exists c3, main h' strerror create abspath fuel [bytes "-dump"; image] c2 = Ok tt c3 /\
        c_out c3 = c_out c2 ++ dump_text h' [] (Dir st es).
Proof.
  intros Hrep Hf Hsz Hc. destruct (build_image_of h dir st es fuel Hrep Hf Hsz) as (fs & Hfs & Him).
  destruct (main_build h strerror create abspath fuel image dir c fs Hfs Hc) as (c1 & H1 & H2). exists c1, fs. split; [done|]. split; [done|].
  intros h' c2 Hr Hm. enough (W : wp (main h' strerror create abspath fuel [bytes "-dump"; image])
    (fun _ c3 => c3 = shown (dump_text h' [] (Dir st es)) c2) c2).
  { apply wp_ok in W as ([] & c3 & E & ->). by eexists. }
  unfold main. change (is_action "-dump" (bytes "-dump")) with true. cbv iota. wp_step. apply (wp_read_file _ _ fs); [done|].
  apply (dump_dir_spec h' Hm fs (Dir st es) eq_refl fuel [] 0 SIZEOF_DIRECTORY_ENTRY); [done | constructor | apply Him | apply Him].
Qed.

(** C34. The shell of fstool shows the directory tree.  For a directory of the
    host, of any depth, [-build] writes an image; whenever that image is read
    back, [-shell] answers every line of its input as the reference on the tree
    itself does: [ls] lists the entries of a directory with their permissions,
    kinds and sizes, [cat] prints the contents of a file, [cd] and [pwd] follow
    the canonical path, whatever dots and slashes the arguments have, a path
    that leads nowhere or to the wrong kind gets the text of its error, and any
    other line is an invalid command.  The session ends at [q] or at the end of
    the input.  The host reports the sizes of its files correctly, and the
    paths to its directories leave room for a line in a path buffer. *)
Theorem image_shell_correct h strerror create abspath dir st es fuel image c :
  represents h dir (Dir st es) -> (depth (Dir st es) <= fuel)%nat -> SIZEOF_DIRECTORY_ENTRY + tsize (Dir st es) < 2 ^ 30 ->
  create image = true -> (forall e, no_nul (strerror e) /\ Z.of_nat (length (strerror e)) < 2 ^ 31) ->
  exists c1 fs, main h strerror create abspath fuel [bytes "-build"; image; dir] c = Ok tt c1 /\ c_file c1 = Some (image, fs) /\
    forall h' c2, reads h' image fs -> h_path_max h' < 2 ^ 31 -> Z.of_nat (length abspath) = h_path_max h' ->
      fits (h_path_max h') (Dir st es) = true -> no_nul (c_in c2) -> Forall is_byte (c_in c2) ->
      exists c3, main h' strerror create abspath fuel [bytes "-shell"; image] c2 = Ok tt c3 /\
        c_out c3 = c_out c2 ++ prompt_text [] ++ session strerror (Dir st es) (length (c_in c2)) [] (c_in c2).
Proof.
  intros Hrep Hf Hsz Hc Herr. destruct (build_image_of h dir st es fuel Hrep Hf Hsz) as (fs & Hfs & Him).
  destruct (main_build h strerror create abspath fuel image dir c fs Hfs Hc) as (c1 & H1 & H2). exists c1, fs. split; [done|]. split; [done|].
  intros h' c2 Hr Hm Habs Hfit Hn Hb. enough (W : wp (main h' strerror create abspath fuel [bytes "-shell"; image])
    (fun _ c3 => c_out c3 = c_out c2 ++ prompt_text [] ++ session strerror (Dir st es) (length (c_in c2)) [] (c_in c2)) c2).
  { apply wp_ok in W as ([] & c3 & E & ?). by eexists. }
  unfold main. change (is_action "-dump" (bytes "-shell")) with false. change (is_action "-shell" (bytes "-shell")) with true. cbv iota.
  wp_step. apply (wp_read_file _ _ fs); [done|]. by apply shell_spec.
Qed.

(** A host that holds the image [fs] in the file "i" and hands it out byte by
    byte. *)
Definition image_host (fs : list Z) : host :=
  mkHost (fun _ => None) (fun _ => None) (fun p => if decide (p = bytes "i") then Some ((fun b => [b]) <$> fs) else None)
    4096 (fun _ _ => 0) (fun i => i).
Lemma image_host_reads fs : reads (image_host fs) (bytes "i") fs.
Proof.
  exists ((fun b => [b]) <$> fs). split; [done|]. split; [induction fs as [|b fs IH]; [done|]; cbn in *; by rewrite IH|].
  apply Forall_fmap, list.Forall_true. done.
Qed.
Definition demo_console : console := mkConsole (bytes "cd b
ls
cat ../sh
cat y
pwd
q
") [] None.
Definition demo_strerror (e : Z) : list Z := bytes "error".
Lemma demo_strerror_ok e : no_nul (demo_strerror e) /\ Z.of_nat (length (demo_strerror e)) < 2 ^ 31.
Proof. split; [by repeat constructor | done]. Qed.

Lemma image_dump_correct_witness :
  exists c1 fs, main demo_host demo_strerror (fun _ => true) [] 5 [bytes "-build"; bytes "i"; bytes "d"] demo_console = Ok tt c1 /\
    exists c3, main (image_host fs) demo_strerror (fun _ => true) [] 5 [bytes "-dump"; bytes "i"] demo_console = Ok tt c3 /\
      c_out c3 = bytes "F 3        /sh
D 0        /b
F 1        /b/x
".
Proof.
  destruct (image_dump_correct demo_host demo_strerror (fun _ => true) [] (bytes "d") (tstat demo_tree)
    (match demo_tree with Dir _ es => es | _ => [] end) 5 (bytes "i") demo_console) as (c1 & fs & E & _ & H);
    [apply demo_represents | vm_compute; lia | vm_compute; reflexivity | reflexivity |].
  exists c1, fs. split; [exact E|]. destruct (H (image_host fs) demo_console (image_host_reads fs) eq_refl) as (c3 & E3 & H3).
  exists c3. split; [exact E3|]. rewrite H3. vm_compute. reflexivity.
Defined.
Lemma image_shell_correct_witness :
  exists c1 fs, main demo_host demo_strerror (fun _ => true) (replicate 4096 0) 5 [bytes "-build"; bytes "i"; bytes "d"] demo_console = Ok tt c1 /\
    exists c3, main (image_host fs) demo_strerror (fun _ => true) (replicate 4096 0) 5 [bytes "-shell"; bytes "i"] demo_console = Ok tt c3 /\
      c_out c3 = bytes "/ > /b > -rw-r--r-- FILE 1        x
/b > " ++ [1; 2; 3] ++ bytes "/b > error
/b > /b
/b > ".
Proof.
  destruct (image_shell_correct demo_host demo_strerror (fun _ => true) (replicate 4096 0) (bytes "d") (tstat demo_tree)
    (match demo_tree with Dir _ es => es | _ => [] end) 5 (bytes "i") demo_console) as (c1 & fs & E & _ & H);
    [apply demo_represents | vm_compute; lia | vm_compute; reflexivity | reflexivity | apply demo_strerror_ok |].
  exists c1, fs. split; [exact E|]. destruct (H (image_host fs) demo_console (image_host_reads fs) eq_refl) as (c3 & E3 & H3).
  - vm_compute. reflexivity.
  - vm_compute. reflexivity.
  - by repeat constructor.
  - by repeat constructor.
  - exists c3. split; [exact E3|]. rewrite H3. vm_compute. reflexivity.
Defined.
