(* ===== verification/TestBuddy.v ===== *)
(** * The test program of the allocator (source/testbuddy.c)

    A program of the host, linked with the userland build of buddy.c: it makes
    random requests and releases and prints a picture of the heap after every
    one.  rand and the address malloc gave for the heap are parameters; setbuf,
    srand and the delay (DELAYMS is 0) have no effect the model shows. *)

From Stdlib Require Import Ascii.
From S2P Require Import Prelude Constants Buddy Libc PrintProofs Filesystem Imgtool.

(** The variables of main: the area, the array [allocated], the number of
    random numbers drawn, and what has been printed. *)
Record tester := mkTester { tb_ma : memarea; tb_allocated : list Z; tb_drawn : nat; tb_console : console }.

Definition on_ma {A} (m : M memarea A) : M tester A :=
  zoom tb_ma (fun ma s => mkTester ma (tb_allocated s) (tb_drawn s) (tb_console s)) m.
Definition test_printf (format : string) (ap : list arg) : M tester unit :=
  zoom tb_console (fun c s => mkTester (tb_ma s) (tb_allocated s) (tb_drawn s) c) (tool_printf format ap).

(** ** Walking the free lists

    The two loops of print_free_mem and of print_mem_line: [body] is run with
    every free block, [acc] are the local variables it changes. *)
Section walk.
  Context {A : Type} (body : A -> Z -> Z -> M tester A).

(** [while (EMPTY != block)]; a list has at most one entry per element of
    [blocks]. *)
Fixpoint walk_list (fuel : nat) (m block : Z) (acc : A) : M tester A :=
  match fuel with
  | O => spin
  | S fuel' =>
      if negb (EMPTY =? block) then
        acc' <- body acc m block;
        next <- on_ma (load_word block);
        walk_list fuel' m next acc'
      else ret acc
  end.
(** [for (m = ma->lower; m <= ma->upper; m++)]: [n] rounds are left. *)
Fixpoint walk_lists (n : nat) (m : Z) (acc : A) : M tester A :=
  match n with
  | O => ret acc
  | S n' =>
      block <- on_ma (get_freelist m);
      s <- get;
      acc' <- walk_list (S (length (blocks (tb_ma s)))) m block acc;
      walk_lists n' (m + 1) acc'
  end.
Definition walk_free (acc : A) : M tester A :=
  s <- get;
  let ma := tb_ma s in walk_lists (Z.to_nat (upper ma + 1 - lower ma)) (lower ma) acc.
End walk.

Definition free_line (_ : unit) (m block : Z) : M tester unit :=
  test_printf "free %u: 0x%x-0x%x
" [AInt m; AInt block; AInt (u32 (block + shl1 m))].
Definition print_free_mem : M tester unit := walk_free free_line tt.

(** [memset(&line[start],c,n)] on an array of the stack. *)
Definition fill (line : list Z) (start n c : Z) : M tester (list Z) :=
  check_ ((0 <=? start) && (0 <=? n) && (start + n <=? Z.of_nat (length line))) "line[]";;
  ret (take (Z.to_nat start) line ++ replicate (Z.to_nat n) c ++ drop (Z.to_nat (start + n)) line).
(** The doubles of the source are exact: the offsets have at most 25 bits, the
    divisor and the length are powers of two. *)
Definition draw_block (length : Z) (line : list Z) (m block : Z) : M tester (list Z) :=
  s <- get;
  let size := shl1 (upper (tb_ma s)) in
  let end_ := u32 (block + shl1 m) in
  assert_ ((0 <=? block) && (end_ <=? size)) "(dstart >= 0.0) && (dend <= 1.0)";;
  let istart := block * length / size in
  let iend := end_ * length / size in
  fill line istart (iend - istart) (chr ".").
Definition print_mem_line (length : Z) : M tester unit :=
  line <- walk_free (draw_block length) (replicate (Z.to_nat length) (chr "*") ++ [0]);
  test_printf "%s
" [AStr line].

(** ** main *)

Section main.
  Context (random : nat -> Z).

Definition rand : M tester Z :=
  s <- get; put (mkTester (tb_ma s) (tb_allocated s) (S (tb_drawn s)) (tb_console s));; ret (random (tb_drawn s)).

Definition SIZEPOW2 : Z := 25.
Definition ITERATIONS : Z := 40000.
Definition MALLOC_PROBABILITY : Z := 50.

Definition get_allocated (i : Z) : M tester Z := s <- get; of_opt (zlookup (tb_allocated s) i) "allocated[]".
Definition set_allocated (i p : Z) : M tester unit :=
  s <- get; _ <- of_opt (zlookup (tb_allocated s) i) "allocated[]";
  put (mkTester (tb_ma s) (zinsert i p (tb_allocated s)) (tb_drawn s) (tb_console s)).
(** [memmove(&allocated[index],&allocated[index+1],(got-index-1)*sizeof(void* ))]. *)
Definition close_gap (index got : Z) : M tester unit :=
  s <- get;
  let a := tb_allocated s in
  check_ ((0 <=? index) && (index <? got) && (got <=? Z.of_nat (length a))) "allocated[]";;
  let moved := take (Z.to_nat (got - index - 1)) (drop (Z.to_nat (index + 1)) a) in
  put (mkTester (tb_ma s) (take (Z.to_nat index) a ++ moved ++ drop (Z.to_nat (got - 1)) a) (tb_drawn s) (tb_console s)).

(** One round; [got] afterwards. *)
Definition test_round (got : Z) : M tester Z :=
  r <- rand;
  got' <- (if (Z.rem r 100 <? MALLOC_PROBABILITY) || (0 =? got) then
             r <- rand;
             let nbytes := Z.rem r (2 * 1024 * 1024) in
             p <- on_ma (buddy_alloc true nbytes);
             set_allocated got p;;
             ret (if truthy p then got + 1 else got)
           else
             r <- rand;
             let index := Z.rem r got in
             p <- get_allocated index;
             on_ma (buddy_free p);;
             close_gap index got;;
             ret (got - 1));
  print_mem_line 128;;
  ret got'.
Fixpoint test_rounds (n : nat) (got : Z) : M tester Z :=
  match n with
  | O => ret got
  | S n' => got' <- test_round got; test_rounds n' got'
  end.

(** The heap is at [membase] and cleared; [stack] is what the array on the stack
    holds. *)
Definition test_main (membase : Z) (stack : list Z) : outcome tester Z :=
  test_rounds (Z.to_nat ITERATIONS) 0 (mkTester (buddy_init SIZEPOW2 membase ∅) stack 0 (mkConsole [] [] None)).
End main.
