(* ===== verification/TestBuddyProofs.v ===== *)
(** * The test program of the allocator: it passes

    Whatever numbers rand yields, the test program ends without a failed
    assertion, and every line it prints is a picture of the free blocks. *)

From Stdlib Require Import Ascii.
From S2P Require Import Prelude Constants Buddy BuddyLayout BuddyInv BuddyProofs BuddyTheorems Libc LibcProofs PrintProofs Filesystem Imgtool ImgtoolProofs TestBuddy.

(** ** Walking the free lists *)

(** The free blocks, each of them once: size exponents and offsets. *)
Definition free_list (ma : memarea) (bs : list (Z * Z)) : Prop :=
  NoDup bs /\ forall m o, (m, o) ∈ bs <-> head ma o m false.

Lemma wp_on_ma {A} (m : M memarea A) (Q : A -> tester -> Prop) s :
  wp m (fun a ma => Q a (mkTester ma (tb_allocated s) (tb_drawn s) (tb_console s))) (tb_ma s) -> wp (on_ma m) Q s.
Proof. intros H. unfold on_ma. by wp_step. Qed.
Lemma tester_eta s : mkTester (tb_ma s) (tb_allocated s) (tb_drawn s) (tb_console s) = s.
Proof. by destruct s. Qed.

Section walk.
  Context {A : Type} (body : A -> Z -> Z -> M tester A) (ma : memarea) (live : gmap Z Z) (I : buddy_inv live ma).
  (** [P bs a s]: the blocks [bs] have been visited. *)
  Context (P : list (Z * Z) -> A -> tester -> Prop) (Hma : forall bs a s, P bs a s -> tb_ma s = ma)
    (Hbody : forall bs a s m o, P bs a s -> head ma o m false -> wp (body a m o) (P (bs ++ [(m, o)])) s).

Lemma walk_list_spec L : forall fuel m p bs a s, P bs a s -> chain (heap ma) p L -> (forall o, o ∈ L -> head ma o m false) ->
  (length L < fuel)%nat -> wp (walk_list body fuel m p a) (P (bs ++ (pair m <$> L))) s.
Proof using I Hma Hbody.
  induction L as [|x L IH]; intros fuel m p bs a s HP Hc HL Hf; (destruct fuel as [|fuel]; [cbn in Hf; lia|]); cbn [walk_list].
  - rewrite Hc, Z.eqb_refl. apply wp_ret. by rewrite app_nil_r.
  - destruct Hc as (-> & Hx & Hc). destruct (Z.eqb_spec EMPTY x); [congruence|]. cbn [negb].
    wp_step. eapply wp_mono; [apply Hbody; [exact HP | apply HL; by left]|]. intros a' s' HP'. wp_step. apply wp_on_ma.
    rewrite (Hma _ _ _ HP'). apply wp_load_word; [eapply head_in_heap; [apply I | apply HL; by left]|].
    rewrite <- (Hma _ _ _ HP'), tester_eta, (Hma _ _ _ HP').
    eapply wp_mono; [apply (IH fuel m _ (bs ++ [(m, x)])); [exact HP' | exact Hc | intros o Ho; apply HL; by right | cbn in Hf; lia]|].
    intros a2 s2. by rewrite <- app_assoc.
Qed.

Lemma walk_lists_spec n : forall m bs a s, 0 <= m -> m + Z.of_nat n <= 32 -> P bs a s ->
  wp (walk_lists body n m a) (fun a' s' => exists bs', P (bs ++ bs') a' s' /\ NoDup bs' /\
    forall m' o, (m', o) ∈ bs' <-> m <= m' < m + Z.of_nat n /\ head ma o m' false) s.
Proof using I Hma Hbody.
  induction n as [|n IH]; intros m bs a s H0 Hm HP; cbn [walk_lists].
  { apply wp_ret. exists []. rewrite app_nil_r. split; [done|]. split; [constructor|]. intros m' o. rewrite elem_of_nil. lia. }
  destruct (wf_lists (proj1 I) m ltac:(lia)) as (p & L & Hp & Hc & Hnd & HL).
  assert (HL' : forall o, o ∈ L -> head ma o m false) by (intros o Ho; by apply HL).
  wp_step. apply wp_on_ma. rewrite (Hma _ _ _ HP). eapply wp_get_freelist; [exact Hp|].
  rewrite <- (Hma _ _ _ HP), tester_eta. wp_step. wp_step. rewrite (Hma _ _ _ HP). wp_step.
  pose proof (list_short _ _ _ _ _ _ _ (proj1 I) Hnd HL') as Hlen.
  eapply wp_mono; [exact (walk_list_spec L (S (length (blocks ma))) m p bs a s HP Hc HL' ltac:(lia))|].
  intros a' s' HP'. eapply wp_mono; [apply (IH (m + 1)); [lia | lia | exact HP']|].
  intros a2 s2 (bs' & HP2 & Hnd2 & Hbs). exists ((pair m <$> L) ++ bs'). rewrite app_assoc. split; [done|]. split.
  - apply list.NoDup_app. split; [by apply (NoDup_fmap_2 (pair m))|]. split; [|done].
    intros [m' o] (x & [= -> ->] & _)%list_elem_of_fmap Hin. apply Hbs in Hin. lia.
  - intros m' o. rewrite elem_of_app, Hbs, list_elem_of_fmap. split.
    + intros [(x & [= -> ->] & Hx)|[Hr Hh]]; [split; [lia | by apply HL'] | split; [lia | done]].
    + intros [Hr Hh]. destruct (decide (m' = m)) as [-> |]; [left; exists o; split; [done|]; apply HL; split; [done | apply not_elem_of_nil] | right; split; [lia | done]].
Qed.

Lemma walk_free_spec a s : P [] a s -> wp (walk_free body a) (fun a' s' => exists bs, free_list ma bs /\ P bs a' s') s.
Proof using I Hma Hbody.
  intros HP. unfold walk_free. wp_step. wp_step. rewrite (Hma _ _ _ HP). destruct (geo_bounds _ (wf_geo (proj1 I))) as [B1 B2].
  eapply wp_mono; [apply (walk_lists_spec _ (lower ma) [] a s); [lia | lia | exact HP]|].
  intros a' s' (bs & HP' & Hnd & Hbs). exists bs. split; [|exact HP']. split; [done|]. intros m o. rewrite Hbs. split; [by intros [_ ?]|].
  intros Hh. split; [|done]. destruct (head_range _ _ _ _ _ _ _ _ (proj1 I) Hh) as (? & _). lia.
Qed.
End walk.

(** ** print_free_mem *)

(** The tester with [s] printed. *)
Definition said (t : list Z) (s : tester) : tester := mkTester (tb_ma s) (tb_allocated s) (tb_drawn s) (shown t (tb_console s)).
Lemma wp_test_printf format ap t s (Q : unit -> tester -> Prop) : render (S (length (bytes format))) (bytes format ++ [0]) ap = Some t ->
  Q tt (said t s) -> wp (test_printf format ap) Q s.
Proof. intros Hr HQ. unfold test_printf. wp_step. by eapply wp_printf. Qed.

Definition free_text (b : Z * Z) : list Z :=
  bytes "free " ++ digits 33 10 b.1 ++ bytes ": 0x" ++ digits 33 16 b.2 ++ bytes "-0x" ++ digits 33 16 (b.2 + 2 ^ b.1) ++ line_end.
Lemma free_line_render m o e :
  render (S (length (bytes "free %u: 0x%x-0x%x
"))) (bytes "free %u: 0x%x-0x%x
" ++ [0]) [AInt m; AInt o; AInt e] =
  Some (bytes "free " ++ digits 33 10 (u32 m) ++ bytes ": 0x" ++ digits 33 16 (u32 o) ++ bytes "-0x" ++ digits 33 16 (u32 e) ++ line_end).
Proof. rendered. Qed.
Lemma print_free_mem_spec live s : buddy_inv live (tb_ma s) ->
  wp print_free_mem (fun _ s' => exists bs, free_list (tb_ma s) bs /\ s' = said (bs ≫= free_text) s) s.
Proof.
  intros I. unfold print_free_mem. eapply wp_mono.
  - apply (walk_free_spec free_line (tb_ma s) live I (fun bs _ s' => s' = said (bs ≫= free_text) s)).
    + by intros bs a s' ->.
    + intros bs [] s' m o -> Hh. destruct (head_range _ _ _ _ _ _ _ _ (proj1 I) Hh) as (_ & H0 & Hu & _ & _ & Hm).
      destruct (upper_lt_EMPTY _ (wf_geo (proj1 I))) as [_ He]. unfold EMPTY in He. unfold free_line. rewrite shl1_eq by lia.
      assert (0 < 2 ^ m) by (apply pow2_pos; lia). rewrite (u32_small (o + 2 ^ m)) by (unfold is_u32; lia).
      eapply wp_test_printf; [apply free_line_render|]. rewrite !u32_small by (unfold is_u32; lia).
      unfold said. cbn. by rewrite shown_app, bind_app, bind_singleton.
    + unfold said. cbn. by rewrite shown_nil, tester_eta.
  - intros [] s' H. exact H.
Qed.

(** ** print_mem_line *)






(** ** main *)


Section test.
  Context (random : nat -> Z) (Hrandom : forall i, 0 <= random i) (membase : Z).







End test.

